(** * rocFFT plan-tree compiler: real-transform decomposition and leaf checks

    A shallow embedding of
    - the real-transform decomposition rules ([set_complex_length],
      [SBCC_dim_available], [RealTransCmplxNode], [RealTransEvenNode],
      [Real2DEvenNode]) and
    - the node services of [library/src/tree_node.cpp]
      ([LeafNode::KernelCheck], [LeafNode::SanityCheck],
      [LeafNode::SetupGridParamAndFuncPtr],
      [TreeNode::SetTransposeOutputLength],
      [TreeNode::CollapseContiguousDims]),
    - the layout passes ([AssignParams_internal]) of the same nodes and
      of [Real3DEvenNode], and the launch set-up of [PrePostKernelNode]
      and [RealTransDataCopyNode],
    - the radix tests [PowMax] and [IsPow] of
      [library/src/include/plan.h], and
    - the array-type check and the default strides of the rider client,
    followed by the properties proved about them.

    Conventions.
    - [size_t] values are integers in [0, 2^64); arithmetic on them is
      written with its wrap-around ([size_t_wrap]).
    - A C++ call either returns, throws [std::runtime_error], trips an
      [assert], or has no defined behaviour (indexing a vector out of
      range, [front()] of an empty vector, division by zero): type
      [outcome].
    - Functions that may write to [std::cerr] thread the text written so
      far: monad [M].
    - Classes, members and free functions that the translated files only
      call (node factory, kernel catalog, complex-plan builder, virtual
      hooks) are passed in explicitly as records of functions. *)

From Stdlib Require Import ZArith List String Bool Lia DecimalString Sorted.
From Stdlib Require Znumtheory Zpow_facts.
From stdpp Require Import base tactics option list.

Import ListNotations.
Local Open Scope Z_scope.

(* ------------------------------------------------------------------ *)
(** ** Machine integers and call outcomes *)

Definition SIZE_T_MODULUS : Z := 2 ^ 64.

Definition size_t_wrap (z : Z) : Z := z mod SIZE_T_MODULUS.

Definition is_size_t (z : Z) : Prop := 0 <= z < SIZE_T_MODULUS.

Inductive outcome (A : Type) : Type :=
| Returns (a : A)
| Throws (what : string)
| AssertFails
| Undefined.

Arguments Returns {A} a.
Arguments Throws {A} what.
Arguments AssertFails {A}.
Arguments Undefined {A}.

Definition obind {A B : Type} (c : outcome A) (k : A -> outcome B) : outcome B :=
  match c with
  | Returns a => k a
  | Throws w => Throws w
  | AssertFails => AssertFails
  | Undefined => Undefined
  end.

Definition of_option {A : Type} (o : option A) : outcome A :=
  match o with
  | Some a => Returns a
  | None => Undefined
  end.

(** [v[i]] of a [std::vector]: undefined out of range. *)
Definition at_index {A : Type} (v : list A) (i : nat) : outcome A :=
  of_option (v !! i).

(** [std::swap(v[i], v[j])]. *)
Definition swap_at {A : Type} (v : list A) (i j : nat) : outcome (list A) :=
  obind (at_index v i) (fun a =>
  obind (at_index v j) (fun b =>
  Returns (<[j := a]> (<[i := b]> v)))).

(** The state threaded by [M] is what has been written to [std::cerr]. *)
Definition M (A : Type) : Type := list string -> outcome (A * list string).

Definition ret {A : Type} (a : A) : M A := fun err => Returns (a, err).

Definition bind {A B : Type} (c : M A) (k : A -> M B) : M B :=
  fun err =>
    match c err with
    | Returns (a, err') => k a err'
    | Throws w => Throws w
    | AssertFails => AssertFails
    | Undefined => Undefined
    end.

Definition lift {A : Type} (c : outcome A) : M A :=
  fun err => obind c (fun a => Returns (a, err)).

Definition cerr_write (s : string) : M unit :=
  fun err => Returns (tt, err ++ [s]).

Definition assert (b : bool) : M unit :=
  fun err => if b then Returns (tt, err) else AssertFails.

Declare Scope cxx_scope.
Delimit Scope cxx_scope with cxx.
Notation "x <- c ;; k" := (bind c (fun x => k))
  (at level 100, c at next level, right associativity) : cxx_scope.
Notation "c ;;; k" := (bind c (fun _ => k))
  (at level 100, right associativity) : cxx_scope.

(* ------------------------------------------------------------------ *)
(** ** Enumerations *)

Inductive ComputeScheme : Type :=
| CS_NONE
| CS_KERNEL_STOCKHAM
| CS_KERNEL_STOCKHAM_BLOCK_CC
| CS_KERNEL_STOCKHAM_BLOCK_CR
| CS_KERNEL_TRANSPOSE
| CS_KERNEL_TRANSPOSE_XY_Z
| CS_KERNEL_TRANSPOSE_Z_XY
| CS_KERNEL_STOCKHAM_TRANSPOSE_XY_Z
| CS_KERNEL_STOCKHAM_TRANSPOSE_Z_XY
| CS_KERNEL_2D_SINGLE
| CS_BLUESTEIN
| CS_REAL_TRANSFORM_USING_CMPLX
| CS_KERNEL_COPY_R_TO_CMPLX
| CS_KERNEL_COPY_CMPLX_TO_HERM
| CS_KERNEL_COPY_HERM_TO_CMPLX
| CS_KERNEL_COPY_CMPLX_TO_R
| CS_REAL_TRANSFORM_EVEN
| CS_KERNEL_R_TO_CMPLX
| CS_KERNEL_R_TO_CMPLX_TRANSPOSE
| CS_KERNEL_CMPLX_TO_R
| CS_KERNEL_TRANSPOSE_CMPLX_TO_R
| CS_REAL_2D_EVEN
| CS_REAL_3D_EVEN
| CS_KERNEL_APPLY_CALLBACK.

Inductive rocfft_precision : Type :=
| rocfft_precision_single
| rocfft_precision_double.

Inductive rocfft_array_type : Type :=
| rocfft_array_type_complex_interleaved
| rocfft_array_type_complex_planar
| rocfft_array_type_real
| rocfft_array_type_hermitian_interleaved
| rocfft_array_type_hermitian_planar
| rocfft_array_type_unset.

Inductive EmbeddedType : Type :=
| EmbeddedType_NONE
| Real2C_POST
| C2Real_PRE.

Inductive DirectRegType : Type :=
| FORCE_OFF_OR_NOT_SUPPORT
| TRY_ENABLE_IF_SUPPORT.

Inductive SBRC_TRANSPOSE_TYPE : Type :=
| SBRC_NONE
| SBRC_DIAGONAL
| SBRC_TILE_ALIGNED
| SBRC_TILE_UNALIGNED.

(** The [solution] tag of [Real2DEvenNode]. *)
Inductive Real2DSolution : Type :=
| INPLACE_SBCC
| TR_PAIR.

Inductive FuseType : Type :=
| FT_TRANS_WITH_STOCKHAM
| FT_STOCKHAM_WITH_TRANS
| FT_R2C_TRANSPOSE
| FT_TRANSPOSE_C2R
| FT_STOCKHAM_R2C_TRANSPOSE.

#[global] Instance ComputeScheme_eq_dec : EqDecision ComputeScheme.
Proof. solve_decision. Defined.
#[global] Instance rocfft_precision_eq_dec : EqDecision rocfft_precision.
Proof. solve_decision. Defined.
#[global] Instance rocfft_array_type_eq_dec : EqDecision rocfft_array_type.
Proof. solve_decision. Defined.
#[global] Instance EmbeddedType_eq_dec : EqDecision EmbeddedType.
Proof. solve_decision. Defined.
#[global] Instance DirectRegType_eq_dec : EqDecision DirectRegType.
Proof. solve_decision. Defined.
#[global] Instance SBRC_TRANSPOSE_TYPE_eq_dec : EqDecision SBRC_TRANSPOSE_TYPE.
Proof. solve_decision. Defined.

(* ------------------------------------------------------------------ *)
(** ** Device properties and kernel keys *)

Record hipDeviceProp_t : Type := {
  sharedMemPerBlock : Z;
  gcnArchName : string
}.

(** [FMKey]: the key of a kernel in the function pool, with the members
    that [LeafNode::KernelCheck] reads. *)
Module FMKey.
Record t : Type := mk {
  lengths : Z * Z;
  precision : rocfft_precision;
  scheme : ComputeScheme;
  sbrcTrans : SBRC_TRANSPOSE_TYPE;
  kernel_config_ebType : EmbeddedType
}.

#[global] Instance eq_dec : EqDecision t.
Proof. solve_decision. Defined.
End FMKey.

(** What [function_pool::get_kernel] hands back, with the members read. *)
Record FFTKernel : Type := {
  transforms_per_block : Z;
  half_lds : bool;
  direct_to_from_reg : bool;
  factors : list Z
}.

(** The kernel catalog ([function_pool.h] is outside the translated
    files): key construction and the three queries used. [fpkey_normal]
    is the two-argument call [fpkey(length, precision)]. *)
Record function_pool : Type := {
  fpkey : Z -> rocfft_precision -> ComputeScheme -> FMKey.t;
  fpkey_normal : Z -> rocfft_precision -> FMKey.t;
  has_function : FMKey.t -> bool;
  get_kernel : FMKey.t -> FFTKernel;
  has_SBCC_kernel : Z -> rocfft_precision -> bool
}.

(* ------------------------------------------------------------------ *)
(** ** Nodes

    One record for every node class: the members of [TreeNode] that the
    translated functions read or write, together with
    [try_fuse_pre_post_processing] of [RealTransEvenNode] and [solution]
    of [Real2DEvenNode]. A node owns its children; a fuse shim refers to
    sibling nodes, kept here as the nodes it was created from. The
    [parent] back-pointer is passed as an argument where it is used. *)

#[warnings="-register-all"]
Inductive TreeNode : Type := Build_TreeNode {
  scheme : ComputeScheme;
  dimension : Z;
  length : list Z;
  outputLength : list Z;
  inStride : list Z;
  outStride : list Z;
  iDist : Z;
  oDist : Z;
  batch : Z;
  direction : Z;
  precision : rocfft_precision;
  inArrayType : rocfft_array_type;
  allowedOutArrayTypes : list rocfft_array_type;
  ebtype : EmbeddedType;
  allowOutofplace : bool;
  try_fuse_pre_post_processing : bool;
  solution : Real2DSolution;
  comments : list string;
  deviceProp : hipDeviceProp_t;
  fuseShims : list (FuseType * list TreeNode);
  childNodes : list TreeNode
}.

(** Member assignment [node.f = v]. *)
Definition with_scheme (v : ComputeScheme) (n : TreeNode) : TreeNode :=
  {| scheme := v;
     dimension := dimension n;
     length := length n;
     outputLength := outputLength n;
     inStride := inStride n;
     outStride := outStride n;
     iDist := iDist n;
     oDist := oDist n;
     batch := batch n;
     direction := direction n;
     precision := precision n;
     inArrayType := inArrayType n;
     allowedOutArrayTypes := allowedOutArrayTypes n;
     ebtype := ebtype n;
     allowOutofplace := allowOutofplace n;
     try_fuse_pre_post_processing := try_fuse_pre_post_processing n;
     solution := solution n;
     comments := comments n;
     deviceProp := deviceProp n;
     fuseShims := fuseShims n;
     childNodes := childNodes n |}.

Definition with_dimension (v : Z) (n : TreeNode) : TreeNode :=
  {| scheme := scheme n;
     dimension := v;
     length := length n;
     outputLength := outputLength n;
     inStride := inStride n;
     outStride := outStride n;
     iDist := iDist n;
     oDist := oDist n;
     batch := batch n;
     direction := direction n;
     precision := precision n;
     inArrayType := inArrayType n;
     allowedOutArrayTypes := allowedOutArrayTypes n;
     ebtype := ebtype n;
     allowOutofplace := allowOutofplace n;
     try_fuse_pre_post_processing := try_fuse_pre_post_processing n;
     solution := solution n;
     comments := comments n;
     deviceProp := deviceProp n;
     fuseShims := fuseShims n;
     childNodes := childNodes n |}.

Definition with_length (v : list Z) (n : TreeNode) : TreeNode :=
  {| scheme := scheme n;
     dimension := dimension n;
     length := v;
     outputLength := outputLength n;
     inStride := inStride n;
     outStride := outStride n;
     iDist := iDist n;
     oDist := oDist n;
     batch := batch n;
     direction := direction n;
     precision := precision n;
     inArrayType := inArrayType n;
     allowedOutArrayTypes := allowedOutArrayTypes n;
     ebtype := ebtype n;
     allowOutofplace := allowOutofplace n;
     try_fuse_pre_post_processing := try_fuse_pre_post_processing n;
     solution := solution n;
     comments := comments n;
     deviceProp := deviceProp n;
     fuseShims := fuseShims n;
     childNodes := childNodes n |}.

Definition with_outputLength (v : list Z) (n : TreeNode) : TreeNode :=
  {| scheme := scheme n;
     dimension := dimension n;
     length := length n;
     outputLength := v;
     inStride := inStride n;
     outStride := outStride n;
     iDist := iDist n;
     oDist := oDist n;
     batch := batch n;
     direction := direction n;
     precision := precision n;
     inArrayType := inArrayType n;
     allowedOutArrayTypes := allowedOutArrayTypes n;
     ebtype := ebtype n;
     allowOutofplace := allowOutofplace n;
     try_fuse_pre_post_processing := try_fuse_pre_post_processing n;
     solution := solution n;
     comments := comments n;
     deviceProp := deviceProp n;
     fuseShims := fuseShims n;
     childNodes := childNodes n |}.

Definition with_inStride (v : list Z) (n : TreeNode) : TreeNode :=
  {| scheme := scheme n;
     dimension := dimension n;
     length := length n;
     outputLength := outputLength n;
     inStride := v;
     outStride := outStride n;
     iDist := iDist n;
     oDist := oDist n;
     batch := batch n;
     direction := direction n;
     precision := precision n;
     inArrayType := inArrayType n;
     allowedOutArrayTypes := allowedOutArrayTypes n;
     ebtype := ebtype n;
     allowOutofplace := allowOutofplace n;
     try_fuse_pre_post_processing := try_fuse_pre_post_processing n;
     solution := solution n;
     comments := comments n;
     deviceProp := deviceProp n;
     fuseShims := fuseShims n;
     childNodes := childNodes n |}.

Definition with_outStride (v : list Z) (n : TreeNode) : TreeNode :=
  {| scheme := scheme n;
     dimension := dimension n;
     length := length n;
     outputLength := outputLength n;
     inStride := inStride n;
     outStride := v;
     iDist := iDist n;
     oDist := oDist n;
     batch := batch n;
     direction := direction n;
     precision := precision n;
     inArrayType := inArrayType n;
     allowedOutArrayTypes := allowedOutArrayTypes n;
     ebtype := ebtype n;
     allowOutofplace := allowOutofplace n;
     try_fuse_pre_post_processing := try_fuse_pre_post_processing n;
     solution := solution n;
     comments := comments n;
     deviceProp := deviceProp n;
     fuseShims := fuseShims n;
     childNodes := childNodes n |}.

Definition with_iDist (v : Z) (n : TreeNode) : TreeNode :=
  {| scheme := scheme n;
     dimension := dimension n;
     length := length n;
     outputLength := outputLength n;
     inStride := inStride n;
     outStride := outStride n;
     iDist := v;
     oDist := oDist n;
     batch := batch n;
     direction := direction n;
     precision := precision n;
     inArrayType := inArrayType n;
     allowedOutArrayTypes := allowedOutArrayTypes n;
     ebtype := ebtype n;
     allowOutofplace := allowOutofplace n;
     try_fuse_pre_post_processing := try_fuse_pre_post_processing n;
     solution := solution n;
     comments := comments n;
     deviceProp := deviceProp n;
     fuseShims := fuseShims n;
     childNodes := childNodes n |}.

Definition with_oDist (v : Z) (n : TreeNode) : TreeNode :=
  {| scheme := scheme n;
     dimension := dimension n;
     length := length n;
     outputLength := outputLength n;
     inStride := inStride n;
     outStride := outStride n;
     iDist := iDist n;
     oDist := v;
     batch := batch n;
     direction := direction n;
     precision := precision n;
     inArrayType := inArrayType n;
     allowedOutArrayTypes := allowedOutArrayTypes n;
     ebtype := ebtype n;
     allowOutofplace := allowOutofplace n;
     try_fuse_pre_post_processing := try_fuse_pre_post_processing n;
     solution := solution n;
     comments := comments n;
     deviceProp := deviceProp n;
     fuseShims := fuseShims n;
     childNodes := childNodes n |}.

Definition with_batch (v : Z) (n : TreeNode) : TreeNode :=
  {| scheme := scheme n;
     dimension := dimension n;
     length := length n;
     outputLength := outputLength n;
     inStride := inStride n;
     outStride := outStride n;
     iDist := iDist n;
     oDist := oDist n;
     batch := v;
     direction := direction n;
     precision := precision n;
     inArrayType := inArrayType n;
     allowedOutArrayTypes := allowedOutArrayTypes n;
     ebtype := ebtype n;
     allowOutofplace := allowOutofplace n;
     try_fuse_pre_post_processing := try_fuse_pre_post_processing n;
     solution := solution n;
     comments := comments n;
     deviceProp := deviceProp n;
     fuseShims := fuseShims n;
     childNodes := childNodes n |}.

Definition with_allowedOutArrayTypes (v : list rocfft_array_type) (n : TreeNode) : TreeNode :=
  {| scheme := scheme n;
     dimension := dimension n;
     length := length n;
     outputLength := outputLength n;
     inStride := inStride n;
     outStride := outStride n;
     iDist := iDist n;
     oDist := oDist n;
     batch := batch n;
     direction := direction n;
     precision := precision n;
     inArrayType := inArrayType n;
     allowedOutArrayTypes := v;
     ebtype := ebtype n;
     allowOutofplace := allowOutofplace n;
     try_fuse_pre_post_processing := try_fuse_pre_post_processing n;
     solution := solution n;
     comments := comments n;
     deviceProp := deviceProp n;
     fuseShims := fuseShims n;
     childNodes := childNodes n |}.

Definition with_ebtype (v : EmbeddedType) (n : TreeNode) : TreeNode :=
  {| scheme := scheme n;
     dimension := dimension n;
     length := length n;
     outputLength := outputLength n;
     inStride := inStride n;
     outStride := outStride n;
     iDist := iDist n;
     oDist := oDist n;
     batch := batch n;
     direction := direction n;
     precision := precision n;
     inArrayType := inArrayType n;
     allowedOutArrayTypes := allowedOutArrayTypes n;
     ebtype := v;
     allowOutofplace := allowOutofplace n;
     try_fuse_pre_post_processing := try_fuse_pre_post_processing n;
     solution := solution n;
     comments := comments n;
     deviceProp := deviceProp n;
     fuseShims := fuseShims n;
     childNodes := childNodes n |}.

Definition with_allowOutofplace (v : bool) (n : TreeNode) : TreeNode :=
  {| scheme := scheme n;
     dimension := dimension n;
     length := length n;
     outputLength := outputLength n;
     inStride := inStride n;
     outStride := outStride n;
     iDist := iDist n;
     oDist := oDist n;
     batch := batch n;
     direction := direction n;
     precision := precision n;
     inArrayType := inArrayType n;
     allowedOutArrayTypes := allowedOutArrayTypes n;
     ebtype := ebtype n;
     allowOutofplace := v;
     try_fuse_pre_post_processing := try_fuse_pre_post_processing n;
     solution := solution n;
     comments := comments n;
     deviceProp := deviceProp n;
     fuseShims := fuseShims n;
     childNodes := childNodes n |}.

Definition with_try_fuse_pre_post_processing (v : bool) (n : TreeNode) : TreeNode :=
  {| scheme := scheme n;
     dimension := dimension n;
     length := length n;
     outputLength := outputLength n;
     inStride := inStride n;
     outStride := outStride n;
     iDist := iDist n;
     oDist := oDist n;
     batch := batch n;
     direction := direction n;
     precision := precision n;
     inArrayType := inArrayType n;
     allowedOutArrayTypes := allowedOutArrayTypes n;
     ebtype := ebtype n;
     allowOutofplace := allowOutofplace n;
     try_fuse_pre_post_processing := v;
     solution := solution n;
     comments := comments n;
     deviceProp := deviceProp n;
     fuseShims := fuseShims n;
     childNodes := childNodes n |}.

Definition with_solution (v : Real2DSolution) (n : TreeNode) : TreeNode :=
  {| scheme := scheme n;
     dimension := dimension n;
     length := length n;
     outputLength := outputLength n;
     inStride := inStride n;
     outStride := outStride n;
     iDist := iDist n;
     oDist := oDist n;
     batch := batch n;
     direction := direction n;
     precision := precision n;
     inArrayType := inArrayType n;
     allowedOutArrayTypes := allowedOutArrayTypes n;
     ebtype := ebtype n;
     allowOutofplace := allowOutofplace n;
     try_fuse_pre_post_processing := try_fuse_pre_post_processing n;
     solution := v;
     comments := comments n;
     deviceProp := deviceProp n;
     fuseShims := fuseShims n;
     childNodes := childNodes n |}.

Definition with_comments (v : list string) (n : TreeNode) : TreeNode :=
  {| scheme := scheme n;
     dimension := dimension n;
     length := length n;
     outputLength := outputLength n;
     inStride := inStride n;
     outStride := outStride n;
     iDist := iDist n;
     oDist := oDist n;
     batch := batch n;
     direction := direction n;
     precision := precision n;
     inArrayType := inArrayType n;
     allowedOutArrayTypes := allowedOutArrayTypes n;
     ebtype := ebtype n;
     allowOutofplace := allowOutofplace n;
     try_fuse_pre_post_processing := try_fuse_pre_post_processing n;
     solution := solution n;
     comments := v;
     deviceProp := deviceProp n;
     fuseShims := fuseShims n;
     childNodes := childNodes n |}.

Definition with_fuseShims (v : list (FuseType * list TreeNode)) (n : TreeNode) : TreeNode :=
  {| scheme := scheme n;
     dimension := dimension n;
     length := length n;
     outputLength := outputLength n;
     inStride := inStride n;
     outStride := outStride n;
     iDist := iDist n;
     oDist := oDist n;
     batch := batch n;
     direction := direction n;
     precision := precision n;
     inArrayType := inArrayType n;
     allowedOutArrayTypes := allowedOutArrayTypes n;
     ebtype := ebtype n;
     allowOutofplace := allowOutofplace n;
     try_fuse_pre_post_processing := try_fuse_pre_post_processing n;
     solution := solution n;
     comments := comments n;
     deviceProp := deviceProp n;
     fuseShims := v;
     childNodes := childNodes n |}.

Definition with_childNodes (v : list TreeNode) (n : TreeNode) : TreeNode :=
  {| scheme := scheme n;
     dimension := dimension n;
     length := length n;
     outputLength := outputLength n;
     inStride := inStride n;
     outStride := outStride n;
     iDist := iDist n;
     oDist := oDist n;
     batch := batch n;
     direction := direction n;
     precision := precision n;
     inArrayType := inArrayType n;
     allowedOutArrayTypes := allowedOutArrayTypes n;
     ebtype := ebtype n;
     allowOutofplace := allowOutofplace n;
     try_fuse_pre_post_processing := try_fuse_pre_post_processing n;
     solution := solution n;
     comments := comments n;
     deviceProp := deviceProp n;
     fuseShims := fuseShims n;
     childNodes := v |}.

Definition push_child (child : TreeNode) (n : TreeNode) : TreeNode :=
  with_childNodes (childNodes n ++ [child]) n.

(** [NodeMetaData]: the description handed to
    [NodeFactory::CreateExplicitNode]. *)
Module NodeMetaData.
Record t : Type := mk {
  precision : rocfft_precision;
  batch : Z;
  direction : Z;
  rootIsC2C : bool;
  deviceProp : hipDeviceProp_t;
  dimension : Z;
  length : list Z
}.

Definition with_dimension (v : Z) (d : t) : t :=
  mk (precision d) (batch d) (direction d) (rootIsC2C d) (deviceProp d) v (length d).

Definition with_length (v : list Z) (d : t) : t :=
  mk (precision d) (batch d) (direction d) (rootIsC2C d) (deviceProp d) (dimension d) v.
End NodeMetaData.

(** What the decomposition rules call but the translated files do not
    define: the node factory, the builder and the layout pass of complex
    sub-plans, and members declared in the node headers.
    - [RecursiveBuildTree] and [AssignParams] stand for the virtual calls
      on nodes made by [CreateExplicitNode];
    - [GetLastLeaf_update f n] is [f] applied in place to the node that
      [n->GetLastLeaf()] points to;
    - [IsSchemeFusable t nodes] is
      [NodeFactory::CreateFuseShim(t, nodes)->IsSchemeFusable()]. *)
Record NodeApi : Type := {
  CreateNodeFromScheme : ComputeScheme -> TreeNode -> TreeNode;
  CreateExplicitNode : NodeMetaData.t -> TreeNode -> TreeNode;
  RecursiveBuildTree : TreeNode -> M TreeNode;
  AssignParams : TreeNode -> M TreeNode;
  isLeafNode : TreeNode -> bool;
  GetLastLeaf_update : (TreeNode -> TreeNode) -> TreeNode -> TreeNode;
  IsRootPlanC2CTransform : TreeNode -> bool;
  IsSchemeFusable : FuseType -> list TreeNode -> bool;
  CollapsibleDims : TreeNode -> list nat;
  GetOutputLength : TreeNode -> list Z
}.

(** [NodeMetaData::NodeMetaData(TreeNode* refNode)] for a non-null
    [refNode]. The constructor leaves [dimension] and [length] at their
    in-class defaults; every caller below assigns both right after
    construction, so the values written here are never read. *)
Definition NodeMetaData_ctor (api : NodeApi) (refNode : TreeNode) : NodeMetaData.t :=
  {| NodeMetaData.precision := precision refNode;
     NodeMetaData.batch := batch refNode;
     NodeMetaData.direction := direction refNode;
     NodeMetaData.rootIsC2C := IsRootPlanC2CTransform api refNode;
     NodeMetaData.deviceProp := deviceProp refNode;
     NodeMetaData.dimension := 1;
     NodeMetaData.length := [] |}.

Notation "x <~ c ;; k" := (obind c (fun x => k))
  (at level 100, c at next level, right associativity) : cxx_scope.

Local Open Scope cxx_scope.

(* ------------------------------------------------------------------ *)
(** ** Real/complex lengths *)

(** [set_complex_length] returns two pointers into the node; a pointer to
    a member is the name of the member. *)
Inductive LengthRef : Type :=
| Ref_length
| Ref_outputLength.

Definition deref (r : LengthRef) (node : TreeNode) : list Z :=
  match r with
  | Ref_length => length node
  | Ref_outputLength => outputLength node
  end.

(** [front() /= 2; front() += 1] on a [std::vector<size_t>]. *)
Definition front_div2_plus1 (v : list Z) : outcome (list Z) :=
  match v with
  | [] => Undefined
  | front :: rest =>
      let front := size_t_wrap (front / 2) in
      let front := size_t_wrap (front + 1) in
      Returns (front :: rest)
  end.

(** Result: the node, then [realLength], then [complexLength]. *)
Definition set_complex_length (node : TreeNode)
  : outcome (TreeNode * LengthRef * LengthRef) :=
  let node := with_outputLength (length node) node in
  v <~ front_div2_plus1 (outputLength node) ;;
  let node := with_outputLength v node in
  if direction node =? -1 then
    Returns (node, Ref_length, Ref_outputLength)
  else
    let node := with_length (outputLength node) (with_outputLength (length node) node) in
    Returns (node, Ref_outputLength, Ref_length).

(** [SBCC_dim_available]: is there a column kernel along [sbcc_dim]. *)
Definition SBCC_dim_available (pool : function_pool) (length : list Z)
    (sbcc_dim : nat) (precision : rocfft_precision) : outcome bool :=
  len_dim <~ at_index length sbcc_dim ;;
  let sbcc_key := fpkey pool len_dim precision CS_KERNEL_STOCKHAM_BLOCK_CC in
  let after (numTrans : Z) (have_sbcc : bool) : outcome bool :=
    len0 <~ at_index length 0 ;;
    if (len0 <? numTrans) && negb have_sbcc then Returns false
    else if negb have_sbcc then
      let minRows := if decide (precision = rocfft_precision_single) then 8 else 4 in
      if numTrans <? minRows then Returns false else Returns true
    else Returns true in
  if has_function pool sbcc_key then
    after (transforms_per_block (get_kernel pool sbcc_key)) true
  else
    let normal_key := fpkey_normal pool len_dim precision in
    if negb (has_function pool normal_key) then Returns false
    else after (transforms_per_block (get_kernel pool normal_key)) false.

(* ------------------------------------------------------------------ *)
(** ** CS_REAL_TRANSFORM_USING_CMPLX *)

Module RealTransCmplxNode.

(** The head copy plan. *)
Definition copyHeadPlan_of (api : NodeApi) (this : TreeNode) (r2c : bool)
    (realLength : LengthRef) : TreeNode :=
  let copyHeadPlan :=
    CreateNodeFromScheme api
      (if r2c then CS_KERNEL_COPY_R_TO_CMPLX else CS_KERNEL_COPY_HERM_TO_CMPLX) this in
  let copyHeadPlan := with_dimension (dimension this) copyHeadPlan in
  let copyHeadPlan := with_length (length this) copyHeadPlan in
  if negb r2c then with_outputLength (deref realLength this) copyHeadPlan
  else copyHeadPlan.

(** The description of the complex fft. *)
Definition fftPlanData_of (api : NodeApi) (this : TreeNode)
    (realLength : LengthRef) : NodeMetaData.t :=
  let fftPlanData := NodeMetaData_ctor api this in
  let fftPlanData := NodeMetaData.with_dimension (dimension this) fftPlanData in
  NodeMetaData.with_length (deref realLength this) fftPlanData.

(** The tail copy plan. *)
Definition copyTailPlan_of (api : NodeApi) (this : TreeNode) (r2c : bool)
    (realLength complexLength : LengthRef) : TreeNode :=
  let copyTailPlan :=
    CreateNodeFromScheme api
      (if r2c then CS_KERNEL_COPY_CMPLX_TO_HERM else CS_KERNEL_COPY_CMPLX_TO_R) this in
  let copyTailPlan := with_dimension (dimension this) copyTailPlan in
  let copyTailPlan := with_length (deref realLength this) copyTailPlan in
  if r2c then with_outputLength (deref complexLength this) copyTailPlan
  else copyTailPlan.

Definition BuildTree_internal (api : NodeApi) (this : TreeNode) : M TreeNode :=
  (* Embed the data into a full-length complex array, perform a complex
     transform, and then extract the relevant output. *)
  let r2c := bool_decide (inArrayType this = rocfft_array_type_real) in
  r <- lift (set_complex_length this) ;;
  let '(this, realLength, complexLength) := r in
  let this := push_child (copyHeadPlan_of api this r2c realLength) this in
  (* complex fft *)
  let fftPlan := CreateExplicitNode api (fftPlanData_of api this realLength) this in
  fftPlan <- RecursiveBuildTree api fftPlan ;;
  (* the tail copy kernel allows only CI type, so the previous kernel
     should output CI type *)
  let fftPlan :=
    GetLastLeaf_update api
      (with_allowedOutArrayTypes [rocfft_array_type_complex_interleaved]) fftPlan in
  let this := push_child fftPlan this in
  ret (push_child (copyTailPlan_of api this r2c realLength complexLength) this).

(** The loop [for(index = 1; index < length.size(); index++)] over the
    entries of the parent's [length] after the first. *)
Fixpoint head_out_layout (tail_lengths : list Z) (outStride : list Z) (oDist : Z)
  : list Z * Z :=
  match tail_lengths with
  | [] => (outStride, oDist)
  | len :: rest =>
      head_out_layout rest (outStride ++ [oDist]) (size_t_wrap (oDist * len))
  end.

Definition AssignParams_internal (api : NodeApi) (this : TreeNode) : M TreeNode :=
  assert (Nat.eqb (List.length (childNodes this)) 3) ;;;
  copyHeadPlan <- lift (at_index (childNodes this) 0) ;;
  fftPlan <- lift (at_index (childNodes this) 1) ;;
  copyTailPlan <- lift (at_index (childNodes this) 2) ;;
  let copyHeadPlan := with_inStride (inStride this) copyHeadPlan in
  let copyHeadPlan := with_iDist (iDist this) copyHeadPlan in
  let copyHeadPlan := with_outStride (outStride copyHeadPlan ++ [1]) copyHeadPlan in
  d0 <- lift (if bool_decide (outputLength copyHeadPlan = [])
              then at_index (length copyHeadPlan) 0
              else at_index (outputLength copyHeadPlan) 0) ;;
  let copyHeadPlan := with_oDist d0 copyHeadPlan in
  let '(os, od) :=
    head_out_layout (tail (length this)) (outStride copyHeadPlan) (oDist copyHeadPlan) in
  let copyHeadPlan := with_oDist od (with_outStride os copyHeadPlan) in
  let fftPlan := with_inStride (outStride copyHeadPlan) fftPlan in
  let fftPlan := with_iDist (oDist copyHeadPlan) fftPlan in
  let fftPlan := with_outStride (inStride fftPlan) fftPlan in
  let fftPlan := with_oDist (iDist fftPlan) fftPlan in
  fftPlan <- AssignParams api fftPlan ;;
  let copyTailPlan := with_inStride (outStride fftPlan) copyTailPlan in
  let copyTailPlan := with_iDist (oDist fftPlan) copyTailPlan in
  let copyTailPlan := with_outStride (outStride this) copyTailPlan in
  let copyTailPlan := with_oDist (oDist this) copyTailPlan in
  ret (with_childNodes [copyHeadPlan; fftPlan; copyTailPlan] this).

End RealTransCmplxNode.

(* ------------------------------------------------------------------ *)
(** ** CS_REAL_TRANSFORM_EVEN *)

Definition newline : string := String (Ascii.ascii_of_nat 10) EmptyString.

Module RealTransEvenNode.

Definition invalid_direction_message : string :=
  ("invalid direction: plan creation failed!" ++ newline)%string.

(** [v[0] /= 2]. *)
Definition halve_first (v : list Z) : outcome (list Z) :=
  x <~ at_index v 0 ;;
  Returns (<[0%nat := size_t_wrap (x / 2)]> v).

(** [v.front() += 1]. *)
Definition front_plus1 (v : list Z) : outcome (list Z) :=
  match v with
  | [] => Undefined
  | front :: rest => Returns (size_t_wrap (front + 1) :: rest)
  end.

(** [childNodes.back()->GetLastLeaf()->allowedOutArrayTypes = {...}]. *)
Definition restrict_back_last_leaf (api : NodeApi) (this : TreeNode)
  : outcome TreeNode :=
  match reverse (childNodes this) with
  | [] => Undefined
  | back :: before_rev =>
      let back :=
        GetLastLeaf_update api
          (with_allowedOutArrayTypes [rocfft_array_type_complex_interleaved]) back in
      Returns (with_childNodes (reverse before_rev ++ [back]) this)
  end.

(** The complex sub-plan [cfftPlan]: created, forced in-place and
    built. *)
Definition build_cfftPlan (api : NodeApi) (this : TreeNode)
    (realLength : LengthRef) : M TreeNode :=
  let cfftPlanData := NodeMetaData_ctor api this in
  let cfftPlanData := NodeMetaData.with_dimension (dimension this) cfftPlanData in
  let cfftPlanData := NodeMetaData.with_length (deref realLength this) cfftPlanData in
  half <- lift (halve_first (NodeMetaData.length cfftPlanData)) ;;
  let cfftPlanData := NodeMetaData.with_length half cfftPlanData in
  let cfftPlan := CreateExplicitNode api cfftPlanData this in
  let cfftPlan := with_allowOutofplace false cfftPlan in
  RecursiveBuildTree api cfftPlan.

(** [case -1]: real-to-complex, in-place complex transform then
    post-process. *)
Definition BuildTree_forward (api : NodeApi) (this : TreeNode)
    (realLength complexLength : LengthRef) (cfftPlan : TreeNode) : M TreeNode :=
  (* a node that's prepared to apply the user's callback *)
  let applyCallback := CreateNodeFromScheme api CS_KERNEL_APPLY_CALLBACK this in
  let applyCallback := with_dimension (dimension this) applyCallback in
  let applyCallback := with_length (deref realLength this) applyCallback in
  cfftPlan <-
    (if try_fuse_pre_post_processing this then
       let cfftPlan := with_ebtype Real2C_POST cfftPlan in
       let cfftPlan := with_allowOutofplace true cfftPlan in
       let cfftPlan := with_outputLength (length cfftPlan) cfftPlan in
       ol <- lift (front_plus1 (outputLength cfftPlan)) ;;
       ret (with_outputLength ol cfftPlan)
     else ret cfftPlan) ;;
  let this := push_child applyCallback this in
  let this := push_child cfftPlan this in
  (* add separate post-processing if we couldn't fuse *)
  if negb (try_fuse_pre_post_processing this) then
    this <- lift (restrict_back_last_leaf api this) ;;
    let postPlan := CreateNodeFromScheme api CS_KERNEL_R_TO_CMPLX this in
    let postPlan := with_dimension 1 postPlan in
    let postPlan := with_length (deref realLength this) postPlan in
    pl <- lift (halve_first (length postPlan)) ;;
    let postPlan := with_length pl postPlan in
    let postPlan := with_outputLength (deref complexLength this) postPlan in
    ret (push_child postPlan this)
  else ret this.

(** [case 1]: complex-to-real, pre-process followed by in-place complex
    transform. *)
Definition BuildTree_inverse (api : NodeApi) (this : TreeNode)
    (complexLength : LengthRef) (cfftPlan : TreeNode) : M TreeNode :=
  r <-
    (if negb (try_fuse_pre_post_processing this) then
       (* add separate pre-processing if we couldn't fuse *)
       let prePlan := CreateNodeFromScheme api CS_KERNEL_CMPLX_TO_R this in
       let prePlan := with_dimension 1 prePlan in
       let prePlan := with_length (deref complexLength this) prePlan in
       (* output of the prePlan is in complex units *)
       let prePlan := with_outputLength (outputLength this) prePlan in
       match outputLength prePlan with
       | [] => lift Undefined
       | front :: rest =>
           let prePlan := with_outputLength (size_t_wrap (front / 2) :: rest) prePlan in
           ret (push_child prePlan this, cfftPlan)
       end
     else
       let cfftPlan := with_ebtype C2Real_PRE cfftPlan in
       let cfftPlan := with_allowOutofplace true cfftPlan in
       ret (this, cfftPlan)) ;;
  let '(this, cfftPlan) := r in
  (* a node that's prepared to apply the user's callback *)
  let applyCallback := CreateNodeFromScheme api CS_KERNEL_APPLY_CALLBACK this in
  let applyCallback := with_dimension (dimension this) applyCallback in
  let applyCallback := with_length (outputLength this) applyCallback in
  let this := push_child cfftPlan this in
  ret (push_child applyCallback this).

Definition BuildTree_internal (api : NodeApi) (this : TreeNode) : M TreeNode :=
  (* Fastest moving dimension must be even *)
  len0 <- lift (at_index (length this) 0) ;;
  assert (len0 mod 2 =? 0) ;;;
  r <- lift (set_complex_length this) ;;
  let '(this, realLength, complexLength) := r in
  cfftPlan <- build_cfftPlan api this realLength ;;
  (* fuse pre/post-processing into fft if it's single-kernel *)
  let this :=
    if try_fuse_pre_post_processing this
    then with_try_fuse_pre_post_processing (isLeafNode api cfftPlan) this
    else this in
  if direction this =? -1 then
    BuildTree_forward api this realLength complexLength cfftPlan
  else if direction this =? 1 then
    BuildTree_inverse api this complexLength cfftPlan
  else
    cerr_write invalid_direction_message ;;;
    ret this.


(** [for(i = 1; i < v.size(); ++i) v[i] /= 2]: every stride but the
    first goes from real to complex units. *)
Definition halve_above_first (v : list Z) : list Z :=
  match v with
  | [] => []
  | first :: above => first :: map (fun s => s / 2) above
  end.

(** The loop of the backward branch,
    [for(i = 1; i < fftPlan->inStride.size(); ++i)], from index [i] on
    and for [count] more iterations: [inStride[i]] is halved unless the
    pre-processing is fused, [outStride[i]] is halved. *)
Fixpoint halve_strides (fusedPreProcessing : bool) (count i : nat)
    (inStride outStride : list Z) : outcome (list Z * list Z) :=
  match count with
  | O => Returns (inStride, outStride)
  | S count =>
      inStride <~
        (if negb fusedPreProcessing then
           x <~ at_index inStride i ;;
           Returns (<[i := x / 2]> inStride)
         else Returns inStride) ;;
      y <~ at_index outStride i ;;
      halve_strides fusedPreProcessing count (S i) inStride (<[i := y / 2]> outStride)
  end.

(** [case -1] of the layout pass: forward transform, r2c. *)
Definition AssignParams_forward (api : NodeApi) (this : TreeNode) : M TreeNode :=
  (* iDist is in reals, subplan->iDist is in complexes *)
  applyCallback <- lift (at_index (childNodes this) 0) ;;
  let applyCallback := with_inStride (inStride this) applyCallback in
  let applyCallback := with_iDist (iDist this) applyCallback in
  let applyCallback := with_outStride (inStride this) applyCallback in
  let applyCallback := with_oDist (iDist this) applyCallback in
  let this := with_childNodes (<[0%nat := applyCallback]> (childNodes this)) this in
  fftPlan <- lift (at_index (childNodes this) 1) ;;
  let fftPlan := with_inStride (halve_above_first (inStride this)) fftPlan in
  let fftPlan := with_iDist (iDist this / 2) fftPlan in
  let fftPlan := with_outStride (halve_above_first (inStride this)) fftPlan in
  let fftPlan := with_oDist (iDist this / 2) fftPlan in
  fftPlan <- AssignParams api fftPlan ;;
  assert (Nat.eqb (List.length (length fftPlan)) (List.length (inStride fftPlan))) ;;;
  assert (Nat.eqb (List.length (length fftPlan)) (List.length (outStride fftPlan))) ;;;
  let this := with_childNodes (<[1%nat := fftPlan]> (childNodes this)) this in
  if Nat.eqb (List.length (childNodes this)) 3 then
    postPlan <- lift (at_index (childNodes this) 2) ;;
    assert (bool_decide (scheme postPlan = CS_KERNEL_R_TO_CMPLX)
            || bool_decide (scheme postPlan = CS_KERNEL_R_TO_CMPLX_TRANSPOSE)) ;;;
    let postPlan := with_inStride (halve_above_first (inStride this)) postPlan in
    let postPlan := with_iDist (iDist this / 2) postPlan in
    let postPlan := with_outStride (outStride this) postPlan in
    let postPlan := with_oDist (oDist this) postPlan in
    assert (Nat.eqb (List.length (length postPlan)) (List.length (inStride postPlan))) ;;;
    assert (Nat.eqb (List.length (length postPlan)) (List.length (outStride postPlan))) ;;;
    ret (with_childNodes (<[2%nat := postPlan]> (childNodes this)) this)
  else
    (* we fused post-proc into the FFT kernel, so give the correct out
       strides *)
    let fftPlan := with_outStride (outStride this) fftPlan in
    let fftPlan := with_oDist (oDist this) fftPlan in
    ret (with_childNodes (<[1%nat := fftPlan]> (childNodes this)) this).

(** The [else] branch of the layout pass: backward transform, c2r.
    [rootPlan] is the node reached by following [parent] from [this]. *)
Definition AssignParams_backward (api : NodeApi) (rootPlan : TreeNode)
    (this : TreeNode) : M TreeNode :=
  first <- lift (at_index (childNodes this) 0) ;;
  let fusedPreProcessing := bool_decide (ebtype first = C2Real_PRE) in
  (* oDist is in reals, subplan->oDist is in complexes *)
  this <-
    (if negb fusedPreProcessing then
       let prePlan := first in
       assert (bool_decide (scheme prePlan = CS_KERNEL_CMPLX_TO_R)) ;;;
       let prePlan := with_iDist (iDist this) prePlan in
       let prePlan := with_oDist (oDist this / 2) prePlan in
       let prePlan := with_inStride (inStride this) prePlan in
       let prePlan := with_outStride (outStride this) prePlan in
       (* Strides are in complex types *)
       let prePlan := with_outStride (halve_above_first (outStride prePlan)) prePlan in
       assert (Nat.eqb (List.length (length prePlan)) (List.length (inStride prePlan))) ;;;
       assert (Nat.eqb (List.length (length prePlan)) (List.length (outStride prePlan))) ;;;
       ret (with_childNodes (<[0%nat := prePlan]> (childNodes this)) this)
     else ret this) ;;
  let fft_index := if fusedPreProcessing then 0%nat else 1%nat in
  fftPlan <- lift (at_index (childNodes this) fft_index) ;;
  (* Transform the strides from real to complex. *)
  let fftPlan :=
    with_inStride (if fusedPreProcessing then inStride this else outStride this) fftPlan in
  let fftPlan :=
    with_iDist (if fusedPreProcessing then iDist this else oDist this / 2) fftPlan in
  let fftPlan := with_outStride (outStride this) fftPlan in
  let fftPlan := with_oDist (oDist this / 2) fftPlan in
  r <- lift (halve_strides fusedPreProcessing (List.length (inStride fftPlan) - 1) 1
               (inStride fftPlan) (outStride fftPlan)) ;;
  let fftPlan := with_outStride r.2 (with_inStride r.1 fftPlan) in
  fftPlan <- AssignParams api fftPlan ;;
  assert (Nat.eqb (List.length (length fftPlan)) (List.length (inStride fftPlan))) ;;;
  assert (Nat.eqb (List.length (length fftPlan)) (List.length (outStride fftPlan))) ;;;
  let this := with_childNodes (<[fft_index := fftPlan]> (childNodes this)) this in
  (* we apply callbacks on the root plan's output *)
  let back := (List.length (childNodes this) - 1)%nat in
  applyCallback <- lift (at_index (childNodes this) back) ;;
  let applyCallback := with_inStride (outStride rootPlan) applyCallback in
  let applyCallback := with_iDist (oDist rootPlan) applyCallback in
  let applyCallback := with_outStride (outStride rootPlan) applyCallback in
  let applyCallback := with_oDist (oDist rootPlan) applyCallback in
  ret (with_childNodes (<[back := applyCallback]> (childNodes this)) this).

(** [RealTransEvenNode::AssignParams_internal]. *)
Definition AssignParams_internal (api : NodeApi) (rootPlan : TreeNode)
    (this : TreeNode) : M TreeNode :=
  (* definitely will have FFT + apply callback. pre/post processing
     might be fused into the FFT or separate. *)
  assert (Nat.eqb (List.length (childNodes this)) 2
          || Nat.eqb (List.length (childNodes this)) 3) ;;;
  if direction this =? -1 then AssignParams_forward api this
  else AssignParams_backward api rootPlan this.

End RealTransEvenNode.

(* ------------------------------------------------------------------ *)
(** ** Transpose output length ([tree_node.cpp]) *)

Definition SetTransposeOutputLength (this : TreeNode) : outcome TreeNode :=
  match scheme this with
  | CS_KERNEL_TRANSPOSE =>
      ol <~ swap_at (length this) 0 1 ;;
      Returns (with_outputLength ol this)
  | CS_KERNEL_TRANSPOSE_XY_Z
  | CS_KERNEL_STOCKHAM_TRANSPOSE_XY_Z =>
      ol <~ swap_at (length this) 1 2 ;;
      ol <~ swap_at ol 0 1 ;;
      Returns (with_outputLength ol this)
  | CS_KERNEL_TRANSPOSE_Z_XY
  | CS_KERNEL_STOCKHAM_TRANSPOSE_Z_XY =>
      ol <~ swap_at (length this) 0 1 ;;
      ol <~ swap_at ol 1 2 ;;
      Returns (with_outputLength ol this)
  | _ => Throws "can't set transpose output length on non-transpose node"
  end.

(* ------------------------------------------------------------------ *)
(** ** CS_REAL_2D_EVEN

    [RecursiveBuildTree()] on a child created with scheme
    [CS_REAL_TRANSFORM_EVEN] runs [RealTransEvenNode::BuildTree_internal];
    on a child made by [CreateExplicitNode] it is the builder of
    [NodeApi]. *)

Module Real2DEvenNode.

(** [NodeFactory::CreateFuseShim(t, nodes)], kept when fusable. *)
Definition add_shim_if_fusable (api : NodeApi) (t : FuseType)
    (nodes : list TreeNode) (this : TreeNode) : TreeNode :=
  if IsSchemeFusable api t nodes
  then with_fuseShims (fuseShims this ++ [(t, nodes)]) this
  else this.

Definition BuildTree_internal_SBCC (api : NodeApi) (pool : function_pool)
    (this : TreeNode) : M TreeNode :=
  len1 <- lift (at_index (length this) 1) ;;
  let haveSBCC := has_SBCC_kernel pool len1 (precision this) in
  let sbccScheme :=
    if haveSBCC then CS_KERNEL_STOCKHAM_BLOCK_CC else CS_KERNEL_STOCKHAM in
  if bool_decide (inArrayType this = rocfft_array_type_real) then
    (* first row fft + postproc is mandatory for fastest dimension *)
    let rcplan := CreateNodeFromScheme api CS_REAL_TRANSFORM_EVEN this in
    (* for length > 2048, don't try pre/post because LDS usage is too high *)
    len0 <- lift (at_index (length this) 0) ;;
    let rcplan := with_try_fuse_pre_post_processing (len0 <=? 2048) rcplan in
    let rcplan := with_length (length this) rcplan in
    let rcplan := with_dimension 1 rcplan in
    rcplan <- RealTransEvenNode.BuildTree_internal api rcplan ;;
    let this := push_child rcplan this in
    let sbccY := CreateNodeFromScheme api sbccScheme this in
    back <- lift (of_option (last (childNodes this))) ;;
    let sbccY := with_length (outputLength back) sbccY in
    let sbccY := with_outputLength (length sbccY) sbccY in
    sl <- lift (swap_at (length sbccY) 0 1) ;;
    let sbccY := with_length sl sbccY in
    ret (push_child sbccY this)
  else
    let sbccY := CreateNodeFromScheme api sbccScheme this in
    let sbccY := with_outputLength (length this) sbccY in
    let sbccY := with_length (length this) sbccY in
    sl <- lift (swap_at (length sbccY) 0 1) ;;
    let sbccY := with_length sl sbccY in
    let this := push_child sbccY this in
    (* c2r *)
    let crplan := CreateNodeFromScheme api CS_REAL_TRANSFORM_EVEN this in
    len0 <- lift (at_index (length this) 0) ;;
    let crplan := with_try_fuse_pre_post_processing (len0 <=? 2048) crplan in
    let crplan := with_length (outputLength this) crplan in
    let crplan := with_dimension 1 crplan in
    crplan <- RealTransEvenNode.BuildTree_internal api crplan ;;
    ret (push_child crplan this).

Definition BuildTree_internal_TR_pair (api : NodeApi) (this : TreeNode)
  : M TreeNode :=
  if bool_decide (inArrayType this = rocfft_array_type_real) then
    (* RTRT: first row fft *)
    let row1Plan := CreateNodeFromScheme api CS_REAL_TRANSFORM_EVEN this in
    let row1Plan := with_length (length this) row1Plan in
    let row1Plan := with_dimension 1 row1Plan in
    row1Plan <- RealTransEvenNode.BuildTree_internal api row1Plan ;;
    (* first transpose *)
    let trans1Plan := CreateNodeFromScheme api CS_KERNEL_TRANSPOSE this in
    let trans1Plan := with_length (outputLength row1Plan) trans1Plan in
    trans1Plan <- lift (SetTransposeOutputLength trans1Plan) ;;
    (* second row fft *)
    let row2PlanData := NodeMetaData_ctor api this in
    let row2PlanData := NodeMetaData.with_length (outputLength trans1Plan) row2PlanData in
    let row2PlanData := NodeMetaData.with_dimension 1 row2PlanData in
    let row2Plan := CreateExplicitNode api row2PlanData this in
    row2Plan <- RecursiveBuildTree api row2Plan ;;
    (* second transpose *)
    let trans2Plan := CreateNodeFromScheme api CS_KERNEL_TRANSPOSE this in
    let trans2Plan := with_length (outputLength trans1Plan) trans2Plan in
    trans2Plan <- lift (SetTransposeOutputLength trans2Plan) ;;
    (* fuse shims *)
    let this :=
      if IsSchemeFusable api FT_STOCKHAM_R2C_TRANSPOSE [row1Plan; trans1Plan]
      then with_fuseShims
             (fuseShims this ++ [(FT_STOCKHAM_R2C_TRANSPOSE, [row1Plan; trans1Plan])]) this
      else add_shim_if_fusable api FT_R2C_TRANSPOSE
             [row1Plan; trans1Plan; row2Plan] this in
    let this :=
      add_shim_if_fusable api FT_STOCKHAM_WITH_TRANS [row2Plan; trans2Plan] this in
    (* RTRT *)
    let this := push_child row1Plan this in
    let this := push_child trans1Plan this in
    let this := push_child row2Plan this in
    ret (push_child trans2Plan this)
  else
    (* TRTR: first transpose *)
    let trans1Plan := CreateNodeFromScheme api CS_KERNEL_TRANSPOSE this in
    let trans1Plan := with_length (length this) trans1Plan in
    trans1Plan <- lift (SetTransposeOutputLength trans1Plan) ;;
    let trans1Plan := with_dimension 2 trans1Plan in
    (* c2c row transform *)
    let c2cPlanData := NodeMetaData_ctor api this in
    let c2cPlanData := NodeMetaData.with_dimension 1 c2cPlanData in
    let c2cPlanData := NodeMetaData.with_length (outputLength trans1Plan) c2cPlanData in
    let c2cPlan := CreateExplicitNode api c2cPlanData this in
    c2cPlan <- RecursiveBuildTree api c2cPlan ;;
    (* second transpose *)
    let trans2plan := CreateNodeFromScheme api CS_KERNEL_TRANSPOSE this in
    let trans2plan := with_length (outputLength trans1Plan) trans2plan in
    trans2plan <- lift (SetTransposeOutputLength trans2plan) ;;
    let trans2plan := with_dimension 2 trans2plan in
    (* c2r row transform *)
    let c2rPlan := CreateNodeFromScheme api CS_REAL_TRANSFORM_EVEN this in
    let c2rPlan := with_length (outputLength this) c2rPlan in
    c2rPlan <- RealTransEvenNode.BuildTree_internal api c2rPlan ;;
    (* fuse shims *)
    let this :=
      add_shim_if_fusable api FT_TRANS_WITH_STOCKHAM [trans1Plan; c2cPlan] this in
    let this :=
      add_shim_if_fusable api FT_TRANSPOSE_C2R [trans2plan; c2rPlan] this in
    (* TRTR *)
    let this := push_child trans1Plan this in
    let this := push_child c2cPlan this in
    let this := push_child trans2plan this in
    ret (push_child c2rPlan this).

Definition BuildTree_internal (api : NodeApi) (pool : function_pool)
    (this : TreeNode) : M TreeNode :=
  (* Fastest moving dimension must be even *)
  len0 <- lift (at_index (length this) 0) ;;
  assert (len0 mod 2 =? 0) ;;;
  r <- lift (set_complex_length this) ;;
  let '(this, realLength, complexLength) := r in
  (* if we have SBCC for the higher dimension, use that and avoid transpose *)
  avail <- lift (SBCC_dim_available pool (length this) 1 (precision this)) ;;
  let this := with_solution (if avail then INPLACE_SBCC else TR_PAIR) this in
  match solution this with
  | INPLACE_SBCC => BuildTree_internal_SBCC api pool this
  | TR_PAIR => BuildTree_internal_TR_pair api this
  end.


(** [Real2DEvenNode::AssignParams_internal_SBCC]. *)
Definition AssignParams_internal_SBCC (api : NodeApi) (this : TreeNode) : M TreeNode :=
  let forward := bool_decide (inArrayType this = rocfft_array_type_real) in
  if forward then
    rowPlan <- lift (at_index (childNodes this) 0) ;;
    let rowPlan := with_inStride (inStride this) rowPlan in
    let rowPlan := with_iDist (iDist this) rowPlan in
    let rowPlan := with_outStride (outStride this) rowPlan in
    let rowPlan := with_oDist (oDist this) rowPlan in
    rowPlan <- AssignParams api rowPlan ;;
    let this := with_childNodes (<[0%nat := rowPlan]> (childNodes this)) this in
    sbccY <- lift (at_index (childNodes this) 1) ;;
    let sbccY := with_inStride (outStride rowPlan) sbccY in
    swapped <- lift (swap_at (inStride sbccY) 0 1) ;;
    let sbccY := with_inStride swapped sbccY in
    let sbccY := with_iDist (oDist rowPlan) sbccY in
    let sbccY := with_outStride (inStride sbccY) sbccY in
    let sbccY := with_oDist (iDist sbccY) sbccY in
    ret (with_childNodes (<[1%nat := sbccY]> (childNodes this)) this)
  else
    (* input strides for last c2r node *)
    let c2r_inStride := inStride this in
    let c2r_iDist := iDist this in
    sbccY <- lift (at_index (childNodes this) 0) ;;
    let sbccY := with_inStride (inStride this) sbccY in
    (* SBCC along Y dim *)
    swapped <- lift (swap_at (inStride sbccY) 0 1) ;;
    let sbccY := with_inStride swapped sbccY in
    let sbccY := with_iDist (iDist this) sbccY in
    let sbccY := with_outStride (inStride sbccY) sbccY in
    let sbccY := with_oDist (iDist this) sbccY in
    sbccY <- AssignParams api sbccY ;;
    let this := with_childNodes (<[0%nat := sbccY]> (childNodes this)) this in
    let back := (List.length (childNodes this) - 1)%nat in
    crplan <- lift (at_index (childNodes this) back) ;;
    let crplan := with_inStride c2r_inStride crplan in
    let crplan := with_iDist c2r_iDist crplan in
    let crplan := with_outStride (outStride this) crplan in
    let crplan := with_oDist (oDist this) crplan in
    let crplan := with_dimension 1 crplan in
    crplan <- AssignParams api crplan ;;
    ret (with_childNodes (<[back := crplan]> (childNodes this)) this).

(** The layout of a transpose that writes a packed array:
    [outStride.push_back(length[1]); outStride.push_back(1);
     oDist = length[0] * outStride[0]]. *)
Definition transpose_out_packed (trans : TreeNode) : outcome TreeNode :=
  len1 <~ at_index (length trans) 1 ;;
  let trans := with_outStride (outStride trans ++ [len1]) trans in
  let trans := with_outStride (outStride trans ++ [1]) trans in
  len0 <~ at_index (length trans) 0 ;;
  out0 <~ at_index (outStride trans) 0 ;;
  Returns (with_oDist (size_t_wrap (len0 * out0)) trans).

(** [Real2DEvenNode::AssignParams_internal_TR_pair]. *)
Definition AssignParams_internal_TR_pair (api : NodeApi) (this : TreeNode)
  : M TreeNode :=
  let forward := bool_decide (inArrayType this = rocfft_array_type_real) in
  if forward then
    row1Plan <- lift (at_index (childNodes this) 0) ;;
    (* The first sub-plan changes type in real/complex transforms. *)
    let row1Plan := with_inStride (inStride this) row1Plan in
    let row1Plan := with_iDist (iDist this) row1Plan in
    let row1Plan := with_outStride (outStride this) row1Plan in
    let row1Plan := with_oDist (oDist this) row1Plan in
    row1Plan <- AssignParams api row1Plan ;;
    let this := with_childNodes (<[0%nat := row1Plan]> (childNodes this)) this in
    trans1Plan <- lift (at_index (childNodes this) 1) ;;
    (* B -> T *)
    let trans1Plan := with_inStride (outStride row1Plan) trans1Plan in
    let trans1Plan := with_iDist (oDist row1Plan) trans1Plan in
    trans1Plan <- lift (transpose_out_packed trans1Plan) ;;
    let this := with_childNodes (<[1%nat := trans1Plan]> (childNodes this)) this in
    row2Plan <- lift (at_index (childNodes this) 2) ;;
    (* T -> T *)
    let row2Plan := with_inStride (outStride trans1Plan) row2Plan in
    swapped <- lift (swap_at (inStride row2Plan) 0 1) ;;
    let row2Plan := with_inStride swapped row2Plan in
    let row2Plan := with_iDist (oDist trans1Plan) row2Plan in
    let row2Plan := with_outStride (inStride row2Plan) row2Plan in
    let row2Plan := with_oDist (iDist row2Plan) row2Plan in
    row2Plan <- AssignParams api row2Plan ;;
    let this := with_childNodes (<[2%nat := row2Plan]> (childNodes this)) this in
    trans2Plan <- lift (at_index (childNodes this) 3) ;;
    (* T -> B *)
    let trans2Plan := with_inStride (outStride row2Plan) trans2Plan in
    let trans2Plan := with_iDist (oDist row2Plan) trans2Plan in
    let trans2Plan := with_outStride (outStride this) trans2Plan in
    swapped <- lift (swap_at (outStride trans2Plan) 0 1) ;;
    let trans2Plan := with_outStride swapped trans2Plan in
    let trans2Plan := with_oDist (oDist this) trans2Plan in
    ret (with_childNodes (<[3%nat := trans2Plan]> (childNodes this)) this)
  else
    trans1Plan <- lift (at_index (childNodes this) 0) ;;
    let trans1Plan := with_inStride (inStride this) trans1Plan in
    let trans1Plan := with_iDist (iDist this) trans1Plan in
    trans1Plan <- lift (transpose_out_packed trans1Plan) ;;
    let this := with_childNodes (<[0%nat := trans1Plan]> (childNodes this)) this in
    c2cPlan <- lift (at_index (childNodes this) 1) ;;
    let c2cPlan := with_inStride (outStride trans1Plan) c2cPlan in
    swapped <- lift (swap_at (inStride c2cPlan) 0 1) ;;
    let c2cPlan := with_inStride swapped c2cPlan in
    let c2cPlan := with_iDist (oDist trans1Plan) c2cPlan in
    let c2cPlan := with_outStride (inStride c2cPlan) c2cPlan in
    let c2cPlan := with_oDist (iDist c2cPlan) c2cPlan in
    c2cPlan <- AssignParams api c2cPlan ;;
    let this := with_childNodes (<[1%nat := c2cPlan]> (childNodes this)) this in
    trans2Plan <- lift (at_index (childNodes this) 2) ;;
    let trans2Plan := with_inStride (outStride trans1Plan) trans2Plan in
    swapped <- lift (swap_at (inStride trans2Plan) 0 1) ;;
    let trans2Plan := with_inStride swapped trans2Plan in
    let trans2Plan := with_iDist (oDist trans1Plan) trans2Plan in
    let trans2Plan := with_outStride (inStride trans1Plan) trans2Plan in
    swapped <- lift (swap_at (outStride trans2Plan) 0 1) ;;
    let trans2Plan := with_outStride swapped trans2Plan in
    len0 <- lift (at_index (length trans2Plan) 0) ;;
    out0 <- lift (at_index (outStride trans2Plan) 0) ;;
    let trans2Plan := with_oDist (size_t_wrap (len0 * out0)) trans2Plan in
    let this := with_childNodes (<[2%nat := trans2Plan]> (childNodes this)) this in
    c2rPlan <- lift (at_index (childNodes this) 3) ;;
    let c2rPlan := with_inStride (outStride trans2Plan) c2rPlan in
    swapped <- lift (swap_at (inStride c2rPlan) 0 1) ;;
    let c2rPlan := with_inStride swapped c2rPlan in
    let c2rPlan := with_iDist (oDist trans2Plan) c2rPlan in
    let c2rPlan := with_outStride (outStride this) c2rPlan in
    let c2rPlan := with_oDist (oDist this) c2rPlan in
    c2rPlan <- AssignParams api c2rPlan ;;
    ret (with_childNodes (<[3%nat := c2rPlan]> (childNodes this)) this).

(** [Real2DEvenNode::AssignParams_internal]. *)
Definition AssignParams_internal (api : NodeApi) (this : TreeNode) : M TreeNode :=
  match solution this with
  | INPLACE_SBCC => AssignParams_internal_SBCC api this
  | TR_PAIR => AssignParams_internal_TR_pair api this
  end.

End Real2DEvenNode.

(* ------------------------------------------------------------------ *)
(** ** Leaf nodes ([tree_node.cpp]) *)

(** [std::to_string] of an unsigned integer. *)
Definition to_string (z : Z) : string :=
  NilZero.string_of_uint (N.to_uint (Z.to_N z)).

Record GridParam : Type := {
  lds_bytes : Z
}.

(** A [LeafNode] is a [TreeNode] with the members below. *)
Record LeafNode : Type := {
  node : TreeNode;
  externalKernel : bool;
  specified_key : option FMKey.t;
  sbrcTranstype : SBRC_TRANSPOSE_TYPE;
  dir2regMode : DirectRegType;
  kernelFactors : list Z;
  lds : Z
}.

Definition with_specified_key (v : option FMKey.t) (l : LeafNode) : LeafNode :=
  {| node := node l; externalKernel := externalKernel l; specified_key := v;
     sbrcTranstype := sbrcTranstype l; dir2regMode := dir2regMode l;
     kernelFactors := kernelFactors l; lds := lds l |}.

Definition with_sbrcTranstype (v : SBRC_TRANSPOSE_TYPE) (l : LeafNode) : LeafNode :=
  {| node := node l; externalKernel := externalKernel l;
     specified_key := specified_key l; sbrcTranstype := v;
     dir2regMode := dir2regMode l; kernelFactors := kernelFactors l; lds := lds l |}.

Definition with_dir2regMode (v : DirectRegType) (l : LeafNode) : LeafNode :=
  {| node := node l; externalKernel := externalKernel l;
     specified_key := specified_key l; sbrcTranstype := sbrcTranstype l;
     dir2regMode := v; kernelFactors := kernelFactors l; lds := lds l |}.

Definition with_kernelFactors (v : list Z) (l : LeafNode) : LeafNode :=
  {| node := node l; externalKernel := externalKernel l;
     specified_key := specified_key l; sbrcTranstype := sbrcTranstype l;
     dir2regMode := dir2regMode l; kernelFactors := v; lds := lds l |}.

(** What the leaf services call but [tree_node.cpp] does not define.
    - [TreeNode_GetKernelKey] is the base-class [TreeNode::GetKernelKey];
    - [add_new_kernel] registers a key in the function pool;
    - [TreeNode_SanityCheck] is the base-class [TreeNode::SanityCheck],
      acting on the node and the remaining kernel keys;
    - [SetupGPAndFnPtr_internal] is the hook of the derived classes;
    - [lds_bytes_modulus] is the number of values of the integer type of
      [GridParam::lds_bytes]. *)
Record LeafApi : Type := {
  EmptyFMKey : FMKey.t;
  TreeNode_GetKernelKey : LeafNode -> FMKey.t;
  add_new_kernel : function_pool -> FMKey.t -> function_pool;
  TreeNode_SanityCheck : LeafNode -> list FMKey.t -> outcome (LeafNode * list FMKey.t);
  SetupGPAndFnPtr_internal : LeafNode -> GridParam -> LeafNode * GridParam;
  complex_type_size : rocfft_precision -> Z;
  is_device_gcn_arch : hipDeviceProp_t -> string -> bool;
  lds_bytes_modulus : Z
}.

Module LeafNode.

Definition GetKernelKey (api : LeafApi) (this : LeafNode) : FMKey.t :=
  if negb (externalKernel this) then EmptyFMKey api
  else TreeNode_GetKernelKey api this.

Definition GetKernelFactors (api : LeafApi) (pool : function_pool)
    (this : LeafNode) : LeafNode :=
  let key := GetKernelKey api this in
  with_kernelFactors (factors (get_kernel pool key)) this.

(** Is the assigned key inconsistent with the node information. The
    operands of [||] and [&&] are evaluated left to right and only as
    far as needed. *)
Definition key_mismatch (this : LeafNode) (assignedKey : FMKey.t) : outcome bool :=
  len0 <~ at_index (length (node this)) 0 ;;
  if negb (len0 =? fst (FMKey.lengths assignedKey)) then Returns true
  else
    second <~
      (if dimension (node this) =? 2 then
         len1 <~ at_index (length (node this)) 1 ;;
         Returns (negb (len1 =? snd (FMKey.lengths assignedKey)))
       else Returns false) ;;
    if (second : bool) then Returns true
    else
      Returns
        (negb (bool_decide (precision (node this) = FMKey.precision assignedKey))
         || negb (bool_decide (scheme (node this) = FMKey.scheme assignedKey))
         || negb (bool_decide (ebtype (node this) = FMKey.kernel_config_ebType assignedKey))).

(** Result: the returned flag, the node, what is left of [kernel_keys],
    and the function pool. Trace logging is not part of the state. *)
Definition KernelCheck (api : LeafApi) (pool : function_pool) (this : LeafNode)
    (kernel_keys : list FMKey.t)
  : outcome (bool * LeafNode * list FMKey.t * function_pool) :=
  if negb (externalKernel this) then
    match kernel_keys with
    | [] => Returns (true, this, kernel_keys, pool)
    | front :: rest =>
        (* the key from the solution map should be an EmptyFMKey for a
           built-in kernel *)
        if negb (bool_decide (front = EmptyFMKey api))
        then Returns (false, this, kernel_keys, pool)
        else Returns (true, this, rest, pool)
    end
  else
    let this := with_specified_key None this in
    let final (this : LeafNode) (kernel_keys : list FMKey.t) (pool : function_pool) :=
      let key := GetKernelKey api this in
      if negb (has_function pool key) then Returns (false, this, kernel_keys, pool)
      else
        let this :=
          with_dir2regMode
            (if direct_to_from_reg (get_kernel pool key)
             then TRY_ENABLE_IF_SUPPORT else FORCE_OFF_OR_NOT_SUPPORT) this in
        let this := GetKernelFactors api pool this in
        Returns (true, this, kernel_keys, pool) in
    match kernel_keys with
    | [] => final this kernel_keys pool
    | assignedKey :: kernel_keys =>
        if bool_decide (assignedKey = EmptyFMKey api) then
          (* kernel is not tuned, use default kernel *)
          final this kernel_keys pool
        else
          mismatch <~ key_mismatch this assignedKey ;;
          if (mismatch : bool) then Returns (false, this, kernel_keys, pool)
          else
            let this := with_sbrcTranstype (FMKey.sbrcTrans assignedKey) this in
            let pool := add_new_kernel api pool assignedKey in
            let this := with_specified_key (Some assignedKey) this in
            final this kernel_keys pool
    end.

Definition kernel_not_found_message : string :=
  "Kernel not found or mismatches node (solution map issue)".

Definition SanityCheck (api : LeafApi) (pool : function_pool) (this : LeafNode)
    (kernels_keys : list FMKey.t)
  : outcome (LeafNode * list FMKey.t * function_pool) :=
  r <~ KernelCheck api pool this kernels_keys ;;
  let '(ok, this, kernels_keys, pool) := r in
  if negb ok then Throws kernel_not_found_message
  else
    r <~ TreeNode_SanityCheck api this kernels_keys ;;
    let '(this, kernels_keys) := r in
    Returns (this, kernels_keys, pool).

(** The value of [gp.lds_bytes] when it is compared with the device
    limit: the lines of [SetupGridParamAndFuncPtr] from the call of the
    hook up to the comparison. *)
Definition requested_lds_bytes (api : LeafApi) (pool : function_pool)
    (this : LeafNode) (gp : GridParam) : outcome (LeafNode * Z) :=
  let '(this, gp) := SetupGPAndFnPtr_internal api this gp in
  let key := GetKernelKey api this in
  (* common: sum up the value *)
  let bytes := (lds this * complex_type_size api (precision (node this)))
                 mod lds_bytes_modulus api in
  bytes <~
    (if bool_decide (scheme (node this) = CS_KERNEL_STOCKHAM)
        && bool_decide (ebtype (node this) = EmbeddedType_NONE) then
       if has_function pool key then
         let kernel := get_kernel pool key in
         double_half_lds_alloc <~
           (if is_device_gcn_arch api (deviceProp (node this)) "gfx90a" then
              len0 <~ at_index (length (node this)) 0 ;;
              Returns ((len0 =? 343) || (len0 =? 49))
            else Returns false) ;;
         if half_lds kernel && negb double_half_lds_alloc
         then Returns (bytes / 2) else Returns bytes
       else Returns bytes
     else Returns bytes) ;;
  (* SBCC support half-lds conditionally *)
  let bytes :=
    if bool_decide (scheme (node this) = CS_KERNEL_STOCKHAM_BLOCK_CC)
       && bool_decide (dir2regMode this = TRY_ENABLE_IF_SUPPORT)
       && bool_decide (ebtype (node this) = EmbeddedType_NONE) then
      if has_function pool key then
        if half_lds (get_kernel pool key) then bytes / 2 else bytes
      else bytes
    else bytes in
  Returns (this, bytes).

Definition lds_message (requested provided : Z) : string :=
  (to_string requested ++ " bytes of LDS requested, but device only provides "
     ++ to_string provided)%string.

Definition SetupGridParamAndFuncPtr (api : LeafApi) (pool : function_pool)
    (this : LeafNode) (gp : GridParam) : outcome (LeafNode * GridParam) :=
  r <~ requested_lds_bytes api pool this gp ;;
  let '(this, bytes) := r in
  let gp := {| lds_bytes := bytes |} in
  (* Confirm that the requested LDS bytes will fit into what the device
     can provide. *)
  if bytes >? sharedMemPerBlock (deviceProp (node this)) then
    Throws (lds_message bytes (sharedMemPerBlock (deviceProp (node this))))
  else Returns (this, gp).

End LeafNode.

(* ------------------------------------------------------------------ *)
(** ** Collapsing contiguous dimensions into the batch ([tree_node.cpp]) *)

(** The lambda [collectCollapse]. [dims_rev] is [collapsibleDims] read
    from [rbegin()] to [rend()]; [curStride] starts as the distance.
    Result: [dimsToCollapse] and the updated [newBatch]. *)
Fixpoint collectCollapse (dims_rev : list nat) (curStride : Z) (newBatch : Z)
    (length stride : list Z) : outcome (list nat * Z) :=
  match dims_rev with
  | [] => Returns ([], newBatch)
  | i :: rest =>
      s <~ at_index stride i ;;
      if s =? 0 then Undefined (* remainder of a division by zero *)
      else if negb (curStride mod s =? 0) then Returns ([], newBatch)
      else
        len <~ at_index length i ;;
        if negb (curStride / s =? len) then Returns ([], newBatch)
        else
          r <~ collectCollapse rest s (size_t_wrap (newBatch * len)) length stride ;;
          Returns (i :: fst r, snd r)
  end.

(** [v.erase(v.begin() + i)]. *)
Definition erase_at {A : Type} (v : list A) (i : nat) : outcome (list A) :=
  _ <~ at_index v i ;;
  Returns (delete i v).

(** The lambda [doCollapse]. Result: the distance, the lengths and the
    strides after the dimensions are erased. *)
Fixpoint doCollapse (dimsToCollapse : list nat) (dist : Z)
    (lengthToCollapse strideToCollapse : list Z) : outcome (Z * list Z * list Z) :=
  match dimsToCollapse with
  | [] => Returns (dist, lengthToCollapse, strideToCollapse)
  | i :: rest =>
      len <~ at_index lengthToCollapse i ;;
      if len =? 0 then Undefined (* division by zero *)
      else
        let dist := dist / len in
        lengthToCollapse <~ erase_at lengthToCollapse i ;;
        strideToCollapse <~ erase_at strideToCollapse i ;;
        doCollapse rest dist lengthToCollapse strideToCollapse
  end.

(** The text streamed after ["collapsed contiguous high length(s)"]: the
    collapsed lengths, lowest dimension first. *)
Fixpoint collapsed_lengths_text (dims : list nat) (length : list Z) : outcome string :=
  match dims with
  | [] => Returns EmptyString
  | i :: rest =>
      len <~ at_index length i ;;
      t <~ collapsed_lengths_text rest length ;;
      Returns (" " ++ to_string len ++ t)%string
  end.

(** [TreeNode::CollapseContiguousDims] after its loop over the children. *)
Definition collapse_own_dims (api : NodeApi) (this : TreeNode) : outcome TreeNode :=
  let collapsibleDims := CollapsibleDims api this in
  if bool_decide (collapsibleDims = []) then Returns this
  else
    r <~ collectCollapse (reverse collapsibleDims) (iDist this) (batch this)
           (length this) (inStride this) ;;
    let '(inputDimsToCollapse, newInputBatch) := r in
    let outputLengthTemp := GetOutputLength api this in
    r <~ collectCollapse (reverse collapsibleDims) (oDist this) (batch this)
           outputLengthTemp (outStride this) ;;
    let '(outputDimsToCollapse, newOutputBatch) := r in
    if negb (bool_decide (inputDimsToCollapse = outputDimsToCollapse))
       || negb (newInputBatch =? newOutputBatch)
    then Returns this
    else
      this <~
        (if negb (bool_decide (inputDimsToCollapse = [])) then
           t <~ collapsed_lengths_text (reverse inputDimsToCollapse) (length this) ;;
           let msg := ("collapsed contiguous high length(s)" ++ t ++ " into batch")%string in
           Returns (with_comments (comments this ++ [msg]) this)
         else Returns this) ;;
      r <~ doCollapse inputDimsToCollapse (iDist this) (length this) (inStride this) ;;
      let '(iDist', length', inStride') := r in
      let this := with_inStride inStride' (with_length length' (with_iDist iDist' this)) in
      r <~ doCollapse outputDimsToCollapse (oDist this) outputLengthTemp (outStride this) ;;
      let '(oDist', outputLengthTemp, outStride') := r in
      let this := with_outStride outStride' (with_oDist oDist' this) in
      let this := with_batch newInputBatch this in
      if negb (bool_decide (outputLength this = []))
      then Returns (with_outputLength outputLengthTemp this)
      else Returns this.

Fixpoint CollapseContiguousDims (api : NodeApi) (this : TreeNode) {struct this}
  : outcome TreeNode :=
  (* collapse children *)
  children <~
    (fix collapse_children (cs : list TreeNode) : outcome (list TreeNode) :=
       match cs with
       | [] => Returns []
       | child :: cs' =>
           child <~ CollapseContiguousDims api child ;;
           cs' <~ collapse_children cs' ;;
           Returns (child :: cs')
       end) (childNodes this) ;;
  collapse_own_dims api (with_childNodes children this).

(** Product of the entries of a length vector. *)
Definition prod_list (v : list Z) : Z := foldr Z.mul 1 v.

(* ------------------------------------------------------------------ *)
(** ** The caller of the leaf sanity check *)

(** Modelled from the spec: the plan-construction caller of
    [LeafNode::SanityCheck], which is not among the translated files.
    A supplied kernel selection that fails the check is a recoverable
    validation failure: the caller falls back to default kernel selection
    (the check is run again with no supplied keys), and the failure is
    fatal only when the default selection finds no kernel either. *)
Definition SanityCheck_or_default (api : LeafApi) (pool : function_pool)
    (this : LeafNode) (supplied : list FMKey.t)
  : outcome (LeafNode * list FMKey.t * function_pool) :=
  match LeafNode.SanityCheck api pool this supplied with
  | Throws _ => LeafNode.SanityCheck api pool this []
  | r => r
  end.

(* ------------------------------------------------------------------ *)
(** ** Vocabulary of the statements *)

(** A call [r] that first runs [c]: when [c] fails, [r] fails the same
    way; when [c] returns [a], [k a] holds. *)
Definition after_call {A B : Type} (c : outcome A) (r : outcome B)
    (k : A -> Prop) : Prop :=
  match c with
  | Returns a => k a
  | Throws w => r = Throws w
  | AssertFails => r = AssertFails
  | Undefined => r = Undefined
  end.

(** The minimum-rows heuristic of [SBCC_dim_available]. *)
Definition minRows (precision : rocfft_precision) : Z :=
  match precision with
  | rocfft_precision_single => 8
  | rocfft_precision_double => 4
  end.

(** The node after [set_complex_length], for a node whose [length] is
    [L :: rest] in real units, and the two pointers it returns. *)
Definition complex_side (node : TreeNode) (L : Z) (rest : list Z) : TreeNode :=
  if direction node =? -1
  then with_outputLength (L / 2 + 1 :: rest) node
  else with_length (L / 2 + 1 :: rest) (with_outputLength (L :: rest) node).

Definition realLength_of (node : TreeNode) : LengthRef :=
  if direction node =? -1 then Ref_length else Ref_outputLength.

Definition complexLength_of (node : TreeNode) : LengthRef :=
  if direction node =? -1 then Ref_outputLength else Ref_length.

(** The complex sub-plan that [RealTransEvenNode] asks the builder for:
    half the real length along the fastest dimension, forced in-place. *)
Definition cfftPlan_request (api : NodeApi) (this : TreeNode) (L : Z) (rest : list Z)
  : TreeNode :=
  with_allowOutofplace false
    (CreateExplicitNode api
       (NodeMetaData.with_length (L / 2 :: rest)
          (NodeMetaData.with_dimension (dimension this) (NodeMetaData_ctor api this)))
       this).

(** The node once it is decided whether pre/post-processing is fused. *)
Definition fuse_decided (api : NodeApi) (cfft : TreeNode) (this : TreeNode) : TreeNode :=
  if try_fuse_pre_post_processing this
  then with_try_fuse_pre_post_processing (isLeafNode api cfft) this
  else this.

(** The callback node of [RealTransEvenNode], child of [parent]. *)
Definition applyCallback_of (api : NodeApi) (parent : TreeNode) (len : list Z) : TreeNode :=
  with_length len
    (with_dimension (dimension parent)
       (CreateNodeFromScheme api CS_KERNEL_APPLY_CALLBACK parent)).

(** The children of a [CS_REAL_TRANSFORM_EVEN] node built around the
    complex sub-plan [cfft]: two when the processing is fused into the
    kernel, three when it is a sibling of its own. [real] is the length
    vector in real units, which the callback node carries. *)
Definition even_children (api : NodeApi) (forward fused : bool) (cfft : TreeNode)
    (real : list Z) (children : list TreeNode) : Prop :=
  if fused then
    exists applyCallback kernel,
      children = (if forward then [applyCallback; kernel] else [kernel; applyCallback])
      /\ scheme applyCallback = CS_KERNEL_APPLY_CALLBACK
      /\ length applyCallback = real
      /\ ebtype kernel = (if forward then Real2C_POST else C2Real_PRE)
      /\ scheme kernel = scheme cfft
      /\ childNodes kernel = childNodes cfft
  else
    exists applyCallback processing,
      children =
        (if forward
         then [applyCallback;
               GetLastLeaf_update api
                 (with_allowedOutArrayTypes [rocfft_array_type_complex_interleaved]) cfft;
               processing]
         else [processing; cfft; applyCallback])
      /\ scheme applyCallback = CS_KERNEL_APPLY_CALLBACK
      /\ length applyCallback = real
      /\ scheme processing =
           (if forward then CS_KERNEL_R_TO_CMPLX else CS_KERNEL_CMPLX_TO_R).


(** The [CS_REAL_TRANSFORM_EVEN] child that the column-block strategy
    creates under [parent]: [len0] is [length[0]] of the 2-D node. *)
Definition even_child_request (api : NodeApi) (parent : TreeNode) (len0 : Z)
    (len : list Z) : TreeNode :=
  with_dimension 1
    (with_length len
       (with_try_fuse_pre_post_processing (len0 <=? 2048)
          (CreateNodeFromScheme api CS_REAL_TRANSFORM_EVEN parent))).

(** The scheme of the column kernel along dimension 1. *)
Definition sbccScheme_of (pool : function_pool) (len1 : Z)
    (precision : rocfft_precision) : ComputeScheme :=
  if has_SBCC_kernel pool len1 precision
  then CS_KERNEL_STOCKHAM_BLOCK_CC else CS_KERNEL_STOCKHAM.

(** Members that adding children to a node leaves alone. *)
Definition same_shape (a b : TreeNode) : Prop :=
  scheme a = scheme b /\ length a = length b /\ outputLength a = outputLength b
  /\ solution a = solution b /\ direction a = direction b.

(** The column kernel that the inverse column-block strategy puts first,
    for a 2-D node whose [length] is [l0 :: l1 :: rest]. *)
Definition sbccY_inverse (api : NodeApi) (pool : function_pool) (this : TreeNode)
    (l0 l1 : Z) (rest : list Z) : TreeNode :=
  with_length (l1 :: l0 :: rest)
    (with_outputLength (l0 :: l1 :: rest)
       (CreateNodeFromScheme api (sbccScheme_of pool l1 (precision this)) this)).

(** Every listed dimension is within the two vectors, with a stride and
    a length that are not zero. *)
Definition dims_usable (dims : list nat) (len str : list Z) : Prop :=
  Forall (fun i => exists s l, str !! i = Some s /\ len !! i = Some l
                               /\ s <> 0 /\ l <> 0) dims.

(** The collapsible dimensions of a node are ascending and usable on
    both sides, whatever its children have become; and so for every node
    of a tree. *)
Definition layout_usable (api : NodeApi) (n : TreeNode) : Prop :=
  forall children,
    let n0 := with_childNodes children n in
    StronglySorted lt (CollapsibleDims api n0)
    /\ dims_usable (CollapsibleDims api n0) (length n) (inStride n)
    /\ dims_usable (CollapsibleDims api n0) (GetOutputLength api n0) (outStride n).

Fixpoint tree_usable (api : NodeApi) (n : TreeNode) {struct n} : Prop :=
  layout_usable api n
  /\ (fix all (cs : list TreeNode) : Prop :=
        match cs with
        | [] => True
        | c :: cs' => tree_usable api c /\ all cs'
        end) (childNodes n).

(* ------------------------------------------------------------------ *)
(** ** A concrete configuration

    Services to run the functions on examples. The factory makes a node
    of the requested scheme that inherits precision, batch, direction and
    device from its parent, as the constructor of [NodeMetaData] does;
    every complex sub-plan is a single Stockham kernel; the dimensions
    above the first are collapsible; the catalog is a list of kernels. *)

Definition blank_node (s : ComputeScheme) (parent : TreeNode) : TreeNode :=
  {| scheme := s; dimension := 1; length := []; outputLength := [];
     inStride := []; outStride := []; iDist := 0; oDist := 0;
     batch := batch parent; direction := direction parent;
     precision := precision parent; inArrayType := rocfft_array_type_unset;
     allowedOutArrayTypes :=
       [rocfft_array_type_complex_interleaved; rocfft_array_type_complex_planar];
     ebtype := EmbeddedType_NONE; allowOutofplace := true;
     try_fuse_pre_post_processing := false; solution := TR_PAIR;
     comments := []; deviceProp := deviceProp parent;
     fuseShims := []; childNodes := [] |}.

Definition single_kernel_api : NodeApi :=
  {| CreateNodeFromScheme := blank_node;
     CreateExplicitNode := fun data parent =>
       with_length (NodeMetaData.length data)
         (with_dimension (NodeMetaData.dimension data)
            (blank_node CS_KERNEL_STOCKHAM parent));
     RecursiveBuildTree := ret;
     AssignParams := ret;
     isLeafNode := fun n => match childNodes n with [] => true | _ => false end;
     GetLastLeaf_update := fun f n => f n;
     IsRootPlanC2CTransform := fun _ => false;
     IsSchemeFusable := fun _ _ => false;
     CollapsibleDims := fun n => seq 1 (List.length (length n) - 1);
     GetOutputLength := fun n =>
       match outputLength n with [] => length n | _ => outputLength n end |}.

Definition gfx90a : hipDeviceProp_t :=
  {| sharedMemPerBlock := 65536; gcnArchName := "gfx90a" |}.

(** A root node: [len] in real units, unit strides left unset. *)
Definition root_node (s : ComputeScheme) (dir : Z) (inType : rocfft_array_type)
    (len : list Z) : TreeNode :=
  {| scheme := s; dimension := Z.of_nat (List.length len); length := len;
     outputLength := []; inStride := []; outStride := []; iDist := 0; oDist := 0;
     batch := 1; direction := dir; precision := rocfft_precision_single;
     inArrayType := inType;
     allowedOutArrayTypes :=
       [rocfft_array_type_complex_interleaved; rocfft_array_type_complex_planar];
     ebtype := EmbeddedType_NONE; allowOutofplace := true;
     try_fuse_pre_post_processing := false; solution := TR_PAIR;
     comments := []; deviceProp := gfx90a; fuseShims := []; childNodes := [] |}.

Definition fpkey_of (len : Z) (precision : rocfft_precision) (s : ComputeScheme)
  : FMKey.t :=
  FMKey.mk (len, 0) precision s SBRC_NONE EmbeddedType_NONE.

Definition find_kernel (kernels : list (FMKey.t * FFTKernel)) (key : FMKey.t)
  : option FFTKernel :=
  snd <$> List.find (fun e => bool_decide (e.1 = key)) kernels.

Definition pool_of (kernels : list (FMKey.t * FFTKernel)) : function_pool :=
  {| fpkey := fpkey_of;
     fpkey_normal := fun len precision => fpkey_of len precision CS_KERNEL_STOCKHAM;
     has_function := fun key =>
       match find_kernel kernels key with Some _ => true | None => false end;
     get_kernel := fun key =>
       default {| transforms_per_block := 0; half_lds := false;
                  direct_to_from_reg := false; factors := [] |}
         (find_kernel kernels key);
     has_SBCC_kernel := fun len precision =>
       match find_kernel kernels (fpkey_of len precision CS_KERNEL_STOCKHAM_BLOCK_CC) with
       | Some _ => true
       | None => false
       end |}.

Definition kernel_of (tpb : Z) (fs : list Z) : FFTKernel :=
  {| transforms_per_block := tpb; half_lds := false;
     direct_to_from_reg := false; factors := fs |}.

(** A catalog with a block-CC kernel and a generic kernel of length 64,
    and a generic kernel of length 100 that does 4 transforms per block. *)
Definition small_pool : function_pool :=
  pool_of
    [(fpkey_of 64 rocfft_precision_single CS_KERNEL_STOCKHAM_BLOCK_CC, kernel_of 16 [8; 8]);
     (fpkey_of 64 rocfft_precision_single CS_KERNEL_STOCKHAM, kernel_of 4 [8; 8]);
     (fpkey_of 100 rocfft_precision_single CS_KERNEL_STOCKHAM, kernel_of 4 [10; 10])].

(** Leaf services for the examples: the key of a node is its specified
    key when it has one and is otherwise made of the node's own lengths,
    precision, scheme and embedded type; the hook leaves node and grid
    parameters alone; a complex number takes 8 bytes in single precision
    and 16 in double; [lds_bytes] is a 32-bit unsigned integer. *)
Definition node_key (l : LeafNode) : FMKey.t :=
  match specified_key l with
  | Some key => key
  | None =>
      FMKey.mk
        (nth 0 (length (node l)) 0,
         if dimension (node l) =? 2 then nth 1 (length (node l)) 0 else 0)
        (precision (node l)) (scheme (node l)) SBRC_NONE (ebtype (node l))
  end.

Definition pool_with (pool : function_pool) (key : FMKey.t) : function_pool :=
  {| fpkey := fpkey pool;
     fpkey_normal := fpkey_normal pool;
     has_function := fun k => bool_decide (k = key) || has_function pool k;
     get_kernel := get_kernel pool;
     has_SBCC_kernel := has_SBCC_kernel pool |}.

Definition default_leaf_api : LeafApi :=
  {| EmptyFMKey := FMKey.mk (0, 0) rocfft_precision_single CS_NONE SBRC_NONE EmbeddedType_NONE;
     TreeNode_GetKernelKey := node_key;
     add_new_kernel := pool_with;
     TreeNode_SanityCheck := fun l keys => Returns (l, keys);
     SetupGPAndFnPtr_internal := fun l gp => (l, gp);
     complex_type_size := fun p =>
       match p with
       | rocfft_precision_single => 8
       | rocfft_precision_double => 16
       end;
     is_device_gcn_arch := fun d arch => String.prefix arch (gcnArchName d);
     lds_bytes_modulus := 2 ^ 32 |}.

(** A Stockham leaf of the given length whose kernel asks for [lds]
    complex numbers of shared memory. *)
Definition stockham_leaf (len : list Z) (lds : Z) (device : hipDeviceProp_t) : LeafNode :=
  {| node :=
       {| scheme := CS_KERNEL_STOCKHAM; dimension := 1; length := len;
          outputLength := []; inStride := [1]; outStride := [1];
          iDist := 0; oDist := 0; batch := 1; direction := -1;
          precision := rocfft_precision_single;
          inArrayType := rocfft_array_type_complex_interleaved;
          allowedOutArrayTypes := [rocfft_array_type_complex_interleaved];
          ebtype := EmbeddedType_NONE; allowOutofplace := true;
          try_fuse_pre_post_processing := false; solution := TR_PAIR;
          comments := []; deviceProp := device; fuseShims := []; childNodes := [] |};
     externalKernel := true; specified_key := None; sbrcTranstype := SBRC_NONE;
     dir2regMode := FORCE_OFF_OR_NOT_SUPPORT; kernelFactors := []; lds := lds |}.

Definition no_shared_memory : hipDeviceProp_t :=
  {| sharedMemPerBlock := 0; gcnArchName := "gfx000" |}.

(** The assigned key disagrees with the node. *)
Definition disagrees (this : LeafNode) (key : FMKey.t) : Prop :=
  length (node this) !! 0%nat <> Some (FMKey.lengths key).1
  \/ (dimension (node this) = 2
      /\ length (node this) !! 1%nat <> Some (FMKey.lengths key).2)
  \/ precision (node this) <> FMKey.precision key
  \/ scheme (node this) <> FMKey.scheme key
  \/ ebtype (node this) <> FMKey.kernel_config_ebType key.

(** Product of the lengths at the given dimensions. *)
Fixpoint prod_at (length : list Z) (dims : list nat) : Z :=
  match dims with
  | [] => 1
  | i :: rest => default 1 (length !! i) * prod_at length rest
  end.

(** Contiguity of the collapsed dimensions, highest first: the running
    distance is the stride times the length of the dimension, and the
    stride becomes the running distance of the next one. *)
Fixpoint contiguous (dims : list nat) (dist : Z) (length stride : list Z) : Prop :=
  match dims with
  | [] => True
  | i :: rest =>
      exists s len,
        stride !! i = Some s /\ length !! i = Some len
        /\ s <> 0 /\ dist = s * len
        /\ contiguous rest s length stride
  end.

(** Later dimensions are lower than earlier ones. *)
Definition descending (dims : list nat) : Prop :=
  StronglySorted (fun a b => (b < a)%nat) dims.


(** The members that collapsing may change. *)
Definition own_layout (n : TreeNode) :=
  (length n, outputLength n, inStride n, outStride n, iDist n, oDist n, batch n).

(** Inputs of the examples: the scenarios of the specification and a
    few nodes around them. *)
Definition real_1024_forward : TreeNode :=
  with_try_fuse_pre_post_processing true
    (root_node CS_REAL_TRANSFORM_EVEN (-1) rocfft_array_type_real [1024]).

Definition real_1024_inverse : TreeNode :=
  root_node CS_REAL_TRANSFORM_EVEN 1 rocfft_array_type_hermitian_interleaved [1024].

Definition real_64x64_forward : TreeNode :=
  root_node CS_REAL_2D_EVEN (-1) rocfft_array_type_real [64; 64].

Definition real_4000x64_inverse : TreeNode :=
  root_node CS_REAL_2D_EVEN 1 rocfft_array_type_hermitian_interleaved [4000; 64].

Definition real_9x3_forward : TreeNode :=
  root_node CS_REAL_TRANSFORM_USING_CMPLX (-1) rocfft_array_type_real [9; 3].

(** A 4 x 2 x 3 complex kernel, tightly packed, in place. *)
Definition packed_4x2x3 : TreeNode :=
  with_batch 5
    (with_oDist 24
       (with_iDist 24
          (with_outStride [1; 4; 8]
             (with_inStride [1; 4; 8]
                (root_node CS_KERNEL_STOCKHAM (-1)
                   rocfft_array_type_complex_interleaved [4; 2; 3]))))).

Definition key_128 : FMKey.t :=
  fpkey_of 128 rocfft_precision_single CS_KERNEL_STOCKHAM.

(* ------------------------------------------------------------------ *)
(** ** Powers of a radix ([library/src/include/plan.h]) *)

(** [std::numeric_limits<size_t>::max()]. *)
Definition SIZE_MAX : Z := SIZE_T_MODULUS - 1.

(** The loop of [PowMax<base>()], run for at most [fuel] tests of its
    condition; [None] when it is still running after them. *)
Fixpoint PowMax_loop (fuel : nat) (base u : Z) : option Z :=
  match fuel with
  | O => None
  | S fuel =>
      if u <? SIZE_MAX / base
      then PowMax_loop fuel base (size_t_wrap (u * base))
      else Some u
  end.

(** [PowMax<base>()]. The template argument is an [int] and is converted
    to [size_t] where it meets [u]. There is no value for base 0 (a
    division by zero) and for a loop that does not end (base 1). *)
Definition PowMax (base : Z) : option Z :=
  let base := size_t_wrap base in
  if base =? 0 then None else PowMax_loop 64 base base.

(** [IsPow<base>(u)]. *)
Definition IsPow (base u : Z) : option bool :=
  match PowMax base with
  | Some max => Some ((0 <? u) && (max mod u =? 0))
  | None => None
  end.

(* ------------------------------------------------------------------ *)
(** ** Pre/post-processing kernels and copy kernels

    The device functions are names; [PrintScheme], the launch bound
    [LAUNCH_BOUNDS_R2C_C2R_KERNEL], the integer type of the grid members
    of [GridParam] and the text of [std::out_of_range] are declared
    outside the translated files. *)

Inductive DevFnCall : Type :=
| apply_real_callback
| real2complex
| complex2real
| hermitian2complex
| complex2hermitian
| r2c_1d_post
| r2c_1d_post_transpose
| c2r_1d_pre
| transpose_c2r_1d_pre.

(** The grid members of [GridParam] written by the copy kernels. *)
Record GridDims : Type := {
  b_x : Z;
  b_y : Z;
  wgs_x : Z;
  wgs_y : Z
}.

(** [grid_modulus] is the number of values of the integer type of the
    grid members; [map_at_what] is what [std::map::at] reports. *)
Record LaunchApi : Type := {
  PrintScheme : ComputeScheme -> string;
  LAUNCH_BOUNDS_R2C_C2R_KERNEL : Z;
  grid_modulus : Z;
  map_at_what : string
}.

Module PrePostKernelNode.

Definition FnCallMap (s : ComputeScheme) : option DevFnCall :=
  match s with
  | CS_KERNEL_R_TO_CMPLX => Some r2c_1d_post
  | CS_KERNEL_R_TO_CMPLX_TRANSPOSE => Some r2c_1d_post_transpose
  | CS_KERNEL_CMPLX_TO_R => Some c2r_1d_pre
  | CS_KERNEL_TRANSPOSE_CMPLX_TO_R => Some transpose_c2r_1d_pre
  | _ => None
  end.

Definition GetTwiddleTableLength (api : LaunchApi) (this : TreeNode) : outcome Z :=
  if bool_decide (scheme this = CS_KERNEL_R_TO_CMPLX)
     || bool_decide (scheme this = CS_KERNEL_R_TO_CMPLX_TRANSPOSE) then
    len0 <~ at_index (length this) 0 ;;
    Returns (size_t_wrap (2 * len0))
  else if bool_decide (scheme this = CS_KERNEL_CMPLX_TO_R) then
    len0 <~ at_index (length this) 0 ;;
    Returns (size_t_wrap (2 * size_t_wrap (len0 - 1)))
  else if bool_decide (scheme this = CS_KERNEL_TRANSPOSE_CMPLX_TO_R) then
    back <~ of_option (last (length this)) ;;
    Returns (size_t_wrap (2 * size_t_wrap (back - 1)))
  else
    Throws ("GetTwiddleTableLength: Unexpected scheme in PrePostKernelNode: "
              ++ PrintScheme api (scheme this))%string.

Definition SetupGPAndFnPtr_internal (api : LaunchApi) (this : TreeNode)
    (gp : GridDims) : outcome (DevFnCall * GridDims) :=
  match FnCallMap (scheme this) with
  | None => Throws (map_at_what api)
  | Some fnPtr => Returns (fnPtr, gp)
  end.

End PrePostKernelNode.

Module RealTransDataCopyNode.

Definition FnCallMap (s : ComputeScheme) : option DevFnCall :=
  match s with
  | CS_KERNEL_APPLY_CALLBACK => Some apply_real_callback
  | CS_KERNEL_COPY_R_TO_CMPLX => Some real2complex
  | CS_KERNEL_COPY_CMPLX_TO_R => Some complex2real
  | CS_KERNEL_COPY_HERM_TO_CMPLX => Some hermitian2complex
  | CS_KERNEL_COPY_CMPLX_TO_HERM => Some complex2hermitian
  | _ => None
  end.

Definition SetupGPAndFnPtr_internal (api : LaunchApi) (this : TreeNode)
    (gp : GridDims) : outcome (DevFnCall * GridDims) :=
  match FnCallMap (scheme this) with
  | None => Throws (map_at_what api)
  | Some fnPtr =>
      if bool_decide (scheme this = CS_KERNEL_APPLY_CALLBACK) then
        Returns (fnPtr,
                 {| b_x := b_x gp; b_y := b_y gp;
                    wgs_x := 64 mod grid_modulus api; wgs_y := wgs_y gp |})
      else
        len0 <~ at_index (length this) 0 ;;
        let bound := size_t_wrap (LAUNCH_BOUNDS_R2C_C2R_KERNEL api) in
        if bound =? 0 then Undefined (* division by zero *)
        else
          Returns (fnPtr,
                   {| b_x := size_t_wrap (size_t_wrap (len0 - 1) / bound + 1)
                               mod grid_modulus api;
                      b_y := batch this mod grid_modulus api;
                      wgs_x := LAUNCH_BOUNDS_R2C_C2R_KERNEL api mod grid_modulus api;
                      wgs_y := 1 mod grid_modulus api |})
  end.

End RealTransDataCopyNode.

(* ------------------------------------------------------------------ *)
(** ** CS_REAL_3D_EVEN: the layout passes of the column-block and the
    transpose strategies *)

Module Real3DEvenNode.

(** What the forward branch does to the output side of a transpose:
    [outStride.push_back(length[2] * length[1]); outStride.push_back(1);
     outStride.push_back(length[1]); oDist = iDist]. *)
Definition transpose_out_forward (trans : TreeNode) : outcome TreeNode :=
  len2 <~ at_index (length trans) 2 ;;
  len1 <~ at_index (length trans) 1 ;;
  let trans := with_outStride (outStride trans ++ [size_t_wrap (len2 * len1)]) trans in
  let trans := with_outStride (outStride trans ++ [1]) trans in
  len1 <~ at_index (length trans) 1 ;;
  let trans := with_outStride (outStride trans ++ [len1]) trans in
  Returns (with_oDist (iDist trans) trans).

(** What the inverse branch does to it:
    [outStride.push_back(length[1]); outStride.push_back(1);
     outStride.push_back(outStride[0] * length[0]); oDist = iDist]. *)
Definition transpose_out_inverse (trans : TreeNode) : outcome TreeNode :=
  len1 <~ at_index (length trans) 1 ;;
  let trans := with_outStride (outStride trans ++ [len1]) trans in
  let trans := with_outStride (outStride trans ++ [1]) trans in
  out0 <~ at_index (outStride trans) 0 ;;
  len0 <~ at_index (length trans) 0 ;;
  let trans := with_outStride (outStride trans ++ [size_t_wrap (out0 * len0)]) trans in
  Returns (with_oDist (iDist trans) trans).

(** [{v[1], v[0], v[2]}]. *)
Definition pick_102 (v : list Z) : outcome (list Z) :=
  v1 <~ at_index v 1 ;;
  v0 <~ at_index v 0 ;;
  v2 <~ at_index v 2 ;;
  Returns [v1; v0; v2].

(** [Real3DEvenNode::AssignParams_internal_SBCC]. *)
Definition AssignParams_internal_SBCC (api : NodeApi) (this : TreeNode) : M TreeNode :=
  assert (Nat.eqb (List.length (childNodes this)) 3) ;;;
  let forward := bool_decide (inArrayType this = rocfft_array_type_real) in
  if forward then
    rcplan <- lift (at_index (childNodes this) 0) ;;
    (* The first sub-plan changes type in real/complex transforms. *)
    let rcplan := with_inStride (inStride this) rcplan in
    let rcplan := with_iDist (iDist this) rcplan in
    let rcplan := with_outStride (outStride this) rcplan in
    let rcplan := with_oDist (oDist this) rcplan in
    let rcplan := with_dimension 1 rcplan in
    rcplan <- AssignParams api rcplan ;;
    let this := with_childNodes (<[0%nat := rcplan]> (childNodes this)) this in
    (* in-place SBCC for higher dims *)
    sbccZ <- lift (at_index (childNodes this) 1) ;;
    let sbccZ := with_inStride (outStride this) sbccZ in
    (* SBCC along Z dim *)
    swapped <- lift (swap_at (inStride sbccZ) 1 2) ;;
    let sbccZ := with_inStride swapped sbccZ in
    swapped <- lift (swap_at (inStride sbccZ) 0 1) ;;
    let sbccZ := with_inStride swapped sbccZ in
    let sbccZ := with_iDist (oDist this) sbccZ in
    let sbccZ := with_outStride (inStride sbccZ) sbccZ in
    let sbccZ := with_oDist (oDist this) sbccZ in
    sbccZ <- AssignParams api sbccZ ;;
    let this := with_childNodes (<[1%nat := sbccZ]> (childNodes this)) this in
    sbccY <- lift (at_index (childNodes this) 2) ;;
    let sbccY := with_inStride (outStride this) sbccY in
    (* SBCC along Y dim *)
    swapped <- lift (swap_at (inStride sbccY) 0 1) ;;
    let sbccY := with_inStride swapped sbccY in
    let sbccY := with_iDist (oDist this) sbccY in
    let sbccY := with_outStride (inStride sbccY) sbccY in
    let sbccY := with_oDist (oDist this) sbccY in
    sbccY <- AssignParams api sbccY ;;
    ret (with_childNodes (<[2%nat := sbccY]> (childNodes this)) this)
  else
    (* input strides for last c2r node *)
    let c2r_inStride := inStride this in
    let c2r_iDist := iDist this in
    (* in-place SBCC for higher dimensions *)
    sbccZ <- lift (at_index (childNodes this) 0) ;;
    let sbccZ := with_inStride (inStride this) sbccZ in
    (* SBCC along Z dim *)
    swapped <- lift (swap_at (inStride sbccZ) 1 2) ;;
    let sbccZ := with_inStride swapped sbccZ in
    swapped <- lift (swap_at (inStride sbccZ) 0 1) ;;
    let sbccZ := with_inStride swapped sbccZ in
    let sbccZ := with_iDist (iDist this) sbccZ in
    let sbccZ := with_outStride (inStride sbccZ) sbccZ in
    let sbccZ := with_oDist (iDist this) sbccZ in
    sbccZ <- AssignParams api sbccZ ;;
    let this := with_childNodes (<[0%nat := sbccZ]> (childNodes this)) this in
    sbccY <- lift (at_index (childNodes this) 1) ;;
    let sbccY := with_inStride (inStride this) sbccY in
    (* SBCC along Y dim *)
    swapped <- lift (swap_at (inStride sbccY) 0 1) ;;
    let sbccY := with_inStride swapped sbccY in
    let sbccY := with_iDist (iDist this) sbccY in
    let sbccY := with_outStride (inStride sbccY) sbccY in
    let sbccY := with_oDist (iDist this) sbccY in
    sbccY <- AssignParams api sbccY ;;
    let this := with_childNodes (<[1%nat := sbccY]> (childNodes this)) this in
    let back := (List.length (childNodes this) - 1)%nat in
    crplan <- lift (at_index (childNodes this) back) ;;
    let crplan := with_inStride c2r_inStride crplan in
    let crplan := with_iDist c2r_iDist crplan in
    let crplan := with_outStride (outStride this) crplan in
    let crplan := with_oDist (oDist this) crplan in
    let crplan := with_dimension 1 crplan in
    crplan <- AssignParams api crplan ;;
    ret (with_childNodes (<[back := crplan]> (childNodes this)) this).

(** [Real3DEvenNode::AssignParams_internal_TR_pairs]. *)
Definition AssignParams_internal_TR_pairs (api : NodeApi) (this : TreeNode)
  : M TreeNode :=
  let forward := bool_decide (inArrayType this = rocfft_array_type_real) in
  if forward then
    rcplan <- lift (at_index (childNodes this) 0) ;;
    (* The first sub-plan changes type in real/complex transforms. *)
    let rcplan := with_inStride (inStride this) rcplan in
    let rcplan := with_iDist (iDist this) rcplan in
    let rcplan := with_outStride (outStride this) rcplan in
    let rcplan := with_oDist (oDist this) rcplan in
    let rcplan := with_dimension 1 rcplan in
    rcplan <- AssignParams api rcplan ;;
    let this := with_childNodes (<[0%nat := rcplan]> (childNodes this)) this in
    trans1 <- lift (at_index (childNodes this) 1) ;;
    let trans1 := with_inStride (outStride rcplan) trans1 in
    let trans1 := with_iDist (oDist rcplan) trans1 in
    trans1 <- lift (transpose_out_forward trans1) ;;
    let this := with_childNodes (<[1%nat := trans1]> (childNodes this)) this in
    c1plan <- lift (at_index (childNodes this) 2) ;;
    let c1plan := with_inStride (outStride trans1) c1plan in
    swapped <- lift (swap_at (inStride c1plan) 0 1) ;;
    let c1plan := with_inStride swapped c1plan in
    swapped <- lift (swap_at (inStride c1plan) 1 2) ;;
    let c1plan := with_inStride swapped c1plan in
    let c1plan := with_iDist (oDist trans1) c1plan in
    let c1plan := with_outStride (inStride c1plan) c1plan in
    let c1plan := with_oDist (iDist c1plan) c1plan in
    let c1plan := with_dimension 1 c1plan in
    c1plan <- AssignParams api c1plan ;;
    let this := with_childNodes (<[2%nat := c1plan]> (childNodes this)) this in
    trans2 <- lift (at_index (childNodes this) 3) ;;
    let trans2 := with_inStride (outStride c1plan) trans2 in
    let trans2 := with_iDist (oDist c1plan) trans2 in
    trans2 <- lift (transpose_out_forward trans2) ;;
    let this := with_childNodes (<[3%nat := trans2]> (childNodes this)) this in
    c2plan <- lift (at_index (childNodes this) 4) ;;
    let c2plan := with_inStride (outStride trans2) c2plan in
    swapped <- lift (swap_at (inStride c2plan) 0 1) ;;
    let c2plan := with_inStride swapped c2plan in
    swapped <- lift (swap_at (inStride c2plan) 1 2) ;;
    let c2plan := with_inStride swapped c2plan in
    let c2plan := with_iDist (oDist trans2) c2plan in
    let c2plan := with_outStride (inStride c2plan) c2plan in
    let c2plan := with_oDist (iDist c2plan) c2plan in
    let c2plan := with_dimension 1 c2plan in
    c2plan <- AssignParams api c2plan ;;
    let this := with_childNodes (<[4%nat := c2plan]> (childNodes this)) this in
    trans3 <- lift (at_index (childNodes this) 5) ;;
    let trans3 := with_inStride (outStride c2plan) trans3 in
    let trans3 := with_iDist (oDist c2plan) trans3 in
    let trans3 := with_outStride (outStride this) trans3 in
    swapped <- lift (swap_at (outStride trans3) 1 2) ;;
    let trans3 := with_outStride swapped trans3 in
    swapped <- lift (swap_at (outStride trans3) 0 1) ;;
    let trans3 := with_outStride swapped trans3 in
    let trans3 := with_oDist (oDist this) trans3 in
    ret (with_childNodes (<[5%nat := trans3]> (childNodes this)) this)
  else
    trans3 <- lift (at_index (childNodes this) 0) ;;
    let trans3 := with_inStride (inStride this) trans3 in
    swapped <- lift (swap_at (inStride trans3) 1 2) ;;
    let trans3 := with_inStride swapped trans3 in
    let trans3 := with_iDist (iDist this) trans3 in
    trans3 <- lift (transpose_out_inverse trans3) ;;
    let this := with_childNodes (<[0%nat := trans3]> (childNodes this)) this in
    ccplan <- lift (at_index (childNodes this) 1) ;;
    picked <- lift (pick_102 (outStride trans3)) ;;
    let ccplan := with_inStride picked ccplan in
    let ccplan := with_iDist (oDist trans3) ccplan in
    let ccplan := with_outStride (inStride ccplan) ccplan in
    let ccplan := with_oDist (iDist ccplan) ccplan in
    let ccplan := with_dimension 1 ccplan in
    ccplan <- AssignParams api ccplan ;;
    let this := with_childNodes (<[1%nat := ccplan]> (childNodes this)) this in
    trans2 <- lift (at_index (childNodes this) 2) ;;
    let trans2 := with_inStride (outStride ccplan) trans2 in
    swapped <- lift (swap_at (inStride trans2) 1 2) ;;
    let trans2 := with_inStride swapped trans2 in
    let trans2 := with_iDist (oDist ccplan) trans2 in
    trans2 <- lift (transpose_out_inverse trans2) ;;
    let this := with_childNodes (<[2%nat := trans2]> (childNodes this)) this in
    ccplan <- lift (at_index (childNodes this) 3) ;;
    picked <- lift (pick_102 (outStride trans2)) ;;
    let ccplan := with_inStride picked ccplan in
    let ccplan := with_iDist (oDist trans2) ccplan in
    let ccplan := with_outStride (inStride ccplan) ccplan in
    let ccplan := with_oDist (iDist ccplan) ccplan in
    let ccplan := with_dimension 1 ccplan in
    ccplan <- AssignParams api ccplan ;;
    let this := with_childNodes (<[3%nat := ccplan]> (childNodes this)) this in
    trans1 <- lift (at_index (childNodes this) 4) ;;
    let trans1 := with_inStride (outStride ccplan) trans1 in
    swapped <- lift (swap_at (inStride trans1) 1 2) ;;
    let trans1 := with_inStride swapped trans1 in
    let trans1 := with_iDist (oDist ccplan) trans1 in
    trans1 <- lift (transpose_out_inverse trans1) ;;
    c2r_inStride <- lift (pick_102 (outStride trans1)) ;;
    let c2r_iDist := oDist trans1 in
    let this := with_childNodes (<[4%nat := trans1]> (childNodes this)) this in
    let back := (List.length (childNodes this) - 1)%nat in
    crplan <- lift (at_index (childNodes this) back) ;;
    let crplan := with_inStride c2r_inStride crplan in
    let crplan := with_iDist c2r_iDist crplan in
    let crplan := with_outStride (outStride this) crplan in
    let crplan := with_oDist (oDist this) crplan in
    let crplan := with_dimension 1 crplan in
    crplan <- AssignParams api crplan ;;
    ret (with_childNodes (<[back := crplan]> (childNodes this)) this).

End Real3DEvenNode.

(* ------------------------------------------------------------------ *)
(** ** The rider client ([_tmain] in [library/src/tree_node.cpp])

    The part of [_tmain] between the parsing of the command line and the
    call of [transform<T>]: the check of the array types and the strides
    left at zero. The arrays [lengths[3]], [iStrides[4]] and
    [oStrides[4]] are tuples; entry 3 of a stride array is the distance
    between the members of a batch. *)

Module rider.

Inductive rocfft_result_placement : Type :=
| rocfft_placement_inplace
| rocfft_placement_notinplace.

Inductive rocfft_transform_type : Type :=
| rocfft_transform_type_complex_forward
| rocfft_transform_type_complex_inverse
| rocfft_transform_type_real_forward
| rocfft_transform_type_real_inverse.

Definition size_t3 : Type := Z * Z * Z.
Definition size_t4 : Type := Z * Z * Z * Z.

(** [int ioArrTypeSupport[5][5]]. *)
Definition ioArrTypeSupport : list (list Z) :=
  [ [1; 1; 0; 0; 1];
    [1; 1; 0; 0; 1];
    [0; 0; 0; 0; 1];
    [0; 0; 0; 0; 1];
    [1; 1; 1; 1; 0] ].

(** The three [throw]s on the array types; [inL] and [otL] are
    [(int)inArrType] and [(int)outArrType]. A negative index into the
    table is undefined behaviour. *)
Definition check_array_types (inL otL : Z) : outcome unit :=
  if 4 <? inL then Throws "Invalid Input array type format"
  else if 4 <? otL then Throws "Invalid Output array type format"
  else if (inL <? 0) || (otL <? 0) then Undefined
  else
    row <~ at_index ioArrTypeSupport (Z.to_nat inL) ;;
    cell <~ at_index row (Z.to_nat otL) ;;
    if cell =? 0
    then Throws "Invalid combination of Input/Output array type formats"
    else Returns tt.

(** The three assignments made to a stride array in every case,
    [v[1] = v[1] ? v[1] : first * v[0];
     v[2] = v[2] ? v[2] : lengths[1] * v[1];
     v[3] = v[3] ? v[3] : lengths[2] * v[2]],
    where [first] is what stands before [v[0]] in the first one. *)
Definition default_strides (first : Z) (lengths : size_t3) (v : size_t4) : size_t4 :=
  let '(v0, v1, v2, v3) := v in
  let '(_, len1, len2) := lengths in
  let v1 := if v1 =? 0 then size_t_wrap (first * v0) else v1 in
  let v2 := if v2 =? 0 then size_t_wrap (len1 * v1) else v2 in
  let v3 := if v3 =? 0 then size_t_wrap (len2 * v2) else v3 in
  (v0, v1, v2, v3).

(** From the array types to the strides handed to [transform<T>]: the
    input strides, then the output strides. [real_code] is
    [(int)rocfft_array_type_real]; the values of the enumerators are set
    in [rocfft.h]. The pointers [rst] and [cst] name the stride array of
    the real side and of the other side. *)
Definition default_layout (real_code : Z) (place : rocfft_result_placement)
    (transformType : rocfft_transform_type) (inL otL : Z)
    (lengths : size_t3) (iStrides oStrides : size_t4)
  : outcome (size_t4 * size_t4) :=
  _ <~ check_array_types inL otL ;;
  let '(len0, _, _) := lengths in
  match transformType with
  | rocfft_transform_type_complex_forward
  | rocfft_transform_type_complex_inverse =>
      let iStrides := default_strides len0 lengths iStrides in
      match place with
      | rocfft_placement_inplace => Returns (iStrides, iStrides)
      | rocfft_placement_notinplace =>
          Returns (iStrides, default_strides len0 lengths oStrides)
      end
  | _ =>
      let N := len0 in
      let Nt := size_t_wrap (1 + len0 / 2) in
      let rcFull := (inL =? 0) || (inL =? 1) || (otL =? 0) || (otL =? 1) in
      let iflag := inL =? real_code in
      let rst := if iflag then iStrides else oStrides in
      let rst :=
        match place with
        | rocfft_placement_inplace =>
            if rcFull then default_strides (size_t_wrap (N * 2)) lengths rst
            else default_strides (size_t_wrap (Nt * 2)) lengths rst
        | rocfft_placement_notinplace => default_strides len0 lengths rst
        end in
      let cst := if iflag then oStrides else iStrides in
      let cst :=
        if rcFull then default_strides N lengths cst
        else default_strides Nt lengths cst in
      Returns (if iflag then (rst, cst) else (cst, rst))
  end.

End rider.

(* ------------------------------------------------------------------ *)
(** ** Vocabulary: transposes *)

(** The schemes on which [SetTransposeOutputLength] is defined, and the
    number of length entries each one touches. *)
Definition is_transpose (s : ComputeScheme) : bool :=
  match s with
  | CS_KERNEL_TRANSPOSE
  | CS_KERNEL_TRANSPOSE_XY_Z | CS_KERNEL_STOCKHAM_TRANSPOSE_XY_Z
  | CS_KERNEL_TRANSPOSE_Z_XY | CS_KERNEL_STOCKHAM_TRANSPOSE_Z_XY => true
  | _ => false
  end.

Definition transpose_rank (s : ComputeScheme) : nat :=
  match s with
  | CS_KERNEL_TRANSPOSE => 2
  | _ => 3
  end.

Definition is_XY_Z (s : ComputeScheme) : bool :=
  match s with
  | CS_KERNEL_TRANSPOSE_XY_Z | CS_KERNEL_STOCKHAM_TRANSPOSE_XY_Z => true
  | _ => false
  end.

Definition is_Z_XY (s : ComputeScheme) : bool :=
  match s with
  | CS_KERNEL_TRANSPOSE_Z_XY | CS_KERNEL_STOCKHAM_TRANSPOSE_Z_XY => true
  | _ => false
  end.

(** A transpose of scheme [s2] takes back what one of scheme [s1] did. *)
Definition undoes (s1 s2 : ComputeScheme) : bool :=
  match s1 with
  | CS_KERNEL_TRANSPOSE => bool_decide (s2 = CS_KERNEL_TRANSPOSE)
  | CS_KERNEL_TRANSPOSE_XY_Z | CS_KERNEL_STOCKHAM_TRANSPOSE_XY_Z => is_Z_XY s2
  | CS_KERNEL_TRANSPOSE_Z_XY | CS_KERNEL_STOCKHAM_TRANSPOSE_Z_XY => is_XY_Z s2
  | _ => false
  end.

(** Both schemes rotate three dimensions the same way. *)
Definition same_rotation (s1 s2 : ComputeScheme) : bool :=
  (is_XY_Z s1 && is_XY_Z s2) || (is_Z_XY s1 && is_Z_XY s2).

Definition transpose_4x2x3 (s : ComputeScheme) : TreeNode :=
  root_node s (-1) rocfft_array_type_complex_interleaved [4; 2; 3].

(* ------------------------------------------------------------------ *)
(** ** Vocabulary: layouts *)

(** The strides of a packed array of the given lengths, fastest first:
    each stride is the product of the lengths below it. *)
Definition packed_strides (lens : list Z) : list Z :=
  map (fun i => size_t_wrap (prod_list (take i lens))) (seq 0 (List.length lens)).

(** The distance between two packed arrays in a batch. *)
Definition packed_dist (lens : list Z) : Z := size_t_wrap (prod_list lens).

(** [v] with the entries from index [i] on halved. *)
Definition halved_from (i : nat) (v : list Z) : list Z :=
  take i v ++ map (fun s => s / 2) (drop i v).

(** Assignment of the four layout members of a node. *)
Definition with_layout (inS : list Z) (iD : Z) (outS : list Z) (oD : Z)
    (n : TreeNode) : TreeNode :=
  with_oDist oD (with_outStride outS (with_iDist iD (with_inStride inS n))).

(** A 9 x 3 real node decomposed into head copy, complex transform and
    tail copy, with a padded input layout. *)
Definition real_9x3_with_children : TreeNode :=
  with_oDist 15
    (with_outStride [1; 5]
       (with_iDist 32
          (with_inStride [1; 10]
             (with_outputLength [5; 3]
                (with_childNodes
                   [with_length [9; 3] (blank_node CS_KERNEL_COPY_R_TO_CMPLX real_9x3_forward);
                    with_length [9; 3] (blank_node CS_KERNEL_STOCKHAM real_9x3_forward);
                    with_outputLength [5; 3]
                      (with_length [9; 3]
                         (blank_node CS_KERNEL_COPY_CMPLX_TO_HERM real_9x3_forward))]
                   real_9x3_forward))))).

Definition key_64 : FMKey.t :=
  fpkey_of 64 rocfft_precision_single CS_KERNEL_STOCKHAM.

(** The length-64 Stockham leaf after a check that assigned [key_64]. *)
Definition stockham_leaf_checked : LeafNode :=
  with_kernelFactors [8; 8]
    (with_dir2regMode FORCE_OFF_OR_NOT_SUPPORT
       (with_specified_key (Some key_64)
          (with_sbrcTranstype SBRC_NONE
             (with_specified_key None (stockham_leaf [64] 64 gfx90a))))).

(** The children of an even-length node of real length 1024 x 4: the
    callback node, the complex kernel, the separate post-processing and
    pre-processing kernels. *)
Definition callback_1024x4 (parent : TreeNode) : TreeNode :=
  with_length [1024; 4] (blank_node CS_KERNEL_APPLY_CALLBACK parent).

Definition kernel_512x4 (parent : TreeNode) : TreeNode :=
  with_length [512; 4] (blank_node CS_KERNEL_STOCKHAM parent).

Definition post_512x4 : TreeNode :=
  with_outputLength [513; 4]
    (with_length [512; 4] (blank_node CS_KERNEL_R_TO_CMPLX real_1024_forward)).

Definition pre_513x4 : TreeNode :=
  with_outputLength [512; 4]
    (with_length [513; 4] (blank_node CS_KERNEL_CMPLX_TO_R real_1024_inverse)).

(** A forward node with its three children and a padded in-place
    layout; a backward one with separate pre-processing; a backward one
    with the pre-processing fused into the kernel. *)
Definition even_1024x4_forward_children : TreeNode :=
  with_oDist 2052
    (with_outStride [1; 513]
       (with_iDist 4104
          (with_inStride [1; 1026]
             (with_childNodes
                [callback_1024x4 real_1024_forward; kernel_512x4 real_1024_forward;
                 post_512x4]
                (with_outputLength [513; 4]
                   (with_length [1024; 4] real_1024_forward)))))).

Definition even_1024x4_backward_children : TreeNode :=
  with_oDist 4104
    (with_outStride [1; 1026]
       (with_iDist 2052
          (with_inStride [1; 513]
             (with_childNodes
                [pre_513x4; kernel_512x4 real_1024_inverse;
                 callback_1024x4 real_1024_inverse]
                (with_outputLength [1024; 4]
                   (with_length [513; 4] real_1024_inverse)))))).

Definition even_1024x4_backward_fused : TreeNode :=
  with_childNodes
    [with_ebtype C2Real_PRE (kernel_512x4 real_1024_inverse);
     callback_1024x4 real_1024_inverse]
    even_1024x4_backward_children.

(** Launch constants for the examples: blocks of 256 work-items and
    32-bit grid members. *)
Definition default_launch_api : LaunchApi :=
  {| PrintScheme := fun _ => "scheme"%string;
     LAUNCH_BOUNDS_R2C_C2R_KERNEL := 256;
     grid_modulus := 2 ^ 32;
     map_at_what := "map::at" |}.

(** A copy kernel over 1000 x 4 real numbers in a batch of 5. *)
Definition copy_1000x4 : TreeNode :=
  with_batch 5
    (root_node CS_KERNEL_COPY_R_TO_CMPLX (-1) rocfft_array_type_real [1000; 4]).

(** A 64 x 64 forward node of the column-block strategy with its two
    children, and one of the transpose-pair strategy with its four. *)
Definition row_64x64 : TreeNode :=
  with_length [64; 64] (blank_node CS_REAL_TRANSFORM_EVEN real_64x64_forward).

Definition column_64x33 : TreeNode :=
  with_outputLength [33; 64]
    (with_length [64; 33] (blank_node CS_KERNEL_STOCKHAM_BLOCK_CC real_64x64_forward)).

Definition real_64x64_sbcc_children : TreeNode :=
  with_layout [1; 66] 4224 [1; 33] 2112
    (with_childNodes [row_64x64; column_64x33]
       (with_solution INPLACE_SBCC
          (with_outputLength [33; 64] real_64x64_forward))).

Definition transpose_33x64 : TreeNode :=
  with_outputLength [64; 33]
    (with_length [33; 64] (blank_node CS_KERNEL_TRANSPOSE real_64x64_forward)).

Definition transpose_64x33 : TreeNode :=
  with_outputLength [33; 64]
    (with_length [64; 33] (blank_node CS_KERNEL_TRANSPOSE real_64x64_forward)).

Definition row_64x33 : TreeNode :=
  with_length [64; 33] (blank_node CS_KERNEL_STOCKHAM real_64x64_forward).

Definition real_64x64_tr_pair_children : TreeNode :=
  with_layout [1; 64] 4096 [1; 33] 2112
    (with_childNodes [row_64x64; transpose_33x64; row_64x33; transpose_64x33]
       (with_solution TR_PAIR
          (with_outputLength [33; 64] real_64x64_forward))).

(** A 64 x 64 backward node of the transpose-pair strategy with its
    four children. *)
Definition real_64x64_tr_pair_backward : TreeNode :=
  with_layout [1; 33] 2112 [1; 64] 4096
    (with_childNodes
       [transpose_33x64; row_64x33; transpose_64x33;
        with_length [64; 64] (blank_node CS_REAL_TRANSFORM_EVEN real_64x64_forward)]
       (with_solution TR_PAIR
          (with_outputLength [64; 64]
             (with_length [33; 64]
                (root_node CS_REAL_2D_EVEN 1 rocfft_array_type_hermitian_interleaved
                   [64; 64]))))).

(** A 16 x 4 x 2 real transform of the three-dimensional transpose
    strategy with its six children, forward and backward. *)
Definition real_16x4x2_forward : TreeNode :=
  root_node CS_REAL_3D_EVEN (-1) rocfft_array_type_real [16; 4; 2].

Definition transposed (s : ComputeScheme) (len out : list Z) : TreeNode :=
  with_outputLength out (with_length len (blank_node s real_16x4x2_forward)).

Definition column_of (len : list Z) : TreeNode :=
  with_length len (blank_node CS_KERNEL_STOCKHAM real_16x4x2_forward).

Definition row_16x4x2 : TreeNode :=
  with_length [16; 4; 2] (blank_node CS_REAL_TRANSFORM_EVEN real_16x4x2_forward).

Definition real_16x4x2_tr_pairs_children : TreeNode :=
  with_layout [1; 16; 64] 128 [1; 9; 36] 72
    (with_childNodes
       [row_16x4x2;
        transposed CS_KERNEL_TRANSPOSE_Z_XY [9; 4; 2] [4; 2; 9];
        column_of [4; 2; 9];
        transposed CS_KERNEL_TRANSPOSE_Z_XY [4; 2; 9] [2; 9; 4];
        column_of [2; 9; 4];
        transposed CS_KERNEL_TRANSPOSE_Z_XY [2; 9; 4] [9; 4; 2]]
       (with_outputLength [9; 4; 2] real_16x4x2_forward)).

Definition real_16x4x2_tr_pairs_backward : TreeNode :=
  with_layout [1; 9; 36] 72 [1; 16; 64] 128
    (with_childNodes
       [transposed CS_KERNEL_TRANSPOSE_XY_Z [9; 2; 4] [2; 9; 4];
        column_of [2; 9; 4];
        transposed CS_KERNEL_TRANSPOSE_XY_Z [2; 4; 9] [4; 2; 9];
        column_of [4; 2; 9];
        transposed CS_KERNEL_TRANSPOSE_XY_Z [4; 9; 2] [9; 4; 2];
        row_16x4x2]
       (with_outputLength [16; 4; 2]
          (root_node CS_REAL_3D_EVEN 1 rocfft_array_type_hermitian_interleaved
             [9; 4; 2]))).

(** The same transform in the column-block strategy, with its three
    children. *)
Definition real_16x4x2_sbcc_children : TreeNode :=
  with_layout [1; 18; 72] 144 [1; 9; 36] 72
    (with_childNodes
       [row_16x4x2;
        with_outputLength [9; 4; 2]
          (with_length [2; 9; 4]
             (blank_node CS_KERNEL_STOCKHAM_BLOCK_CC real_16x4x2_forward));
        with_outputLength [9; 4; 2]
          (with_length [4; 9; 2]
             (blank_node CS_KERNEL_STOCKHAM_BLOCK_CC real_16x4x2_forward))]
       (with_outputLength [9; 4; 2] real_16x4x2_forward)).

Definition real_16x4x2_sbcc_backward : TreeNode :=
  with_layout [1; 9; 36] 72 [1; 18; 72] 144
    (with_childNodes
       [with_outputLength [9; 4; 2]
          (with_length [2; 9; 4]
             (blank_node CS_KERNEL_STOCKHAM_BLOCK_CC real_16x4x2_forward));
        with_outputLength [9; 4; 2]
          (with_length [4; 9; 2]
             (blank_node CS_KERNEL_STOCKHAM_BLOCK_CC real_16x4x2_forward));
        row_16x4x2]
       (with_outputLength [16; 4; 2]
          (root_node CS_REAL_3D_EVEN 1 rocfft_array_type_hermitian_interleaved
             [9; 4; 2]))).

(* ================================================================== *)
(** * Properties *)

(** ** Outcome monad *)

Lemma lift_returns {A : Type} (a : A) (err : list string) :
  lift (Returns a) err = Returns (a, err).
Proof. reflexivity. Qed.

Lemma bind_returns {A B : Type} (c : M A) (k : A -> M B) (err err' : list string) (a : A) :
  c err = Returns (a, err') -> bind c k err = k a err'.
Proof. intros H. unfold bind. now rewrite H. Qed.

Lemma is_size_t_half_plus1 (L : Z) :
  is_size_t L -> size_t_wrap (size_t_wrap (L / 2) + 1) = L / 2 + 1.
Proof.
  unfold is_size_t, size_t_wrap, SIZE_T_MODULUS. intros HL.
  assert (0 <= L / 2 < 2 ^ 63).
  { split; [apply Z.div_pos; lia|].
    apply Z.div_lt_upper_bound; [lia|]. change (2 * 2 ^ 63) with (2 ^ 64). lia. }
  assert (2 ^ 63 < 2 ^ 64) by reflexivity.
  rewrite (Z.mod_small (L / 2)) by lia.
  apply Z.mod_small. lia.
Qed.

Lemma is_size_t_half (L : Z) :
  is_size_t L -> size_t_wrap (L / 2) = L / 2.
Proof.
  unfold is_size_t, size_t_wrap, SIZE_T_MODULUS. intros HL.
  apply Z.mod_small. split; [apply Z.div_pos; lia|].
  apply Z.div_lt_upper_bound; lia.
Qed.

(** ** Real and complex lengths *)

Lemma set_complex_length_eq (node : TreeNode) (L : Z) (rest : list Z) :
  length node = L :: rest ->
  is_size_t L ->
  set_complex_length node =
    Returns
      (if direction node =? -1
       then (with_outputLength (L / 2 + 1 :: rest) node, Ref_length, Ref_outputLength)
       else (with_length (L / 2 + 1 :: rest) (with_outputLength (L :: rest) node),
             Ref_outputLength, Ref_length)).
Proof.
  intros Hlen HL. unfold set_complex_length.
  cbn [outputLength with_outputLength direction]. rewrite Hlen.
  cbn [front_div2_plus1 obind]. rewrite (is_size_t_half_plus1 L HL).
  destruct (direction node =? -1); [reflexivity|].
  cbn. rewrite Hlen. reflexivity.
Qed.

(** C2. For a node whose [length] is [L :: rest] in real units,
    [set_complex_length] returns; the complex side it designates has
    [L / 2 + 1] entries along the fastest dimension and the real side has
    [L]; for a forward transform ([direction = -1]) that leaves [length]
    as it was and sets [outputLength] to [L / 2 + 1 :: rest]; for an
    inverse transform ([direction = 1]) the two are swapped, so [length]
    holds the complex extents and [outputLength] the real ones. *)
Theorem set_complex_length_hermitian (node : TreeNode) (L : Z) (rest : list Z) :
  length node = L :: rest ->
  is_size_t L ->
  exists node' realLength complexLength,
    set_complex_length node = Returns (node', realLength, complexLength)
    /\ deref realLength node' = L :: rest
    /\ deref complexLength node' = L / 2 + 1 :: rest
    /\ (direction node = -1 ->
        length node' = L :: rest /\ outputLength node' = L / 2 + 1 :: rest)
    /\ (direction node = 1 ->
        length node' = L / 2 + 1 :: rest /\ outputLength node' = L :: rest).
Proof.
  intros Hlen HL.
  rewrite (set_complex_length_eq node L rest Hlen HL).
  destruct (direction node =? -1) eqn:Hd.
  - apply Z.eqb_eq in Hd.
    eexists _, _, _. split; [reflexivity|]. cbn. rewrite Hlen.
    split; [reflexivity|]. split; [reflexivity|].
    split; intros Hd'; [split; reflexivity | lia].
  - apply Z.eqb_neq in Hd.
    eexists _, _, _. split; [reflexivity|]. cbn.
    split; [reflexivity|]. split; [reflexivity|].
    split; intros Hd'; [lia | split; reflexivity].
Qed.

(** ** Column-block availability *)

Section SBCC_available.
Variable pool : function_pool.
Variables (length : list Z) (sbcc_dim : nat) (precision : rocfft_precision).
Variables (len_dim len0 : Z).
Hypothesis Hdim : length !! sbcc_dim = Some len_dim.
Hypothesis Hlen0 : length !! 0%nat = Some len0.

Let sbcc_key := fpkey pool len_dim precision CS_KERNEL_STOCKHAM_BLOCK_CC.
Let normal_key := fpkey_normal pool len_dim precision.

Lemma SBCC_dim_available_block :
  has_function pool sbcc_key = true ->
  SBCC_dim_available pool length sbcc_dim precision = Returns true.
Proof.
  intros Hs. unfold SBCC_dim_available, at_index.
  rewrite Hdim. cbn. fold sbcc_key. rewrite Hs, Hlen0. cbn.
  rewrite andb_false_r. reflexivity.
Qed.

Lemma SBCC_dim_available_none :
  has_function pool sbcc_key = false ->
  has_function pool normal_key = false ->
  SBCC_dim_available pool length sbcc_dim precision = Returns false.
Proof.
  intros Hs Hn. unfold SBCC_dim_available, at_index.
  rewrite Hdim. cbn. fold sbcc_key normal_key. rewrite Hs, Hn. reflexivity.
Qed.

Lemma SBCC_dim_available_generic :
  has_function pool sbcc_key = false ->
  has_function pool normal_key = true ->
  SBCC_dim_available pool length sbcc_dim precision =
    Returns (negb (len0 <? transforms_per_block (get_kernel pool normal_key))
             && negb (transforms_per_block (get_kernel pool normal_key) <? minRows precision)).
Proof.
  intros Hs Hn. unfold SBCC_dim_available, at_index.
  rewrite Hdim. cbn. fold sbcc_key normal_key. rewrite Hs, Hn, Hlen0. cbn.
  rewrite andb_true_r.
  destruct (len0 <? _); [reflexivity|]. cbn.
  destruct precision; cbn; destruct (_ <? _); reflexivity.
Qed.

(** C5. With a purpose-built block-CC kernel for the length of the
    dimension the check answers [true] whatever that kernel's
    transforms-per-block; without one it answers [false] when there is
    no generic kernel for that length, and [false] when the generic
    kernel's transforms-per-block is below the minimum number of rows
    (8 for single precision, 4 for double). *)
Theorem SBCC_dim_available_policy :
  (has_function pool sbcc_key = true ->
   SBCC_dim_available pool length sbcc_dim precision = Returns true)
  /\ (has_function pool sbcc_key = false ->
      has_function pool normal_key = false ->
      SBCC_dim_available pool length sbcc_dim precision = Returns false)
  /\ (has_function pool sbcc_key = false ->
      has_function pool normal_key = true ->
      transforms_per_block (get_kernel pool normal_key) < minRows precision ->
      SBCC_dim_available pool length sbcc_dim precision = Returns false)
  /\ minRows rocfft_precision_single = 8
  /\ minRows rocfft_precision_double = 4.
Proof.
  split; [exact SBCC_dim_available_block|].
  split; [exact SBCC_dim_available_none|].
  split; [|split; reflexivity].
  intros Hs Hn Hlt. rewrite (SBCC_dim_available_generic Hs Hn).
  apply Z.ltb_lt in Hlt. rewrite Hlt. rewrite andb_false_r. reflexivity.
Qed.

End SBCC_available.

(** ** CS_REAL_TRANSFORM_EVEN *)

Lemma deref_with_childNodes r cs n : deref r (with_childNodes cs n) = deref r n.
Proof. destruct r; reflexivity. Qed.

Lemma deref_push_child r c n : deref r (push_child c n) = deref r n.
Proof. destruct r; reflexivity. Qed.

Lemma set_complex_length_side node L rest :
  length node = L :: rest -> is_size_t L ->
  set_complex_length node =
    Returns (complex_side node L rest, realLength_of node, complexLength_of node).
Proof.
  intros Hl HL. rewrite (set_complex_length_eq node L rest Hl HL).
  unfold complex_side, realLength_of, complexLength_of.
  destruct (direction node =? -1); reflexivity.
Qed.

Lemma deref_real_side node L rest :
  length node = L :: rest ->
  deref (realLength_of node) (complex_side node L rest) = L :: rest.
Proof.
  intros Hl. unfold realLength_of, complex_side.
  destruct (direction node =? -1); cbn; [exact Hl | reflexivity].
Qed.

Lemma deref_complex_side node L rest :
  deref (complexLength_of node) (complex_side node L rest) = L / 2 + 1 :: rest.
Proof.
  unfold complexLength_of, complex_side.
  destruct (direction node =? -1); reflexivity.
Qed.

Lemma direction_complex_side node L rest :
  direction (complex_side node L rest) = direction node.
Proof. unfold complex_side. destruct (direction node =? -1); reflexivity. Qed.

Lemma direction_fuse_decided api cfft this :
  direction (fuse_decided api cfft this) = direction this.
Proof. unfold fuse_decided. destruct (try_fuse_pre_post_processing this); reflexivity. Qed.

Lemma try_fuse_fuse_decided api cfft this :
  try_fuse_pre_post_processing (fuse_decided api cfft this) =
    try_fuse_pre_post_processing this && isLeafNode api cfft.
Proof.
  unfold fuse_decided.
  destruct (try_fuse_pre_post_processing this) eqn:Hf; [reflexivity | exact Hf].
Qed.

Section RealTransEven_branches.
Import RealTransEvenNode.
Variable api : NodeApi.
Variables (this cfft : TreeNode) (err : list string).

Lemma restrict_back_push c n :
  restrict_back_last_leaf api (push_child c n) =
    Returns (with_childNodes
               (childNodes n ++
                  [GetLastLeaf_update api
                     (with_allowedOutArrayTypes [rocfft_array_type_complex_interleaved]) c])
               (push_child c n)).
Proof.
  unfold restrict_back_last_leaf, push_child. cbn [childNodes with_childNodes].
  rewrite reverse_snoc, reverse_involutive. reflexivity.
Qed.

Lemma halve_first_cons (L : Z) (rest : list Z) :
  is_size_t L -> halve_first (L :: rest) = Returns (L / 2 :: rest).
Proof. intros HL. unfold halve_first. cbn. now rewrite is_size_t_half. Qed.

Lemma forward_fused rl cl c0 cr :
  try_fuse_pre_post_processing this = true ->
  length cfft = c0 :: cr ->
  BuildTree_forward api this rl cl cfft err =
    Returns
      (with_childNodes
         (childNodes this ++
            [applyCallback_of api this (deref rl this);
             with_outputLength (size_t_wrap (c0 + 1) :: cr)
               (with_allowOutofplace true (with_ebtype Real2C_POST cfft))]) this,
       err).
Proof.
  intros Hf Hc. unfold BuildTree_forward.
  rewrite Hf. cbn [length with_outputLength with_allowOutofplace with_ebtype outputLength].
  rewrite Hc. unfold bind, lift, ret. cbn [front_plus1 obind].
  cbn [try_fuse_pre_post_processing push_child with_childNodes]. rewrite Hf. cbn [negb].
  unfold push_child. cbn [childNodes with_childNodes]. rewrite <- app_assoc. reflexivity.
Qed.

Lemma forward_separate rl cl L rest :
  try_fuse_pre_post_processing this = false ->
  deref rl this = L :: rest ->
  is_size_t L ->
  exists parent,
    BuildTree_forward api this rl cl cfft err =
    Returns
      (with_childNodes
         (childNodes this ++
            [applyCallback_of api this (L :: rest);
             GetLastLeaf_update api
               (with_allowedOutArrayTypes [rocfft_array_type_complex_interleaved]) cfft;
             with_outputLength (deref cl this)
               (with_length (L / 2 :: rest)
                  (with_dimension 1
                     (CreateNodeFromScheme api CS_KERNEL_R_TO_CMPLX parent)))]) this,
       err).
Proof.
  intros Hf Hr HL. unfold BuildTree_forward.
  rewrite Hf. unfold bind, lift, ret.
  cbn [try_fuse_pre_post_processing push_child with_childNodes]. rewrite Hf. cbn [negb].
  fold (applyCallback_of api this (deref rl this)).
  match goal with |- context [restrict_back_last_leaf api ?n] =>
    change n with (push_child cfft (push_child (applyCallback_of api this (deref rl this)) this))
  end.
  rewrite restrict_back_push. cbn [obind].
  cbn [length with_length]. rewrite !deref_with_childNodes, !deref_push_child, Hr.
  rewrite (halve_first_cons L rest HL). cbn [obind].
  eexists. unfold push_child. cbn [childNodes with_childNodes].
  rewrite <- !app_assoc. reflexivity.
Qed.

Lemma inverse_fused cl :
  try_fuse_pre_post_processing this = true ->
  BuildTree_inverse api this cl cfft err =
    Returns
      (with_childNodes
         (childNodes this ++
            [with_allowOutofplace true (with_ebtype C2Real_PRE cfft);
             applyCallback_of api this (outputLength this)]) this,
       err).
Proof.
  intros Hf. unfold BuildTree_inverse. rewrite Hf. cbn [negb].
  unfold bind, ret. unfold push_child. cbn [childNodes with_childNodes].
  rewrite <- !app_assoc. reflexivity.
Qed.

Lemma inverse_separate cl L rest :
  try_fuse_pre_post_processing this = false ->
  outputLength this = L :: rest ->
  is_size_t L ->
  exists parent,
    BuildTree_inverse api this cl cfft err =
    Returns
      (with_childNodes
         (childNodes this ++
            [with_outputLength (L / 2 :: rest)
               (with_length (deref cl this)
                  (with_dimension 1
                     (CreateNodeFromScheme api CS_KERNEL_CMPLX_TO_R this)));
             cfft;
             with_length (L :: rest)
               (with_dimension (dimension this)
                  (CreateNodeFromScheme api CS_KERNEL_APPLY_CALLBACK parent))]) this,
       err).
Proof.
  intros Hf Ho HL. unfold BuildTree_inverse. rewrite Hf. cbn [negb].
  cbn [outputLength with_outputLength]. rewrite Ho.
  rewrite (is_size_t_half L HL).
  unfold bind, ret. eexists. unfold push_child.
  cbn [childNodes with_childNodes outputLength dimension]. rewrite Ho.
  rewrite <- !app_assoc. reflexivity.
Qed.

Lemma build_cfftPlan_eq L rest :
  length this = L :: rest -> is_size_t L ->
  build_cfftPlan api (complex_side this L rest) (realLength_of this) err =
    RecursiveBuildTree api (cfftPlan_request api (complex_side this L rest) L rest) err.
Proof.
  intros Hl HL. unfold build_cfftPlan.
  cbn [NodeMetaData.length NodeMetaData.with_length].
  rewrite (deref_real_side this L rest Hl), (halve_first_cons L rest HL).
  reflexivity.
Qed.

(** The build, one sub-plan request further. *)
Lemma BuildTree_internal_eq L rest :
  length this = L :: rest -> is_size_t L -> L mod 2 = 0 ->
  BuildTree_internal api this err =
    match RecursiveBuildTree api
            (cfftPlan_request api (complex_side this L rest) L rest) err with
    | Returns (cfft, err') =>
        let this2 := fuse_decided api cfft (complex_side this L rest) in
        if direction this =? -1 then
          BuildTree_forward api this2 (realLength_of this) (complexLength_of this) cfft err'
        else if direction this =? 1 then
          BuildTree_inverse api this2 (complexLength_of this) cfft err'
        else Returns (this2, err' ++ [invalid_direction_message])
    | Throws w => Throws w
    | AssertFails => AssertFails
    | Undefined => Undefined
    end.
Proof.
  intros Hlen HL Hev. unfold BuildTree_internal.
  unfold at_index. rewrite Hlen. cbn [lookup list_lookup of_option].
  erewrite (bind_returns _ _ _ _ _ (lift_returns _ _)).
  assert (Ha : assert (L mod 2 =? 0) err = Returns (tt, err)).
  { unfold assert. rewrite Hev. reflexivity. }
  erewrite (bind_returns _ _ _ _ _ Ha).
  rewrite (set_complex_length_side this L rest Hlen HL).
  erewrite (bind_returns _ _ _ _ _ (lift_returns _ _)).
  cbv beta iota. unfold bind at 1.
  rewrite (build_cfftPlan_eq L rest Hlen HL).
  destruct (RecursiveBuildTree _ _ _) as [[cfft' err']| | |]; try reflexivity.
  fold (fuse_decided api cfft' (complex_side this L rest)).
  rewrite direction_fuse_decided, direction_complex_side.
  cbv zeta.
  destruct (direction this =? -1); [reflexivity|].
  destruct (direction this =? 1); reflexivity.
Qed.

End RealTransEven_branches.

Lemma try_fuse_complex_side node L rest :
  try_fuse_pre_post_processing (complex_side node L rest) =
    try_fuse_pre_post_processing node.
Proof. unfold complex_side. destruct (direction node =? -1); reflexivity. Qed.

Lemma childNodes_complex_side node L rest :
  childNodes (complex_side node L rest) = childNodes node.
Proof. unfold complex_side. destruct (direction node =? -1); reflexivity. Qed.

Lemma childNodes_fuse_decided api cfft this :
  childNodes (fuse_decided api cfft this) = childNodes this.
Proof. unfold fuse_decided. destruct (try_fuse_pre_post_processing this); reflexivity. Qed.

Lemma deref_fuse_decided api cfft r this :
  deref r (fuse_decided api cfft this) = deref r this.
Proof.
  unfold fuse_decided. destruct (try_fuse_pre_post_processing this), r; reflexivity.
Qed.

Lemma outputLength_fuse_decided api cfft this :
  outputLength (fuse_decided api cfft this) = outputLength this.
Proof. exact (deref_fuse_decided api cfft Ref_outputLength this). Qed.

Lemma outputLength_complex_side_inverse node L rest :
  length node = L :: rest -> direction node = 1 ->
  outputLength (complex_side node L rest) = L :: rest.
Proof. intros Hl Hd. unfold complex_side. rewrite Hd. reflexivity. Qed.

Lemma same_shape_fuse_decided api cfft this :
  same_shape (fuse_decided api cfft this) this.
Proof.
  unfold fuse_decided. destruct (try_fuse_pre_post_processing this); repeat split.
Qed.

Lemma BuildTree_forward_shape api this rl cl cfft err x err' :
  RealTransEvenNode.BuildTree_forward api this rl cl cfft err = Returns (x, err') ->
  same_shape x this.
Proof.
  unfold RealTransEvenNode.BuildTree_forward, RealTransEvenNode.restrict_back_last_leaf,
    bind, lift, ret, obind.
  intros H. repeat case_match; simplify_eq; repeat split.
Qed.

Lemma BuildTree_inverse_shape api this cl cfft err x err' :
  RealTransEvenNode.BuildTree_inverse api this cl cfft err = Returns (x, err') ->
  same_shape x this.
Proof.
  unfold RealTransEvenNode.BuildTree_inverse, bind, lift, ret, obind.
  intros H. repeat case_match; simplify_eq; repeat split.
Qed.

Section RealTransEven_built.
Variable api : NodeApi.
Hypothesis factory_scheme : forall s p, scheme (CreateNodeFromScheme api s p) = s.
Variables (this : TreeNode) (err : list string) (L : Z) (rest : list Z).
Hypothesis Hlen : length this = L :: rest.
Hypothesis HL : is_size_t L.
Hypothesis Heven : L mod 2 = 0.
Hypothesis Hfresh : childNodes this = [].

(** Two children when the processing is fused, three when it is not. *)
Lemma RealTransEven_children :
  direction this = -1 \/ direction this = 1 ->
  after_call
    (RecursiveBuildTree api (cfftPlan_request api (complex_side this L rest) L rest) err)
    (RealTransEvenNode.BuildTree_internal api this err)
    (fun r =>
       length r.1 <> [] ->
       exists this',
         RealTransEvenNode.BuildTree_internal api this err = Returns (this', r.2)
         /\ try_fuse_pre_post_processing this' =
              try_fuse_pre_post_processing this && isLeafNode api r.1
         /\ even_children api (direction this =? -1)
              (try_fuse_pre_post_processing this') r.1 (L :: rest) (childNodes this')).
Proof.
  intros Hdir. rewrite (BuildTree_internal_eq api this err L rest Hlen HL Heven).
  destruct (RecursiveBuildTree _ _ _) as [[cfft err']| | |]; cbn [after_call]; try reflexivity.
  cbn [fst snd]. intros Hc. cbv zeta.
  pose proof (try_fuse_fuse_decided api cfft (complex_side this L rest)) as Hfd.
  rewrite try_fuse_complex_side in Hfd.
  set (this2 := fuse_decided api cfft (complex_side this L rest)) in *.
  assert (Hch : childNodes this2 = []).
  { unfold this2. now rewrite childNodes_fuse_decided, childNodes_complex_side. }
  assert (Hr : deref (realLength_of this) this2 = L :: rest).
  { unfold this2. rewrite deref_fuse_decided. now apply deref_real_side. }
  destruct (try_fuse_pre_post_processing this2) eqn:Hf2.
  - (* fused *)
    destruct Hdir as [Hd|Hd]; rewrite Hd; cbn [Z.eqb Pos.eqb].
    + destruct (length cfft) as [|c0 cr] eqn:Hcl; [congruence|].
      rewrite (forward_fused api this2 cfft err' _ _ c0 cr Hf2 Hcl).
      eexists. split; [reflexivity|]. cbn [try_fuse_pre_post_processing with_childNodes].
      rewrite Hf2. split; [exact Hfd|]. cbn [even_children childNodes with_childNodes].
      rewrite Hch, Hr. cbn [app]. eexists _, _. split; [reflexivity|].
      split; [apply factory_scheme|]. repeat split.
    + assert (Ho : outputLength this2 = L :: rest).
      { unfold this2. rewrite outputLength_fuse_decided.
        now apply outputLength_complex_side_inverse. }
      rewrite (inverse_fused api this2 cfft err' _ Hf2).
      eexists. split; [reflexivity|]. cbn [try_fuse_pre_post_processing with_childNodes].
      rewrite Hf2. split; [exact Hfd|]. cbn [even_children childNodes with_childNodes].
      rewrite Hch, Ho. cbn [app]. eexists _, _. split; [reflexivity|].
      split; [apply factory_scheme|]. repeat split.
  - (* separate processing node *)
    destruct Hdir as [Hd|Hd]; rewrite Hd; cbn [Z.eqb Pos.eqb].
    + destruct (forward_separate api this2 cfft err' _ (complexLength_of this) L rest Hf2 Hr HL)
        as [parent ->].
      eexists. split; [reflexivity|]. cbn [try_fuse_pre_post_processing with_childNodes].
      rewrite Hf2. split; [exact Hfd|]. cbn [even_children childNodes with_childNodes].
      rewrite Hch. cbn [app]. eexists _, _. split; [reflexivity|].
      split; [apply factory_scheme|]. split; [reflexivity|]. apply factory_scheme.
    + assert (Ho : outputLength this2 = L :: rest).
      { unfold this2. rewrite outputLength_fuse_decided.
        now apply outputLength_complex_side_inverse. }
      destruct (inverse_separate api this2 cfft err' (complexLength_of this) L rest Hf2 Ho HL)
        as [parent ->].
      eexists. split; [reflexivity|]. cbn [try_fuse_pre_post_processing with_childNodes].
      rewrite Hf2. split; [exact Hfd|]. cbn [even_children childNodes with_childNodes].
      rewrite Hch. cbn [app]. eexists _, _. split; [reflexivity|].
      split; [apply factory_scheme|]. split; [reflexivity|]. apply factory_scheme.
Qed.

(** The callback node sits at the real-buffer end of the children. *)
Lemma even_children_callback forward fused cfft children :
  even_children api forward fused cfft (L :: rest) children ->
  exists applyCallback,
    (if forward then head children else last children) = Some applyCallback
    /\ scheme applyCallback = CS_KERNEL_APPLY_CALLBACK
    /\ length applyCallback = L :: rest.
Proof.
  unfold even_children. destruct fused.
  - intros (cb & k & -> & Hs & Hl & _). exists cb. destruct forward; auto.
  - intros (cb & p & -> & Hs & Hl & _). exists cb. destruct forward; auto.
Qed.

Lemma even_children_count forward fused cfft children :
  even_children api forward fused cfft (L :: rest) children ->
  List.length children = if fused then 2%nat else 3%nat.
Proof.
  unfold even_children. destruct fused.
  - intros (cb & k & -> & _). destruct forward; reflexivity.
  - intros (cb & p & -> & _). destruct forward; reflexivity.
Qed.

(** With a direction that is neither -1 nor 1 the build writes the
    message and returns the node without children. *)
Lemma RealTransEven_invalid_direction :
  direction this <> -1 -> direction this <> 1 ->
  after_call
    (RecursiveBuildTree api (cfftPlan_request api (complex_side this L rest) L rest) err)
    (RealTransEvenNode.BuildTree_internal api this err)
    (fun r =>
       exists this',
         RealTransEvenNode.BuildTree_internal api this err =
           Returns (this', r.2 ++ [RealTransEvenNode.invalid_direction_message])
         /\ childNodes this' = []).
Proof.
  intros Hn1 Hn2. rewrite (BuildTree_internal_eq api this err L rest Hlen HL Heven).
  destruct (RecursiveBuildTree _ _ _) as [[cfft err']| | |]; cbn [after_call]; try reflexivity.
  apply Z.eqb_neq in Hn1, Hn2. rewrite Hn1, Hn2. cbv zeta.
  eexists. split; [reflexivity|].
  now rewrite childNodes_fuse_decided, childNodes_complex_side.
Qed.

End RealTransEven_built.

Lemma same_shape_trans a b c : same_shape a b -> same_shape b c -> same_shape a c.
Proof. unfold same_shape. intros (?&?&?&?&?) (?&?&?&?&?). repeat split; congruence. Qed.

(** A build that returns leaves the node with the lengths that
    [set_complex_length] gave it. *)
Lemma RealTransEven_returns_shape api this err L rest this' err' :
  length this = L :: rest -> is_size_t L ->
  RealTransEvenNode.BuildTree_internal api this err = Returns (this', err') ->
  same_shape this' (complex_side this L rest).
Proof.
  intros Hlen HL Hret.
  destruct (Z.eq_dec (L mod 2) 0) as [Hev|Hodd].
  - rewrite (BuildTree_internal_eq api this err L rest Hlen HL Hev) in Hret.
    destruct (RecursiveBuildTree _ _ _) as [[cfft e]| | |]; try discriminate.
    cbv zeta in Hret.
    pose proof (same_shape_fuse_decided api cfft (complex_side this L rest)) as Hs.
    destruct (direction this =? -1).
    { eapply same_shape_trans; [eapply BuildTree_forward_shape; exact Hret | exact Hs]. }
    destruct (direction this =? 1).
    { eapply same_shape_trans; [eapply BuildTree_inverse_shape; exact Hret | exact Hs]. }
    now simplify_eq.
  - exfalso. unfold RealTransEvenNode.BuildTree_internal, at_index in Hret.
    rewrite Hlen in Hret. cbn [lookup list_lookup of_option] in Hret.
    erewrite (bind_returns _ _ _ _ _ (lift_returns _ _)) in Hret.
    unfold bind at 1, assert in Hret.
    apply Z.eqb_neq in Hodd. rewrite Hodd in Hret. discriminate.
Qed.

(** ** CS_REAL_2D_EVEN *)

Lemma last_push_child c n : last (childNodes (push_child c n)) = Some c.
Proof. unfold push_child. cbn [childNodes with_childNodes]. apply last_snoc. Qed.

Section Real2DEven_equations.
Variables (api : NodeApi) (pool : function_pool).
Variables (this : TreeNode) (err : list string) (l0 l1 : Z) (rest : list Z).
Hypothesis Hlen : length this = l0 :: l1 :: rest.

Lemma SBCC_forward_eq :
  inArrayType this = rocfft_array_type_real ->
  Real2DEvenNode.BuildTree_internal_SBCC api pool this err =
    match RealTransEvenNode.BuildTree_internal api
            (even_child_request api this l0 (length this)) err with
    | Returns (rcplan, err') =>
        match outputLength rcplan with
        | o0 :: o1 :: orest =>
            Returns
              (with_childNodes
                 (childNodes this ++
                    [rcplan;
                     with_length (o1 :: o0 :: orest)
                       (with_outputLength (o0 :: o1 :: orest)
                          (CreateNodeFromScheme api
                             (sbccScheme_of pool l1 (precision this))
                             (push_child rcplan this)))]) this,
               err')
        | _ => Undefined
        end
    | Throws w => Throws w
    | AssertFails => AssertFails
    | Undefined => Undefined
    end.
Proof.
  intros Hin. unfold Real2DEvenNode.BuildTree_internal_SBCC.
  unfold at_index. rewrite Hlen. cbn [lookup list_lookup of_option].
  erewrite (bind_returns _ _ _ _ _ (lift_returns _ _)).
  rewrite Hin. rewrite bool_decide_eq_true_2 by reflexivity.
  erewrite (bind_returns _ _ _ _ _ (lift_returns _ _)).
  unfold bind at 1. rewrite <- Hlen.
  fold (even_child_request api this l0 (length this)).
  destruct (RealTransEvenNode.BuildTree_internal _ _ _) as [[rcplan err']| | |]; try reflexivity.
  rewrite last_push_child.
  cbn [of_option]. erewrite (bind_returns _ _ _ _ _ (lift_returns _ _)).
  cbn [length with_length outputLength with_outputLength].
  fold (sbccScheme_of pool l1 (precision this)).
  destruct (outputLength rcplan) as [|o0 [|o1 orest]] eqn:Ho; try reflexivity.
  unfold swap_at, at_index. cbn [lookup list_lookup of_option obind].
  unfold bind, lift, ret. cbn [obind].
  unfold push_child. cbn [childNodes with_childNodes insert list_insert].
  rewrite <- !app_assoc. reflexivity.
Qed.

Lemma SBCC_inverse_eq :
  inArrayType this <> rocfft_array_type_real ->
  Real2DEvenNode.BuildTree_internal_SBCC api pool this err =
    match RealTransEvenNode.BuildTree_internal api
            (even_child_request api
               (push_child (sbccY_inverse api pool this l0 l1 rest) this)
               l0 (outputLength this))
            err with
    | Returns (crplan, err') =>
        Returns
          (with_childNodes
             (childNodes this ++ [sbccY_inverse api pool this l0 l1 rest; crplan]) this,
           err')
    | Throws w => Throws w
    | AssertFails => AssertFails
    | Undefined => Undefined
    end.
Proof.
  intros Hin. unfold Real2DEvenNode.BuildTree_internal_SBCC.
  unfold at_index. rewrite Hlen. cbn [lookup list_lookup of_option].
  erewrite (bind_returns _ _ _ _ _ (lift_returns _ _)).
  rewrite bool_decide_eq_false_2 by exact Hin.
  cbn [length with_length].
  unfold swap_at, at_index. cbn [lookup list_lookup of_option obind insert list_insert].
  erewrite (bind_returns _ _ _ _ _ (lift_returns _ _)).
  fold (sbccScheme_of pool l1 (precision this)).
  change (with_length (l1 :: l0 :: rest)
            (with_length (l0 :: l1 :: rest)
               (with_outputLength (l0 :: l1 :: rest)
                  (CreateNodeFromScheme api (sbccScheme_of pool l1 (precision this)) this))))
    with (sbccY_inverse api pool this l0 l1 rest).
  change (length (push_child (sbccY_inverse api pool this l0 l1 rest) this))
    with (length this).
  change (outputLength (push_child (sbccY_inverse api pool this l0 l1 rest) this))
    with (outputLength this).
  rewrite Hlen. cbn [lookup list_lookup of_option].
  erewrite (bind_returns _ _ _ _ _ (lift_returns _ _)).
  fold (even_child_request api
          (push_child (sbccY_inverse api pool this l0 l1 rest) this) l0 (outputLength this)).
  unfold bind.
  destruct (RealTransEvenNode.BuildTree_internal _ _ _) as [[crplan err']| | |]; try reflexivity.
  unfold ret, push_child. cbn [childNodes with_childNodes].
  rewrite <- !app_assoc. reflexivity.
Qed.

Lemma Real2DEven_dispatch :
  is_size_t l0 -> l0 mod 2 = 0 ->
  Real2DEvenNode.BuildTree_internal api pool this err =
    let this1 := complex_side this l0 (l1 :: rest) in
    match SBCC_dim_available pool (length this1) 1 (precision this) with
    | Returns avail =>
        if avail
        then Real2DEvenNode.BuildTree_internal_SBCC api pool
               (with_solution INPLACE_SBCC this1) err
        else Real2DEvenNode.BuildTree_internal_TR_pair api
               (with_solution TR_PAIR this1) err
    | Throws w => Throws w
    | AssertFails => AssertFails
    | Undefined => Undefined
    end.
Proof.
  intros HL Hev. unfold Real2DEvenNode.BuildTree_internal.
  unfold at_index at 1. rewrite Hlen. cbn [lookup list_lookup of_option].
  erewrite (bind_returns _ _ _ _ _ (lift_returns _ _)).
  assert (Ha : assert (l0 mod 2 =? 0) err = Returns (tt, err)).
  { unfold assert. rewrite Hev. reflexivity. }
  erewrite (bind_returns _ _ _ _ _ Ha).
  rewrite (set_complex_length_side this l0 (l1 :: rest) Hlen HL).
  erewrite (bind_returns _ _ _ _ _ (lift_returns _ _)).
  cbv beta iota zeta.
  assert (Hp : precision (complex_side this l0 (l1 :: rest)) = precision this).
  { unfold complex_side. destruct (direction this =? -1); reflexivity. }
  rewrite Hp. unfold bind at 1, lift.
  destruct (SBCC_dim_available _ _ _ _) as [[|]| | |]; reflexivity.
Qed.

End Real2DEven_equations.

(** ** The even-length strategies *)

(** C6. In a [CS_REAL_TRANSFORM_EVEN] node the [CS_KERNEL_APPLY_CALLBACK]
    node is next to the real buffer: the first child for a forward
    transform, the last child for an inverse one, and its [length] is the
    length vector in real units. *)
Theorem RealTransEven_callback_boundary (api : NodeApi) (this : TreeNode)
    (err : list string) (L : Z) (rest : list Z) :
  (forall s p, scheme (CreateNodeFromScheme api s p) = s) ->
  length this = L :: rest ->
  is_size_t L ->
  L mod 2 = 0 ->
  childNodes this = [] ->
  direction this = -1 \/ direction this = 1 ->
  after_call
    (RecursiveBuildTree api (cfftPlan_request api (complex_side this L rest) L rest) err)
    (RealTransEvenNode.BuildTree_internal api this err)
    (fun r =>
       length r.1 <> [] ->
       exists this' applyCallback,
         RealTransEvenNode.BuildTree_internal api this err = Returns (this', r.2)
         /\ (if direction this =? -1
             then head (childNodes this') else last (childNodes this'))
            = Some applyCallback
         /\ scheme applyCallback = CS_KERNEL_APPLY_CALLBACK
         /\ length applyCallback = L :: rest).
Proof.
  intros Hfac Hlen HL Hev Hfresh Hdir.
  pose proof (RealTransEven_children api Hfac this err L rest Hlen HL Hev Hfresh Hdir) as H.
  destruct (RecursiveBuildTree _ _ _) as [[cfft err']| | |]; cbn [after_call] in *; try exact H.
  intros Hc. destruct (H Hc) as (this' & Hret & _ & Hch).
  destruct (even_children_callback api L rest _ _ _ _ Hch) as (cb & Hpos & Hs & Hl).
  exists this', cb. auto.
Qed.

Lemma is_size_t_hermitian L : is_size_t L -> is_size_t (L / 2 + 1).
Proof.
  unfold is_size_t, SIZE_T_MODULUS. intros HL.
  assert (0 <= L / 2 < 2 ^ 63).
  { split; [apply Z.div_pos; lia|].
    apply Z.div_lt_upper_bound; [lia|]. change (2 * 2 ^ 63) with (2 ^ 64). lia. }
  assert (2 ^ 63 < 2 ^ 64) by reflexivity. lia.
Qed.

Lemma length_complex_side node L rest :
  length node = L :: rest ->
  length (complex_side node L rest) =
    (if direction node =? -1 then L else L / 2 + 1) :: rest.
Proof.
  intros Hl. unfold complex_side. destruct (direction node =? -1); [exact Hl | reflexivity].
Qed.

Lemma outputLength_complex_side node L rest :
  outputLength (complex_side node L rest) =
    (if direction node =? -1 then L / 2 + 1 else L) :: rest.
Proof. unfold complex_side. destruct (direction node =? -1); reflexivity. Qed.





(** The column-block builder builds its row transform from
    [even_child_request] and keeps the result as a child. *)
Lemma SBCC_even_child api pool this err l0 l1 rest :
  length this = l0 :: l1 :: rest ->
  is_size_t l0 ->
  exists parent len,
    let row := even_child_request api parent l0 len in
    after_call
      (RealTransEvenNode.BuildTree_internal api row err)
      (Real2DEvenNode.BuildTree_internal_SBCC api pool this err)
      (fun r =>
         exists this',
           Real2DEvenNode.BuildTree_internal_SBCC api pool this err = Returns (this', r.2)
           /\ r.1 ∈ childNodes this').
Proof.
  intros Hlen HL.
  destruct (decide (inArrayType this = rocfft_array_type_real)) as [Hin|Hin].
  - exists this, (length this). cbv zeta.
    rewrite (SBCC_forward_eq api pool this err l0 l1 rest Hlen Hin).
    destruct (RealTransEvenNode.BuildTree_internal _ _ _) as [[rc err']| | |] eqn:Hrc;
      cbn [after_call]; try reflexivity.
    assert (Hrl : length (even_child_request api this l0 (length this)) = l0 :: l1 :: rest)
      by exact Hlen.
    pose proof (RealTransEven_returns_shape api _ err l0 (l1 :: rest) rc err'
                  Hrl HL Hrc) as (_ & _ & Ho & _).
    rewrite outputLength_complex_side in Ho. rewrite Ho.
    eexists. split; [reflexivity|]. cbn [childNodes with_childNodes fst].
    apply elem_of_app. right. apply elem_of_cons. now left.
  - exists (push_child (sbccY_inverse api pool this l0 l1 rest) this), (outputLength this).
    cbv zeta.
    rewrite (SBCC_inverse_eq api pool this err l0 l1 rest Hlen Hin).
    destruct (RealTransEvenNode.BuildTree_internal _ _ _) as [[rc err']| | |] eqn:Hrc;
      cbn [after_call]; try reflexivity.
    eexists. split; [reflexivity|]. cbn [childNodes with_childNodes fst].
    apply elem_of_app. right. apply elem_of_cons. right. apply elem_of_cons. now left.
Qed.

(** A forward 4000 x 64 transform: [length[0]] of the 2-D node is 4000,
    fusion is not tried and the row transform has three children. *)
Example forward_4000_not_fused :
  match Real2DEvenNode.BuildTree_internal single_kernel_api small_pool
          (root_node CS_REAL_2D_EVEN (-1) rocfft_array_type_real [4000; 64]) [] with
  | Returns (this', _) =>
      length this' = [4000; 64]
      /\ map (fun c => (scheme c, try_fuse_pre_post_processing c,
                        List.length (childNodes c))) (childNodes this')
         = [(CS_REAL_TRANSFORM_EVEN, false, 3%nat);
            (CS_KERNEL_STOCKHAM_BLOCK_CC, false, 0%nat)]
  | _ => False
  end.
Proof. vm_compute. split; reflexivity. Qed.


(** The fusion decision as the code takes it. For a
    [CS_REAL_TRANSFORM_EVEN] node with a forward or inverse direction,
    once its complex sub-plan is built: the processing is fused exactly
    when fusion was to be tried and the sub-plan is a leaf; when fused the node has 2 children, the callback node and the
    complex kernel carrying the embedded-processing tag; otherwise it has
    3, the processing being a sibling of its own, [CS_KERNEL_R_TO_CMPLX]
    after the kernel for forward and [CS_KERNEL_CMPLX_TO_R] before it for
    inverse. The column-block strategy of the 2-D node asks for fusion to
    be tried exactly when [length[0]] of the 2-D node, as
    [set_complex_length] left it, is at most 2048: the real extent [L]
    for a forward transform, the Hermitian extent [L / 2 + 1] for an
    inverse one. *)
Theorem RealTransEven_fusion_policy (api : NodeApi) (this : TreeNode)
    (err : list string) (L : Z) (rest : list Z)
    (pool : function_pool) (node2d : TreeNode) (L2 l1 : Z) (rest2 : list Z) :
  (forall s p, scheme (CreateNodeFromScheme api s p) = s) ->
  length this = L :: rest ->
  is_size_t L ->
  L mod 2 = 0 ->
  childNodes this = [] ->
  direction this = -1 \/ direction this = 1 ->
  length node2d = L2 :: l1 :: rest2 ->
  is_size_t L2 ->
  L2 mod 2 = 0 ->
  SBCC_dim_available pool (length (complex_side node2d L2 (l1 :: rest2))) 1
    (precision node2d) = Returns true ->
  after_call
    (RecursiveBuildTree api (cfftPlan_request api (complex_side this L rest) L rest) err)
    (RealTransEvenNode.BuildTree_internal api this err)
    (fun r =>
       length r.1 <> [] ->
       exists this',
         RealTransEvenNode.BuildTree_internal api this err = Returns (this', r.2)
         /\ try_fuse_pre_post_processing this' =
              try_fuse_pre_post_processing this && isLeafNode api r.1
         /\ even_children api (direction this =? -1)
              (try_fuse_pre_post_processing this') r.1 (L :: rest) (childNodes this')
         /\ List.length (childNodes this') =
              if try_fuse_pre_post_processing this' then 2%nat else 3%nat)
  /\ let len0 := if direction node2d =? -1 then L2 else L2 / 2 + 1 in
     exists parent len,
       let row := even_child_request api parent len0 len in
       scheme row = CS_REAL_TRANSFORM_EVEN
       /\ try_fuse_pre_post_processing row = (len0 <=? 2048)
       /\ after_call
            (RealTransEvenNode.BuildTree_internal api row err)
            (Real2DEvenNode.BuildTree_internal api pool node2d err)
            (fun r =>
               exists node2d',
                 Real2DEvenNode.BuildTree_internal api pool node2d err
                   = Returns (node2d', r.2)
                 /\ r.1 ∈ childNodes node2d').
Proof.
  intros Hfac Hlen HL Hev Hfresh Hdir Hlen2 HL2 Hev2 Havail. split.
  - pose proof (RealTransEven_children api Hfac this err L rest Hlen HL Hev Hfresh Hdir) as H.
    destruct (RecursiveBuildTree _ _ _) as [[cfft err']| | |]; cbn [after_call] in *;
      try exact H.
    intros Hc. destruct (H Hc) as (this' & Hret & Hf & Hch).
    exists this'. repeat split; try assumption.
    exact (even_children_count api L rest _ _ _ _ Hch).
  - intros len0.
    rewrite (Real2DEven_dispatch api pool node2d err L2 l1 rest2 Hlen2 HL2 Hev2).
    cbv zeta. rewrite Havail.
    set (this2 := with_solution INPLACE_SBCC (complex_side node2d L2 (l1 :: rest2))).
    assert (Hl2 : length this2 = len0 :: l1 :: rest2).
    { unfold this2, len0. cbn [length with_solution]. now apply length_complex_side. }
    assert (HL0 : is_size_t len0).
    { unfold len0. destruct (direction node2d =? -1);
        [exact HL2 | now apply is_size_t_hermitian]. }
    destruct (SBCC_even_child api pool this2 err len0 l1 rest2 Hl2 HL0)
      as (parent & len & H).
    exists parent, len. cbv zeta. split; [apply Hfac|]. split; [reflexivity|]. exact H.
Qed.

(** ** CS_REAL_TRANSFORM_USING_CMPLX *)

Lemma AssignParams_requires_three api n e :
  List.length (childNodes n) <> 3%nat ->
  RealTransCmplxNode.AssignParams_internal api n e = AssertFails.
Proof.
  intros H. unfold RealTransCmplxNode.AssignParams_internal.
  unfold bind at 1, assert. apply Nat.eqb_neq in H. rewrite H. reflexivity.
Qed.

(** C3. A [CS_REAL_TRANSFORM_USING_CMPLX] node asks for one complex
    sub-plan over the real-length shape and, once that is built, has
    exactly three children in this order: the head copy
    ([CS_KERNEL_COPY_R_TO_CMPLX] for real input,
    [CS_KERNEL_COPY_HERM_TO_CMPLX] otherwise), the complex transform, and
    the tail copy ([CS_KERNEL_COPY_CMPLX_TO_HERM] for real input,
    [CS_KERNEL_COPY_CMPLX_TO_R] otherwise). The layout pass of the scheme
    trips its assertion on any other number of children. *)
Theorem RealTransCmplx_three_children (api : NodeApi) (this : TreeNode)
    (err : list string) (L : Z) (rest : list Z) :
  (forall s p, scheme (CreateNodeFromScheme api s p) = s) ->
  length this = L :: rest ->
  is_size_t L ->
  childNodes this = [] ->
  let r2c := bool_decide (inArrayType this = rocfft_array_type_real) in
  (exists data parent,
     NodeMetaData.length data = L :: rest
     /\ NodeMetaData.dimension data = dimension this
     /\ after_call
          (RecursiveBuildTree api (CreateExplicitNode api data parent) err)
          (RealTransCmplxNode.BuildTree_internal api this err)
          (fun r =>
             exists this' copyHead copyTail,
               RealTransCmplxNode.BuildTree_internal api this err = Returns (this', r.2)
               /\ childNodes this' =
                    [copyHead;
                     GetLastLeaf_update api
                       (with_allowedOutArrayTypes [rocfft_array_type_complex_interleaved])
                       r.1;
                     copyTail]
               /\ scheme copyHead =
                    (if r2c then CS_KERNEL_COPY_R_TO_CMPLX else CS_KERNEL_COPY_HERM_TO_CMPLX)
               /\ scheme copyTail =
                    (if r2c then CS_KERNEL_COPY_CMPLX_TO_HERM else CS_KERNEL_COPY_CMPLX_TO_R)))
  /\ (forall n e,
        List.length (childNodes n) <> 3%nat ->
        RealTransCmplxNode.AssignParams_internal api n e = AssertFails).
Proof.
  intros Hfac Hlen HL Hfresh r2c. split; [|apply AssignParams_requires_three].
  unfold RealTransCmplxNode.BuildTree_internal.
  rewrite (set_complex_length_side this L rest Hlen HL).
  erewrite (bind_returns _ _ _ _ _ (lift_returns _ _)). cbv beta iota zeta.
  fold r2c.
  set (this1 := complex_side this L rest).
  set (parent := push_child _ this1).
  exists (RealTransCmplxNode.fftPlanData_of api parent (realLength_of this)), parent.
  assert (Hr : deref (realLength_of this) parent = L :: rest).
  { unfold parent. rewrite deref_push_child. now apply deref_real_side. }
  split; [exact Hr|]. split.
  { cbn. unfold this1, complex_side. destruct (direction this =? -1); reflexivity. }
  unfold bind, ret.
  destruct (RecursiveBuildTree _ _ _) as [[fft err']| | |]; cbn [after_call]; try reflexivity.
  eexists _, _, _. split; [reflexivity|].
  unfold parent, push_child. cbn [childNodes with_childNodes fst].
  unfold this1. rewrite childNodes_complex_side, Hfresh. cbn [app].
  split; [reflexivity|]. split.
  - unfold RealTransCmplxNode.copyHeadPlan_of. destruct r2c; cbn; apply Hfac.
  - unfold RealTransCmplxNode.copyTailPlan_of. destruct r2c; cbn; apply Hfac.
Qed.

(** ** Invalid direction *)

(** C9 (the code at the failing input). A [CS_REAL_TRANSFORM_EVEN] node
    of length 1024 with direction 0: the build writes the message to
    [std::cerr] and returns normally, leaving a node without children. *)
Theorem RealTransEven_direction_0_returns :
  match RealTransEvenNode.BuildTree_internal single_kernel_api
          (root_node CS_REAL_TRANSFORM_EVEN 0 rocfft_array_type_real [1024]) [] with
  | Returns (this', cerr) =>
      cerr = [RealTransEvenNode.invalid_direction_message] /\ childNodes this' = []
  | _ => False
  end.
Proof. vm_compute. split; reflexivity. Qed.

(** ** Shared-memory limit of a leaf *)

Example lds_message_text :
  LeafNode.lds_message 65544 65536 =
    "65544 bytes of LDS requested, but device only provides 65536"%string.
Proof. reflexivity. Qed.

Example no_shared_memory_throws :
  LeafNode.SetupGridParamAndFuncPtr default_leaf_api small_pool
    (stockham_leaf [64] 1 no_shared_memory) {| lds_bytes := 0 |}
  = Throws "8 bytes of LDS requested, but device only provides 0".
Proof. reflexivity. Qed.

(** The comparison itself. Let [bytes] be the value of [gp.lds_bytes]
    when it meets the comparison. If it exceeds the device's shared
    memory per block, setting up the grid parameters throws, and the
    text of the exception names both byte counts ([lds_message]);
    otherwise the grid parameters carry [bytes] itself. On a device with
    0 bytes of shared memory every positive [bytes] throws. *)
Theorem SetupGridParam_lds_limit (api : LeafApi) (pool : function_pool)
    (this this' : LeafNode) (gp : GridParam) (bytes : Z) :
  LeafNode.requested_lds_bytes api pool this gp = Returns (this', bytes) ->
  let limit := sharedMemPerBlock (deviceProp (node this')) in
  (bytes > limit ->
   LeafNode.SetupGridParamAndFuncPtr api pool this gp
     = Throws (LeafNode.lds_message bytes limit))
  /\ (bytes <= limit ->
      LeafNode.SetupGridParamAndFuncPtr api pool this gp
        = Returns (this', {| lds_bytes := bytes |}))
  /\ (limit = 0 -> 0 < bytes ->
      LeafNode.SetupGridParamAndFuncPtr api pool this gp
        = Throws (LeafNode.lds_message bytes 0)).
Proof.
  intros Hreq limit. unfold LeafNode.SetupGridParamAndFuncPtr.
  rewrite Hreq. cbn [obind]. fold limit.
  split; [|split].
  - intros Hgt. apply Z.gtb_gt in Hgt. rewrite Hgt. reflexivity.
  - intros Hle. destruct (bytes >? limit) eqn:Hgt; [|reflexivity].
    apply Z.gtb_gt in Hgt. lia.
  - intros H0 Hpos. assert (Hgt : (bytes >? limit) = true) by (apply Z.gtb_gt; lia).
    rewrite Hgt, H0. reflexivity.
Qed.


(** ** Kernel keys from a solution map *)

Section KernelCheck.
Variables (api : LeafApi) (pool : function_pool) (this : LeafNode).
Variables (assignedKey : FMKey.t) (more_keys : list FMKey.t).
Hypothesis Hexternal : externalKernel this = true.
Hypothesis Hassigned : assignedKey <> EmptyFMKey api.
Hypothesis Hsize :
  (Z.to_nat (dimension (node this)) <= List.length (length (node this)))%nat.
Hypothesis Hdim : 1 <= dimension (node this).

Lemma key_mismatch_detected :
  disagrees this assignedKey ->
  LeafNode.key_mismatch this assignedKey = Returns true.
Proof.
  unfold disagrees, LeafNode.key_mismatch, at_index.
  destruct (length (node this)) as [|len0 tl] eqn:Hl; [cbn in Hsize; lia|].
  cbn [lookup list_lookup of_option obind].
  intros Hdis.
  destruct (len0 =? (FMKey.lengths assignedKey).1) eqn:H0; [|reflexivity].
  apply Z.eqb_eq in H0. cbn [negb].
  destruct (dimension (node this) =? 2) eqn:H2.
  - apply Z.eqb_eq in H2. rewrite H2 in Hsize.
    destruct tl as [|len1 tl']; [cbn in Hsize; lia|].
    cbn [lookup list_lookup of_option obind].
    destruct (len1 =? (FMKey.lengths assignedKey).2) eqn:H1; [|reflexivity].
    apply Z.eqb_eq in H1. cbn [negb].
    destruct Hdis as [Hd|[[_ Hd]|Hd]]; [congruence | cbn in Hd; congruence |].
    f_equal. repeat case_bool_decide; try reflexivity. tauto.
  - apply Z.eqb_neq in H2. cbn [obind].
    destruct Hdis as [Hd|[[Hd _]|Hd]]; [congruence | congruence |].
    f_equal. repeat case_bool_decide; try reflexivity. tauto.
Qed.

(** C8. A supplied key that is not the empty key and disagrees with
    the node in fastest length, second length of a 2-D node, precision,
    scheme or embedded type makes [KernelCheck] answer [false] without
    touching the pool, and [SanityCheck] throw. The caller then runs
    the check again with default kernel selection; the outcome is that
    of the default selection, which fails only when the pool has no
    kernel for the node's own key. *)
Theorem KernelCheck_mismatch_recoverable :
  disagrees this assignedKey ->
  let this0 := with_specified_key None this in
  let key := LeafNode.GetKernelKey api this0 in
  LeafNode.KernelCheck api pool this (assignedKey :: more_keys)
    = Returns (false, this0, more_keys, pool)
  /\ LeafNode.SanityCheck api pool this (assignedKey :: more_keys)
       = Throws LeafNode.kernel_not_found_message
  /\ SanityCheck_or_default api pool this (assignedKey :: more_keys)
       = LeafNode.SanityCheck api pool this []
  /\ (has_function pool key = false ->
      SanityCheck_or_default api pool this (assignedKey :: more_keys)
        = Throws LeafNode.kernel_not_found_message)
  /\ (has_function pool key = true ->
      exists this1,
        LeafNode.KernelCheck api pool this [] = Returns (true, this1, [], pool)
        /\ SanityCheck_or_default api pool this (assignedKey :: more_keys)
             = obind (TreeNode_SanityCheck api this1 [])
                 (fun r => Returns (r.1, r.2, pool))).
Proof.
  intros Hdis this0 key.
  assert (Hk : LeafNode.KernelCheck api pool this (assignedKey :: more_keys)
               = Returns (false, this0, more_keys, pool)).
  { unfold LeafNode.KernelCheck. rewrite Hexternal. cbn [negb].
    rewrite bool_decide_eq_false_2 by exact Hassigned.
    assert (Hm : LeafNode.key_mismatch (with_specified_key None this) assignedKey
                 = Returns true).
    { apply (key_mismatch_detected); assumption. }
    rewrite Hm. reflexivity. }
  assert (Hs : LeafNode.SanityCheck api pool this (assignedKey :: more_keys)
               = Throws LeafNode.kernel_not_found_message).
  { unfold LeafNode.SanityCheck. rewrite Hk. reflexivity. }
  assert (Hf : SanityCheck_or_default api pool this (assignedKey :: more_keys)
               = LeafNode.SanityCheck api pool this []).
  { unfold SanityCheck_or_default. rewrite Hs. reflexivity. }
  split; [exact Hk|]. split; [exact Hs|]. split; [exact Hf|].
  rewrite Hf. unfold LeafNode.SanityCheck, LeafNode.KernelCheck.
  rewrite Hexternal. cbn [negb]. fold this0. fold key.
  split; intros Hhas; rewrite Hhas; cbn [negb obind].
  - reflexivity.
  - eexists. split; [reflexivity|].
    destruct (TreeNode_SanityCheck _ _ _) as [[l ks]| | |]; reflexivity.
Qed.
End KernelCheck.

(** ** Collapsing contiguous dimensions *)

Lemma size_t_wrap_mul_l a b : size_t_wrap (size_t_wrap a * b) = size_t_wrap (a * b).
Proof. unfold size_t_wrap. apply Zmult_mod_idemp_l. Qed.

Lemma collectCollapse_spec dims_rev : forall cur nb len str ds nb',
  collectCollapse dims_rev cur nb len str = Returns (ds, nb') ->
  (exists later, dims_rev = ds ++ later)
  /\ contiguous ds cur len str
  /\ size_t_wrap nb' = size_t_wrap (nb * prod_at len ds)
  /\ (ds = [] -> nb' = nb).
Proof.
  induction dims_rev as [|i rest IH]; intros cur nb len str ds nb' H.
  - cbn in H. simplify_eq. cbn. rewrite Z.mul_1_r. eauto.
  - cbn [collectCollapse] in H. unfold at_index in H.
    destruct (str !! i) as [s|] eqn:Hs; cbn [of_option obind] in H; [|discriminate].
    destruct (s =? 0) eqn:Hs0; [discriminate|]. apply Z.eqb_neq in Hs0.
    destruct (cur mod s =? 0) eqn:Hmod; cbn [negb] in H;
      [|simplify_eq; cbn; rewrite Z.mul_1_r; eauto].
    apply Z.eqb_eq in Hmod.
    destruct (len !! i) as [l|] eqn:Hl; cbn [of_option obind] in H; [|discriminate].
    destruct (cur / s =? l) eqn:Hdiv; cbn [negb] in H;
      [|simplify_eq; cbn; rewrite Z.mul_1_r; eauto].
    apply Z.eqb_eq in Hdiv.
    destruct (collectCollapse rest s _ len str) as [[ds' nb'']| | |] eqn:Hrec;
      cbn [obind fst snd] in H; try discriminate.
    simplify_eq.
    destruct (IH _ _ _ _ _ _ Hrec) as ((later & ->) & Hc & Hb & _).
    split; [eauto|]. split.
    + cbn [contiguous]. exists s, (cur / s). repeat split; try assumption.
      pose proof (Z.div_mod cur s Hs0) as HH. rewrite Hmod, Z.add_0_r in HH. exact HH.
    + split; [|discriminate].
      rewrite Hb. cbn [prod_at]. rewrite Hl. cbn [default].
      rewrite size_t_wrap_mul_l. apply (f_equal size_t_wrap). unfold id. ring.
Qed.

Lemma prod_list_cons (x : Z) (len : list Z) : prod_list (x :: len) = x * prod_list len.
Proof. reflexivity. Qed.

Lemma prod_list_delete (len : list Z) (i : nat) (l : Z) :
  len !! i = Some l -> prod_list len = l * prod_list (delete i len).
Proof.
  revert i. induction len as [|x len IH]; intros [|i] H; try discriminate.
  - injection H as ->. reflexivity.
  - change (delete (S i) (x :: len)) with (x :: delete i len).
    rewrite !prod_list_cons, (IH i H). ring.
Qed.

Lemma prod_at_delete (len : list Z) (i : nat) (rest : list nat) :
  Forall (fun j => (j < i)%nat) rest ->
  prod_at (delete i len) rest = prod_at len rest.
Proof.
  induction 1 as [|j rest Hj _ IH]; [reflexivity|].
  cbn [prod_at]. rewrite IH. now rewrite list_lookup_delete_lt.
Qed.

Lemma doCollapse_spec dims : forall dist len str dist' len' str',
  descending dims ->
  doCollapse dims dist len str = Returns (dist', len', str') ->
  prod_list len = prod_at len dims * prod_list len'.
Proof.
  induction dims as [|i rest IH]; intros dist len str dist' len' str' Hd H.
  - cbn in H. simplify_eq. cbn. lia.
  - cbn [doCollapse] in H. unfold erase_at, at_index in H.
    destruct (len !! i) as [l|] eqn:Hl; cbn [of_option obind] in H; [|discriminate].
    destruct (l =? 0); [discriminate|].
    destruct (str !! i) as [s|] eqn:Hs; cbn [of_option obind] in H; [|discriminate].
    apply StronglySorted_inv in Hd as [Hd Hlt].
    rewrite (prod_list_delete len i l Hl).
    rewrite (IH _ _ _ _ _ _ Hd H).
    rewrite (prod_at_delete len i rest Hlt).
    cbn [prod_at]. rewrite Hl. cbn [default]. unfold id. ring.
Qed.

Lemma descending_snoc (l : list nat) (x : nat) :
  descending l -> Forall (fun a => (x < a)%nat) l -> descending (l ++ [x]).
Proof.
  unfold descending. induction 1 as [|a l Hs IH Ha]; intros Hx; cbn.
  - repeat constructor.
  - apply Forall_cons in Hx as [Hxa Hx]. constructor; [auto|].
    apply Forall_app. split; [exact Ha|]. repeat constructor. exact Hxa.
Qed.

Lemma descending_reverse (l : list nat) :
  StronglySorted lt l -> descending (reverse l).
Proof.
  induction 1 as [|a l Hs IH Ha].
  - constructor.
  - rewrite reverse_cons. apply descending_snoc; [exact IH|].
    apply Forall_reverse. exact Ha.
Qed.

Lemma descending_app_l (l later : list nat) : descending (l ++ later) -> descending l.
Proof.
  unfold descending. induction l as [|a l IH]; cbn; intros H; [constructor|].
  apply StronglySorted_inv in H as [H Ha]. constructor; [auto|].
  apply Forall_app in Ha. tauto.
Qed.

Lemma collectCollapse_size_t dims_rev : forall cur nb len str ds nb',
  is_size_t nb ->
  collectCollapse dims_rev cur nb len str = Returns (ds, nb') ->
  is_size_t nb'.
Proof.
  induction dims_rev as [|i rest IH]; intros cur nb len str ds nb' Hnb H.
  - cbn in H. now simplify_eq.
  - cbn [collectCollapse] in H. unfold at_index in H.
    destruct (str !! i) as [s|]; cbn [of_option obind] in H; [|discriminate].
    destruct (s =? 0); [discriminate|].
    destruct (cur mod s =? 0); cbn [negb] in H; [|now simplify_eq].
    destruct (len !! i) as [l|]; cbn [of_option obind] in H; [|discriminate].
    destruct (cur / s =? l); cbn [negb] in H; [|now simplify_eq].
    destruct (collectCollapse rest s _ len str) as [[ds' nb'']| | |] eqn:Hrec;
      cbn [obind fst snd] in H; try discriminate.
    simplify_eq. eapply IH; [|exact Hrec].
    unfold is_size_t, size_t_wrap, SIZE_T_MODULUS. apply Z.mod_pos_bound. reflexivity.
Qed.

Lemma doCollapse_Forall (P : Z -> Prop) dims : forall dist len str dist' len' str',
  doCollapse dims dist len str = Returns (dist', len', str') ->
  Forall P len -> Forall P len'.
Proof.
  induction dims as [|i rest IH]; intros dist len str dist' len' str' H HP.
  - cbn in H. now simplify_eq.
  - cbn [doCollapse] in H. unfold erase_at, at_index in H.
    destruct (len !! i) as [l|]; cbn [of_option obind] in H; [|discriminate].
    destruct (l =? 0); [discriminate|].
    destruct (str !! i) as [s|]; cbn [of_option obind] in H; [|discriminate].
    eapply IH; [exact H|]. now apply Forall_delete.
Qed.

Lemma prod_list_nonneg (len : list Z) : Forall (Z.le 0) len -> 0 <= prod_list len.
Proof.
  induction 1 as [|x len Hx _ IH]; [unfold prod_list; cbn; lia|].
  rewrite prod_list_cons. lia.
Qed.

Lemma prod_at_nonneg (len : list Z) (dims : list nat) :
  Forall (Z.le 0) len -> 0 <= prod_at len dims.
Proof.
  intros Hlen. induction dims as [|i rest IH]; cbn [prod_at]; [lia|].
  destruct (len !! i) as [l|] eqn:Hl; cbn [default]; unfold id; [|lia].
  assert (0 <= l) by (eapply (Forall_lookup_1 _ _ _ _ Hlen Hl)). lia.
Qed.

(** What one side of the collapse does to the element count. *)
Lemma collapse_side_count (dims_rev ds : list nat) (dist nb batch0 dist' : Z)
    (len str len' str' : list Z) :
  descending dims_rev ->
  collectCollapse dims_rev dist batch0 len str = Returns (ds, nb) ->
  doCollapse ds dist len str = Returns (dist', len', str') ->
  size_t_wrap (nb * prod_list len') = size_t_wrap (batch0 * prod_list len)
  /\ (is_size_t batch0 -> Forall (Z.le 0) len ->
      batch0 * prod_list len < SIZE_T_MODULUS ->
      nb * prod_list len' = batch0 * prod_list len).
Proof.
  intros Hdesc Hcollect Hdo.
  destruct (collectCollapse_spec _ _ _ _ _ _ _ Hcollect) as ((later & ->) & _ & Hnb & _).
  apply descending_app_l in Hdesc.
  pose proof (doCollapse_spec _ _ _ _ _ _ _ Hdesc Hdo) as Hprod.
  split.
  - rewrite <- size_t_wrap_mul_l, Hnb, size_t_wrap_mul_l.
    apply (f_equal size_t_wrap). rewrite Hprod. ring.
  - intros Hb Hlen Hfit.
    pose proof (collectCollapse_size_t _ _ _ _ _ _ _ Hb Hcollect) as Hnb'.
    pose proof (prod_at_nonneg len ds Hlen) as HP.
    pose proof (prod_list_nonneg len' (doCollapse_Forall _ _ _ _ _ _ _ _ Hdo Hlen)) as HQ.
    rewrite Hprod in *.
    destruct (Z.eq_dec (prod_list len') 0) as [H0|H0].
    + rewrite H0. ring.
    + assert (Hsmall : 0 <= batch0 * prod_at len ds < SIZE_T_MODULUS).
      { unfold is_size_t in Hb. split; [nia|]. nia. }
      unfold size_t_wrap in Hnb. unfold is_size_t in Hnb'.
      rewrite (Z.mod_small nb) in Hnb by exact Hnb'.
      rewrite (Z.mod_small _ _ Hsmall) in Hnb. rewrite Hnb. ring.
Qed.

(** Either the node is returned as it is, or both sides collect the same
    dimensions and batch and are collapsed. *)
Lemma collapse_own_dims_cases api this this' :
  collapse_own_dims api this = Returns this' ->
  this' = this
  \/ exists ds nb iDist' length' inStride' oDist' outLen' outStride',
       let dims_rev := reverse (CollapsibleDims api this) in
       collectCollapse dims_rev (iDist this) (batch this) (length this) (inStride this)
         = Returns (ds, nb)
       /\ collectCollapse dims_rev (oDist this) (batch this) (GetOutputLength api this)
            (outStride this) = Returns (ds, nb)
       /\ doCollapse ds (iDist this) (length this) (inStride this)
            = Returns (iDist', length', inStride')
       /\ doCollapse ds (oDist this) (GetOutputLength api this) (outStride this)
            = Returns (oDist', outLen', outStride')
       /\ own_layout this' =
            (length',
             match outputLength this with [] => [] | _ => outLen' end,
             inStride', outStride', iDist', oDist', nb).
Proof.
  unfold collapse_own_dims. intros H.
  case_bool_decide as Hd; [left; now simplify_eq|].
  destruct (collectCollapse _ (iDist this) _ _ _) as [[din nbin]| | |] eqn:Hin;
    cbn [obind] in H; try discriminate.
  destruct (collectCollapse _ (oDist this) _ _ _) as [[dout nbout]| | |] eqn:Hout;
    cbn [obind] in H; try discriminate.
  case_bool_decide as Heq; cbn [negb orb] in H; [|left; now simplify_eq].
  destruct (nbin =? nbout) eqn:Hnb; cbn [negb] in H; [|left; now simplify_eq].
  apply Z.eqb_eq in Hnb. subst dout nbout.
  right.
  match type of H with obind ?c _ = _ => destruct c as [this1| | |] eqn:Hmsg end;
    cbn [obind] in H; try discriminate.
  assert (Hsame : length this1 = length this /\ outputLength this1 = outputLength this
                  /\ inStride this1 = inStride this /\ outStride this1 = outStride this
                  /\ iDist this1 = iDist this /\ oDist this1 = oDist this).
  { destruct (negb (bool_decide (din = []))); [|now simplify_eq].
    destruct (collapsed_lengths_text _ _); cbn [obind] in Hmsg; now simplify_eq. }
  destruct Hsame as (Hl & Ho & His & Hos & Hid & Hod).
  rewrite Hl, His, Hid in H.
  destruct (doCollapse din (iDist this) _ _) as [[[id' l'] is']| | |] eqn:Hdi;
    cbn [obind] in H; try discriminate.
  cbn [oDist outStride with_inStride with_length with_iDist] in H.
  rewrite Hos, Hod in H.
  destruct (doCollapse din (oDist this) _ _) as [[[od' ol'] os']| | |] eqn:Hdo;
    cbn [obind] in H; try discriminate.
  exists din, nbin, id', l', is', od', ol', os'. cbv zeta.
  repeat split; try assumption.
  cbn [outputLength with_batch with_outStride with_oDist with_inStride with_length
       with_iDist] in H.
  rewrite Ho in H.
  destruct (outputLength this); cbn in H; simplify_eq; unfold own_layout; cbn;
    rewrite ?Ho; reflexivity.
Qed.

Lemma CollapseContiguousDims_own api this this' :
  CollapseContiguousDims api this = Returns this' ->
  exists children, collapse_own_dims api (with_childNodes children this) = Returns this'.
Proof.
  destruct this as [s d l ol ist ost idi odi b dir p iat aot eb aop tf sol cm dp fs cs].
  cbn [CollapseContiguousDims childNodes]. intros H.
  match type of H with obind ?c _ = _ => destruct c as [children| | |] end;
    cbn [obind] in H; try discriminate.
  exists children. exact H.
Qed.

Lemma collectCollapse_returns dims_rev : forall cur nb len str,
  dims_usable dims_rev len str ->
  exists ds nb', collectCollapse dims_rev cur nb len str = Returns (ds, nb').
Proof.
  induction dims_rev as [|i rest IH]; intros cur nb len str Hu; [cbn; eauto|].
  apply Forall_cons in Hu as [(s & l & Hs & Hl & Hs0 & _) Hu].
  cbn [collectCollapse]. unfold at_index. rewrite Hs, Hl. cbn [of_option obind].
  apply Z.eqb_neq in Hs0. rewrite Hs0.
  destruct (cur mod s =? 0); cbn [negb]; [|eauto].
  destruct (cur / s =? l); cbn [negb]; [|eauto].
  destruct (IH s (size_t_wrap (nb * l)) len str Hu) as (ds & nb' & ->).
  cbn [obind fst snd]. eauto.
Qed.

Lemma dims_usable_delete (i : nat) (rest : list nat) (len str : list Z) :
  Forall (fun j => (j < i)%nat) rest ->
  dims_usable rest len str ->
  dims_usable rest (delete i len) (delete i str).
Proof.
  unfold dims_usable. intros Hlt Hu.
  rewrite Forall_forall in Hlt, Hu |- *. intros j Hj.
  destruct (Hu j Hj) as (s & l & Hs & Hl & H0 & H1).
  exists s, l. rewrite !list_lookup_delete_lt by auto. auto.
Qed.

Lemma doCollapse_returns dims : forall dist len str,
  descending dims ->
  dims_usable dims len str ->
  exists r, doCollapse dims dist len str = Returns r.
Proof.
  induction dims as [|i rest IH]; intros dist len str Hd Hu; [cbn; eauto|].
  apply StronglySorted_inv in Hd as [Hd Hlt].
  apply Forall_cons in Hu as [(s & l & Hs & Hl & _ & Hl0) Hu].
  cbn [doCollapse]. unfold erase_at, at_index. rewrite Hl. cbn [of_option obind].
  apply Z.eqb_neq in Hl0. rewrite Hl0. rewrite Hs. cbn [of_option obind].
  apply IH; [exact Hd|]. now apply dims_usable_delete.
Qed.

Lemma collapsed_lengths_text_returns (dims : list nat) (len : list Z) :
  Forall (fun i => is_Some (len !! i)) dims ->
  exists t, collapsed_lengths_text dims len = Returns t.
Proof.
  induction 1 as [|i rest [l Hl] _ [t IH]]; [cbn; eauto|].
  cbn [collapsed_lengths_text]. unfold at_index. rewrite Hl, IH. cbn. eauto.
Qed.

Lemma dims_usable_prefix (ds later : list nat) (len str : list Z) :
  dims_usable (ds ++ later) len str -> dims_usable ds len str.
Proof. unfold dims_usable. intros H. apply Forall_app in H. tauto. Qed.

(** The node's own collapse returns when the collapsible dimensions are
    ascending and usable on both sides. *)
Lemma collapse_own_dims_returns api this :
  StronglySorted lt (CollapsibleDims api this) ->
  dims_usable (CollapsibleDims api this) (length this) (inStride this) ->
  dims_usable (CollapsibleDims api this) (GetOutputLength api this) (outStride this) ->
  exists this', collapse_own_dims api this = Returns this'.
Proof.
  intros Hsort Hin Hout. unfold collapse_own_dims.
  case_bool_decide; [eauto|].
  assert (Hin' : dims_usable (reverse (CollapsibleDims api this)) (length this) (inStride this)).
  { unfold dims_usable. now apply Forall_reverse. }
  assert (Hout' : dims_usable (reverse (CollapsibleDims api this))
                    (GetOutputLength api this) (outStride this)).
  { unfold dims_usable. now apply Forall_reverse. }
  destruct (collectCollapse_returns _ (iDist this) (batch this) _ _ Hin')
    as (din & nbin & Hci).
  destruct (collectCollapse_returns _ (oDist this) (batch this) _ _ Hout')
    as (dout & nbout & Hco).
  rewrite Hci, Hco. cbn [obind].
  destruct (negb (bool_decide (din = dout)) || negb (nbin =? nbout)) eqn:Hguard; [eauto|].
  apply orb_false_elim in Hguard as [Hg _]. apply negb_false_iff in Hg.
  apply bool_decide_eq_true in Hg. subst dout.
  destruct (collectCollapse_spec _ _ _ _ _ _ _ Hci) as ((later & Hpre) & _).
  pose proof (descending_reverse _ Hsort) as Hdesc. rewrite Hpre in Hdesc, Hin', Hout'.
  apply descending_app_l in Hdesc.
  apply dims_usable_prefix in Hin', Hout'.
  assert (Hmsg : exists this1,
    (if negb (bool_decide (din = [])) then
       t <~ collapsed_lengths_text (reverse din) (length this) ;;
       Returns (with_comments
                  (comments this ++
                     [("collapsed contiguous high length(s)" ++ t ++ " into batch")%string])
                  this)
     else Returns this)%cxx = Returns this1
    /\ length this1 = length this /\ inStride this1 = inStride this
    /\ iDist this1 = iDist this /\ outStride this1 = outStride this
    /\ oDist this1 = oDist this).
  { destruct (negb (bool_decide (din = []))); [|eexists; repeat split].
    destruct (collapsed_lengths_text_returns (reverse din) (length this)) as [t ->].
    { apply Forall_reverse. unfold dims_usable in Hin'.
      eapply Forall_impl; [exact Hin'|]. intros i (s & l & _ & Hl & _). eauto. }
    cbn [obind]. eexists. repeat split. }
  destruct Hmsg as (this1 & -> & Hl & His & Hid & Hos & Hod). cbn [obind].
  rewrite Hl, His, Hid.
  destruct (doCollapse_returns din (iDist this) _ _ Hdesc Hin') as [[[id' l'] is'] ->].
  cbn [obind oDist outStride with_inStride with_length with_iDist].
  rewrite Hos, Hod.
  destruct (doCollapse_returns din (oDist this) _ _ Hdesc Hout') as [[[od' ol'] os'] ->].
  cbn [obind]. destruct (negb _); eauto.
Qed.

(** The call returns on a tree whose nodes are usable. *)
Lemma CollapseContiguousDims_returns api : forall n,
  tree_usable api n -> exists n', CollapseContiguousDims api n = Returns n'.
Proof.
  fix IH 1. intros n.
  destruct n as [s d l ol ist ost idi odi b dir p iat aot eb aop tf sol cm dp fs cs].
  intros [Hn Hcs]. cbn [childNodes] in Hcs.
  cbn [CollapseContiguousDims childNodes].
  assert (Hchildren : exists cs',
    (fix collapse_children (cs0 : list TreeNode) : outcome (list TreeNode) :=
       match cs0 with
       | [] => Returns []
       | child :: cs'0 =>
           (child0 <~ CollapseContiguousDims api child;;
            cs'1 <~ collapse_children cs'0;; Returns (child0 :: cs'1))%cxx
       end) cs = Returns cs').
  { clear Hn. induction cs as [|c cs IHcs]; [eauto|].
    destruct Hcs as [Hc Hcs]. destruct (IH c Hc) as [c' ->]. cbn [obind].
    destruct (IHcs Hcs) as [cs' ->]. cbn [obind]. eauto. }
  destruct Hchildren as [cs' ->]. cbn [obind].
  destruct (Hn cs') as (Hsort & Hin & Hout).
  apply collapse_own_dims_returns; assumption.
Qed.

(** C10. When [CollapseContiguousDims] returns, the element count of the
    node, batch times the product of the [length] entries, is what it
    was, as a [size_t] value and, when it fits in a [size_t], as an
    integer; the same holds for [outputLength] when it is set, and an
    unset [outputLength] stays unset. Either the layout of the node is
    untouched, or the input side and the output side collected the same
    dimensions and the same batch, and along the collapsed dimensions,
    highest first, the running distance equals stride times length on
    both sides. [CollapsibleDims] is taken to list dimensions in
    ascending order. *)
Theorem CollapseContiguousDims_preserves (api : NodeApi) (this this' : TreeNode) :
  (forall n, outputLength n <> [] -> GetOutputLength api n = outputLength n) ->
  (forall n, StronglySorted lt (CollapsibleDims api n)) ->
  CollapseContiguousDims api this = Returns this' ->
  (* the element counts, as size_t values *)
  size_t_wrap (batch this' * prod_list (length this'))
    = size_t_wrap (batch this * prod_list (length this))
  /\ (outputLength this <> [] ->
      size_t_wrap (batch this' * prod_list (outputLength this'))
        = size_t_wrap (batch this * prod_list (outputLength this)))
  /\ (outputLength this = [] -> outputLength this' = [])
  (* the element counts, as integers, when they fit *)
  /\ (is_size_t (batch this) -> Forall (Z.le 0) (length this) ->
      batch this * prod_list (length this) < SIZE_T_MODULUS ->
      batch this' * prod_list (length this') = batch this * prod_list (length this))
  /\ (is_size_t (batch this) -> outputLength this <> [] ->
      Forall (Z.le 0) (outputLength this) ->
      batch this * prod_list (outputLength this) < SIZE_T_MODULUS ->
      batch this' * prod_list (outputLength this')
        = batch this * prod_list (outputLength this))
  (* the guard and the contiguity of what is collapsed *)
  /\ (own_layout this' = own_layout this
      \/ exists children ds nb,
           let this0 := with_childNodes children this in
           let dims_rev := reverse (CollapsibleDims api this0) in
           collectCollapse dims_rev (iDist this) (batch this) (length this)
             (inStride this) = Returns (ds, nb)
           /\ collectCollapse dims_rev (oDist this) (batch this)
                (GetOutputLength api this0) (outStride this) = Returns (ds, nb)
           /\ contiguous ds (iDist this) (length this) (inStride this)
           /\ contiguous ds (oDist this) (GetOutputLength api this0) (outStride this)
           /\ doCollapse ds (iDist this) (length this) (inStride this)
                = Returns (iDist this', length this', inStride this')
           /\ (exists outLen',
                 doCollapse ds (oDist this) (GetOutputLength api this0) (outStride this)
                   = Returns (oDist this', outLen', outStride this'))
           /\ batch this' = nb).
Proof.
  intros Hget Hsorted Hret.
  destruct (CollapseContiguousDims_own api this this' Hret) as [children Hown].
  set (this0 := with_childNodes children this) in *.
  assert (Hlay : own_layout this0 = own_layout this) by reflexivity.
  destruct (collapse_own_dims_cases api this0 this' Hown) as
    [->|(ds & nb & id' & l' & is' & od' & ol' & os' & Hci & Hco & Hdi & Hdo & Hres)].
  { repeat split; try reflexivity; try (intros; reflexivity); auto. }
  cbv zeta in Hci, Hco.
  change (iDist this0) with (iDist this) in *.
  change (oDist this0) with (oDist this) in *.
  change (batch this0) with (batch this) in *.
  change (length this0) with (length this) in *.
  change (inStride this0) with (inStride this) in *.
  change (outStride this0) with (outStride this) in *.
  change (outputLength this0) with (outputLength this) in *.
  pose proof (descending_reverse _ (Hsorted this0)) as Hdesc.
  destruct (collapse_side_count _ _ _ _ _ _ _ _ _ _ Hdesc Hci Hdi) as [Hwi Hei].
  destruct (collapse_side_count _ _ _ _ _ _ _ _ _ _ Hdesc Hco Hdo) as [Hwo Heo].
  unfold own_layout in Hres.
  injection Hres as Hl Ho His Hos Hid Hod Hb.
  rewrite Hl, Hb.
  split; [exact Hwi|].
  assert (Hset : outputLength this <> [] ->
                 GetOutputLength api this0 = outputLength this
                 /\ outputLength this' = ol').
  { intros Hne. split; [exact (Hget this0 Hne)|].
    rewrite Ho. destruct (outputLength this); [congruence | reflexivity]. }
  split.
  { intros Hne. destruct (Hset Hne) as [Hg ->]. rewrite Hg in Hwo. exact Hwo. }
  split.
  { intros He. rewrite Ho, He. reflexivity. }
  split; [exact Hei|].
  split.
  { intros Hbt Hne. destruct (Hset Hne) as [Hg ->]. rewrite Hg in Heo. exact (Heo Hbt). }
  right. exists children, ds, nb. cbv zeta. fold this0.
  destruct (collectCollapse_spec _ _ _ _ _ _ _ Hci) as (_ & Hcti & _).
  destruct (collectCollapse_spec _ _ _ _ _ _ _ Hco) as (_ & Hcto & _).
  rewrite His, Hid, Hos, Hod.
  repeat split; try assumption. exists ol'. exact Hdo.
Qed.

(* ------------------------------------------------------------------ *)
(** ** The properties at the example inputs *)

Lemma set_complex_length_hermitian_witness :
  exists node' realLength complexLength,
    set_complex_length real_1024_inverse = Returns (node', realLength, complexLength)
    /\ deref realLength node' = [1024]
    /\ deref complexLength node' = [1024 / 2 + 1]
    /\ (direction real_1024_inverse = -1 ->
        length node' = [1024] /\ outputLength node' = [1024 / 2 + 1])
    /\ (direction real_1024_inverse = 1 ->
        length node' = [1024 / 2 + 1] /\ outputLength node' = [1024]).
Proof.
  apply (set_complex_length_hermitian real_1024_inverse 1024 []).
  - reflexivity.
  - unfold is_size_t, SIZE_T_MODULUS. lia.
Defined.

Lemma SBCC_dim_available_policy_witness :
  let pool := small_pool in
  let sbcc_key := fpkey pool 64 rocfft_precision_single CS_KERNEL_STOCKHAM_BLOCK_CC in
  let normal_key := fpkey_normal pool 64 rocfft_precision_single in
  (has_function pool sbcc_key = true ->
   SBCC_dim_available pool [64; 64] 1 rocfft_precision_single = Returns true)
  /\ (has_function pool sbcc_key = false ->
      has_function pool normal_key = false ->
      SBCC_dim_available pool [64; 64] 1 rocfft_precision_single = Returns false)
  /\ (has_function pool sbcc_key = false ->
      has_function pool normal_key = true ->
      transforms_per_block (get_kernel pool normal_key) < minRows rocfft_precision_single ->
      SBCC_dim_available pool [64; 64] 1 rocfft_precision_single = Returns false)
  /\ minRows rocfft_precision_single = 8
  /\ minRows rocfft_precision_double = 4.
Proof.
  apply (SBCC_dim_available_policy small_pool [64; 64] 1 rocfft_precision_single 64 64);
    reflexivity.
Defined.

Lemma RealTransEven_callback_boundary_witness :
  after_call
    (RecursiveBuildTree single_kernel_api
       (cfftPlan_request single_kernel_api (complex_side real_1024_forward 1024 []) 1024 [])
       [])
    (RealTransEvenNode.BuildTree_internal single_kernel_api real_1024_forward [])
    (fun r =>
       length r.1 <> [] ->
       exists this' applyCallback,
         RealTransEvenNode.BuildTree_internal single_kernel_api real_1024_forward []
           = Returns (this', r.2)
         /\ (if direction real_1024_forward =? -1
             then head (childNodes this') else last (childNodes this'))
            = Some applyCallback
         /\ scheme applyCallback = CS_KERNEL_APPLY_CALLBACK
         /\ length applyCallback = [1024]).
Proof.
  apply (RealTransEven_callback_boundary single_kernel_api real_1024_forward [] 1024 []).
  - intros s p. reflexivity.
  - reflexivity.
  - unfold is_size_t, SIZE_T_MODULUS. lia.
  - reflexivity.
  - reflexivity.
  - left. reflexivity.
Defined.

Lemma RealTransEven_fusion_policy_witness :
  after_call
    (RecursiveBuildTree single_kernel_api
       (cfftPlan_request single_kernel_api (complex_side real_1024_forward 1024 []) 1024 [])
       [])
    (RealTransEvenNode.BuildTree_internal single_kernel_api real_1024_forward [])
    (fun r =>
       length r.1 <> [] ->
       exists this',
         RealTransEvenNode.BuildTree_internal single_kernel_api real_1024_forward []
           = Returns (this', r.2)
         /\ try_fuse_pre_post_processing this' =
              try_fuse_pre_post_processing real_1024_forward
              && isLeafNode single_kernel_api r.1
         /\ even_children single_kernel_api (direction real_1024_forward =? -1)
              (try_fuse_pre_post_processing this') r.1 [1024] (childNodes this')
         /\ List.length (childNodes this') =
              if try_fuse_pre_post_processing this' then 2%nat else 3%nat)
  /\ let len0 := if direction real_4000x64_inverse =? -1 then 4000 else 4000 / 2 + 1 in
     exists parent len,
       let row := even_child_request single_kernel_api parent len0 len in
       scheme row = CS_REAL_TRANSFORM_EVEN
       /\ try_fuse_pre_post_processing row = (len0 <=? 2048)
       /\ after_call
            (RealTransEvenNode.BuildTree_internal single_kernel_api row [])
            (Real2DEvenNode.BuildTree_internal single_kernel_api small_pool
               real_4000x64_inverse [])
            (fun r =>
               exists node2d',
                 Real2DEvenNode.BuildTree_internal single_kernel_api small_pool
                   real_4000x64_inverse [] = Returns (node2d', r.2)
                 /\ r.1 ∈ childNodes node2d').
Proof.
  apply (RealTransEven_fusion_policy single_kernel_api real_1024_forward [] 1024 []
           small_pool real_4000x64_inverse 4000 64 []).
  - intros s p. reflexivity.
  - reflexivity.
  - unfold is_size_t, SIZE_T_MODULUS. lia.
  - reflexivity.
  - reflexivity.
  - left. reflexivity.
  - reflexivity.
  - unfold is_size_t, SIZE_T_MODULUS. lia.
  - reflexivity.
  - reflexivity.
Defined.

Lemma RealTransCmplx_three_children_witness :
  let r2c := bool_decide (inArrayType real_9x3_forward = rocfft_array_type_real) in
  (exists data parent,
     NodeMetaData.length data = [9; 3]
     /\ NodeMetaData.dimension data = dimension real_9x3_forward
     /\ after_call
          (RecursiveBuildTree single_kernel_api
             (CreateExplicitNode single_kernel_api data parent) [])
          (RealTransCmplxNode.BuildTree_internal single_kernel_api real_9x3_forward [])
          (fun r =>
             exists this' copyHead copyTail,
               RealTransCmplxNode.BuildTree_internal single_kernel_api real_9x3_forward []
                 = Returns (this', r.2)
               /\ childNodes this' =
                    [copyHead;
                     GetLastLeaf_update single_kernel_api
                       (with_allowedOutArrayTypes [rocfft_array_type_complex_interleaved])
                       r.1;
                     copyTail]
               /\ scheme copyHead =
                    (if r2c then CS_KERNEL_COPY_R_TO_CMPLX else CS_KERNEL_COPY_HERM_TO_CMPLX)
               /\ scheme copyTail =
                    (if r2c then CS_KERNEL_COPY_CMPLX_TO_HERM else CS_KERNEL_COPY_CMPLX_TO_R)))
  /\ (forall n e,
        List.length (childNodes n) <> 3%nat ->
        RealTransCmplxNode.AssignParams_internal single_kernel_api n e = AssertFails).
Proof.
  apply (RealTransCmplx_three_children single_kernel_api real_9x3_forward [] 9 [3]).
  - intros s p. reflexivity.
  - reflexivity.
  - unfold is_size_t, SIZE_T_MODULUS. lia.
  - reflexivity.
Defined.


Lemma SetupGridParam_lds_limit_witness :
  let this := stockham_leaf [64] 8193 gfx90a in
  let limit := sharedMemPerBlock (deviceProp (node this)) in
  (65544 > limit ->
   LeafNode.SetupGridParamAndFuncPtr default_leaf_api small_pool this {| lds_bytes := 0 |}
     = Throws (LeafNode.lds_message 65544 limit))
  /\ (65544 <= limit ->
      LeafNode.SetupGridParamAndFuncPtr default_leaf_api small_pool this {| lds_bytes := 0 |}
        = Returns (this, {| lds_bytes := 65544 |}))
  /\ (limit = 0 -> 0 < 65544 ->
      LeafNode.SetupGridParamAndFuncPtr default_leaf_api small_pool this
        {| lds_bytes := 0 |} = Throws (LeafNode.lds_message 65544 0)).
Proof.
  apply (SetupGridParam_lds_limit default_leaf_api small_pool
           (stockham_leaf [64] 8193 gfx90a) (stockham_leaf [64] 8193 gfx90a)
           {| lds_bytes := 0 |} 65544).
  vm_compute. reflexivity.
Defined.

Lemma KernelCheck_mismatch_recoverable_witness :
  let this := stockham_leaf [64] 64 gfx90a in
  let this0 := with_specified_key None this in
  let key := LeafNode.GetKernelKey default_leaf_api this0 in
  LeafNode.KernelCheck default_leaf_api small_pool this [key_128]
    = Returns (false, this0, [], small_pool)
  /\ LeafNode.SanityCheck default_leaf_api small_pool this [key_128]
       = Throws LeafNode.kernel_not_found_message
  /\ SanityCheck_or_default default_leaf_api small_pool this [key_128]
       = LeafNode.SanityCheck default_leaf_api small_pool this []
  /\ (has_function small_pool key = false ->
      SanityCheck_or_default default_leaf_api small_pool this [key_128]
        = Throws LeafNode.kernel_not_found_message)
  /\ (has_function small_pool key = true ->
      exists this1,
        LeafNode.KernelCheck default_leaf_api small_pool this [] 
          = Returns (true, this1, [], small_pool)
        /\ SanityCheck_or_default default_leaf_api small_pool this [key_128]
             = obind (TreeNode_SanityCheck default_leaf_api this1 [])
                 (fun r => Returns (r.1, r.2, small_pool))).
Proof.
  apply (KernelCheck_mismatch_recoverable default_leaf_api small_pool
           (stockham_leaf [64] 64 gfx90a) key_128 []).
  - reflexivity.
  - discriminate.
  - vm_compute. lia.
  - vm_compute. discriminate.
  - left. vm_compute. discriminate.
Defined.

Lemma seq_ascending (len start : nat) : StronglySorted lt (seq start len).
Proof.
  revert start. induction len as [|len IH]; intros start; cbn; constructor.
  - apply IH.
  - apply Forall_forall. intros x Hx. apply elem_of_seq in Hx. lia.
Qed.

Lemma CollapseContiguousDims_preserves_witness :
  exists this',
    CollapseContiguousDims single_kernel_api packed_4x2x3 = Returns this'
    /\ batch this' = 30 /\ length this' = [4]
    /\ batch this' * prod_list (length this')
         = batch packed_4x2x3 * prod_list (length packed_4x2x3).
Proof.
  assert (Hret : exists this', CollapseContiguousDims single_kernel_api packed_4x2x3 = Returns this'
                   /\ batch this' = 30 /\ length this' = [4]).
  { eexists. split; [vm_compute; reflexivity|]. split; reflexivity. }
  destruct Hret as (this' & Hret & Hb & Hl). exists this'.
  split; [exact Hret|]. split; [exact Hb|]. split; [exact Hl|].
  apply (CollapseContiguousDims_preserves single_kernel_api packed_4x2x3 this').
  - intros n Hn. cbn. destruct (outputLength n); [congruence|reflexivity].
  - intros n. apply seq_ascending.
  - exact Hret.
  - vm_compute. split; congruence.
  - vm_compute. repeat constructor; discriminate.
  - vm_compute. reflexivity.
Defined.

(* ================================================================== *)
(** * Properties of the layout passes, the launch set-up, the radix tests
      and the rider *)

(* ------------------------------------------------------------------ *)
(** ** Powers of a radix *)

Lemma PowMax_loop_power (base : Z) (Hb : 2 <= base) :
  forall (fuel j : nat),
    (1 <= j)%nat -> (65 <= j + fuel)%nat ->
    base ^ Z.of_nat j <= SIZE_MAX ->
    exists k : nat,
      (j <= k)%nat
      /\ PowMax_loop fuel base (base ^ Z.of_nat j) = Some (base ^ Z.of_nat k)
      /\ base ^ Z.of_nat k <= SIZE_MAX
      /\ SIZE_MAX / base <= base ^ Z.of_nat k
      /\ forall i : nat, (j <= i < k)%nat -> base ^ Z.of_nat i < SIZE_MAX / base.
Proof.
  induction fuel as [|fuel IH]; intros j Hj Hfuel Hfit.
  - exfalso.
    assert (2 ^ 65 <= base ^ Z.of_nat j).
    { transitivity (2 ^ Z.of_nat j).
      - apply Z.pow_le_mono_r; lia.
      - apply Z.pow_le_mono_l; lia. }
    unfold SIZE_MAX, SIZE_T_MODULUS in Hfit. lia.
  - cbn [PowMax_loop].
    destruct (Z.ltb_spec (base ^ Z.of_nat j) (SIZE_MAX / base)) as [Hlt|Hge].
    + assert (Hnext : base ^ Z.of_nat (S j) <= SIZE_MAX).
      { rewrite Nat2Z.inj_succ, Z.pow_succ_r by lia.
        assert (base * (SIZE_MAX / base) <= SIZE_MAX)
          by (apply Z.mul_div_le; lia).
        nia. }
      assert (Hw : size_t_wrap (base ^ Z.of_nat j * base) = base ^ Z.of_nat (S j)).
      { rewrite Nat2Z.inj_succ, Z.pow_succ_r by lia.
        unfold size_t_wrap. rewrite Z.mul_comm. apply Z.mod_small.
        rewrite Nat2Z.inj_succ, Z.pow_succ_r in Hnext by lia.
        assert (0 < base ^ Z.of_nat j) by (apply Z.pow_pos_nonneg; lia).
        unfold SIZE_MAX in Hnext. nia. }
      rewrite Hw.
      destruct (IH (S j)) as (k & Hk & Hloop & Hfit' & Hstop & Hbelow);
        [lia | lia | exact Hnext |].
      exists k. split; [lia|]. split; [exact Hloop|]. split; [exact Hfit'|].
      split; [exact Hstop|].
      intros i Hi. destruct (decide (i = j)) as [->|Hne]; [exact Hlt|].
      apply Hbelow. lia.
    + exists j. split; [lia|]. split; [reflexivity|]. split; [exact Hfit|].
      split; [exact Hge|]. intros i Hi. lia.
Qed.

Lemma PowMax_reaches (base : Z) :
  2 <= base <= 2147483647 ->
  exists k : nat,
    (1 <= k)%nat
    /\ PowMax base = Some (base ^ Z.of_nat k)
    /\ base ^ Z.of_nat k <= SIZE_MAX
    /\ SIZE_MAX / base <= base ^ Z.of_nat k.
Proof.
  intros Hb. unfold PowMax.
  assert (Hw : size_t_wrap base = base).
  { unfold size_t_wrap, SIZE_T_MODULUS. apply Z.mod_small. lia. }
  rewrite Hw. destruct (Z.eqb_spec base 0) as [?|_]; [lia|].
  destruct (PowMax_loop_power base ltac:(lia) 64 1) as (k & Hk & Hloop & Hfit & Hstop & _).
  - lia.
  - lia.
  - change (Z.of_nat 1) with 1. rewrite Z.pow_1_r. unfold SIZE_MAX, SIZE_T_MODULUS. lia.
  - change (Z.of_nat 1) with 1 in Hloop. rewrite Z.pow_1_r in Hloop.
    exists k. split; [exact Hk|]. split; [exact Hloop|]. split; [exact Hfit|].
    exact Hstop.
Qed.

(** [PowMax<base>()] has a value for every base from 2 on: a power of
    the base that fits in a [size_t], reached without any product
    wrapping around, and the first one that is not below
    [SIZE_MAX / base]. *)
Theorem PowMax_is_power (base : Z) :
  2 <= base <= 2147483647 ->
  exists k : nat,
    (1 <= k)%nat
    /\ PowMax base = Some (base ^ Z.of_nat k)
    /\ base ^ Z.of_nat k <= SIZE_MAX
    /\ SIZE_MAX / base <= base ^ Z.of_nat k
    /\ forall j : nat, (1 <= j < k)%nat -> base ^ Z.of_nat j < SIZE_MAX / base.
Proof.
  intros Hb. unfold PowMax.
  assert (Hw : size_t_wrap base = base).
  { unfold size_t_wrap, SIZE_T_MODULUS. apply Z.mod_small. lia. }
  rewrite Hw. destruct (Z.eqb_spec base 0) as [?|_]; [lia|].
  destruct (PowMax_loop_power base ltac:(lia) 64 1) as (k & Hk & Hloop & Hfit & Hstop & Hbelow).
  - lia.
  - lia.
  - change (Z.of_nat 1) with 1. rewrite Z.pow_1_r. unfold SIZE_MAX, SIZE_T_MODULUS. lia.
  - change (Z.of_nat 1) with 1 in Hloop. rewrite Z.pow_1_r in Hloop.
    exists k. split; [exact Hk|]. split; [exact Hloop|]. split; [exact Hfit|].
    split; [exact Hstop|]. exact Hbelow.
Qed.

Lemma PowMax_is_power_witness :
  exists k : nat,
    (1 <= k)%nat
    /\ PowMax 3 = Some (3 ^ Z.of_nat k)
    /\ 3 ^ Z.of_nat k <= SIZE_MAX
    /\ SIZE_MAX / 3 <= 3 ^ Z.of_nat k
    /\ forall j : nat, (1 <= j < k)%nat -> 3 ^ Z.of_nat j < SIZE_MAX / 3.
Proof. apply (PowMax_is_power 3). lia. Defined.

Example PowMax_values :
  PowMax 2 = Some (2 ^ 63) /\ PowMax 3 = Some (3 ^ 40) /\ PowMax 5 = Some (5 ^ 27)
  /\ PowMax 1 = None /\ PowMax 0 = None.
Proof. vm_compute. repeat split. Qed.

Lemma pow_divides (base : Z) (j k : nat) :
  0 < base -> (j <= k)%nat -> (base ^ Z.of_nat k) mod (base ^ Z.of_nat j) = 0.
Proof.
  intros Hb Hjk.
  replace (Z.of_nat k) with (Z.of_nat (k - j) + Z.of_nat j) by lia.
  rewrite Z.pow_add_r by lia. apply Z.mod_mul.
  assert (0 < base ^ Z.of_nat j) by (apply Z.pow_pos_nonneg; lia). lia.
Qed.

Lemma pow_le_exponent (base : Z) (j k : nat) :
  2 <= base -> base ^ Z.of_nat j <= base ^ Z.of_nat k -> (j <= k)%nat.
Proof.
  intros Hb Hle. destruct (le_lt_dec j k) as [?|Hlt]; [assumption|exfalso].
  assert (base ^ Z.of_nat k < base ^ Z.of_nat j) by (apply Z.pow_lt_mono_r; lia).
  lia.
Qed.

(** For a prime base, [IsPow<base>] accepts nothing but powers of the
    base, and it accepts every power that can still be multiplied by the
    base within a [size_t]; zero is rejected without a division. *)
Theorem IsPow_prime_base (base : Z) :
  Z.prime base ->
  base <= 2147483647 ->
  (forall u, 0 <= u -> IsPow base u = Some true -> exists j : nat, u = base ^ Z.of_nat j)
  /\ (forall j : nat, base ^ Z.of_nat j <= SIZE_MAX / base ->
        IsPow base (base ^ Z.of_nat j) = Some true)
  /\ IsPow base 0 = Some false.
Proof.
  intros Hp Hmax.
  assert (Hb : 2 <= base) by (apply Z.prime_ge_2; exact Hp).
  destruct (PowMax_reaches base ltac:(lia)) as (k & Hk & Hpm & Hfit & Hstop).
  unfold IsPow. rewrite Hpm. split; [|split].
  - intros u Hu H. injection H as H. apply andb_true_iff in H as [Hpos Hdiv].
    apply Z.ltb_lt in Hpos. apply Z.eqb_eq in Hdiv.
    assert (Hd : (u | base ^ Z.of_nat k)).
    { apply Z.mod_divide; [lia | exact Hdiv]. }
    destruct (Zpow_facts.Zdivide_power_2 u base (Z.of_nat k)) as [m Hm];
      [lia | lia | apply Znumtheory.prime_alt; exact Hp | exact Hd |].
    destruct (Z_lt_le_dec m 0) as [Hneg|Hnn].
    + rewrite Z.pow_neg_r in Hm by lia. lia.
    + exists (Z.to_nat m). rewrite Z2Nat.id by lia. exact Hm.
  - intros j Hj. f_equal. apply andb_true_iff. split.
    + apply Z.ltb_lt. apply Z.pow_pos_nonneg; lia.
    + apply Z.eqb_eq. apply pow_divides; [lia|].
      apply (pow_le_exponent base); lia.
  - reflexivity.
Qed.

Lemma IsPow_prime_base_witness :
  (forall u, 0 <= u -> IsPow 3 u = Some true -> exists j : nat, u = 3 ^ Z.of_nat j)
  /\ (forall j : nat, 3 ^ Z.of_nat j <= SIZE_MAX / 3 ->
        IsPow 3 (3 ^ Z.of_nat j) = Some true)
  /\ IsPow 3 0 = Some false.
Proof. apply (IsPow_prime_base 3); [exact Z.prime_3 | lia]. Defined.

Lemma IsPow_exact (base : Z) (k : nat) :
  Z.prime base ->
  PowMax base = Some (base ^ Z.of_nat k) ->
  SIZE_MAX < base ^ Z.of_nat (S k) ->
  forall u, 0 <= u <= SIZE_MAX ->
    IsPow base u = Some true <-> exists j : nat, u = base ^ Z.of_nat j.
Proof.
  intros Hp Hpm Hover u Hu.
  assert (Hb : 2 <= base) by (apply Z.prime_ge_2; exact Hp).
  unfold IsPow. rewrite Hpm. split.
  - intros H. injection H as H. apply andb_true_iff in H as [Hpos Hdiv].
    apply Z.ltb_lt in Hpos. apply Z.eqb_eq in Hdiv.
    assert (Hd : (u | base ^ Z.of_nat k)).
    { apply Z.mod_divide; [lia | exact Hdiv]. }
    destruct (Zpow_facts.Zdivide_power_2 u base (Z.of_nat k)) as [m Hm];
      [lia | lia | apply Znumtheory.prime_alt; exact Hp | exact Hd |].
    destruct (Z_lt_le_dec m 0) as [Hneg|Hnn].
    + rewrite Z.pow_neg_r in Hm by lia. lia.
    + exists (Z.to_nat m). rewrite Z2Nat.id by lia. exact Hm.
  - intros [j ->]. f_equal. apply andb_true_iff. split.
    + apply Z.ltb_lt. apply Z.pow_pos_nonneg; lia.
    + apply Z.eqb_eq. apply pow_divides; [lia|].
      assert (j < S k)%nat; [|lia].
      destruct (le_lt_dec (S k) j) as [Hge|?]; [exfalso|assumption].
      assert (base ^ Z.of_nat (S k) <= base ^ Z.of_nat j)
        by (apply Z.pow_le_mono_r; lia).
      lia.
Qed.

Ltac small_prime :=
  split; [lia|];
  let n := fresh "n" in let Hn := fresh "Hn" in
  let q := fresh "q" in let Hq := fresh "Hq" in
  intros n Hn [q Hq];
  assert (n = 2 \/ n = 3 \/ n = 4 \/ n = 5 \/ n = 6 \/ n = 7
          \/ n = 8 \/ n = 9 \/ n = 10 \/ n = 11 \/ n = 12) by lia;
  intuition (subst n; lia).

Lemma radix_prime (base : Z) : In base [2; 3; 5; 7; 11; 13] -> Z.prime base.
Proof.
  cbn [In]. intros [<-|[<-|[<-|[<-|[<-|[<-|[]]]]]]].
  - exact Z.prime_2.
  - exact Z.prime_3.
  - small_prime.
  - small_prime.
  - small_prime.
  - small_prime.
Qed.

(** For the radices 2, 3, 5, 7, 11 and 13, [IsPow<base>(u)] holds exactly
    when the [size_t] value [u] is a power of the base. *)
Theorem IsPow_radix (base u : Z) :
  In base [2; 3; 5; 7; 11; 13] ->
  0 <= u <= SIZE_MAX ->
  IsPow base u = Some true <-> exists j : nat, u = base ^ Z.of_nat j.
Proof.
  intros Hin Hu. pose proof (radix_prime base Hin) as Hp.
  cbn [In] in Hin. destruct Hin as [<-|[<-|[<-|[<-|[<-|[<-|[]]]]]]].
  - apply (IsPow_exact 2 63); [exact Hp | reflexivity | reflexivity | exact Hu].
  - apply (IsPow_exact 3 40); [exact Hp | reflexivity | reflexivity | exact Hu].
  - apply (IsPow_exact 5 27); [exact Hp | reflexivity | reflexivity | exact Hu].
  - apply (IsPow_exact 7 22); [exact Hp | reflexivity | reflexivity | exact Hu].
  - apply (IsPow_exact 11 18); [exact Hp | reflexivity | reflexivity | exact Hu].
  - apply (IsPow_exact 13 17); [exact Hp | reflexivity | reflexivity | exact Hu].
Qed.

Lemma IsPow_radix_witness :
  IsPow 3 81 = Some true <-> exists j : nat, 81 = 3 ^ Z.of_nat j.
Proof.
  apply (IsPow_radix 3 81).
  - cbn [In]. right. left. reflexivity.
  - unfold SIZE_MAX, SIZE_T_MODULUS. lia.
Defined.

(** The check is one of divisibility: for a base that is not prime it
    also accepts divisors of the largest power that are no powers. *)
Example IsPow_composite_base :
  IsPow 4 2 = Some true /\ IsPow 6 4 = Some true /\ IsPow 3 6 = Some false.
Proof. vm_compute. repeat split. Qed.

(* ------------------------------------------------------------------ *)
(** ** Transpose output lengths *)

Lemma prod_list_Permutation (a b : list Z) : a ≡ₚ b -> prod_list a = prod_list b.
Proof.
  induction 1 as [|x a b _ IH|x y a|a b c _ IH1 _ IH2]; unfold prod_list in *; cbn.
  - reflexivity.
  - now rewrite IH.
  - ring.
  - congruence.
Qed.

(** [SetTransposeOutputLength] answers on the five transpose schemes
    only, and then only when the length vector has the two or three
    entries it swaps; the call throws on every other scheme. When it
    returns, only [outputLength] has changed, and it holds the entries
    of [length] in another order, so that the element count is the
    same. *)
Theorem SetTransposeOutputLength_outcome (this : TreeNode) :
  match SetTransposeOutputLength this with
  | Returns this' =>
      is_transpose (scheme this) = true
      /\ (transpose_rank (scheme this) <= List.length (length this))%nat
      /\ this' = with_outputLength (outputLength this') this
      /\ outputLength this' ≡ₚ length this
      /\ prod_list (outputLength this') = prod_list (length this)
  | Throws what =>
      is_transpose (scheme this) = false
      /\ what = "can't set transpose output length on non-transpose node"%string
  | Undefined =>
      is_transpose (scheme this) = true
      /\ (List.length (length this) < transpose_rank (scheme this))%nat
  | AssertFails => False
  end.
Proof.
  assert (Hperm : forall this', 
            is_transpose (scheme this) = true ->
            (transpose_rank (scheme this) <= List.length (length this))%nat ->
            this' = with_outputLength (outputLength this') this ->
            outputLength this' ≡ₚ length this ->
            is_transpose (scheme this) = true
            /\ (transpose_rank (scheme this) <= List.length (length this))%nat
            /\ this' = with_outputLength (outputLength this') this
            /\ outputLength this' ≡ₚ length this
            /\ prod_list (outputLength this') = prod_list (length this)).
  { intros this' H1 H2 H3 H4. repeat split; try assumption.
    now apply prod_list_Permutation. }
  unfold SetTransposeOutputLength.
  destruct (scheme this) eqn:Hs; try (split; reflexivity);
    destruct (length this) as [|a [|b [|c rest]]] eqn:Hl;
    cbn; try (split; [reflexivity | lia]);
    apply Hperm; cbn; rewrite ?Hl; cbn; try reflexivity; try lia.
  all: try apply perm_swap.
  all: try (etransitivity; [apply perm_swap | apply perm_skip; apply perm_swap]).
  all: try (etransitivity; [apply perm_skip; apply perm_swap | apply perm_swap]).
Qed.

(** A transpose followed by the transpose that undoes it
    ([CS_KERNEL_TRANSPOSE] by itself, an XY_Z transpose by a Z_XY one and
    the other way round), each given the output lengths of the one
    before as its lengths, ends with the lengths the first one started
    from; the second call always returns. *)
Theorem SetTransposeOutputLength_round_trip (n1 n1' n2 : TreeNode) :
  SetTransposeOutputLength n1 = Returns n1' ->
  length n2 = outputLength n1' ->
  undoes (scheme n1) (scheme n2) = true ->
  exists n2',
    SetTransposeOutputLength n2 = Returns n2'
    /\ outputLength n2' = length n1.
Proof.
  unfold SetTransposeOutputLength. intros H1 Hl Hu.
  destruct (scheme n1) eqn:Hs1; try discriminate;
    destruct (length n1) as [|a [|b [|c rest]]]; try discriminate;
    cbn in H1; injection H1 as <-; cbn in Hl;
    destruct (scheme n2) eqn:Hs2; try discriminate;
    rewrite Hl; cbn; eexists; (split; [reflexivity|]); reflexivity.
Qed.

Lemma SetTransposeOutputLength_round_trip_witness :
  exists n2',
    SetTransposeOutputLength
      (with_length [3; 4; 2] (transpose_4x2x3 CS_KERNEL_TRANSPOSE_Z_XY)) = Returns n2'
    /\ outputLength n2' = length (transpose_4x2x3 CS_KERNEL_TRANSPOSE_XY_Z).
Proof.
  apply (SetTransposeOutputLength_round_trip
           (transpose_4x2x3 CS_KERNEL_TRANSPOSE_XY_Z)
           (with_outputLength [3; 4; 2] (transpose_4x2x3 CS_KERNEL_TRANSPOSE_XY_Z))
           (with_length [3; 4; 2] (transpose_4x2x3 CS_KERNEL_TRANSPOSE_Z_XY)));
    reflexivity.
Defined.

(** Three transposes that rotate three dimensions the same way, chained
    in the same manner, end with the lengths the first one started
    from. *)
Theorem SetTransposeOutputLength_three_fold (n1 n1' n2 n2' n3 : TreeNode) :
  SetTransposeOutputLength n1 = Returns n1' ->
  length n2 = outputLength n1' ->
  SetTransposeOutputLength n2 = Returns n2' ->
  length n3 = outputLength n2' ->
  same_rotation (scheme n1) (scheme n2) = true ->
  same_rotation (scheme n2) (scheme n3) = true ->
  exists n3',
    SetTransposeOutputLength n3 = Returns n3'
    /\ outputLength n3' = length n1.
Proof.
  unfold SetTransposeOutputLength. intros H1 Hl2 H2 Hl3 Hr12 Hr23.
  destruct (scheme n1) eqn:Hs1; try discriminate;
    destruct (length n1) as [|a [|b [|c rest]]]; try discriminate;
    cbn in H1; injection H1 as <-; cbn in Hl2;
    destruct (scheme n2) eqn:Hs2; try discriminate;
    rewrite Hl2 in H2; cbn in H2; injection H2 as <-; cbn in Hl3;
    destruct (scheme n3) eqn:Hs3; try discriminate;
    rewrite Hl3; cbn; eexists; (split; [reflexivity|]); reflexivity.
Qed.

Lemma SetTransposeOutputLength_three_fold_witness :
  exists n3',
    SetTransposeOutputLength
      (with_length [3; 4; 2] (transpose_4x2x3 CS_KERNEL_TRANSPOSE_Z_XY)) = Returns n3'
    /\ outputLength n3' = length (transpose_4x2x3 CS_KERNEL_TRANSPOSE_Z_XY).
Proof.
  apply (SetTransposeOutputLength_three_fold
           (transpose_4x2x3 CS_KERNEL_TRANSPOSE_Z_XY)
           (with_outputLength [2; 3; 4] (transpose_4x2x3 CS_KERNEL_TRANSPOSE_Z_XY))
           (with_length [2; 3; 4] (transpose_4x2x3 CS_KERNEL_STOCKHAM_TRANSPOSE_Z_XY))
           (with_outputLength [3; 4; 2]
              (with_length [2; 3; 4] (transpose_4x2x3 CS_KERNEL_STOCKHAM_TRANSPOSE_Z_XY)))
           (with_length [3; 4; 2] (transpose_4x2x3 CS_KERNEL_TRANSPOSE_Z_XY)));
    reflexivity.
Defined.

(* ------------------------------------------------------------------ *)
(** ** CS_REAL_2D_EVEN: the transpose-pair strategy *)

Lemma SetTransposeOutputLength_plain (n : TreeNode) (a b : Z) (rest : list Z) :
  scheme n = CS_KERNEL_TRANSPOSE ->
  length n = a :: b :: rest ->
  SetTransposeOutputLength n = Returns (with_outputLength (b :: a :: rest) n).
Proof.
  intros Hs Hl. unfold SetTransposeOutputLength. rewrite Hs, Hl. reflexivity.
Qed.

Lemma add_shim_children api t nodes n :
  childNodes (Real2DEvenNode.add_shim_if_fusable api t nodes n) = childNodes n.
Proof.
  unfold Real2DEvenNode.add_shim_if_fusable. now destruct (IsSchemeFusable api t nodes).
Qed.

Lemma add_shim_count api t nodes n :
  (List.length (fuseShims n)
   <= List.length (fuseShims (Real2DEvenNode.add_shim_if_fusable api t nodes n))
   <= S (List.length (fuseShims n)))%nat.
Proof.
  unfold Real2DEvenNode.add_shim_if_fusable. destruct (IsSchemeFusable api t nodes).
  - cbn [fuseShims with_fuseShims]. rewrite length_app. cbn. lia.
  - lia.
Qed.

(** The transpose node of the transpose-pair strategy: created under
    [parent], given [len] and its output lengths. *)
Lemma transpose_child api parent (a b : Z) (rest : list Z) :
  (forall s p, scheme (CreateNodeFromScheme api s p) = s) ->
  SetTransposeOutputLength
    (with_length (a :: b :: rest) (CreateNodeFromScheme api CS_KERNEL_TRANSPOSE parent))
  = Returns
      (with_outputLength (b :: a :: rest)
         (with_length (a :: b :: rest)
            (CreateNodeFromScheme api CS_KERNEL_TRANSPOSE parent))).
Proof.
  intros Hfac. apply SetTransposeOutputLength_plain; [apply Hfac | reflexivity].
Qed.

Lemma TR_pair_forward_eq api this err :
  (forall s p, scheme (CreateNodeFromScheme api s p) = s) ->
  inArrayType this = rocfft_array_type_real ->
  Real2DEvenNode.BuildTree_internal_TR_pair api this err =
    match RealTransEvenNode.BuildTree_internal api
            (with_dimension 1
               (with_length (length this)
                  (CreateNodeFromScheme api CS_REAL_TRANSFORM_EVEN this))) err with
    | Returns (row1, err1) =>
        match outputLength row1 with
        | o0 :: o1 :: orest =>
            let trans1 :=
              with_outputLength (o1 :: o0 :: orest)
                (with_length (o0 :: o1 :: orest)
                   (CreateNodeFromScheme api CS_KERNEL_TRANSPOSE this)) in
            let trans2 :=
              with_outputLength (o0 :: o1 :: orest)
                (with_length (o1 :: o0 :: orest)
                   (CreateNodeFromScheme api CS_KERNEL_TRANSPOSE this)) in
            match RecursiveBuildTree api
                    (CreateExplicitNode api
                       (NodeMetaData.with_dimension 1
                          (NodeMetaData.with_length (o1 :: o0 :: orest)
                             (NodeMetaData_ctor api this)))
                       this) err1 with
            | Returns (row2, err2) =>
                Returns
                  (push_child trans2
                     (push_child row2
                        (push_child trans1
                           (push_child row1
                              (Real2DEvenNode.add_shim_if_fusable api
                                 FT_STOCKHAM_WITH_TRANS [row2; trans2]
                                 (if IsSchemeFusable api FT_STOCKHAM_R2C_TRANSPOSE
                                       [row1; trans1]
                                  then with_fuseShims
                                         (fuseShims this ++
                                            [(FT_STOCKHAM_R2C_TRANSPOSE, [row1; trans1])])
                                         this
                                  else Real2DEvenNode.add_shim_if_fusable api
                                         FT_R2C_TRANSPOSE [row1; trans1; row2] this))))),
                   err2)
            | Throws w => Throws w
            | AssertFails => AssertFails
            | Undefined => Undefined
            end
        | _ => Undefined
        end
    | Throws w => Throws w
    | AssertFails => AssertFails
    | Undefined => Undefined
    end.
Proof.
  intros Hfac Hin. unfold Real2DEvenNode.BuildTree_internal_TR_pair.
  rewrite (bool_decide_eq_true_2 _ Hin). unfold bind at 1.
  destruct (RealTransEvenNode.BuildTree_internal api _ err) as [[row1 err1]| | |];
    try reflexivity.
  destruct (outputLength row1) as [|o0 [|o1 orest]] eqn:Ho.
  - unfold bind, lift, SetTransposeOutputLength. cbn [scheme with_length].
    rewrite Hfac. cbn [length with_length]. reflexivity.
  - unfold bind, lift, SetTransposeOutputLength. cbn [scheme with_length].
    rewrite Hfac. cbn [length with_length]. reflexivity.
  - unfold bind at 1. unfold lift at 1.
    rewrite (transpose_child api this o0 o1 orest Hfac). cbn [obind].
    cbn [outputLength with_outputLength].
    unfold bind at 1.
    destruct (RecursiveBuildTree api _ err1) as [[row2 err2]| | |]; try reflexivity.
    unfold bind at 1. unfold lift at 1.
    rewrite (transpose_child api this o1 o0 orest Hfac). cbn [obind].
    reflexivity.
Qed.

(** The transpose-pair strategy on real input. Once the row transform
    over the node's lengths and then the complex sub-plan over the
    transposed Hermitian lengths are built, the node has four children:
    row transform, transpose, complex sub-plan, transpose. The first
    transpose swaps the two fastest entries of the row transform's
    output lengths and the second one swaps them back, so that the tree
    ends on the output lengths of the row transform. At most two fuse
    shims are added. *)
Theorem Real2DEven_TR_pair_forward (api : NodeApi) (this : TreeNode)
    (err : list string) (l0 l1 : Z) (rest : list Z) :
  (forall s p, scheme (CreateNodeFromScheme api s p) = s) ->
  inArrayType this = rocfft_array_type_real ->
  length this = l0 :: l1 :: rest ->
  is_size_t l0 ->
  childNodes this = [] ->
  let row_request :=
    with_dimension 1
      (with_length (length this) (CreateNodeFromScheme api CS_REAL_TRANSFORM_EVEN this)) in
  after_call
    (RealTransEvenNode.BuildTree_internal api row_request err)
    (Real2DEvenNode.BuildTree_internal_TR_pair api this err)
    (fun r =>
       exists o0 data,
         outputLength r.1 = o0 :: l1 :: rest
         /\ NodeMetaData.length data = l1 :: o0 :: rest
         /\ NodeMetaData.dimension data = 1
         /\ after_call
              (RecursiveBuildTree api (CreateExplicitNode api data this) r.2)
              (Real2DEvenNode.BuildTree_internal_TR_pair api this err)
              (fun r2 =>
                 exists this' trans1 trans2,
                   Real2DEvenNode.BuildTree_internal_TR_pair api this err
                     = Returns (this', r2.2)
                   /\ childNodes this' = [r.1; trans1; r2.1; trans2]
                   /\ scheme trans1 = CS_KERNEL_TRANSPOSE
                   /\ length trans1 = o0 :: l1 :: rest
                   /\ outputLength trans1 = l1 :: o0 :: rest
                   /\ scheme trans2 = CS_KERNEL_TRANSPOSE
                   /\ length trans2 = l1 :: o0 :: rest
                   /\ outputLength trans2 = outputLength r.1
                   /\ (List.length (fuseShims this) <= List.length (fuseShims this')
                       <= List.length (fuseShims this) + 2)%nat)).
Proof.
  intros Hfac Hin Hlen HL Hfresh row_request.
  rewrite (TR_pair_forward_eq api this err Hfac Hin). fold row_request.
  destruct (RealTransEvenNode.BuildTree_internal api row_request err)
    as [[row1 err1]| | |] eqn:Hrow; cbn [after_call]; try reflexivity.
  assert (Hrl : length row_request = l0 :: l1 :: rest) by exact Hlen.
  pose proof (RealTransEven_returns_shape api row_request err l0 (l1 :: rest) row1 err1
                Hrl HL Hrow) as (_ & _ & Ho & _).
  rewrite outputLength_complex_side in Ho.
  set (o0 := if direction row_request =? -1 then l0 / 2 + 1 else l0) in Ho.
  exists o0.
  exists (NodeMetaData.with_dimension 1
            (NodeMetaData.with_length (l1 :: o0 :: rest) (NodeMetaData_ctor api this))).
  cbn [fst snd]. split; [exact Ho|]. split; [reflexivity|]. split; [reflexivity|].
  rewrite Ho. cbv zeta.
  destruct (RecursiveBuildTree api _ err1) as [[row2 err2]| | |] eqn:Hrow2;
    cbn [after_call]; try reflexivity.
  eexists _, _, _. split; [reflexivity|].
  split.
  { unfold push_child. cbn [childNodes with_childNodes].
    rewrite add_shim_children.
    destruct (IsSchemeFusable api FT_STOCKHAM_R2C_TRANSPOSE _);
      [cbn [childNodes with_fuseShims] | rewrite add_shim_children];
      rewrite Hfresh; reflexivity. }
  split; [apply Hfac|]. split; [reflexivity|]. split; [reflexivity|].
  split; [apply Hfac|]. split; [reflexivity|]. split; [reflexivity|].
  unfold push_child. cbn [fuseShims with_childNodes fst snd].
  match goal with |- context [Real2DEvenNode.add_shim_if_fusable api ?t ?ns ?n] =>
    pose proof (add_shim_count api t ns n) as Hc2 end.
  destruct (IsSchemeFusable api FT_STOCKHAM_R2C_TRANSPOSE _).
  - cbn [fuseShims with_fuseShims] in *. rewrite length_app in *. cbn in *. lia.
  - match type of Hc2 with context [Real2DEvenNode.add_shim_if_fusable api ?t ?ns this] =>
      pose proof (add_shim_count api t ns this) as Hc1 end.
    lia.
Qed.

Lemma Real2DEven_TR_pair_forward_witness :
  let api := single_kernel_api in
  let this := real_64x64_forward in
  let row_request :=
    with_dimension 1
      (with_length (length this) (CreateNodeFromScheme api CS_REAL_TRANSFORM_EVEN this)) in
  after_call
    (RealTransEvenNode.BuildTree_internal api row_request [])
    (Real2DEvenNode.BuildTree_internal_TR_pair api this [])
    (fun r =>
       exists o0 data,
         outputLength r.1 = o0 :: 64 :: []
         /\ NodeMetaData.length data = 64 :: o0 :: []
         /\ NodeMetaData.dimension data = 1
         /\ after_call
              (RecursiveBuildTree api (CreateExplicitNode api data this) r.2)
              (Real2DEvenNode.BuildTree_internal_TR_pair api this [])
              (fun r2 =>
                 exists this' trans1 trans2,
                   Real2DEvenNode.BuildTree_internal_TR_pair api this []
                     = Returns (this', r2.2)
                   /\ childNodes this' = [r.1; trans1; r2.1; trans2]
                   /\ scheme trans1 = CS_KERNEL_TRANSPOSE
                   /\ length trans1 = o0 :: 64 :: []
                   /\ outputLength trans1 = 64 :: o0 :: []
                   /\ scheme trans2 = CS_KERNEL_TRANSPOSE
                   /\ length trans2 = 64 :: o0 :: []
                   /\ outputLength trans2 = outputLength r.1
                   /\ (List.length (fuseShims this) <= List.length (fuseShims this')
                       <= List.length (fuseShims this) + 2)%nat)).
Proof.
  apply (Real2DEven_TR_pair_forward single_kernel_api real_64x64_forward [] 64 64 []).
  - intros s p. reflexivity.
  - reflexivity.
  - reflexivity.
  - unfold is_size_t, SIZE_T_MODULUS. lia.
  - reflexivity.
Defined.

Lemma TR_pair_inverse_eq api this err (c0 l1 : Z) (rest : list Z) :
  (forall s p, scheme (CreateNodeFromScheme api s p) = s) ->
  inArrayType this <> rocfft_array_type_real ->
  length this = c0 :: l1 :: rest ->
  let trans1 :=
    with_dimension 2
      (with_outputLength (l1 :: c0 :: rest)
         (with_length (c0 :: l1 :: rest)
            (CreateNodeFromScheme api CS_KERNEL_TRANSPOSE this))) in
  let trans2 :=
    with_dimension 2
      (with_outputLength (c0 :: l1 :: rest)
         (with_length (l1 :: c0 :: rest)
            (CreateNodeFromScheme api CS_KERNEL_TRANSPOSE this))) in
  Real2DEvenNode.BuildTree_internal_TR_pair api this err =
    match RecursiveBuildTree api
            (CreateExplicitNode api
               (NodeMetaData.with_length (l1 :: c0 :: rest)
                  (NodeMetaData.with_dimension 1 (NodeMetaData_ctor api this)))
               this) err with
    | Returns (c2c, err1) =>
        match RealTransEvenNode.BuildTree_internal api
                (with_length (outputLength this)
                   (CreateNodeFromScheme api CS_REAL_TRANSFORM_EVEN this)) err1 with
        | Returns (c2r, err2) =>
            Returns
              (push_child c2r
                 (push_child trans2
                    (push_child c2c
                       (push_child trans1
                          (Real2DEvenNode.add_shim_if_fusable api
                             FT_TRANSPOSE_C2R [trans2; c2r]
                             (Real2DEvenNode.add_shim_if_fusable api
                                FT_TRANS_WITH_STOCKHAM [trans1; c2c] this))))),
               err2)
        | Throws w => Throws w
        | AssertFails => AssertFails
        | Undefined => Undefined
        end
    | Throws w => Throws w
    | AssertFails => AssertFails
    | Undefined => Undefined
    end.
Proof.
  intros Hfac Hin Hlen trans1 trans2.
  unfold Real2DEvenNode.BuildTree_internal_TR_pair.
  rewrite (bool_decide_eq_false_2 _ Hin). rewrite Hlen.
  unfold bind at 1. unfold lift at 1.
  rewrite (transpose_child api this c0 l1 rest Hfac). cbn [obind].
  cbn [outputLength with_outputLength with_dimension].
  unfold bind at 1.
  destruct (RecursiveBuildTree api _ err) as [[c2c err1]| | |]; try reflexivity.
  unfold bind at 1. unfold lift at 1.
  rewrite (transpose_child api this l1 c0 rest Hfac). cbn [obind].
  unfold bind at 1.
  destruct (RealTransEvenNode.BuildTree_internal api _ err1) as [[c2r err2]| | |];
    try reflexivity.
Qed.

(** The transpose-pair strategy on Hermitian input. Once the complex
    sub-plan over the transposed lengths and then the row transform over
    the real lengths are built, the node has four children: transpose,
    complex sub-plan, transpose, row transform. The second transpose
    takes the lengths back to the ones of the node. At most two fuse
    shims are added. *)
Theorem Real2DEven_TR_pair_inverse (api : NodeApi) (this : TreeNode)
    (err : list string) (c0 l1 : Z) (rest : list Z) :
  (forall s p, scheme (CreateNodeFromScheme api s p) = s) ->
  inArrayType this <> rocfft_array_type_real ->
  length this = c0 :: l1 :: rest ->
  childNodes this = [] ->
  let data :=
    NodeMetaData.with_length (l1 :: c0 :: rest)
      (NodeMetaData.with_dimension 1 (NodeMetaData_ctor api this)) in
  let row_request :=
    with_length (outputLength this)
      (CreateNodeFromScheme api CS_REAL_TRANSFORM_EVEN this) in
  after_call
    (RecursiveBuildTree api (CreateExplicitNode api data this) err)
    (Real2DEvenNode.BuildTree_internal_TR_pair api this err)
    (fun r =>
       after_call
         (RealTransEvenNode.BuildTree_internal api row_request r.2)
         (Real2DEvenNode.BuildTree_internal_TR_pair api this err)
         (fun r2 =>
            exists this' trans1 trans2,
              Real2DEvenNode.BuildTree_internal_TR_pair api this err
                = Returns (this', r2.2)
              /\ childNodes this' = [trans1; r.1; trans2; r2.1]
              /\ scheme trans1 = CS_KERNEL_TRANSPOSE
              /\ length trans1 = c0 :: l1 :: rest
              /\ outputLength trans1 = l1 :: c0 :: rest
              /\ scheme trans2 = CS_KERNEL_TRANSPOSE
              /\ length trans2 = l1 :: c0 :: rest
              /\ outputLength trans2 = length this
              /\ (List.length (fuseShims this) <= List.length (fuseShims this')
                  <= List.length (fuseShims this) + 2)%nat)).
Proof.
  intros Hfac Hin Hlen Hfresh data row_request.
  rewrite (TR_pair_inverse_eq api this err c0 l1 rest Hfac Hin Hlen). cbv zeta.
  fold data. fold row_request.
  destruct (RecursiveBuildTree api _ err) as [[c2c err1]| | |];
    cbn [after_call]; try reflexivity.
  cbn [fst snd].
  destruct (RealTransEvenNode.BuildTree_internal api row_request err1)
    as [[c2r err2]| | |]; cbn [after_call]; try reflexivity.
  eexists _, _, _. split; [reflexivity|].
  split.
  { unfold push_child. cbn [childNodes with_childNodes].
    rewrite !add_shim_children, Hfresh. reflexivity. }
  split; [apply Hfac|]. split; [reflexivity|]. split; [reflexivity|].
  split; [apply Hfac|]. split; [reflexivity|]. split; [now rewrite Hlen|].
  unfold push_child. cbn [fuseShims with_childNodes fst snd].
  match goal with |- context [Real2DEvenNode.add_shim_if_fusable api ?t ?ns
                                (Real2DEvenNode.add_shim_if_fusable api ?t1 ?ns1 this)] =>
    pose proof (add_shim_count api t ns (Real2DEvenNode.add_shim_if_fusable api t1 ns1 this));
    pose proof (add_shim_count api t1 ns1 this) end.
  lia.
Qed.

Lemma Real2DEven_TR_pair_inverse_witness :
  let api := single_kernel_api in
  let this := complex_side real_4000x64_inverse 4000 [64] in
  let data :=
    NodeMetaData.with_length (64 :: 2001 :: [])
      (NodeMetaData.with_dimension 1 (NodeMetaData_ctor api this)) in
  let row_request :=
    with_length (outputLength this)
      (CreateNodeFromScheme api CS_REAL_TRANSFORM_EVEN this) in
  after_call
    (RecursiveBuildTree api (CreateExplicitNode api data this) [])
    (Real2DEvenNode.BuildTree_internal_TR_pair api this [])
    (fun r =>
       after_call
         (RealTransEvenNode.BuildTree_internal api row_request r.2)
         (Real2DEvenNode.BuildTree_internal_TR_pair api this [])
         (fun r2 =>
            exists this' trans1 trans2,
              Real2DEvenNode.BuildTree_internal_TR_pair api this []
                = Returns (this', r2.2)
              /\ childNodes this' = [trans1; r.1; trans2; r2.1]
              /\ scheme trans1 = CS_KERNEL_TRANSPOSE
              /\ length trans1 = 2001 :: 64 :: []
              /\ outputLength trans1 = 64 :: 2001 :: []
              /\ scheme trans2 = CS_KERNEL_TRANSPOSE
              /\ length trans2 = 64 :: 2001 :: []
              /\ outputLength trans2 = length this
              /\ (List.length (fuseShims this) <= List.length (fuseShims this')
                  <= List.length (fuseShims this) + 2)%nat)).
Proof.
  apply (Real2DEven_TR_pair_inverse single_kernel_api
           (complex_side real_4000x64_inverse 4000 [64]) [] 2001 64 []).
  - intros s p. reflexivity.
  - discriminate.
  - reflexivity.
  - reflexivity.
Defined.

(* ------------------------------------------------------------------ *)
(** ** CS_REAL_2D_EVEN: the column-block strategy on Hermitian input *)

(** The column-block strategy on Hermitian input. The column kernel
    comes first, working along dimension 1 on the node's lengths with
    the two fastest entries swapped, and the [CS_REAL_TRANSFORM_EVEN]
    row transform, asked for over the node's output lengths in one
    dimension, comes last: once the row transform is built, the node has
    exactly these two children. *)
Theorem Real2DEven_SBCC_inverse (api : NodeApi) (pool : function_pool)
    (this : TreeNode) (err : list string) (l0 l1 : Z) (rest : list Z) :
  (forall s p, scheme (CreateNodeFromScheme api s p) = s) ->
  inArrayType this <> rocfft_array_type_real ->
  length this = l0 :: l1 :: rest ->
  childNodes this = [] ->
  exists sbccY row_request,
    scheme sbccY =
      (if has_SBCC_kernel pool l1 (precision this)
       then CS_KERNEL_STOCKHAM_BLOCK_CC else CS_KERNEL_STOCKHAM)
    /\ length sbccY = l1 :: l0 :: rest
    /\ outputLength sbccY = l0 :: l1 :: rest
    /\ scheme row_request = CS_REAL_TRANSFORM_EVEN
    /\ length row_request = outputLength this
    /\ dimension row_request = 1
    /\ after_call
         (RealTransEvenNode.BuildTree_internal api row_request err)
         (Real2DEvenNode.BuildTree_internal_SBCC api pool this err)
         (fun r =>
            exists this',
              Real2DEvenNode.BuildTree_internal_SBCC api pool this err
                = Returns (this', r.2)
              /\ childNodes this' = [sbccY; r.1]).
Proof.
  intros Hfac Hin Hlen Hfresh.
  exists (sbccY_inverse api pool this l0 l1 rest).
  exists (even_child_request api
            (push_child (sbccY_inverse api pool this l0 l1 rest) this)
            l0 (outputLength this)).
  split; [unfold sbccY_inverse, sbccScheme_of; cbn [scheme with_length with_outputLength];
          apply Hfac|].
  split; [reflexivity|]. split; [reflexivity|].
  split; [unfold even_child_request;
          cbn [scheme with_dimension with_length with_try_fuse_pre_post_processing];
          apply Hfac|].
  split; [reflexivity|]. split; [reflexivity|].
  rewrite (SBCC_inverse_eq api pool this err l0 l1 rest Hlen Hin).
  destruct (RealTransEvenNode.BuildTree_internal api _ err) as [[crplan err']| | |];
    cbn [after_call]; try reflexivity.
  eexists. split; [reflexivity|].
  cbn [childNodes with_childNodes]. rewrite Hfresh. reflexivity.
Qed.

Lemma Real2DEven_SBCC_inverse_witness :
  let api := single_kernel_api in
  let this := complex_side real_4000x64_inverse 4000 [64] in
  exists sbccY row_request,
    scheme sbccY =
      (if has_SBCC_kernel small_pool 64 (precision this)
       then CS_KERNEL_STOCKHAM_BLOCK_CC else CS_KERNEL_STOCKHAM)
    /\ length sbccY = 64 :: 2001 :: []
    /\ outputLength sbccY = 2001 :: 64 :: []
    /\ scheme row_request = CS_REAL_TRANSFORM_EVEN
    /\ length row_request = outputLength this
    /\ dimension row_request = 1
    /\ after_call
         (RealTransEvenNode.BuildTree_internal api row_request [])
         (Real2DEvenNode.BuildTree_internal_SBCC api small_pool this [])
         (fun r =>
            exists this',
              Real2DEvenNode.BuildTree_internal_SBCC api small_pool this []
                = Returns (this', r.2)
              /\ childNodes this' = [sbccY; r.1]).
Proof.
  apply (Real2DEven_SBCC_inverse single_kernel_api small_pool
           (complex_side real_4000x64_inverse 4000 [64]) [] 2001 64 []).
  - intros s p. reflexivity.
  - discriminate.
  - reflexivity.
  - reflexivity.
Defined.

(* ------------------------------------------------------------------ *)
(** ** CS_REAL_TRANSFORM_USING_CMPLX: the layout pass *)

Lemma size_t_wrap_idemp (z : Z) : size_t_wrap (size_t_wrap z) = size_t_wrap z.
Proof. unfold size_t_wrap. apply Z.mod_mod. unfold SIZE_T_MODULUS. lia. Qed.

Lemma size_t_wrap_small (z : Z) : is_size_t z -> size_t_wrap z = z.
Proof. unfold is_size_t, size_t_wrap. intros H. now apply Z.mod_small. Qed.

Lemma head_out_layout_spec (tl : list Z) : forall (acc : list Z) (d : Z),
  size_t_wrap d = d ->
  RealTransCmplxNode.head_out_layout tl acc d =
    (acc ++ map (fun i => size_t_wrap (d * prod_list (take i tl)))
              (seq 0 (List.length tl)),
     size_t_wrap (d * prod_list tl)).
Proof.
  induction tl as [|len rest IH]; intros acc d Hd.
  - cbn. rewrite app_nil_r. unfold prod_list. cbn. now rewrite Z.mul_1_r, Hd.
  - cbn [RealTransCmplxNode.head_out_layout].
    rewrite IH by apply size_t_wrap_idemp.
    cbn [List.length seq map]. rewrite <- seq_shift, map_map.
    rewrite <- app_assoc. cbn [app take].
    f_equal.
    + f_equal. f_equal.
      * unfold prod_list. cbn. now rewrite Z.mul_1_r, Hd.
      * apply map_ext. intros i. cbn [take]. rewrite prod_list_cons.
        rewrite size_t_wrap_mul_l. f_equal. ring.
    + rewrite prod_list_cons, size_t_wrap_mul_l. f_equal. ring.
Qed.

Lemma RealTransCmplx_AssignParams_eq api this err copyHead fft copyTail d0 :
  childNodes this = [copyHead; fft; copyTail] ->
  outStride copyHead = [] ->
  (if bool_decide (outputLength copyHead = [])
   then length copyHead else outputLength copyHead) !! 0%nat = Some d0 ->
  is_size_t d0 ->
  let lens := d0 :: tail (length this) in
  RealTransCmplxNode.AssignParams_internal api this err =
    match AssignParams api
            (with_layout (packed_strides lens) (packed_dist lens)
               (packed_strides lens) (packed_dist lens) fft) err with
    | Returns (fft', err') =>
        Returns
          (with_childNodes
             [with_layout (inStride this) (iDist this)
                (packed_strides lens) (packed_dist lens) copyHead;
              fft';
              with_layout (outStride fft') (oDist fft')
                (outStride this) (oDist this) copyTail] this,
           err')
    | Throws w => Throws w
    | AssertFails => AssertFails
    | Undefined => Undefined
    end.
Proof.
  intros Hch Hos Hd0 Hsz lens.
  unfold RealTransCmplxNode.AssignParams_internal.
  rewrite Hch. unfold bind at 1. unfold assert at 1. cbn [List.length Nat.eqb].
  unfold at_index. cbn [lookup list_lookup of_option].
  rewrite !(bind_returns _ _ _ _ _ (lift_returns _ _)).
  cbn [outputLength length outStride with_inStride with_iDist with_outStride].
  rewrite Hos. cbn [app].
  assert (Hd : (if bool_decide (outputLength copyHead = [])
                then of_option (length copyHead !! 0%nat)
                else of_option (outputLength copyHead !! 0%nat)) = Returns d0).
  { destruct (bool_decide (outputLength copyHead = [])); now rewrite Hd0. }
  rewrite Hd. rewrite (bind_returns _ _ _ _ _ (lift_returns _ _)).
  cbn [outStride oDist with_oDist with_outStride].
  rewrite (head_out_layout_spec (tail (length this)) [1] d0 (size_t_wrap_small d0 Hsz)).
  assert (Hps : [1] ++ map (fun i => size_t_wrap (d0 * prod_list (take i (tail (length this)))))
                         (seq 0 (List.length (tail (length this))))
                = packed_strides lens).
  { unfold packed_strides, lens. cbn [List.length seq map take app].
    f_equal. rewrite <- seq_shift, map_map. apply map_ext. intros i. reflexivity. }
  assert (Hpd : size_t_wrap (d0 * prod_list (tail (length this))) = packed_dist lens)
    by reflexivity.
  rewrite Hps, Hpd.
  cbn [outStride oDist inStride iDist with_oDist with_outStride with_inStride with_iDist].
  unfold bind at 1. unfold with_layout.
  destruct (AssignParams api _ err) as [[fft' err']| | |]; reflexivity.
Qed.

(** The layout pass of the embed-in-complex strategy on a node with its
    three children. The head copy reads the node's input layout and
    writes a packed complex array: unit stride first, then one stride
    per higher dimension of the node, each the product of the lengths
    below it, the first of these lengths being the one the head copy
    produces. The complex transform is asked to work on that packed
    array in place, the tail copy reads what the transform writes and
    writes the node's output layout. *)
Theorem RealTransCmplx_AssignParams_layout (api : NodeApi) (this : TreeNode)
    (err : list string) (copyHead fft copyTail : TreeNode) (d0 : Z) :
  childNodes this = [copyHead; fft; copyTail] ->
  outStride copyHead = [] ->
  (if bool_decide (outputLength copyHead = [])
   then length copyHead else outputLength copyHead) !! 0%nat = Some d0 ->
  is_size_t d0 ->
  let lens := d0 :: tail (length this) in
  let fft_request :=
    with_layout (packed_strides lens) (packed_dist lens)
      (packed_strides lens) (packed_dist lens) fft in
  after_call
    (AssignParams api fft_request err)
    (RealTransCmplxNode.AssignParams_internal api this err)
    (fun r =>
       exists copyHead' copyTail',
         RealTransCmplxNode.AssignParams_internal api this err
           = Returns (with_childNodes [copyHead'; r.1; copyTail'] this, r.2)
         /\ copyHead' =
              with_layout (inStride this) (iDist this)
                (packed_strides lens) (packed_dist lens) copyHead
         /\ copyTail' =
              with_layout (outStride r.1) (oDist r.1)
                (outStride this) (oDist this) copyTail).
Proof.
  intros Hch Hos Hd0 Hsz lens fft_request.
  rewrite (RealTransCmplx_AssignParams_eq api this err copyHead fft copyTail d0
             Hch Hos Hd0 Hsz).
  cbv zeta. fold lens. fold fft_request.
  destruct (AssignParams api fft_request err) as [[fft' err']| | |];
    cbn [after_call]; try reflexivity.
  eexists _, _. split; [reflexivity|]. split; reflexivity.
Qed.

Lemma RealTransCmplx_AssignParams_layout_witness :
  let api := single_kernel_api in
  let this := real_9x3_with_children in
  let copyHead := with_length [9; 3] (blank_node CS_KERNEL_COPY_R_TO_CMPLX real_9x3_forward) in
  let fft := with_length [9; 3] (blank_node CS_KERNEL_STOCKHAM real_9x3_forward) in
  let copyTail :=
    with_outputLength [5; 3]
      (with_length [9; 3] (blank_node CS_KERNEL_COPY_CMPLX_TO_HERM real_9x3_forward)) in
  let lens := 9 :: tail (length this) in
  let fft_request :=
    with_layout (packed_strides lens) (packed_dist lens)
      (packed_strides lens) (packed_dist lens) fft in
  after_call
    (AssignParams api fft_request [])
    (RealTransCmplxNode.AssignParams_internal api this [])
    (fun r =>
       exists copyHead' copyTail',
         RealTransCmplxNode.AssignParams_internal api this []
           = Returns (with_childNodes [copyHead'; r.1; copyTail'] this, r.2)
         /\ copyHead' =
              with_layout (inStride this) (iDist this)
                (packed_strides lens) (packed_dist lens) copyHead
         /\ copyTail' =
              with_layout (outStride r.1) (oDist r.1)
                (outStride this) (oDist this) copyTail).
Proof.
  apply (RealTransCmplx_AssignParams_layout single_kernel_api real_9x3_with_children []
           _ _ _ 9).
  - reflexivity.
  - reflexivity.
  - reflexivity.
  - unfold is_size_t, SIZE_T_MODULUS. lia.
Defined.

Example packed_strides_9x3x4 :
  packed_strides [9; 3; 4] = [1; 9; 27] /\ packed_dist [9; 3; 4] = 108.
Proof. vm_compute. split; reflexivity. Qed.

(* ------------------------------------------------------------------ *)
(** ** Leaf nodes: the supplied kernel keys *)

(** [LeafNode::KernelCheck] and the list of supplied keys. A check that
    answers [true] has taken the front key off the list (nothing, when
    the list is empty). A built-in kernel leaves node and catalog alone,
    and when it answers [false] the list is untouched and starts with a
    key that is not the empty key. An external kernel takes the front
    key off the list even when the answer is [false]; its [specified_key]
    is set only to that front key, and then the key is not the empty
    key, agrees with the node, has been added to the catalog and has
    given the node its [sbrcTranstype]. *)
Theorem KernelCheck_consumes_front (api : LeafApi) (pool pool' : function_pool)
    (this this' : LeafNode) (keys keys' : list FMKey.t) (ok : bool) :
  LeafNode.KernelCheck api pool this keys = Returns (ok, this', keys', pool') ->
  (ok = true -> keys' = tail keys)
  /\ (externalKernel this = false ->
      this' = this /\ pool' = pool
      /\ (ok = false ->
          keys' = keys /\ exists front rest, keys = front :: rest /\ front <> EmptyFMKey api))
  /\ (externalKernel this = true ->
      keys' = tail keys
      /\ node this' = node this
      /\ forall k, specified_key this' = Some k ->
           keys = k :: keys'
           /\ k <> EmptyFMKey api
           /\ LeafNode.key_mismatch this k = Returns false
           /\ sbrcTranstype this' = FMKey.sbrcTrans k
           /\ pool' = add_new_kernel api pool k).
Proof.
  unfold LeafNode.KernelCheck. intros H.
  destruct (externalKernel this) eqn:Hext; cbn [negb] in H.
  - split; [|split; [discriminate|]].
    + intros ->. destruct keys as [|k ks]; cbn in H;
        repeat case_match; simplify_eq; try reflexivity;
        unfold obind in *; repeat case_match; simplify_eq; reflexivity.
    + intros _.
      destruct keys as [|k ks].
      * unfold LeafNode.GetKernelFactors in H.
        repeat case_match; simplify_eq; (split; [reflexivity|]);
          (split; [reflexivity|]); intros k0 Hk0; cbn in Hk0; discriminate.
      * destruct (bool_decide (k = EmptyFMKey api)) eqn:Hk.
        { unfold LeafNode.GetKernelFactors in H.
          repeat case_match; simplify_eq; (split; [reflexivity|]);
            (split; [reflexivity|]); intros k0 Hk0; cbn in Hk0; discriminate. }
        apply bool_decide_eq_false_1 in Hk.
        change (LeafNode.key_mismatch (with_specified_key None this) k)
          with (LeafNode.key_mismatch this k) in H.
        destruct (LeafNode.key_mismatch this k) as [[|]| | |] eqn:Hm;
          cbn [obind] in H; try discriminate.
        { simplify_eq. split; [reflexivity|]. split; [reflexivity|].
          intros k0 Hk0. cbn in Hk0. discriminate. }
        unfold LeafNode.GetKernelFactors in H.
        repeat case_match; simplify_eq; (split; [reflexivity|]);
          (split; [reflexivity|]); intros k0 Hk0; cbn in Hk0; simplify_eq;
          repeat split; try reflexivity; assumption.
  - split; [|split; [|discriminate]].
    + intros ->. destruct keys as [|k ks]; repeat case_match; simplify_eq; reflexivity.
    + intros _. destruct keys as [|k ks]; repeat case_match; simplify_eq;
        (split; [reflexivity|]); (split; [reflexivity|]); intros Hok;
        try discriminate.
      split; [reflexivity|]. eexists _, _. split; [reflexivity|].
      match goal with H : negb (bool_decide _) = true |- _ =>
        apply negb_true_iff, bool_decide_eq_false_1 in H; exact H end.
Qed.

Lemma KernelCheck_consumes_front_witness :
  let api := default_leaf_api in
  let this := stockham_leaf [64] 64 gfx90a in
  let this' := stockham_leaf_checked in
  let keys := [key_64; key_128] in
  let keys' := [key_128] in
  let pool' := pool_with small_pool key_64 in
  (true = true -> keys' = tail keys)
  /\ (externalKernel this = false ->
      this' = this /\ pool' = small_pool
      /\ (true = false ->
          keys' = keys /\ exists front rest, keys = front :: rest /\ front <> EmptyFMKey api))
  /\ (externalKernel this = true ->
      keys' = tail keys
      /\ node this' = node this
      /\ forall k, specified_key this' = Some k ->
           keys = k :: keys'
           /\ k <> EmptyFMKey api
           /\ LeafNode.key_mismatch this k = Returns false
           /\ sbrcTranstype this' = FMKey.sbrcTrans k
           /\ pool' = add_new_kernel api small_pool k).
Proof.
  apply (KernelCheck_consumes_front default_leaf_api small_pool
           (pool_with small_pool key_64) (stockham_leaf [64] 64 gfx90a)
           stockham_leaf_checked [key_64; key_128] [key_128] true).
  reflexivity.
Defined.

(* ------------------------------------------------------------------ *)
(** ** Collapsing contiguous dimensions: distances and vector sizes *)

Lemma contiguous_delete (i : nat) (rest : list nat) : forall (s : Z) (len str : list Z),
  Forall (fun j => (j < i)%nat) rest ->
  contiguous rest s len str ->
  contiguous rest s (delete i len) (delete i str).
Proof.
  induction rest as [|j rest IH]; intros s len str Hlt Hc; [exact I|].
  apply Forall_cons in Hlt as [Hj Hlt].
  cbn [contiguous] in *. destruct Hc as (s' & l & Hs & Hl & Hne & Hd & Hc).
  exists s', l. rewrite !list_lookup_delete_lt by exact Hj.
  repeat split; try assumption. now apply IH.
Qed.

Lemma doCollapse_span dims : forall dist len str dist' len' str',
  descending dims ->
  contiguous dims dist len str ->
  doCollapse dims dist len str = Returns (dist', len', str') ->
  dist = dist' * prod_at len dims
  /\ List.length len = (List.length dims + List.length len')%nat
  /\ List.length str = (List.length dims + List.length str')%nat.
Proof.
  induction dims as [|i rest IH]; intros dist len str dist' len' str' Hd Hc H.
  - cbn in H. simplify_eq. cbn. split; [lia|]. split; reflexivity.
  - cbn [doCollapse] in H. unfold erase_at, at_index in H.
    cbn [contiguous] in Hc. destruct Hc as (s & l & Hs & Hl & Hne & Hdist & Hc).
    rewrite Hl in H. cbn [of_option obind] in H.
    destruct (Z.eqb_spec l 0) as [Hl0|Hl0]; [discriminate|].
    rewrite Hs in H. cbn [of_option obind] in H.
    apply StronglySorted_inv in Hd as [Hd Hlt].
    assert (Hdiv : dist / l = s).
    { rewrite Hdist. apply Z.div_mul. exact Hl0. }
    rewrite Hdiv in H.
    destruct (IH _ _ _ _ _ _ Hd (contiguous_delete i rest s len str Hlt Hc) H)
      as (Hs' & Hlen & Hstr).
    rewrite (prod_at_delete len i rest Hlt) in Hs'.
    split.
    + cbn [prod_at]. rewrite Hl. cbn [default]. unfold id. rewrite Hdist, Hs'. ring.
    + apply lookup_lt_Some in Hl, Hs.
      rewrite length_delete in Hlen, Hstr by (apply lookup_lt_is_Some; assumption).
      cbn [List.length]. lia.
Qed.

Lemma collapse_side_span (dims_rev ds : list nat) (dist nb batch0 dist' : Z)
    (len str len' str' : list Z) :
  descending dims_rev ->
  collectCollapse dims_rev dist batch0 len str = Returns (ds, nb) ->
  doCollapse ds dist len str = Returns (dist', len', str') ->
  size_t_wrap (nb * dist') = size_t_wrap (batch0 * dist)
  /\ dist * prod_list len' = dist' * prod_list len
  /\ List.length len = (List.length ds + List.length len')%nat
  /\ List.length str = (List.length ds + List.length str')%nat.
Proof.
  intros Hdesc Hc Hd.
  destruct (collectCollapse_spec _ _ _ _ _ _ _ Hc) as ((later & ->) & Hcont & Hnb & _).
  apply descending_app_l in Hdesc.
  destruct (doCollapse_span _ _ _ _ _ _ _ Hdesc Hcont Hd) as (Hdist & Hlen & Hstr).
  pose proof (doCollapse_spec _ _ _ _ _ _ _ Hdesc Hd) as Hprod.
  split; [|split; [|split; assumption]].
  - rewrite <- size_t_wrap_mul_l, Hnb, size_t_wrap_mul_l. f_equal. rewrite Hdist. ring.
  - rewrite Hprod. rewrite Hdist at 1. ring.
Qed.

(** When [CollapseContiguousDims] returns, the extent of the batch,
    batch times distance, is what it was on the input and on the output
    side, as a [size_t] value; the input distance has shrunk by exactly
    the factor by which the product of the lengths has shrunk; and the
    length vector and the two stride vectors have lost the same number
    of entries. [CollapsibleDims] is taken to list dimensions in
    ascending order. *)
Theorem CollapseContiguousDims_span (api : NodeApi) (this this' : TreeNode) :
  (forall n, StronglySorted lt (CollapsibleDims api n)) ->
  CollapseContiguousDims api this = Returns this' ->
  size_t_wrap (batch this' * iDist this') = size_t_wrap (batch this * iDist this)
  /\ size_t_wrap (batch this' * oDist this') = size_t_wrap (batch this * oDist this)
  /\ iDist this * prod_list (length this') = iDist this' * prod_list (length this)
  /\ exists k : nat,
       List.length (length this) = (k + List.length (length this'))%nat
       /\ List.length (inStride this) = (k + List.length (inStride this'))%nat
       /\ List.length (outStride this) = (k + List.length (outStride this'))%nat.
Proof.
  intros Hsorted Hret.
  destruct (CollapseContiguousDims_own api this this' Hret) as [children Hown].
  set (this0 := with_childNodes children this) in *.
  destruct (collapse_own_dims_cases api this0 this' Hown) as
    [->|(ds & nb & id' & l' & is' & od' & ol' & os' & Hci & Hco & Hdi & Hdo & Hres)].
  { split; [reflexivity|]. split; [reflexivity|]. split; [reflexivity|].
    exists 0%nat. repeat split. }
  cbv zeta in Hci, Hco.
  change (iDist this0) with (iDist this) in *.
  change (oDist this0) with (oDist this) in *.
  change (batch this0) with (batch this) in *.
  change (length this0) with (length this) in *.
  change (inStride this0) with (inStride this) in *.
  change (outStride this0) with (outStride this) in *.
  pose proof (descending_reverse _ (Hsorted this0)) as Hdesc.
  destruct (collapse_side_span _ _ _ _ _ _ _ _ _ _ Hdesc Hci Hdi)
    as (Hwi & Hxi & Hli & Hsi).
  destruct (collapse_side_span _ _ _ _ _ _ _ _ _ _ Hdesc Hco Hdo)
    as (Hwo & _ & _ & Hso).
  unfold own_layout in Hres.
  injection Hres as Hl Ho His Hos Hid Hod Hb.
  rewrite Hl, His, Hos, Hid, Hod, Hb.
  split; [exact Hwi|]. split; [exact Hwo|]. split; [exact Hxi|].
  exists (List.length ds). repeat split; assumption.
Qed.

Lemma CollapseContiguousDims_span_witness :
  let api := single_kernel_api in
  let this := packed_4x2x3 in
  let this' :=
    with_batch 30 (with_oDist 4 (with_iDist 4 (with_outStride [1] (with_inStride [1]
      (with_length [4]
        (with_comments ["collapsed contiguous high length(s) 2 3 into batch"%string]
           packed_4x2x3)))))) in
  size_t_wrap (batch this' * iDist this') = size_t_wrap (batch this * iDist this)
  /\ size_t_wrap (batch this' * oDist this') = size_t_wrap (batch this * oDist this)
  /\ iDist this * prod_list (length this') = iDist this' * prod_list (length this)
  /\ exists k : nat,
       List.length (length this) = (k + List.length (length this'))%nat
       /\ List.length (inStride this) = (k + List.length (inStride this'))%nat
       /\ List.length (outStride this) = (k + List.length (outStride this'))%nat.
Proof.
  apply (CollapseContiguousDims_span single_kernel_api packed_4x2x3).
  - intros n. apply seq_ascending.
  - vm_compute. reflexivity.
Defined.

(* ------------------------------------------------------------------ *)
(** ** CS_REAL_TRANSFORM_EVEN: the layout pass *)

Lemma halve_above_first_length (v : list Z) :
  List.length (RealTransEvenNode.halve_above_first v) = List.length v.
Proof. destruct v; cbn; [reflexivity|]. now rewrite length_map. Qed.

Lemma halve_above_first_lookup (v : list Z) :
  RealTransEvenNode.halve_above_first v !! 0%nat = v !! 0%nat
  /\ forall i : nat,
       RealTransEvenNode.halve_above_first v !! S i = (fun s => s / 2) <$> v !! S i.
Proof.
  destruct v as [|x v]; cbn; split; try reflexivity; intros i.
  apply list_lookup_fmap.
Qed.

Lemma halved_from_step (i : nat) (v : list Z) (x : Z) :
  v !! i = Some x ->
  halved_from (S i) (<[i := x / 2]> v) = halved_from i v.
Proof.
  intros Hx. unfold halved_from.
  pose proof (lookup_lt_Some _ _ _ Hx) as Hlt.
  rewrite (take_S_r _ _ (x / 2)) by (now apply list_lookup_insert_eq).
  rewrite take_insert_ge by lia.
  rewrite drop_insert_lt by lia.
  rewrite (drop_S _ _ _ Hx). cbn [map]. now rewrite <- app_assoc.
Qed.

Lemma halved_from_end (i : nat) (v : list Z) :
  (List.length v <= i)%nat -> halved_from i v = v.
Proof.
  intros H. unfold halved_from. rewrite take_ge, drop_ge by lia.
  cbn. apply app_nil_r.
Qed.

Lemma halved_from_1 (v : list Z) :
  halved_from 1 v = RealTransEvenNode.halve_above_first v.
Proof. destruct v; reflexivity. Qed.

Lemma halve_strides_spec (fused : bool) (count : nat) : forall (i : nat) (inS outS : list Z),
  List.length inS = (i + count)%nat ->
  List.length outS = (i + count)%nat ->
  RealTransEvenNode.halve_strides fused count i inS outS =
    Returns (if fused then inS else halved_from i inS, halved_from i outS).
Proof.
  induction count as [|count IH]; intros i inS outS Hin Hout.
  - cbn. rewrite !halved_from_end by lia. now destruct fused.
  - cbn [RealTransEvenNode.halve_strides]. unfold at_index.
    destruct (lookup_lt_is_Some_2 inS i ltac:(lia)) as [x Hx].
    destruct (lookup_lt_is_Some_2 outS i ltac:(lia)) as [y Hy].
    rewrite Hy. destruct fused; cbn [negb of_option obind].
    + rewrite IH by (rewrite ?length_insert; lia).
      now rewrite (halved_from_step i outS y Hy).
    + rewrite Hx. cbn [of_option obind].
      rewrite IH by (rewrite ?length_insert; lia).
      now rewrite (halved_from_step i inS x Hx), (halved_from_step i outS y Hy).
Qed.

Lemma halve_strides_short (count : nat) : forall (i : nat) (inS outS : list Z),
  (0 < count)%nat ->
  (List.length outS < i + count)%nat ->
  RealTransEvenNode.halve_strides true count i inS outS = Undefined.
Proof.
  induction count as [|count IH]; intros i inS outS Hc Hout; [lia|].
  cbn [RealTransEvenNode.halve_strides negb obind]. unfold at_index.
  destruct (outS !! i) as [y|] eqn:Hy; cbn [of_option obind]; [|reflexivity].
  apply lookup_lt_Some in Hy.
  apply IH; [lia | rewrite length_insert; lia].
Qed.

Section RealTransEven_layout.
Variables (api : NodeApi) (rootPlan this : TreeNode) (err : list string).

Lemma AssignParams_child_count :
  List.length (childNodes this) <> 2%nat ->
  List.length (childNodes this) <> 3%nat ->
  RealTransEvenNode.AssignParams_internal api rootPlan this err = AssertFails.
Proof.
  intros H2 H3. unfold RealTransEvenNode.AssignParams_internal.
  unfold bind at 1, assert.
  apply Nat.eqb_neq in H2, H3. now rewrite H2, H3.
Qed.

Lemma AssignParams_forward_eq (applyCallback fft : TreeNode) (more : list TreeNode) :
  direction this = -1 ->
  childNodes this = applyCallback :: fft :: more ->
  (List.length more <= 1)%nat ->
  let cs := RealTransEvenNode.halve_above_first (inStride this) in
  let cd := iDist this / 2 in
  let applyCallback' :=
    with_layout (inStride this) (iDist this) (inStride this) (iDist this) applyCallback in
  RealTransEvenNode.AssignParams_internal api rootPlan this err =
    match AssignParams api (with_layout cs cd cs cd fft) err with
    | Returns (fft', err') =>
        if Nat.eqb (List.length (length fft')) (List.length (inStride fft'))
           && Nat.eqb (List.length (length fft')) (List.length (outStride fft'))
        then
          match more with
          | [] =>
              Returns
                (with_childNodes
                   [applyCallback';
                    with_oDist (oDist this) (with_outStride (outStride this) fft')] this,
                 err')
          | postPlan :: _ =>
              if (bool_decide (scheme postPlan = CS_KERNEL_R_TO_CMPLX)
                  || bool_decide (scheme postPlan = CS_KERNEL_R_TO_CMPLX_TRANSPOSE))
                 && Nat.eqb (List.length (length postPlan)) (List.length (inStride this))
                 && Nat.eqb (List.length (length postPlan)) (List.length (outStride this))
              then
                Returns
                  (with_childNodes
                     [applyCallback'; fft';
                      with_layout cs cd (outStride this) (oDist this) postPlan] this,
                   err')
              else AssertFails
          end
        else AssertFails
    | Throws w => Throws w
    | AssertFails => AssertFails
    | Undefined => Undefined
    end.
Proof.
  intros Hdir Hch Hmore cs cd applyCallback'. subst cs cd applyCallback'.
  unfold RealTransEvenNode.AssignParams_internal, RealTransEvenNode.AssignParams_forward.
  rewrite Hdir, Hch. cbn [Z.eqb Pos.eqb Z.opp].
  assert (Hn : Nat.eqb (List.length (applyCallback :: fft :: more)) 2
               || Nat.eqb (List.length (applyCallback :: fft :: more)) 3 = true).
  { destruct more as [|p [|q more]]; cbn in *; try reflexivity; lia. }
  unfold bind at 1. unfold assert at 1. rewrite Hn.
  unfold at_index. cbn [lookup list_lookup of_option].
  rewrite (bind_returns _ _ _ _ _ (lift_returns _ _)).
  cbn [childNodes with_childNodes insert list_insert lookup list_lookup of_option
       inStride iDist outStride oDist].
  rewrite (bind_returns _ _ _ _ _ (lift_returns _ _)).
  unfold bind at 1. unfold with_layout.
  destruct (AssignParams api _ err) as [[fft' err']| | |]; try reflexivity.
  unfold bind at 1. unfold assert at 1.
  destruct (Nat.eqb (List.length (length fft')) (List.length (inStride fft')));
    cbn [andb]; [|reflexivity].
  unfold bind at 1. unfold assert at 1.
  destruct (Nat.eqb (List.length (length fft')) (List.length (outStride fft')));
    [|reflexivity].
  destruct more as [|postPlan [|q more]]; cbn in Hmore; [| |lia].
  - reflexivity.
  - cbn [List.length Nat.eqb childNodes with_childNodes insert list_insert
         lookup list_lookup of_option].
    rewrite (bind_returns _ _ _ _ _ (lift_returns _ _)).
    unfold bind at 1. unfold assert at 1.
    destruct (bool_decide (scheme postPlan = CS_KERNEL_R_TO_CMPLX)
              || bool_decide (scheme postPlan = CS_KERNEL_R_TO_CMPLX_TRANSPOSE));
      cbn [andb]; [|reflexivity].
    cbn [length inStride outStride with_inStride with_iDist with_outStride with_oDist].
    rewrite (halve_above_first_length (inStride this)).
    unfold bind at 1. unfold assert at 1.
    destruct (Nat.eqb (List.length (length postPlan)) (List.length (inStride this)));
      cbn [andb]; [|reflexivity].
    unfold bind at 1. unfold assert at 1.
    destruct (Nat.eqb (List.length (length postPlan)) (List.length (outStride this)));
      reflexivity.
Qed.

End RealTransEven_layout.

(** The layout pass of a forward [CS_REAL_TRANSFORM_EVEN] node with two
    or three children. The callback node works in place on the input in
    real units. The complex sub-plan is asked to work in place on the
    same buffer in complex units: the first stride as it is, every
    higher stride and the distance halved. Once the sub-plan has its
    layout, a third child reads that complex layout and writes the
    node's output layout, and without a third child the sub-plan itself
    is given the node's output layout. A sub-plan whose strides do not
    match its lengths in number, or a third child of another scheme or
    size, trips an assertion. *)
Theorem RealTransEven_AssignParams_forward (api : NodeApi) (rootPlan this : TreeNode)
    (err : list string) (applyCallback fft : TreeNode) (more : list TreeNode) :
  direction this = -1 ->
  childNodes this = applyCallback :: fft :: more ->
  (List.length more <= 1)%nat ->
  let cs := RealTransEvenNode.halve_above_first (inStride this) in
  let cd := iDist this / 2 in
  let applyCallback' :=
    with_layout (inStride this) (iDist this) (inStride this) (iDist this) applyCallback in
  (cs !! 0%nat = inStride this !! 0%nat
   /\ forall i : nat, cs !! S i = (fun s => s / 2) <$> inStride this !! S i)
  /\ after_call
       (AssignParams api (with_layout cs cd cs cd fft) err)
       (RealTransEvenNode.AssignParams_internal api rootPlan this err)
       (fun r =>
          (List.length (length r.1) <> List.length (inStride r.1)
           \/ List.length (length r.1) <> List.length (outStride r.1) ->
           RealTransEvenNode.AssignParams_internal api rootPlan this err = AssertFails)
          /\ (List.length (length r.1) = List.length (inStride r.1) ->
              List.length (length r.1) = List.length (outStride r.1) ->
              match more with
              | [] =>
                  RealTransEvenNode.AssignParams_internal api rootPlan this err =
                    Returns
                      (with_childNodes
                         [applyCallback';
                          with_oDist (oDist this) (with_outStride (outStride this) r.1)]
                         this, r.2)
              | postPlan :: _ =>
                  if (bool_decide (scheme postPlan = CS_KERNEL_R_TO_CMPLX)
                      || bool_decide (scheme postPlan = CS_KERNEL_R_TO_CMPLX_TRANSPOSE))
                     && Nat.eqb (List.length (length postPlan)) (List.length (inStride this))
                     && Nat.eqb (List.length (length postPlan)) (List.length (outStride this))
                  then
                    RealTransEvenNode.AssignParams_internal api rootPlan this err =
                      Returns
                        (with_childNodes
                           [applyCallback'; r.1;
                            with_layout cs cd (outStride this) (oDist this) postPlan]
                           this, r.2)
                  else
                    RealTransEvenNode.AssignParams_internal api rootPlan this err
                      = AssertFails
              end)).
Proof.
  intros Hdir Hch Hmore cs cd applyCallback'.
  split; [apply halve_above_first_lookup|].
  rewrite (AssignParams_forward_eq api rootPlan this err applyCallback fft more
             Hdir Hch Hmore). cbv zeta. fold cs cd applyCallback'.
  destruct (AssignParams api _ err) as [[fft' err']| | |]; cbn [after_call];
    try reflexivity.
  cbn [fst snd]. split.
  - intros [H|H]; apply Nat.eqb_neq in H; rewrite H; [reflexivity|].
    now rewrite andb_false_r.
  - intros H1 H2. apply Nat.eqb_eq in H1, H2. rewrite H1, H2. cbn [andb].
    destruct more as [|postPlan more']; [reflexivity|].
    destruct (_ && _ && _); reflexivity.
Qed.

Lemma RealTransEven_AssignParams_forward_witness :
  let api := single_kernel_api in
  let this := even_1024x4_forward_children in
  let applyCallback := callback_1024x4 real_1024_forward in
  let fft := kernel_512x4 real_1024_forward in
  let more := [post_512x4] in
  let cs := RealTransEvenNode.halve_above_first (inStride this) in
  let cd := iDist this / 2 in
  let applyCallback' :=
    with_layout (inStride this) (iDist this) (inStride this) (iDist this) applyCallback in
  (cs !! 0%nat = inStride this !! 0%nat
   /\ forall i : nat, cs !! S i = (fun s => s / 2) <$> inStride this !! S i)
  /\ after_call
       (AssignParams api (with_layout cs cd cs cd fft) [])
       (RealTransEvenNode.AssignParams_internal api this this [])
       (fun r =>
          (List.length (length r.1) <> List.length (inStride r.1)
           \/ List.length (length r.1) <> List.length (outStride r.1) ->
           RealTransEvenNode.AssignParams_internal api this this [] = AssertFails)
          /\ (List.length (length r.1) = List.length (inStride r.1) ->
              List.length (length r.1) = List.length (outStride r.1) ->
              match more with
              | [] =>
                  RealTransEvenNode.AssignParams_internal api this this [] =
                    Returns
                      (with_childNodes
                         [applyCallback';
                          with_oDist (oDist this) (with_outStride (outStride this) r.1)]
                         this, r.2)
              | postPlan :: _ =>
                  if (bool_decide (scheme postPlan = CS_KERNEL_R_TO_CMPLX)
                      || bool_decide (scheme postPlan = CS_KERNEL_R_TO_CMPLX_TRANSPOSE))
                     && Nat.eqb (List.length (length postPlan)) (List.length (inStride this))
                     && Nat.eqb (List.length (length postPlan)) (List.length (outStride this))
                  then
                    RealTransEvenNode.AssignParams_internal api this this [] =
                      Returns
                        (with_childNodes
                           [applyCallback'; r.1;
                            with_layout cs cd (outStride this) (oDist this) postPlan]
                           this, r.2)
                  else
                    RealTransEvenNode.AssignParams_internal api this this []
                      = AssertFails
              end)).
Proof.
  apply (RealTransEven_AssignParams_forward single_kernel_api
           even_1024x4_forward_children even_1024x4_forward_children []
           (callback_1024x4 real_1024_forward) (kernel_512x4 real_1024_forward)
           [post_512x4]).
  - reflexivity.
  - reflexivity.
  - cbn. lia.
Defined.

Example even_1024x4_forward_layout :
  match RealTransEvenNode.AssignParams_internal single_kernel_api
          even_1024x4_forward_children even_1024x4_forward_children [] with
  | Returns (this', _) =>
      map (fun c => (inStride c, iDist c, outStride c, oDist c)) (childNodes this')
      = [([1; 1026], 4104, [1; 1026], 4104);
         ([1; 513], 2052, [1; 513], 2052);
         ([1; 513], 2052, [1; 513], 2052)]
  | _ => False
  end.
Proof. vm_compute. reflexivity. Qed.

Lemma halve_strides_separate (v : list Z) :
  RealTransEvenNode.halve_strides false (List.length v - 1) 1 v v =
    Returns (RealTransEvenNode.halve_above_first v, RealTransEvenNode.halve_above_first v).
Proof.
  destruct v as [|x v]; [reflexivity|].
  rewrite halve_strides_spec by (cbn [List.length]; lia).
  now rewrite halved_from_1.
Qed.

Lemma halve_strides_fused (inS outS : list Z) :
  List.length inS = List.length outS ->
  RealTransEvenNode.halve_strides true (List.length inS - 1) 1 inS outS =
    Returns (inS, RealTransEvenNode.halve_above_first outS).
Proof.
  intros Hlen. destruct inS as [|x inS].
  - destruct outS; [reflexivity | discriminate].
  - rewrite halve_strides_spec by (cbn [List.length] in *; lia).
    now rewrite halved_from_1.
Qed.

Section RealTransEven_backward.
Variables (api : NodeApi) (rootPlan this : TreeNode) (err : list string).
Hypothesis Hdir : direction this <> -1.

Lemma AssignParams_backward_eq (prePlan fft applyCallback : TreeNode) :
  childNodes this = [prePlan; fft; applyCallback] ->
  ebtype prePlan <> C2Real_PRE ->
  let hs := RealTransEvenNode.halve_above_first (outStride this) in
  let od := oDist this / 2 in
  RealTransEvenNode.AssignParams_internal api rootPlan this err =
    if bool_decide (scheme prePlan = CS_KERNEL_CMPLX_TO_R)
       && Nat.eqb (List.length (length prePlan)) (List.length (inStride this))
       && Nat.eqb (List.length (length prePlan)) (List.length (outStride this))
    then
      match AssignParams api (with_layout hs od hs od fft) err with
      | Returns (fft', err') =>
          if Nat.eqb (List.length (length fft')) (List.length (inStride fft'))
             && Nat.eqb (List.length (length fft')) (List.length (outStride fft'))
          then
            Returns
              (with_childNodes
                 [with_layout (inStride this) (iDist this) hs od prePlan;
                  fft';
                  with_layout (outStride rootPlan) (oDist rootPlan)
                    (outStride rootPlan) (oDist rootPlan) applyCallback] this,
               err')
          else AssertFails
      | Throws w => Throws w
      | AssertFails => AssertFails
      | Undefined => Undefined
      end
    else AssertFails.
Proof.
  intros Hch Hpre hs od. subst hs od.
  unfold RealTransEvenNode.AssignParams_internal, RealTransEvenNode.AssignParams_backward.
  apply Z.eqb_neq in Hdir. rewrite Hdir, Hch.
  unfold bind at 1. unfold assert at 1. cbn [List.length Nat.eqb orb].
  unfold at_index. cbn [lookup list_lookup of_option].
  rewrite (bind_returns _ _ _ _ _ (lift_returns _ _)).
  rewrite (bool_decide_eq_false_2 _ Hpre). cbn [negb].
  unfold bind at 1. unfold bind at 1. unfold assert at 1.
  destruct (bool_decide (scheme prePlan = CS_KERNEL_CMPLX_TO_R)); cbn [andb];
    [|reflexivity].
  cbn [length inStride outStride with_inStride with_iDist with_outStride with_oDist].
  rewrite halve_above_first_length.
  unfold bind at 1. unfold assert at 1.
  destruct (Nat.eqb (List.length (length prePlan)) (List.length (inStride this)));
    cbn [andb]; [|reflexivity].
  unfold bind at 1. unfold assert at 1.
  destruct (Nat.eqb (List.length (length prePlan)) (List.length (outStride this)));
    [|reflexivity].
  unfold ret at 1.
  cbn [childNodes with_childNodes insert list_insert lookup list_lookup of_option
       inStride iDist outStride oDist].
  rewrite (bind_returns _ _ _ _ _ (lift_returns _ _)).
  cbn [inStride outStride with_inStride with_iDist with_outStride with_oDist].
  rewrite halve_strides_separate.
  rewrite (bind_returns _ _ _ _ _ (lift_returns _ _)).
  cbn [fst snd]. unfold bind at 1. unfold with_layout.
  destruct (AssignParams api _ err) as [[fft' err']| | |]; try reflexivity.
  unfold bind at 1. unfold assert at 1.
  destruct (Nat.eqb (List.length (length fft')) (List.length (inStride fft')));
    cbn [andb]; [|reflexivity].
  unfold bind at 1. unfold assert at 1.
  destruct (Nat.eqb (List.length (length fft')) (List.length (outStride fft')));
    [|reflexivity].
  cbn [childNodes with_childNodes insert list_insert lookup list_lookup of_option
       List.length Nat.sub].
  rewrite (bind_returns _ _ _ _ _ (lift_returns _ _)).
  reflexivity.
Qed.

Lemma AssignParams_backward_fused_eq (fft applyCallback : TreeNode) :
  childNodes this = [fft; applyCallback] ->
  ebtype fft = C2Real_PRE ->
  RealTransEvenNode.AssignParams_internal api rootPlan this err =
    match RealTransEvenNode.halve_strides true (List.length (inStride this) - 1) 1
            (inStride this) (outStride this) with
    | Returns (_, hs) =>
        match AssignParams api
                (with_layout (inStride this) (iDist this) hs (oDist this / 2) fft) err with
        | Returns (fft', err') =>
            if Nat.eqb (List.length (length fft')) (List.length (inStride fft'))
               && Nat.eqb (List.length (length fft')) (List.length (outStride fft'))
            then
              Returns
                (with_childNodes
                   [fft';
                    with_layout (outStride rootPlan) (oDist rootPlan)
                      (outStride rootPlan) (oDist rootPlan) applyCallback] this,
                 err')
            else AssertFails
        | Throws w => Throws w
        | AssertFails => AssertFails
        | Undefined => Undefined
        end
    | Throws w => Throws w
    | AssertFails => AssertFails
    | Undefined => Undefined
    end.
Proof.
  intros Hch Hfused.
  unfold RealTransEvenNode.AssignParams_internal, RealTransEvenNode.AssignParams_backward.
  apply Z.eqb_neq in Hdir. rewrite Hdir, Hch.
  unfold bind at 1. unfold assert at 1. cbn [List.length Nat.eqb orb].
  unfold at_index. cbn [lookup list_lookup of_option].
  rewrite (bind_returns _ _ _ _ _ (lift_returns _ _)).
  rewrite (bool_decide_eq_true_2 _ Hfused). cbn [negb].
  unfold bind at 1. unfold ret at 1.
  rewrite Hch. cbn [lookup list_lookup of_option].
  rewrite (bind_returns _ _ _ _ _ (lift_returns _ _)).
  cbn [inStride outStride with_inStride with_iDist with_outStride with_oDist].
  unfold bind at 1. unfold lift at 1.
  destruct (RealTransEvenNode.halve_strides true _ 1 (inStride this) (outStride this))
    as [[is' hs]| | |] eqn:Hh; cbn [obind]; try reflexivity.
  assert (His : is' = inStride this).
  { clear -Hh. revert Hh. generalize (List.length (inStride this) - 1)%nat.
    generalize 1%nat. generalize (outStride this). generalize (inStride this).
    intros inS outS i count. revert i inS outS.
    induction count as [|count IH]; intros i inS outS H; cbn in H.
    - now simplify_eq.
    - unfold at_index in H. destruct (outS !! i); cbn in H; [|discriminate].
      now apply IH in H. }
  subst is'. cbn [fst snd]. unfold bind at 1. unfold with_layout.
  assert (Hsame : with_outStride hs
                    (with_inStride (inStride this)
                       (with_oDist (oDist this / 2)
                          (with_outStride (outStride this)
                             (with_iDist (iDist this)
                                (with_inStride (inStride this) fft)))))
                  = with_oDist (oDist this / 2)
                      (with_outStride hs
                         (with_iDist (iDist this) (with_inStride (inStride this) fft))))
    by reflexivity.
  rewrite Hsame.
  destruct (AssignParams api _ err) as [[fft' err']| | |]; try reflexivity.
  unfold bind at 1. unfold assert at 1.
  destruct (Nat.eqb (List.length (length fft')) (List.length (inStride fft')));
    cbn [andb]; [|reflexivity].
  unfold bind at 1. unfold assert at 1.
  destruct (Nat.eqb (List.length (length fft')) (List.length (outStride fft')));
    [|reflexivity].
  cbn [childNodes with_childNodes insert list_insert lookup list_lookup of_option
       List.length Nat.sub].
  rewrite (bind_returns _ _ _ _ _ (lift_returns _ _)).
  reflexivity.
Qed.

End RealTransEven_backward.

(** The layout pass of a backward [CS_REAL_TRANSFORM_EVEN] node with
    separate pre-processing: three children, the first one not tagged
    [C2Real_PRE]. The pre-processing kernel must be a
    [CS_KERNEL_CMPLX_TO_R] with as many lengths as the node has input
    and output strides, or an assertion trips. It reads the node's input
    layout and writes the output buffer in complex units: the first
    output stride as it is, every higher stride and the distance halved.
    The complex sub-plan is asked to work in place on that complex
    layout, and the callback node works in place on the output layout of
    the root plan. *)
Theorem RealTransEven_AssignParams_backward (api : NodeApi) (rootPlan this : TreeNode)
    (err : list string) (prePlan fft applyCallback : TreeNode) :
  direction this <> -1 ->
  childNodes this = [prePlan; fft; applyCallback] ->
  ebtype prePlan <> C2Real_PRE ->
  let hs := RealTransEvenNode.halve_above_first (outStride this) in
  let od := oDist this / 2 in
  (hs !! 0%nat = outStride this !! 0%nat
   /\ forall i : nat, hs !! S i = (fun s => s / 2) <$> outStride this !! S i)
  /\ (scheme prePlan <> CS_KERNEL_CMPLX_TO_R
      \/ List.length (length prePlan) <> List.length (inStride this)
      \/ List.length (length prePlan) <> List.length (outStride this) ->
      RealTransEvenNode.AssignParams_internal api rootPlan this err = AssertFails)
  /\ (scheme prePlan = CS_KERNEL_CMPLX_TO_R ->
      List.length (length prePlan) = List.length (inStride this) ->
      List.length (length prePlan) = List.length (outStride this) ->
      after_call
        (AssignParams api (with_layout hs od hs od fft) err)
        (RealTransEvenNode.AssignParams_internal api rootPlan this err)
        (fun r =>
           (List.length (length r.1) <> List.length (inStride r.1)
            \/ List.length (length r.1) <> List.length (outStride r.1) ->
            RealTransEvenNode.AssignParams_internal api rootPlan this err = AssertFails)
           /\ (List.length (length r.1) = List.length (inStride r.1) ->
               List.length (length r.1) = List.length (outStride r.1) ->
               RealTransEvenNode.AssignParams_internal api rootPlan this err =
                 Returns
                   (with_childNodes
                      [with_layout (inStride this) (iDist this) hs od prePlan;
                       r.1;
                       with_layout (outStride rootPlan) (oDist rootPlan)
                         (outStride rootPlan) (oDist rootPlan) applyCallback] this,
                    r.2)))).
Proof.
  intros Hdir Hch Hpre hs od.
  split; [apply halve_above_first_lookup|].
  rewrite (AssignParams_backward_eq api rootPlan this err Hdir prePlan fft applyCallback
             Hch Hpre). cbv zeta. fold hs od.
  split.
  - intros [H|[H|H]].
    + now rewrite (bool_decide_eq_false_2 _ H).
    + apply Nat.eqb_neq in H. rewrite H. now rewrite andb_false_r.
    + apply Nat.eqb_neq in H. rewrite H. now rewrite andb_false_r.
  - intros Hs H1 H2. apply Nat.eqb_eq in H1, H2.
    rewrite (bool_decide_eq_true_2 _ Hs), H1, H2. cbn [andb].
    destruct (AssignParams api _ err) as [[fft' err']| | |]; cbn [after_call];
      try reflexivity.
    cbn [fst snd]. split.
    + intros [H|H]; apply Nat.eqb_neq in H; rewrite H; [reflexivity|].
      now rewrite andb_false_r.
    + intros H3 H4. apply Nat.eqb_eq in H3, H4. now rewrite H3, H4.
Qed.

Lemma RealTransEven_AssignParams_backward_witness :
  let api := single_kernel_api in
  let this := even_1024x4_backward_children in
  let prePlan := pre_513x4 in
  let fft := kernel_512x4 real_1024_inverse in
  let applyCallback := callback_1024x4 real_1024_inverse in
  let hs := RealTransEvenNode.halve_above_first (outStride this) in
  let od := oDist this / 2 in
  (hs !! 0%nat = outStride this !! 0%nat
   /\ forall i : nat, hs !! S i = (fun s => s / 2) <$> outStride this !! S i)
  /\ (scheme prePlan <> CS_KERNEL_CMPLX_TO_R
      \/ List.length (length prePlan) <> List.length (inStride this)
      \/ List.length (length prePlan) <> List.length (outStride this) ->
      RealTransEvenNode.AssignParams_internal api this this [] = AssertFails)
  /\ (scheme prePlan = CS_KERNEL_CMPLX_TO_R ->
      List.length (length prePlan) = List.length (inStride this) ->
      List.length (length prePlan) = List.length (outStride this) ->
      after_call
        (AssignParams api (with_layout hs od hs od fft) [])
        (RealTransEvenNode.AssignParams_internal api this this [])
        (fun r =>
           (List.length (length r.1) <> List.length (inStride r.1)
            \/ List.length (length r.1) <> List.length (outStride r.1) ->
            RealTransEvenNode.AssignParams_internal api this this [] = AssertFails)
           /\ (List.length (length r.1) = List.length (inStride r.1) ->
               List.length (length r.1) = List.length (outStride r.1) ->
               RealTransEvenNode.AssignParams_internal api this this [] =
                 Returns
                   (with_childNodes
                      [with_layout (inStride this) (iDist this) hs od prePlan;
                       r.1;
                       with_layout (outStride this) (oDist this)
                         (outStride this) (oDist this) applyCallback] this,
                    r.2)))).
Proof.
  apply (RealTransEven_AssignParams_backward single_kernel_api
           even_1024x4_backward_children even_1024x4_backward_children []
           pre_513x4 (kernel_512x4 real_1024_inverse) (callback_1024x4 real_1024_inverse)).
  - discriminate.
  - reflexivity.
  - discriminate.
Defined.

(** The layout pass of a backward [CS_REAL_TRANSFORM_EVEN] node with the
    pre-processing fused into the kernel: two children, the first one
    tagged [C2Real_PRE]. When the node has as many output strides as
    input strides, the kernel is asked to read the node's input layout
    as it is and to write the output buffer in complex units, and the
    callback node works in place on the output layout of the root plan.
    With fewer output strides than input strides, and at least two input
    strides, the loop over the strides reads [outStride] out of range. *)
Theorem RealTransEven_AssignParams_backward_fused (api : NodeApi)
    (rootPlan this : TreeNode) (err : list string) (fft applyCallback : TreeNode) :
  direction this <> -1 ->
  childNodes this = [fft; applyCallback] ->
  ebtype fft = C2Real_PRE ->
  let hs := RealTransEvenNode.halve_above_first (outStride this) in
  let od := oDist this / 2 in
  (List.length (inStride this) = List.length (outStride this) ->
   after_call
     (AssignParams api (with_layout (inStride this) (iDist this) hs od fft) err)
     (RealTransEvenNode.AssignParams_internal api rootPlan this err)
     (fun r =>
        List.length (length r.1) = List.length (inStride r.1) ->
        List.length (length r.1) = List.length (outStride r.1) ->
        RealTransEvenNode.AssignParams_internal api rootPlan this err =
          Returns
            (with_childNodes
               [r.1;
                with_layout (outStride rootPlan) (oDist rootPlan)
                  (outStride rootPlan) (oDist rootPlan) applyCallback] this,
             r.2)))
  /\ ((List.length (outStride this) < List.length (inStride this))%nat ->
      (2 <= List.length (inStride this))%nat ->
      RealTransEvenNode.AssignParams_internal api rootPlan this err = Undefined).
Proof.
  intros Hdir Hch Hfused hs od.
  rewrite (AssignParams_backward_fused_eq api rootPlan this err Hdir fft applyCallback
             Hch Hfused).
  split.
  - intros Hlen. rewrite (halve_strides_fused _ _ Hlen). fold hs od.
    destruct (AssignParams api _ err) as [[fft' err']| | |]; cbn [after_call];
      try reflexivity.
    cbn [fst snd]. intros H3 H4. apply Nat.eqb_eq in H3, H4. now rewrite H3, H4.
  - intros Hshort Htwo. rewrite halve_strides_short by lia. reflexivity.
Qed.

Lemma RealTransEven_AssignParams_backward_fused_witness :
  let api := single_kernel_api in
  let this := even_1024x4_backward_fused in
  let fft := with_ebtype C2Real_PRE (kernel_512x4 real_1024_inverse) in
  let applyCallback := callback_1024x4 real_1024_inverse in
  let hs := RealTransEvenNode.halve_above_first (outStride this) in
  let od := oDist this / 2 in
  (List.length (inStride this) = List.length (outStride this) ->
   after_call
     (AssignParams api (with_layout (inStride this) (iDist this) hs od fft) [])
     (RealTransEvenNode.AssignParams_internal api this this [])
     (fun r =>
        List.length (length r.1) = List.length (inStride r.1) ->
        List.length (length r.1) = List.length (outStride r.1) ->
        RealTransEvenNode.AssignParams_internal api this this [] =
          Returns
            (with_childNodes
               [r.1;
                with_layout (outStride this) (oDist this)
                  (outStride this) (oDist this) applyCallback] this,
             r.2)))
  /\ ((List.length (outStride this) < List.length (inStride this))%nat ->
      (2 <= List.length (inStride this))%nat ->
      RealTransEvenNode.AssignParams_internal api this this [] = Undefined).
Proof.
  apply (RealTransEven_AssignParams_backward_fused single_kernel_api
           even_1024x4_backward_fused even_1024x4_backward_fused []
           (with_ebtype C2Real_PRE (kernel_512x4 real_1024_inverse))
           (callback_1024x4 real_1024_inverse)).
  - discriminate.
  - reflexivity.
  - reflexivity.
Defined.

(** A fused backward node with two input strides and one output stride:
    the second output stride is read though there is none. *)
Example backward_fused_short_outStride :
  RealTransEvenNode.AssignParams_internal single_kernel_api
    even_1024x4_backward_fused (with_outStride [1] even_1024x4_backward_fused) []
  = Undefined.
Proof. reflexivity. Qed.

(* ------------------------------------------------------------------ *)
(** ** Pre/post-processing kernels: the twiddle table *)

Lemma twice_half (L : Z) : is_size_t L -> L mod 2 = 0 -> size_t_wrap (2 * (L / 2)) = L.
Proof.
  intros HL Hev. rewrite <- (Z.div_exact L 2) in Hev by lia.
  rewrite <- Hev. now apply size_t_wrap_small.
Qed.

Lemma twice_hermitian_minus_1 (L : Z) :
  is_size_t L -> L mod 2 = 0 ->
  size_t_wrap (2 * size_t_wrap (L / 2 + 1 - 1)) = L.
Proof.
  intros HL Hev. replace (L / 2 + 1 - 1) with (L / 2) by lia.
  rewrite (is_size_t_half L HL). now apply twice_half.
Qed.

(** When a [CS_REAL_TRANSFORM_EVEN] node of even real length [L] is
    built with the processing as a kernel of its own, that kernel, the
    last child for a forward transform and the first for an inverse one,
    asks for a twiddle table of length [L]: twice its own length for
    [CS_KERNEL_R_TO_CMPLX], twice its own length less one for
    [CS_KERNEL_CMPLX_TO_R]. *)
Theorem PrePost_twiddle_real_length (api : NodeApi) (lapi : LaunchApi)
    (this : TreeNode) (err : list string) (L : Z) (rest : list Z) :
  (forall s p, scheme (CreateNodeFromScheme api s p) = s) ->
  length this = L :: rest ->
  is_size_t L ->
  L mod 2 = 0 ->
  childNodes this = [] ->
  direction this = -1 \/ direction this = 1 ->
  after_call
    (RecursiveBuildTree api (cfftPlan_request api (complex_side this L rest) L rest) err)
    (RealTransEvenNode.BuildTree_internal api this err)
    (fun r =>
       try_fuse_pre_post_processing this && isLeafNode api r.1 = false ->
       exists this' processing,
         RealTransEvenNode.BuildTree_internal api this err = Returns (this', r.2)
         /\ (if direction this =? -1
             then last (childNodes this') else head (childNodes this')) = Some processing
         /\ scheme processing =
              (if direction this =? -1 then CS_KERNEL_R_TO_CMPLX else CS_KERNEL_CMPLX_TO_R)
         /\ PrePostKernelNode.GetTwiddleTableLength lapi processing = Returns L).
Proof.
  intros Hfac Hlen HL Hev Hfresh Hdir.
  rewrite (BuildTree_internal_eq api this err L rest Hlen HL Hev).
  destruct (RecursiveBuildTree api _ err) as [[cfft err']| | |]; cbn [after_call];
    try reflexivity.
  cbn [fst snd]. cbv zeta. intros Hnf.
  set (this2 := fuse_decided api cfft (complex_side this L rest)).
  assert (Hnf2 : try_fuse_pre_post_processing this2 = false).
  { unfold this2. now rewrite try_fuse_fuse_decided, try_fuse_complex_side. }
  assert (Hch2 : childNodes this2 = []).
  { unfold this2. now rewrite childNodes_fuse_decided, childNodes_complex_side. }
  destruct Hdir as [Hd|Hd]; rewrite Hd; cbn [Z.eqb Pos.eqb Z.opp].
  - assert (Hreal : deref (realLength_of this) this2 = L :: rest).
    { unfold this2. rewrite deref_fuse_decided. now apply deref_real_side. }
    destruct (forward_separate api this2 cfft err' (realLength_of this)
                (complexLength_of this) L rest Hnf2 Hreal HL) as [parent ->].
    eexists _, _. split; [reflexivity|].
    cbn [childNodes with_childNodes]. rewrite Hch2. cbn [app last].
    split; [reflexivity|].
    cbn [scheme with_outputLength with_length with_dimension].
    rewrite Hfac. split; [reflexivity|].
    unfold PrePostKernelNode.GetTwiddleTableLength.
    cbn [scheme length with_outputLength with_length with_dimension].
    rewrite Hfac. cbn. f_equal. now apply twice_half.
  - assert (Hout : outputLength this2 = L :: rest).
    { unfold this2. rewrite outputLength_fuse_decided.
      now apply outputLength_complex_side_inverse. }
    destruct (inverse_separate api this2 cfft err' (complexLength_of this) L rest
                Hnf2 Hout HL) as [parent ->].
    eexists _, _. split; [reflexivity|].
    cbn [childNodes with_childNodes]. rewrite Hch2. cbn [app head].
    split; [reflexivity|].
    cbn [scheme with_outputLength with_length with_dimension].
    rewrite Hfac. split; [reflexivity|].
    unfold PrePostKernelNode.GetTwiddleTableLength.
    cbn [scheme length with_outputLength with_length with_dimension].
    rewrite Hfac.
    assert (Hcl : deref (complexLength_of this) this2 = L / 2 + 1 :: rest).
    { unfold this2. rewrite deref_fuse_decided. apply deref_complex_side. }
    rewrite Hcl. cbn. f_equal. now apply twice_hermitian_minus_1.
Qed.

Lemma PrePost_twiddle_real_length_witness :
  let api := single_kernel_api in
  let this := root_node CS_REAL_TRANSFORM_EVEN 1 rocfft_array_type_hermitian_interleaved
                [1024] in
  after_call
    (RecursiveBuildTree api (cfftPlan_request api (complex_side this 1024 []) 1024 []) [])
    (RealTransEvenNode.BuildTree_internal api this [])
    (fun r =>
       try_fuse_pre_post_processing this && isLeafNode api r.1 = false ->
       exists this' processing,
         RealTransEvenNode.BuildTree_internal api this [] = Returns (this', r.2)
         /\ (if direction this =? -1
             then last (childNodes this') else head (childNodes this')) = Some processing
         /\ scheme processing =
              (if direction this =? -1 then CS_KERNEL_R_TO_CMPLX else CS_KERNEL_CMPLX_TO_R)
         /\ PrePostKernelNode.GetTwiddleTableLength default_launch_api processing
              = Returns 1024).
Proof.
  apply (PrePost_twiddle_real_length single_kernel_api default_launch_api
           (root_node CS_REAL_TRANSFORM_EVEN 1 rocfft_array_type_hermitian_interleaved
              [1024]) [] 1024 []).
  - intros s p. reflexivity.
  - reflexivity.
  - unfold is_size_t, SIZE_T_MODULUS. lia.
  - reflexivity.
  - reflexivity.
  - right. reflexivity.
Defined.

(** The two services of [PrePostKernelNode] are defined on the same four
    schemes: on every other scheme the twiddle-table length throws and
    the lookup of the device function throws. A twiddle-table length
    that is returned is an even [size_t] value. *)
Theorem PrePostKernelNode_schemes (lapi : LaunchApi) (this : TreeNode) (gp : GridDims) :
  (PrePostKernelNode.FnCallMap (scheme this) = None <->
   exists what, PrePostKernelNode.GetTwiddleTableLength lapi this = Throws what)
  /\ (PrePostKernelNode.FnCallMap (scheme this) = None <->
      exists what, PrePostKernelNode.SetupGPAndFnPtr_internal lapi this gp = Throws what)
  /\ (forall n, PrePostKernelNode.GetTwiddleTableLength lapi this = Returns n ->
        is_size_t n /\ n mod 2 = 0).
Proof.
  assert (Heven : forall x, is_size_t (size_t_wrap (2 * x)) /\ size_t_wrap (2 * x) mod 2 = 0).
  { intros x. unfold size_t_wrap, is_size_t, SIZE_T_MODULUS. split.
    - apply Z.mod_pos_bound. lia.
    - change (2 ^ 64) with (2 * 2 ^ 63). rewrite Z.mul_mod_distr_l by lia.
      rewrite Z.mul_comm. apply Z.mod_mul. lia. }
  unfold PrePostKernelNode.GetTwiddleTableLength,
    PrePostKernelNode.SetupGPAndFnPtr_internal, at_index.
  split; [|split].
  - destruct (scheme this); cbn; split; intros H; try discriminate; eauto;
      destruct H as [w H]; unfold obind, of_option in H;
      repeat case_match; discriminate.
  - destruct (scheme this); cbn; split; intros H; try discriminate; eauto;
      destruct H as [w H]; discriminate.
  - intros n H. destruct (scheme this); cbn in H; try discriminate;
      unfold obind, of_option in H; repeat case_match; simplify_eq; apply Heven.
Qed.

(** A copy kernel other than the callback kernel, over at least one
    element along the first dimension, gets blocks of
    [LAUNCH_BOUNDS_R2C_C2R_KERNEL] work-items and as many blocks as it
    takes to cover the first dimension: no fewer work-items than
    elements, and less than one block to spare. The launch bound and the
    number of blocks are taken to fit the integer type of the grid
    members. *)
Theorem DataCopy_grid_covers (lapi : LaunchApi) (this : TreeNode) (gp : GridDims)
    (len0 : Z) :
  RealTransDataCopyNode.FnCallMap (scheme this) <> None ->
  scheme this <> CS_KERNEL_APPLY_CALLBACK ->
  length this !! 0%nat = Some len0 ->
  1 <= len0 < SIZE_T_MODULUS ->
  let bound := LAUNCH_BOUNDS_R2C_C2R_KERNEL lapi in
  1 <= bound < grid_modulus lapi ->
  grid_modulus lapi <= SIZE_T_MODULUS ->
  (len0 - 1) / bound + 1 < grid_modulus lapi ->
  exists fnPtr gp',
    RealTransDataCopyNode.SetupGPAndFnPtr_internal lapi this gp = Returns (fnPtr, gp')
    /\ RealTransDataCopyNode.FnCallMap (scheme this) = Some fnPtr
    /\ wgs_x gp' = bound
    /\ wgs_y gp' = 1
    /\ b_y gp' = batch this mod grid_modulus lapi
    /\ len0 <= b_x gp' * wgs_x gp' < len0 + bound.
Proof.
  intros Hmap Hcb Hl0 Hlen bound Hb Hm Hfit.
  unfold RealTransDataCopyNode.SetupGPAndFnPtr_internal, at_index.
  destruct (RealTransDataCopyNode.FnCallMap (scheme this)) as [fn|]; [|congruence].
  rewrite (bool_decide_eq_false_2 _ Hcb), Hl0. cbn [of_option obind].
  fold bound.
  assert (Hwb : size_t_wrap bound = bound) by (apply size_t_wrap_small; unfold is_size_t; lia).
  assert (Hwl : size_t_wrap (len0 - 1) = len0 - 1)
    by (apply size_t_wrap_small; unfold is_size_t; lia).
  rewrite Hwb, Hwl.
  destruct (Z.eqb_spec bound 0) as [?|_]; [lia|].
  assert (Hq : 0 <= (len0 - 1) / bound) by (apply Z.div_pos; lia).
  assert (Hws : size_t_wrap ((len0 - 1) / bound + 1) = (len0 - 1) / bound + 1)
    by (apply size_t_wrap_small; unfold is_size_t; lia).
  rewrite Hws.
  eexists _, _. split; [reflexivity|]. split; [reflexivity|].
  cbn [wgs_x wgs_y b_x b_y].
  rewrite (Z.mod_small bound) by lia.
  rewrite (Z.mod_small 1) by lia.
  rewrite (Z.mod_small ((len0 - 1) / bound + 1)) by lia.
  split; [reflexivity|]. split; [reflexivity|]. split; [reflexivity|].
  pose proof (Z.div_mod (len0 - 1) bound ltac:(lia)) as Hdm.
  pose proof (Z.mod_pos_bound (len0 - 1) bound ltac:(lia)) as Hr.
  nia.
Qed.

Lemma DataCopy_grid_covers_witness :
  let lapi := default_launch_api in
  let this := copy_1000x4 in
  let gp := {| b_x := 0; b_y := 0; wgs_x := 0; wgs_y := 0 |} in
  let bound := LAUNCH_BOUNDS_R2C_C2R_KERNEL lapi in
  exists fnPtr gp',
    RealTransDataCopyNode.SetupGPAndFnPtr_internal lapi this gp = Returns (fnPtr, gp')
    /\ RealTransDataCopyNode.FnCallMap (scheme this) = Some fnPtr
    /\ wgs_x gp' = bound
    /\ wgs_y gp' = 1
    /\ b_y gp' = batch this mod grid_modulus lapi
    /\ 1000 <= b_x gp' * wgs_x gp' < 1000 + bound.
Proof.
  apply (DataCopy_grid_covers default_launch_api copy_1000x4
           {| b_x := 0; b_y := 0; wgs_x := 0; wgs_y := 0 |} 1000).
  - discriminate.
  - discriminate.
  - reflexivity.
  - unfold SIZE_T_MODULUS. lia.
  - unfold default_launch_api, LAUNCH_BOUNDS_R2C_C2R_KERNEL, grid_modulus. lia.
  - unfold default_launch_api, grid_modulus, SIZE_T_MODULUS. lia.
  - unfold default_launch_api, LAUNCH_BOUNDS_R2C_C2R_KERNEL, grid_modulus.
    change ((1000 - 1) / 256) with 3. lia.
Defined.

(** With no element along the first dimension the subtraction wraps
    around and the number of blocks is that of [2^64 - 1] elements, cut
    to the integer type of the grid members. *)
Example DataCopy_grid_empty :
  RealTransDataCopyNode.SetupGPAndFnPtr_internal default_launch_api
    (with_length [0; 4] copy_1000x4) {| b_x := 0; b_y := 0; wgs_x := 0; wgs_y := 0 |}
  = Returns (real2complex, {| b_x := 0; b_y := 5; wgs_x := 256; wgs_y := 1 |}).
Proof. vm_compute. reflexivity. Qed.

(* ------------------------------------------------------------------ *)
(** ** CS_REAL_2D_EVEN: the layout pass *)

Lemma swap_at_01 {A : Type} (a b : A) (rest : list A) :
  swap_at (a :: b :: rest) 0 1 = Returns (b :: a :: rest).
Proof. reflexivity. Qed.

Lemma swap_at_01_short {A : Type} (v : list A) :
  (List.length v < 2)%nat -> swap_at v 0 1 = Undefined.
Proof. destruct v as [|a [|b v]]; cbn; try reflexivity; lia. Qed.

Lemma AssignParams_SBCC_forward_eq api this err rowPlan sbccY more :
  inArrayType this = rocfft_array_type_real ->
  childNodes this = rowPlan :: sbccY :: more ->
  Real2DEvenNode.AssignParams_internal_SBCC api this err =
    match AssignParams api
            (with_layout (inStride this) (iDist this) (outStride this) (oDist this)
               rowPlan) err with
    | Returns (rowPlan', err') =>
        match outStride rowPlan' with
        | s0 :: s1 :: srest =>
            Returns
              (with_childNodes
                 (rowPlan'
                  :: with_layout (s1 :: s0 :: srest) (oDist rowPlan')
                       (s1 :: s0 :: srest) (oDist rowPlan') sbccY
                  :: more) this,
               err')
        | _ => Undefined
        end
    | Throws w => Throws w
    | AssertFails => AssertFails
    | Undefined => Undefined
    end.
Proof.
  intros Hin Hch. unfold Real2DEvenNode.AssignParams_internal_SBCC.
  rewrite (bool_decide_eq_true_2 _ Hin), Hch.
  unfold at_index. cbn [lookup list_lookup of_option].
  rewrite (bind_returns _ _ _ _ _ (lift_returns _ _)).
  unfold bind at 1. unfold with_layout.
  destruct (AssignParams api _ err) as [[rowPlan' err']| | |]; try reflexivity.
  cbn [childNodes with_childNodes insert list_insert lookup list_lookup of_option].
  rewrite (bind_returns _ _ _ _ _ (lift_returns _ _)).
  cbn [inStride with_inStride].
  destruct (outStride rowPlan') as [|s0 [|s1 srest]]; try reflexivity.
Qed.

Lemma AssignParams_SBCC_inverse_eq api this err sbccY crplan i0 i1 irest :
  inArrayType this <> rocfft_array_type_real ->
  childNodes this = [sbccY; crplan] ->
  inStride this = i0 :: i1 :: irest ->
  Real2DEvenNode.AssignParams_internal_SBCC api this err =
    match AssignParams api
            (with_layout (i1 :: i0 :: irest) (iDist this)
               (i1 :: i0 :: irest) (iDist this) sbccY) err with
    | Returns (sbccY', err1) =>
        match AssignParams api
                (with_dimension 1
                   (with_layout (inStride this) (iDist this)
                      (outStride this) (oDist this) crplan)) err1 with
        | Returns (crplan', err2) =>
            Returns (with_childNodes [sbccY'; crplan'] this, err2)
        | Throws w => Throws w
        | AssertFails => AssertFails
        | Undefined => Undefined
        end
    | Throws w => Throws w
    | AssertFails => AssertFails
    | Undefined => Undefined
    end.
Proof.
  intros Hin Hch His. unfold Real2DEvenNode.AssignParams_internal_SBCC.
  rewrite (bool_decide_eq_false_2 _ Hin), Hch.
  unfold at_index. cbn [lookup list_lookup of_option].
  rewrite (bind_returns _ _ _ _ _ (lift_returns _ _)).
  cbn [inStride with_inStride]. rewrite His, swap_at_01.
  rewrite (bind_returns _ _ _ _ _ (lift_returns _ _)).
  cbn [inStride with_inStride with_iDist].
  unfold bind at 1. unfold with_layout.
  destruct (AssignParams api _ err) as [[sbccY' err1]| | |]; reflexivity.
Qed.

(** The layout pass of the column-block strategy. On real input, with
    the row transform and the column kernel as children: the row
    transform is asked to go from the node's input layout to its output
    layout, and the column kernel then works in place on what the row
    transform writes, with the two fastest strides exchanged; with fewer
    than two such strides the exchange reads out of range. On Hermitian
    input, with the column kernel and the row transform as children: the
    column kernel is asked to work in place on the node's input layout
    with the two fastest strides exchanged, and the row transform is then
    asked to go from the node's input layout to its output layout, in
    one dimension. *)
Theorem Real2DEven_AssignParams_SBCC (api : NodeApi) (this : TreeNode)
    (err : list string) (first second : TreeNode) :
  solution this = INPLACE_SBCC ->
  childNodes this = [first; second] ->
  let through :=
    with_layout (inStride this) (iDist this) (outStride this) (oDist this) in
  (inArrayType this = rocfft_array_type_real ->
   after_call
     (AssignParams api (through first) err)
     (Real2DEvenNode.AssignParams_internal api this err)
     (fun r =>
        ((List.length (outStride r.1) < 2)%nat ->
         Real2DEvenNode.AssignParams_internal api this err = Undefined)
        /\ forall s0 s1 srest,
             outStride r.1 = s0 :: s1 :: srest ->
             exists sbccY,
               Real2DEvenNode.AssignParams_internal api this err
                 = Returns (with_childNodes [r.1; sbccY] this, r.2)
               /\ sbccY =
                    with_layout (s1 :: s0 :: srest) (oDist r.1)
                      (s1 :: s0 :: srest) (oDist r.1) second))
  /\ (inArrayType this <> rocfft_array_type_real ->
      forall i0 i1 irest,
        inStride this = i0 :: i1 :: irest ->
        after_call
          (AssignParams api
             (with_layout (i1 :: i0 :: irest) (iDist this)
                (i1 :: i0 :: irest) (iDist this) first) err)
          (Real2DEvenNode.AssignParams_internal api this err)
          (fun r1 =>
             after_call
               (AssignParams api (with_dimension 1 (through second)) r1.2)
               (Real2DEvenNode.AssignParams_internal api this err)
               (fun r2 =>
                  Real2DEvenNode.AssignParams_internal api this err
                    = Returns (with_childNodes [r1.1; r2.1] this, r2.2)))).
Proof.
  intros Hsol Hch through. unfold Real2DEvenNode.AssignParams_internal.
  rewrite Hsol. split.
  - intros Hin.
    rewrite (AssignParams_SBCC_forward_eq api this err first second [] Hin Hch).
    fold (through first).
    destruct (AssignParams api (through first) err) as [[row' err']| | |];
      cbn [after_call]; try reflexivity.
    cbn [fst snd]. split.
    + intros Hshort. destruct (outStride row') as [|s0 [|s1 srest]];
        cbn in Hshort; try reflexivity; lia.
    + intros s0 s1 srest ->. eexists. split; reflexivity.
  - intros Hin i0 i1 irest His.
    rewrite (AssignParams_SBCC_inverse_eq api this err first second i0 i1 irest
               Hin Hch His).
    fold (through second).
    destruct (AssignParams api _ err) as [[sbccY' err1]| | |];
      cbn [after_call]; try reflexivity.
    cbn [fst snd].
    destruct (AssignParams api _ err1) as [[crplan' err2]| | |];
      cbn [after_call]; reflexivity.
Qed.

Lemma Real2DEven_AssignParams_SBCC_witness :
  let api := single_kernel_api in
  let this := real_64x64_sbcc_children in
  let first := row_64x64 in
  let second := column_64x33 in
  let through :=
    with_layout (inStride this) (iDist this) (outStride this) (oDist this) in
  (inArrayType this = rocfft_array_type_real ->
   after_call
     (AssignParams api (through first) [])
     (Real2DEvenNode.AssignParams_internal api this [])
     (fun r =>
        ((List.length (outStride r.1) < 2)%nat ->
         Real2DEvenNode.AssignParams_internal api this [] = Undefined)
        /\ forall s0 s1 srest,
             outStride r.1 = s0 :: s1 :: srest ->
             exists sbccY,
               Real2DEvenNode.AssignParams_internal api this []
                 = Returns (with_childNodes [r.1; sbccY] this, r.2)
               /\ sbccY =
                    with_layout (s1 :: s0 :: srest) (oDist r.1)
                      (s1 :: s0 :: srest) (oDist r.1) second))
  /\ (inArrayType this <> rocfft_array_type_real ->
      forall i0 i1 irest,
        inStride this = i0 :: i1 :: irest ->
        after_call
          (AssignParams api
             (with_layout (i1 :: i0 :: irest) (iDist this)
                (i1 :: i0 :: irest) (iDist this) first) [])
          (Real2DEvenNode.AssignParams_internal api this [])
          (fun r1 =>
             after_call
               (AssignParams api (with_dimension 1 (through second)) r1.2)
               (Real2DEvenNode.AssignParams_internal api this [])
               (fun r2 =>
                  Real2DEvenNode.AssignParams_internal api this []
                    = Returns (with_childNodes [r1.1; r2.1] this, r2.2)))).
Proof.
  apply (Real2DEven_AssignParams_SBCC single_kernel_api real_64x64_sbcc_children []
           row_64x64 column_64x33); reflexivity.
Defined.

Lemma transpose_out_packed_fresh (trans : TreeNode) (a b : Z) (lrest : list Z) :
  outStride trans = [] ->
  length trans = a :: b :: lrest ->
  Real2DEvenNode.transpose_out_packed trans =
    Returns (with_oDist (size_t_wrap (a * b)) (with_outStride [b; 1] trans)).
Proof.
  intros Hos Hl. unfold Real2DEvenNode.transpose_out_packed, at_index.
  rewrite Hl. cbn [lookup list_lookup of_option obind outStride with_outStride length].
  rewrite Hos, Hl. reflexivity.
Qed.

Lemma packed_pair (a b : Z) :
  is_size_t b ->
  packed_strides [b; a] = [1; b] /\ packed_dist [b; a] = size_t_wrap (a * b).
Proof.
  intros Hb. unfold packed_strides, packed_dist, prod_list. cbn.
  rewrite Z.mul_1_r, (size_t_wrap_small b Hb). split; [reflexivity|].
  f_equal. ring.
Qed.

Lemma AssignParams_TR_pair_forward_eq api this err row1 trans1 row2 trans2
    a b o0 o1 lrest orest :
  inArrayType this = rocfft_array_type_real ->
  childNodes this = [row1; trans1; row2; trans2] ->
  outStride trans1 = [] ->
  length trans1 = a :: b :: lrest ->
  outStride this = o0 :: o1 :: orest ->
  let dist := size_t_wrap (a * b) in
  Real2DEvenNode.AssignParams_internal_TR_pair api this err =
    match AssignParams api
            (with_layout (inStride this) (iDist this) (outStride this) (oDist this)
               row1) err with
    | Returns (row1', err1) =>
        match AssignParams api (with_layout [1; b] dist [1; b] dist row2) err1 with
        | Returns (row2', err2) =>
            Returns
              (with_childNodes
                 [row1';
                  with_layout (outStride row1') (oDist row1') [b; 1] dist trans1;
                  row2';
                  with_layout (outStride row2') (oDist row2')
                    (o1 :: o0 :: orest) (oDist this) trans2] this,
               err2)
        | Throws w => Throws w
        | AssertFails => AssertFails
        | Undefined => Undefined
        end
    | Throws w => Throws w
    | AssertFails => AssertFails
    | Undefined => Undefined
    end.
Proof.
  intros Hin Hch Hfresh Hl Hos dist. subst dist.
  unfold Real2DEvenNode.AssignParams_internal_TR_pair.
  rewrite (bool_decide_eq_true_2 _ Hin), Hch.
  unfold at_index. cbn [lookup list_lookup of_option].
  rewrite (bind_returns _ _ _ _ _ (lift_returns _ _)).
  unfold bind at 1. unfold with_layout.
  destruct (AssignParams api _ err) as [[row1' err1]| | |]; try reflexivity.
  cbn [childNodes with_childNodes insert list_insert lookup list_lookup of_option].
  rewrite (bind_returns _ _ _ _ _ (lift_returns _ _)).
  rewrite (transpose_out_packed_fresh
             (with_iDist (oDist row1') (with_inStride (outStride row1') trans1)) a b lrest
             Hfresh Hl).
  rewrite (bind_returns _ _ _ _ _ (lift_returns _ _)).
  cbn [childNodes with_childNodes insert list_insert lookup list_lookup of_option
       outStride inStride oDist iDist with_oDist with_outStride with_inStride with_iDist].
  rewrite (bind_returns _ _ _ _ _ (lift_returns _ _)).
  cbn [inStride with_inStride]. rewrite swap_at_01.
  rewrite (bind_returns _ _ _ _ _ (lift_returns _ _)).
  cbn [inStride iDist with_inStride with_iDist with_outStride with_oDist].
  unfold bind at 1.
  destruct (AssignParams api _ err1) as [[row2' err2]| | |]; try reflexivity.
  cbn [childNodes with_childNodes insert list_insert lookup list_lookup of_option].
  rewrite (bind_returns _ _ _ _ _ (lift_returns _ _)).
  cbn [outStride with_outStride with_inStride with_iDist]. rewrite Hos, swap_at_01.
  rewrite (bind_returns _ _ _ _ _ (lift_returns _ _)).
  reflexivity.
Qed.

(** The layout pass of the transpose-pair strategy on real input, with
    its four children and a first transpose over lengths [a] and [b].
    The row transform is asked to go from the node's input layout to its
    output layout. The first transpose reads what the row transform
    writes and writes a packed [b] by [a] array; the complex sub-plan is
    asked to work in place on that packed array; the second transpose
    reads what the sub-plan writes and writes the node's output layout,
    its two fastest strides exchanged. *)
Theorem Real2DEven_AssignParams_TR_pair_forward (api : NodeApi) (this : TreeNode)
    (err : list string) (row1 trans1 row2 trans2 : TreeNode)
    (a b o0 o1 : Z) (lrest orest : list Z) :
  solution this = TR_PAIR ->
  inArrayType this = rocfft_array_type_real ->
  childNodes this = [row1; trans1; row2; trans2] ->
  outStride trans1 = [] ->
  length trans1 = a :: b :: lrest ->
  is_size_t b ->
  outStride this = o0 :: o1 :: orest ->
  let packed := packed_strides [b; a] in
  let dist := packed_dist [b; a] in
  after_call
    (AssignParams api
       (with_layout (inStride this) (iDist this) (outStride this) (oDist this) row1) err)
    (Real2DEvenNode.AssignParams_internal api this err)
    (fun r1 =>
       after_call
         (AssignParams api (with_layout packed dist packed dist row2) r1.2)
         (Real2DEvenNode.AssignParams_internal api this err)
         (fun r2 =>
            Real2DEvenNode.AssignParams_internal api this err =
              Returns
                (with_childNodes
                   [r1.1;
                    with_layout (outStride r1.1) (oDist r1.1) [b; 1] dist trans1;
                    r2.1;
                    with_layout (outStride r2.1) (oDist r2.1)
                      (o1 :: o0 :: orest) (oDist this) trans2] this,
                 r2.2))).
Proof.
  intros Hsol Hin Hch Hfresh Hl Hb Hos packed dist.
  destruct (packed_pair a b Hb) as [Hps Hpd].
  subst packed dist. rewrite Hps, Hpd.
  unfold Real2DEvenNode.AssignParams_internal. rewrite Hsol.
  rewrite (AssignParams_TR_pair_forward_eq api this err row1 trans1 row2 trans2
             a b o0 o1 lrest orest Hin Hch Hfresh Hl Hos). cbv zeta.
  destruct (AssignParams api _ err) as [[row1' err1]| | |]; cbn [after_call];
    try reflexivity.
  cbn [fst snd].
  destruct (AssignParams api _ err1) as [[row2' err2]| | |]; cbn [after_call];
    reflexivity.
Qed.

Lemma Real2DEven_AssignParams_TR_pair_forward_witness :
  let api := single_kernel_api in
  let this := real_64x64_tr_pair_children in
  let packed := packed_strides [64; 33] in
  let dist := packed_dist [64; 33] in
  after_call
    (AssignParams api
       (with_layout (inStride this) (iDist this) (outStride this) (oDist this)
          row_64x64) [])
    (Real2DEvenNode.AssignParams_internal api this [])
    (fun r1 =>
       after_call
         (AssignParams api (with_layout packed dist packed dist row_64x33) r1.2)
         (Real2DEvenNode.AssignParams_internal api this [])
         (fun r2 =>
            Real2DEvenNode.AssignParams_internal api this [] =
              Returns
                (with_childNodes
                   [r1.1;
                    with_layout (outStride r1.1) (oDist r1.1) [64; 1] dist
                      transpose_33x64;
                    r2.1;
                    with_layout (outStride r2.1) (oDist r2.1)
                      (33 :: 1 :: []) (oDist this) transpose_64x33] this,
                 r2.2))).
Proof.
  apply (Real2DEven_AssignParams_TR_pair_forward single_kernel_api
           real_64x64_tr_pair_children [] row_64x64 transpose_33x64 row_64x33
           transpose_64x33 33 64 1 33 [] []).
  - reflexivity.
  - reflexivity.
  - reflexivity.
  - reflexivity.
  - reflexivity.
  - unfold is_size_t, SIZE_T_MODULUS. lia.
  - reflexivity.
Defined.

Lemma AssignParams_TR_pair_inverse_eq api this err trans1 c2c trans2 c2r
    a b c i0 i1 lrest lrest2 irest :
  inArrayType this <> rocfft_array_type_real ->
  childNodes this = [trans1; c2c; trans2; c2r] ->
  outStride trans1 = [] ->
  length trans1 = a :: b :: lrest ->
  length trans2 = c :: lrest2 ->
  inStride this = i0 :: i1 :: irest ->
  let dist := size_t_wrap (a * b) in
  let back := size_t_wrap (c * i1) in
  Real2DEvenNode.AssignParams_internal_TR_pair api this err =
    match AssignParams api (with_layout [1; b] dist [1; b] dist c2c) err with
    | Returns (c2c', err1) =>
        match AssignParams api
                (with_layout (i0 :: i1 :: irest) back (outStride this) (oDist this) c2r)
                err1 with
        | Returns (c2r', err2) =>
            Returns
              (with_childNodes
                 [with_layout (inStride this) (iDist this) [b; 1] dist trans1;
                  c2c';
                  with_layout [1; b] dist (i1 :: i0 :: irest) back trans2;
                  c2r'] this,
               err2)
        | Throws w => Throws w
        | AssertFails => AssertFails
        | Undefined => Undefined
        end
    | Throws w => Throws w
    | AssertFails => AssertFails
    | Undefined => Undefined
    end.
Proof.
  intros Hin Hch Hfresh Hl Hl2 His dist back. subst dist back.
  unfold Real2DEvenNode.AssignParams_internal_TR_pair.
  rewrite (bool_decide_eq_false_2 _ Hin), Hch.
  unfold at_index. cbn [lookup list_lookup of_option].
  rewrite (bind_returns _ _ _ _ _ (lift_returns _ _)).
  rewrite (transpose_out_packed_fresh
             (with_iDist (iDist this) (with_inStride (inStride this) trans1)) a b lrest
             Hfresh Hl).
  rewrite (bind_returns _ _ _ _ _ (lift_returns _ _)).
  cbn [childNodes with_childNodes insert list_insert lookup list_lookup of_option
       outStride inStride oDist iDist with_oDist with_outStride with_inStride with_iDist].
  rewrite (bind_returns _ _ _ _ _ (lift_returns _ _)).
  cbn [inStride with_inStride]. rewrite swap_at_01.
  rewrite (bind_returns _ _ _ _ _ (lift_returns _ _)).
  cbn [inStride iDist with_inStride with_iDist with_outStride with_oDist].
  unfold bind at 1. unfold with_layout.
  destruct (AssignParams api _ err) as [[c2c' err1]| | |]; try reflexivity.
  cbn [childNodes with_childNodes insert list_insert lookup list_lookup of_option].
  rewrite (bind_returns _ _ _ _ _ (lift_returns _ _)).
  cbn [outStride inStride with_oDist with_outStride with_inStride with_iDist].
  rewrite (bind_returns _ _ _ _ _ (lift_returns _ _)).
  rewrite His, swap_at_01.
  rewrite (bind_returns _ _ _ _ _ (lift_returns _ _)).
  cbn [length outStride with_oDist with_outStride with_inStride with_iDist].
  rewrite Hl2. cbn [lookup list_lookup of_option].
  rewrite !(bind_returns _ _ _ _ _ (lift_returns _ _)).
  rewrite swap_at_01.
  rewrite (bind_returns _ _ _ _ _ (lift_returns _ _)).
  unfold bind at 1.
  destruct (AssignParams api _ err1) as [[c2r' err2]| | |]; reflexivity.
Qed.

(** The layout pass of the transpose-pair strategy on Hermitian input,
    with its four children, a first transpose over lengths [a] and [b]
    and a second one whose first length is [c]. The first transpose
    reads the node's input layout and writes a packed [b] by [a] array;
    the complex sub-plan is asked to work in place on that packed array;
    the second transpose reads it and writes back in the node's input
    strides, [c] rows apart; the row transform is asked to read exactly
    that and to write the node's output layout. *)
Theorem Real2DEven_AssignParams_TR_pair_inverse (api : NodeApi) (this : TreeNode)
    (err : list string) (trans1 c2c trans2 c2r : TreeNode)
    (a b c i0 i1 : Z) (lrest lrest2 irest : list Z) :
  solution this = TR_PAIR ->
  inArrayType this <> rocfft_array_type_real ->
  childNodes this = [trans1; c2c; trans2; c2r] ->
  outStride trans1 = [] ->
  length trans1 = a :: b :: lrest ->
  length trans2 = c :: lrest2 ->
  is_size_t b ->
  inStride this = i0 :: i1 :: irest ->
  let packed := packed_strides [b; a] in
  let dist := packed_dist [b; a] in
  let back := size_t_wrap (c * i1) in
  after_call
    (AssignParams api (with_layout packed dist packed dist c2c) err)
    (Real2DEvenNode.AssignParams_internal api this err)
    (fun r1 =>
       after_call
         (AssignParams api
            (with_layout (inStride this) back (outStride this) (oDist this) c2r) r1.2)
         (Real2DEvenNode.AssignParams_internal api this err)
         (fun r2 =>
            Real2DEvenNode.AssignParams_internal api this err =
              Returns
                (with_childNodes
                   [with_layout (inStride this) (iDist this) [b; 1] dist trans1;
                    r1.1;
                    with_layout packed dist (i1 :: i0 :: irest) back trans2;
                    r2.1] this,
                 r2.2))).
Proof.
  intros Hsol Hin Hch Hfresh Hl Hl2 Hb His packed dist back.
  destruct (packed_pair a b Hb) as [Hps Hpd].
  subst packed dist back. rewrite Hps, Hpd.
  unfold Real2DEvenNode.AssignParams_internal. rewrite Hsol.
  rewrite (AssignParams_TR_pair_inverse_eq api this err trans1 c2c trans2 c2r
             a b c i0 i1 lrest lrest2 irest Hin Hch Hfresh Hl Hl2 His). cbv zeta.
  rewrite His.
  destruct (AssignParams api _ err) as [[c2c' err1]| | |]; cbn [after_call];
    try reflexivity.
  cbn [fst snd].
  destruct (AssignParams api _ err1) as [[c2r' err2]| | |]; cbn [after_call];
    reflexivity.
Qed.

Lemma Real2DEven_AssignParams_TR_pair_inverse_witness :
  let api := single_kernel_api in
  let this := real_64x64_tr_pair_backward in
  let c2r := with_length [64; 64] (blank_node CS_REAL_TRANSFORM_EVEN real_64x64_forward) in
  let packed := packed_strides [64; 33] in
  let dist := packed_dist [64; 33] in
  let back := size_t_wrap (64 * 33) in
  after_call
    (AssignParams api (with_layout packed dist packed dist row_64x33) [])
    (Real2DEvenNode.AssignParams_internal api this [])
    (fun r1 =>
       after_call
         (AssignParams api
            (with_layout (inStride this) back (outStride this) (oDist this) c2r) r1.2)
         (Real2DEvenNode.AssignParams_internal api this [])
         (fun r2 =>
            Real2DEvenNode.AssignParams_internal api this [] =
              Returns
                (with_childNodes
                   [with_layout (inStride this) (iDist this) [64; 1] dist transpose_33x64;
                    r1.1;
                    with_layout packed dist (33 :: 1 :: []) back transpose_64x33;
                    r2.1] this,
                 r2.2))).
Proof.
  apply (Real2DEven_AssignParams_TR_pair_inverse single_kernel_api
           real_64x64_tr_pair_backward [] transpose_33x64 row_64x33 transpose_64x33
           (with_length [64; 64] (blank_node CS_REAL_TRANSFORM_EVEN real_64x64_forward))
           33 64 64 1 33 [] [33] []).
  - reflexivity.
  - discriminate.
  - reflexivity.
  - reflexivity.
  - reflexivity.
  - reflexivity.
  - unfold is_size_t, SIZE_T_MODULUS. lia.
  - reflexivity.
Defined.

(* ------------------------------------------------------------------ *)
(** ** The rider client *)

Lemma size_t_wrap_mul_r (a b : Z) :
  size_t_wrap (a * size_t_wrap b) = size_t_wrap (a * b).
Proof.
  unfold size_t_wrap, SIZE_T_MODULUS. rewrite Z.mul_mod_idemp_r by lia. reflexivity.
Qed.

(** The rider accepts a pair of array types exactly when both codes are
    complex ones (0 or 1), or exactly one of the two is code 4; an input
    code above 4 is reported first, then an output code above 4, then a
    pair that the table excludes. *)
Theorem rider_array_types_accepted (inL otL : Z) :
  0 <= inL -> 0 <= otL ->
  rider.check_array_types inL otL =
    if bool_decide ((inL <= 1 /\ otL <= 1) \/ (inL = 4 /\ otL < 4) \/ (inL < 4 /\ otL = 4))
    then Returns tt
    else Throws (if 4 <? inL then "Invalid Input array type format"
                 else if 4 <? otL then "Invalid Output array type format"
                 else "Invalid combination of Input/Output array type formats").
Proof.
  intros Hin Hot. unfold rider.check_array_types.
  destruct (4 <? inL) eqn:Ei.
  - apply Z.ltb_lt in Ei. rewrite bool_decide_eq_false_2 by lia. reflexivity.
  - apply Z.ltb_ge in Ei. destruct (4 <? otL) eqn:Eo.
    + apply Z.ltb_lt in Eo. rewrite bool_decide_eq_false_2 by lia. reflexivity.
    + apply Z.ltb_ge in Eo.
      assert (Hi : inL = 0 \/ inL = 1 \/ inL = 2 \/ inL = 3 \/ inL = 4) by lia.
      assert (Ho : otL = 0 \/ otL = 1 \/ otL = 2 \/ otL = 3 \/ otL = 4) by lia.
      destruct Hi as [->|[->|[->|[->| ->]]]];
        destruct Ho as [->|[->|[->|[->| ->]]]];
        (rewrite bool_decide_eq_true_2 by lia; reflexivity)
        || (rewrite bool_decide_eq_false_2 by lia; reflexivity).
Qed.

Lemma rider_array_types_accepted_witness :
  rider.check_array_types 2 4 = Returns tt
  /\ rider.check_array_types 2 0
     = Throws "Invalid combination of Input/Output array type formats".
Proof.
  split.
  - rewrite (rider_array_types_accepted 2 4); [reflexivity | lia | lia].
  - rewrite (rider_array_types_accepted 2 0); [reflexivity | lia | lia].
Defined.

(** A complex transform started without strides is laid out packed: with
    unit stride and the other strides left at zero, each stride is the
    product of the lengths below it and the batch distance is the number
    of elements. The output side gets the same layout, in place whatever
    output strides were given, and out of place when they were left at
    zero too. *)
Theorem rider_complex_packed (real_code : Z) (place : rider.rocfft_result_placement)
    (transformType : rider.rocfft_transform_type) (inL otL l0 l1 l2 : Z)
    (oStrides : rider.size_t4) :
  rider.check_array_types inL otL = Returns tt ->
  transformType = rider.rocfft_transform_type_complex_forward
  \/ transformType = rider.rocfft_transform_type_complex_inverse ->
  0 < l0 -> 0 < l1 -> 0 < l2 -> l0 * l1 * l2 < SIZE_T_MODULUS ->
  place = rider.rocfft_placement_inplace \/ oStrides = (1, 0, 0, 0) ->
  rider.default_layout real_code place transformType inL otL (l0, l1, l2)
    (1, 0, 0, 0) oStrides
  = Returns ((1, l0, l0 * l1, l0 * l1 * l2), (1, l0, l0 * l1, l0 * l1 * l2)).
Proof.
  intros Hok Htt H0 H1 H2 Hfit Hout.
  assert (Hs : rider.default_strides l0 (l0, l1, l2) (1, 0, 0, 0)
               = (1, l0, l0 * l1, l0 * l1 * l2)).
  { unfold rider.default_strides, SIZE_T_MODULUS in *. cbn [Z.eqb].
    assert (l0 * l1 < 2 ^ 64) by nia.
    assert (l0 < 2 ^ 64) by nia.
    rewrite (size_t_wrap_small (l0 * 1)) by (unfold is_size_t, SIZE_T_MODULUS; lia).
    rewrite Z.mul_1_r.
    rewrite (size_t_wrap_small (l1 * l0)) by (unfold is_size_t, SIZE_T_MODULUS; nia).
    rewrite (size_t_wrap_small (l2 * (l1 * l0)))
      by (unfold is_size_t, SIZE_T_MODULUS; nia).
    replace (l0 =? 0) with false by (symmetry; apply Z.eqb_neq; lia).
    replace (l1 * l0 =? 0) with false by (symmetry; apply Z.eqb_neq; nia).
    f_equal; [f_equal|]; ring. }
  unfold rider.default_layout. rewrite Hok. cbn [obind].
  destruct Htt as [-> | ->]; destruct Hout as [-> | ->];
    try destruct place; rewrite ?Hs; reflexivity.
Qed.

Lemma rider_complex_packed_witness :
  rider.default_layout 4 rider.rocfft_placement_notinplace
    rider.rocfft_transform_type_complex_forward 0 0 (64, 8, 2) (1, 0, 0, 0) (1, 0, 0, 0)
  = Returns ((1, 64, 64 * 8, 64 * 8 * 2), (1, 64, 64 * 8, 64 * 8 * 2)).
Proof.
  apply (rider_complex_packed 4 rider.rocfft_placement_notinplace
           rider.rocfft_transform_type_complex_forward 0 0 64 8 2 (1, 0, 0, 0)).
  - reflexivity.
  - left. reflexivity.
  - lia.
  - lia.
  - lia.
  - unfold SIZE_T_MODULUS. lia.
  - right. reflexivity.
Defined.

(** A real transform in place, started with the same first stride on
    both sides and the other strides left at zero: on the real side
    every stride above the first, and the batch distance, is twice the
    one of the other side, so that a row of reals takes the room of the
    row of complex numbers it shares its memory with. The complex row
    has [lengths[0]] entries when either side is a full complex type and
    [1 + lengths[0] / 2] entries otherwise. *)
Theorem rider_real_inplace_strides (real_code : Z)
    (transformType : rider.rocfft_transform_type) (inL otL N l1 l2 s0 : Z) :
  rider.check_array_types inL otL = Returns tt ->
  transformType = rider.rocfft_transform_type_real_forward
  \/ transformType = rider.rocfft_transform_type_real_inverse ->
  let rcFull := (inL =? 0) || (inL =? 1) || (otL =? 0) || (otL =? 1) in
  let row := if rcFull then N else size_t_wrap (1 + N / 2) in
  let c1 := size_t_wrap (row * s0) in
  let c2 := size_t_wrap (l1 * c1) in
  let c3 := size_t_wrap (l2 * c2) in
  let cst := (s0, c1, c2, c3) in
  let rst := (s0, size_t_wrap (2 * c1), size_t_wrap (2 * c2), size_t_wrap (2 * c3)) in
  rider.default_layout real_code rider.rocfft_placement_inplace transformType inL otL
    (N, l1, l2) (s0, 0, 0, 0) (s0, 0, 0, 0)
  = Returns (if inL =? real_code then (rst, cst) else (cst, rst)).
Proof.
  intros Hok Htt rcFull row c1 c2 c3 cst rst.
  assert (Hc : rider.default_strides row (N, l1, l2) (s0, 0, 0, 0) = cst).
  { reflexivity. }
  assert (Hr : rider.default_strides (size_t_wrap (row * 2)) (N, l1, l2) (s0, 0, 0, 0)
               = rst).
  { subst rst c3 c2 c1. unfold rider.default_strides. cbn [Z.eqb].
    assert (E1 : size_t_wrap (size_t_wrap (row * 2) * s0)
                 = size_t_wrap (2 * size_t_wrap (row * s0))).
    { rewrite size_t_wrap_mul_l, size_t_wrap_mul_r. f_equal. ring. }
    assert (E2 : size_t_wrap (l1 * size_t_wrap (2 * size_t_wrap (row * s0)))
                 = size_t_wrap (2 * size_t_wrap (l1 * size_t_wrap (row * s0)))).
    { rewrite (size_t_wrap_mul_r l1 (2 * _)), (size_t_wrap_mul_r 2 (l1 * _)).
      f_equal. ring. }
    assert (E3 : size_t_wrap
                   (l2 * size_t_wrap (2 * size_t_wrap (l1 * size_t_wrap (row * s0))))
                 = size_t_wrap
                     (2 * size_t_wrap (l2 * size_t_wrap (l1 * size_t_wrap (row * s0))))).
    { rewrite (size_t_wrap_mul_r l2 (2 * _)), (size_t_wrap_mul_r 2 (l2 * _)).
      f_equal. ring. }
    rewrite E1, E2, E3. reflexivity. }
  unfold rider.default_layout. rewrite Hok. cbn [obind]. fold rcFull.
  assert (Hrow : (if rcFull then rider.default_strides N (N, l1, l2) (s0, 0, 0, 0)
                  else rider.default_strides (size_t_wrap (1 + N / 2)) (N, l1, l2)
                         (s0, 0, 0, 0)) = cst).
  { rewrite <- Hc. subst row. destruct rcFull; reflexivity. }
  assert (Hrow2 : (if rcFull
                   then rider.default_strides (size_t_wrap (N * 2)) (N, l1, l2)
                          (s0, 0, 0, 0)
                   else rider.default_strides
                          (size_t_wrap (size_t_wrap (1 + N / 2) * 2)) (N, l1, l2)
                          (s0, 0, 0, 0)) = rst).
  { rewrite <- Hr. subst row. destruct rcFull; reflexivity. }
  destruct Htt as [-> | ->]; destruct (inL =? real_code);
    rewrite Hrow, Hrow2; reflexivity.
Qed.

Lemma rider_real_inplace_strides_witness :
  rider.default_layout 4 rider.rocfft_placement_inplace
    rider.rocfft_transform_type_real_forward 4 2 (1024, 4, 1) (1, 0, 0, 0) (1, 0, 0, 0)
  = Returns ((1, 1026, 4104, 4104), (1, 513, 2052, 2052)).
Proof.
  apply (rider_real_inplace_strides 4 rider.rocfft_transform_type_real_forward
           4 2 1024 4 1 1).
  - reflexivity.
  - left. reflexivity.
Defined.

(* ------------------------------------------------------------------ *)
(** ** CS_REAL_3D_EVEN: the layout pass of the transpose strategy *)

Lemma packed_triple (a b c : Z) :
  is_size_t b ->
  packed_strides [b; c; a] = [1; b; size_t_wrap (c * b)].
Proof.
  intros Hb. unfold packed_strides. cbn [List.length seq map take prod_list foldr].
  rewrite !Z.mul_1_r. rewrite (size_t_wrap_small b Hb).
  rewrite (Z.mul_comm b c). reflexivity.
Qed.

Lemma transpose_out_forward_fresh (trans : TreeNode) (a b c : Z) (rest : list Z) :
  outStride trans = [] ->
  length trans = a :: b :: c :: rest ->
  Real3DEvenNode.transpose_out_forward trans =
    Returns (with_oDist (iDist trans)
               (with_outStride [size_t_wrap (c * b); 1; b] trans)).
Proof.
  intros Hfresh Hl. unfold Real3DEvenNode.transpose_out_forward, at_index.
  rewrite Hl, Hfresh. cbn [lookup list_lookup of_option obind].
  cbn [length outStride with_outStride]. rewrite Hl.
  cbn [lookup list_lookup of_option obind app]. reflexivity.
Qed.

Lemma swap_at_12 {A : Type} (a b c : A) (rest : list A) :
  swap_at (a :: b :: c :: rest) 1 2 = Returns (a :: c :: b :: rest).
Proof. reflexivity. Qed.

Lemma AssignParams_TR_pairs_forward_eq api this err rc t1 c1p t2 c2p t3
    a1 b1 c1 a2 b2 c2 o0 o1 o2 l1 l2 orest :
  inArrayType this = rocfft_array_type_real ->
  childNodes this = [rc; t1; c1p; t2; c2p; t3] ->
  outStride t1 = [] ->
  outStride t2 = [] ->
  length t1 = a1 :: b1 :: c1 :: l1 ->
  length t2 = a2 :: b2 :: c2 :: l2 ->
  outStride this = o0 :: o1 :: o2 :: orest ->
  let s1 := [1; b1; size_t_wrap (c1 * b1)] in
  let s2 := [1; b2; size_t_wrap (c2 * b2)] in
  Real3DEvenNode.AssignParams_internal_TR_pairs api this err =
    match AssignParams api
            (with_dimension 1
               (with_layout (inStride this) (iDist this) (outStride this) (oDist this)
                  rc)) err with
    | Returns (rc', err0) =>
        match AssignParams api
                (with_dimension 1 (with_layout s1 (oDist rc') s1 (oDist rc') c1p))
                err0 with
        | Returns (c1p', err1) =>
            match AssignParams api
                    (with_dimension 1 (with_layout s2 (oDist c1p') s2 (oDist c1p') c2p))
                    err1 with
            | Returns (c2p', err2) =>
                Returns
                  (with_childNodes
                     [rc';
                      with_layout (outStride rc') (oDist rc')
                        [size_t_wrap (c1 * b1); 1; b1] (oDist rc') t1;
                      c1p';
                      with_layout (outStride c1p') (oDist c1p')
                        [size_t_wrap (c2 * b2); 1; b2] (oDist c1p') t2;
                      c2p';
                      with_layout (outStride c2p') (oDist c2p')
                        (o2 :: o0 :: o1 :: orest) (oDist this) t3] this,
                   err2)
            | Throws w => Throws w
            | AssertFails => AssertFails
            | Undefined => Undefined
            end
        | Throws w => Throws w
        | AssertFails => AssertFails
        | Undefined => Undefined
        end
    | Throws w => Throws w
    | AssertFails => AssertFails
    | Undefined => Undefined
    end.
Proof.
  intros Hin Hch Hf1 Hf2 Hl1 Hl2 Hos s1 s2. subst s1 s2.
  unfold Real3DEvenNode.AssignParams_internal_TR_pairs.
  rewrite (bool_decide_eq_true_2 _ Hin), Hch.
  unfold at_index. cbn [lookup list_lookup of_option].
  rewrite (bind_returns _ _ _ _ _ (lift_returns _ _)).
  unfold bind at 1. unfold with_layout.
  destruct (AssignParams api _ err) as [[rc' err0]| | |]; try reflexivity.
  cbn [childNodes with_childNodes insert list_insert lookup list_lookup of_option].
  rewrite (bind_returns _ _ _ _ _ (lift_returns _ _)).
  rewrite (transpose_out_forward_fresh
             (with_iDist (oDist rc') (with_inStride (outStride rc') t1)) a1 b1 c1 l1
             Hf1 Hl1).
  rewrite (bind_returns _ _ _ _ _ (lift_returns _ _)).
  cbn [childNodes with_childNodes insert list_insert lookup list_lookup of_option
       outStride inStride oDist iDist with_oDist with_outStride with_inStride with_iDist].
  rewrite (bind_returns _ _ _ _ _ (lift_returns _ _)).
  rewrite swap_at_01.
  rewrite (bind_returns _ _ _ _ _ (lift_returns _ _)).
  rewrite swap_at_12.
  rewrite (bind_returns _ _ _ _ _ (lift_returns _ _)).
  unfold bind at 1.
  destruct (AssignParams api _ err0) as [[c1p' err1]| | |]; try reflexivity.
  rewrite (bind_returns _ _ _ _ _ (lift_returns _ _)).
  rewrite (transpose_out_forward_fresh
             (with_iDist (oDist c1p') (with_inStride (outStride c1p') t2)) a2 b2 c2 l2
             Hf2 Hl2).
  rewrite (bind_returns _ _ _ _ _ (lift_returns _ _)).
  rewrite (bind_returns _ _ _ _ _ (lift_returns _ _)).
  cbn [outStride inStride oDist iDist with_oDist with_outStride with_inStride with_iDist].
  rewrite swap_at_01.
  rewrite (bind_returns _ _ _ _ _ (lift_returns _ _)).
  rewrite swap_at_12.
  rewrite (bind_returns _ _ _ _ _ (lift_returns _ _)).
  unfold bind at 1.
  destruct (AssignParams api _ err1) as [[c2p' err2]| | |]; try reflexivity.
  rewrite (bind_returns _ _ _ _ _ (lift_returns _ _)).
  rewrite Hos, swap_at_12.
  rewrite (bind_returns _ _ _ _ _ (lift_returns _ _)).
  rewrite swap_at_01.
  rewrite (bind_returns _ _ _ _ _ (lift_returns _ _)).
  reflexivity.
Qed.

(** The layout pass of the three-dimensional transpose strategy on real
    input, with its six children; the first transpose has lengths
    [a1], [b1], [c1] and the second one [a2], [b2], [c2]. The row
    transform is asked to go from the node's input layout to its output
    layout. Each of the first two transposes reads what the sub-plan
    before it writes and writes a packed array in the rotated order of
    its lengths; each column sub-plan is asked to work in place on that
    packed array; the batch distance is handed down the chain unchanged
    by the transposes. The third transpose reads what the second column
    sub-plan writes and writes the node's output layout, its strides
    rotated. *)
Theorem Real3DEven_AssignParams_TR_pairs_forward (api : NodeApi) (this : TreeNode)
    (err : list string) (rc t1 c1p t2 c2p t3 : TreeNode)
    (a1 b1 c1 a2 b2 c2 o0 o1 o2 : Z) (l1 l2 orest : list Z) :
  inArrayType this = rocfft_array_type_real ->
  childNodes this = [rc; t1; c1p; t2; c2p; t3] ->
  outStride t1 = [] ->
  outStride t2 = [] ->
  length t1 = a1 :: b1 :: c1 :: l1 ->
  length t2 = a2 :: b2 :: c2 :: l2 ->
  is_size_t b1 -> is_size_t b2 ->
  outStride this = o0 :: o1 :: o2 :: orest ->
  let s1 := packed_strides [b1; c1; a1] in
  let s2 := packed_strides [b2; c2; a2] in
  let run := Real3DEvenNode.AssignParams_internal_TR_pairs api this err in
  after_call
    (AssignParams api
       (with_dimension 1
          (with_layout (inStride this) (iDist this) (outStride this) (oDist this) rc))
       err)
    run
    (fun r0 =>
       after_call
         (AssignParams api
            (with_dimension 1 (with_layout s1 (oDist r0.1) s1 (oDist r0.1) c1p)) r0.2)
         run
         (fun r1 =>
            after_call
              (AssignParams api
                 (with_dimension 1 (with_layout s2 (oDist r1.1) s2 (oDist r1.1) c2p))
                 r1.2)
              run
              (fun r2 =>
                 run =
                   Returns
                     (with_childNodes
                        [r0.1;
                         with_layout (outStride r0.1) (oDist r0.1)
                           [size_t_wrap (c1 * b1); 1; b1] (oDist r0.1) t1;
                         r1.1;
                         with_layout (outStride r1.1) (oDist r1.1)
                           [size_t_wrap (c2 * b2); 1; b2] (oDist r1.1) t2;
                         r2.1;
                         with_layout (outStride r2.1) (oDist r2.1)
                           (o2 :: o0 :: o1 :: orest) (oDist this) t3] this,
                      r2.2)))).
Proof.
  intros Hin Hch Hf1 Hf2 Hl1 Hl2 Hb1 Hb2 Hos s1 s2 run. subst s1 s2 run.
  rewrite (packed_triple a1 b1 c1 Hb1), (packed_triple a2 b2 c2 Hb2).
  rewrite (AssignParams_TR_pairs_forward_eq api this err rc t1 c1p t2 c2p t3
             a1 b1 c1 a2 b2 c2 o0 o1 o2 l1 l2 orest Hin Hch Hf1 Hf2 Hl1 Hl2 Hos).
  cbv zeta.
  destruct (AssignParams api _ err) as [[rc' err0]| | |]; cbn [after_call];
    try reflexivity.
  cbn [fst snd].
  destruct (AssignParams api _ err0) as [[c1p' err1]| | |]; cbn [after_call];
    try reflexivity.
  cbn [fst snd].
  destruct (AssignParams api _ err1) as [[c2p' err2]| | |]; cbn [after_call];
    reflexivity.
Qed.

Lemma Real3DEven_AssignParams_TR_pairs_forward_witness :
  let api := single_kernel_api in
  let this := real_16x4x2_tr_pairs_children in
  let t1 := transposed CS_KERNEL_TRANSPOSE_Z_XY [9; 4; 2] [4; 2; 9] in
  let t2 := transposed CS_KERNEL_TRANSPOSE_Z_XY [4; 2; 9] [2; 9; 4] in
  let t3 := transposed CS_KERNEL_TRANSPOSE_Z_XY [2; 9; 4] [9; 4; 2] in
  let s1 := packed_strides [4; 2; 9] in
  let s2 := packed_strides [2; 9; 4] in
  let run := Real3DEvenNode.AssignParams_internal_TR_pairs api this [] in
  after_call
    (AssignParams api
       (with_dimension 1
          (with_layout (inStride this) (iDist this) (outStride this) (oDist this)
             row_16x4x2))
       [])
    run
    (fun r0 =>
       after_call
         (AssignParams api
            (with_dimension 1
               (with_layout s1 (oDist r0.1) s1 (oDist r0.1) (column_of [4; 2; 9])))
            r0.2)
         run
         (fun r1 =>
            after_call
              (AssignParams api
                 (with_dimension 1
                    (with_layout s2 (oDist r1.1) s2 (oDist r1.1) (column_of [2; 9; 4])))
                 r1.2)
              run
              (fun r2 =>
                 run =
                   Returns
                     (with_childNodes
                        [r0.1;
                         with_layout (outStride r0.1) (oDist r0.1)
                           [size_t_wrap (2 * 4); 1; 4] (oDist r0.1) t1;
                         r1.1;
                         with_layout (outStride r1.1) (oDist r1.1)
                           [size_t_wrap (9 * 2); 1; 2] (oDist r1.1) t2;
                         r2.1;
                         with_layout (outStride r2.1) (oDist r2.1)
                           (36 :: 1 :: 9 :: []) (oDist this) t3] this,
                      r2.2)))).
Proof.
  apply (Real3DEven_AssignParams_TR_pairs_forward single_kernel_api
           real_16x4x2_tr_pairs_children [] row_16x4x2
           (transposed CS_KERNEL_TRANSPOSE_Z_XY [9; 4; 2] [4; 2; 9])
           (column_of [4; 2; 9])
           (transposed CS_KERNEL_TRANSPOSE_Z_XY [4; 2; 9] [2; 9; 4])
           (column_of [2; 9; 4])
           (transposed CS_KERNEL_TRANSPOSE_Z_XY [2; 9; 4] [9; 4; 2])
           9 4 2 4 2 9 1 9 36 [] [] []).
  - reflexivity.
  - reflexivity.
  - reflexivity.
  - reflexivity.
  - reflexivity.
  - reflexivity.
  - unfold is_size_t, SIZE_T_MODULUS. lia.
  - unfold is_size_t, SIZE_T_MODULUS. lia.
  - reflexivity.
Defined.

Lemma transpose_out_inverse_fresh (trans : TreeNode) (a b : Z) (rest : list Z) :
  outStride trans = [] ->
  length trans = a :: b :: rest ->
  Real3DEvenNode.transpose_out_inverse trans =
    Returns (with_oDist (iDist trans)
               (with_outStride [b; 1; size_t_wrap (b * a)] trans)).
Proof.
  intros Hfresh Hl. unfold Real3DEvenNode.transpose_out_inverse, at_index.
  rewrite Hl, Hfresh. cbn [lookup list_lookup of_option obind].
  cbn [length outStride with_outStride app]. rewrite Hl.
  cbn [lookup list_lookup of_option obind app]. reflexivity.
Qed.

Lemma bind_lift_fails {A B : Type} (c : outcome A) (k : A -> M B) (err : list string) :
  (forall a, c <> Returns a) ->
  bind (lift c) k err =
    match c with
    | Returns _ => Undefined
    | Throws w => Throws w
    | AssertFails => AssertFails
    | Undefined => Undefined
    end.
Proof.
  intros Hc. unfold bind, lift. destruct c as [a| | |]; try reflexivity.
  exfalso. exact (Hc a eq_refl).
Qed.

Lemma AssignParams_TR_pairs_inverse_eq api this err t3 cc2 t2 cc1 t1 cr
    a3 b3 a2 b2 a1 b1 i0 i1 i2 l3 l2 l1 irest :
  inArrayType this <> rocfft_array_type_real ->
  childNodes this = [t3; cc2; t2; cc1; t1; cr] ->
  outStride t3 = [] -> outStride t2 = [] -> outStride t1 = [] ->
  length t3 = a3 :: b3 :: l3 ->
  length t2 = a2 :: b2 :: l2 ->
  length t1 = a1 :: b1 :: l1 ->
  inStride this = i0 :: i1 :: i2 :: irest ->
  let s3 := [1; b3; size_t_wrap (b3 * a3)] in
  let s2 := [1; b2; size_t_wrap (b2 * a2)] in
  let s1 := [1; b1; size_t_wrap (b1 * a1)] in
  Real3DEvenNode.AssignParams_internal_TR_pairs api this err =
    match AssignParams api
            (with_dimension 1 (with_layout s3 (iDist this) s3 (iDist this) cc2)) err with
    | Returns (cc2', err0) =>
        match swap_at (outStride cc2') 1 2 with
        | Returns in2 =>
            match AssignParams api
                    (with_dimension 1
                       (with_layout s2 (oDist cc2') s2 (oDist cc2') cc1)) err0 with
            | Returns (cc1', err1) =>
                match swap_at (outStride cc1') 1 2 with
                | Returns in1 =>
                    match AssignParams api
                            (with_dimension 1
                               (with_layout s1 (oDist cc1') (outStride this) (oDist this)
                                  cr)) err1 with
                    | Returns (cr', err2) =>
                        Returns
                          (with_childNodes
                             [with_layout (i0 :: i2 :: i1 :: irest) (iDist this)
                                [b3; 1; size_t_wrap (b3 * a3)] (iDist this) t3;
                              cc2';
                              with_layout in2 (oDist cc2')
                                [b2; 1; size_t_wrap (b2 * a2)] (oDist cc2') t2;
                              cc1';
                              with_layout in1 (oDist cc1')
                                [b1; 1; size_t_wrap (b1 * a1)] (oDist cc1') t1;
                              cr'] this,
                           err2)
                    | Throws w => Throws w
                    | AssertFails => AssertFails
                    | Undefined => Undefined
                    end
                | Throws w => Throws w
                | AssertFails => AssertFails
                | Undefined => Undefined
                end
            | Throws w => Throws w
            | AssertFails => AssertFails
            | Undefined => Undefined
            end
        | Throws w => Throws w
        | AssertFails => AssertFails
        | Undefined => Undefined
        end
    | Throws w => Throws w
    | AssertFails => AssertFails
    | Undefined => Undefined
    end.
Proof.
  intros Hin Hch Hf3 Hf2 Hf1 Hl3 Hl2 Hl1 His s3 s2 s1. subst s3 s2 s1.
  unfold Real3DEvenNode.AssignParams_internal_TR_pairs.
  rewrite (bool_decide_eq_false_2 _ Hin), Hch.
  unfold at_index. cbn [lookup list_lookup of_option].
  rewrite (bind_returns _ _ _ _ _ (lift_returns _ _)).
  cbn [inStride with_inStride]. rewrite His, swap_at_12.
  rewrite (bind_returns _ _ _ _ _ (lift_returns _ _)).
  rewrite (transpose_out_inverse_fresh
             (with_iDist (iDist this)
                (with_inStride (i0 :: i2 :: i1 :: irest)
                   (with_inStride (i0 :: i1 :: i2 :: irest) t3))) a3 b3 l3 Hf3 Hl3).
  rewrite (bind_returns _ _ _ _ _ (lift_returns _ _)).
  cbn [childNodes with_childNodes insert list_insert lookup list_lookup of_option
       outStride inStride oDist iDist with_oDist with_outStride with_inStride with_iDist].
  rewrite (bind_returns _ _ _ _ _ (lift_returns _ _)).
  unfold Real3DEvenNode.pick_102 at 1, at_index.
  cbn [lookup list_lookup of_option obind].
  rewrite (bind_returns _ _ _ _ _ (lift_returns _ _)).
  unfold bind at 1. unfold with_layout.
  destruct (AssignParams api _ err) as [[cc2' err0]| | |]; try reflexivity.
  rewrite (bind_returns _ _ _ _ _ (lift_returns _ _)).
  cbn [inStride with_inStride].
  destruct (swap_at (outStride cc2') 1 2) as [in2| | |] eqn:E2;
    [ | rewrite bind_lift_fails by discriminate; reflexivity ..].
  rewrite (bind_returns _ _ _ _ _ (lift_returns _ _)).
  rewrite (transpose_out_inverse_fresh
             (with_iDist (oDist cc2')
                (with_inStride in2 (with_inStride (outStride cc2') t2))) a2 b2 l2 Hf2 Hl2).
  rewrite (bind_returns _ _ _ _ _ (lift_returns _ _)).
  rewrite (bind_returns _ _ _ _ _ (lift_returns _ _)).
  cbn [outStride inStride oDist iDist with_oDist with_outStride with_inStride with_iDist].
  unfold Real3DEvenNode.pick_102 at 1, at_index.
  cbn [lookup list_lookup of_option obind].
  rewrite (bind_returns _ _ _ _ _ (lift_returns _ _)).
  unfold bind at 1.
  destruct (AssignParams api _ err0) as [[cc1' err1]| | |]; try reflexivity.
  rewrite (bind_returns _ _ _ _ _ (lift_returns _ _)).
  destruct (swap_at (outStride cc1') 1 2) as [in1| | |] eqn:E1;
    [ | rewrite bind_lift_fails by discriminate; reflexivity ..].
  rewrite (bind_returns _ _ _ _ _ (lift_returns _ _)).
  rewrite (transpose_out_inverse_fresh
             (with_iDist (oDist cc1')
                (with_inStride in1 (with_inStride (outStride cc1') t1))) a1 b1 l1 Hf1 Hl1).
  rewrite (bind_returns _ _ _ _ _ (lift_returns _ _)).
  cbn [outStride inStride oDist iDist with_oDist with_outStride with_inStride with_iDist].
  unfold Real3DEvenNode.pick_102 at 1, at_index.
  cbn [lookup list_lookup of_option obind].
  rewrite (bind_returns _ _ _ _ _ (lift_returns _ _)).
  cbn [base.length List.length Nat.sub lookup list_lookup of_option].
  rewrite (bind_returns _ _ _ _ _ (lift_returns _ _)).
  unfold bind at 1.
  destruct (AssignParams api _ err1) as [[cr' err2]| | |]; reflexivity.
Qed.

(** The layout pass of the three-dimensional transpose strategy on
    Hermitian input, with its six children; the transposes have the
    first two lengths [a3], [b3], then [a2], [b2], then [a1], [b1]. The
    first transpose reads the node's input layout, its two slowest
    strides exchanged; every transpose writes a packed array whose two
    fastest lengths are its [b] and [a]; each column sub-plan is asked
    to work in place on the packed array before it; every later
    transpose reads what the sub-plan before it writes, the two slowest
    strides exchanged; the batch distance is handed down the chain
    unchanged by the transposes. The row transform is asked to read the
    last packed array and to write the node's output layout. *)
Theorem Real3DEven_AssignParams_TR_pairs_inverse (api : NodeApi) (this : TreeNode)
    (err : list string) (t3 cc2 t2 cc1 t1 cr : TreeNode)
    (a3 b3 c3 a2 b2 c2 a1 b1 c1 i0 i1 i2 : Z) (l3 l2 l1 irest : list Z) :
  inArrayType this <> rocfft_array_type_real ->
  childNodes this = [t3; cc2; t2; cc1; t1; cr] ->
  outStride t3 = [] -> outStride t2 = [] -> outStride t1 = [] ->
  length t3 = a3 :: b3 :: c3 :: l3 ->
  length t2 = a2 :: b2 :: c2 :: l2 ->
  length t1 = a1 :: b1 :: c1 :: l1 ->
  is_size_t b3 -> is_size_t b2 -> is_size_t b1 ->
  inStride this = i0 :: i1 :: i2 :: irest ->
  let s3 := packed_strides [b3; a3; c3] in
  let s2 := packed_strides [b2; a2; c2] in
  let s1 := packed_strides [b1; a1; c1] in
  let run := Real3DEvenNode.AssignParams_internal_TR_pairs api this err in
  after_call
    (AssignParams api
       (with_dimension 1 (with_layout s3 (iDist this) s3 (iDist this) cc2)) err)
    run
    (fun r0 =>
       after_call (swap_at (outStride r0.1) 1 2) run
         (fun in2 =>
            after_call
              (AssignParams api
                 (with_dimension 1 (with_layout s2 (oDist r0.1) s2 (oDist r0.1) cc1))
                 r0.2)
              run
              (fun r1 =>
                 after_call (swap_at (outStride r1.1) 1 2) run
                   (fun in1 =>
                      after_call
                        (AssignParams api
                           (with_dimension 1
                              (with_layout s1 (oDist r1.1) (outStride this) (oDist this)
                                 cr))
                           r1.2)
                        run
                        (fun r2 =>
                           run =
                             Returns
                               (with_childNodes
                                  [with_layout (i0 :: i2 :: i1 :: irest) (iDist this)
                                     [b3; 1; size_t_wrap (b3 * a3)] (iDist this) t3;
                                   r0.1;
                                   with_layout in2 (oDist r0.1)
                                     [b2; 1; size_t_wrap (b2 * a2)] (oDist r0.1) t2;
                                   r1.1;
                                   with_layout in1 (oDist r1.1)
                                     [b1; 1; size_t_wrap (b1 * a1)] (oDist r1.1) t1;
                                   r2.1] this,
                                r2.2)))))).
Proof.
  intros Hin Hch Hf3 Hf2 Hf1 Hl3 Hl2 Hl1 Hb3 Hb2 Hb1 His s3 s2 s1 run.
  subst s3 s2 s1 run.
  rewrite (packed_triple c3 b3 a3 Hb3), (packed_triple c2 b2 a2 Hb2),
    (packed_triple c1 b1 a1 Hb1).
  rewrite (Z.mul_comm a3 b3), (Z.mul_comm a2 b2), (Z.mul_comm a1 b1).
  rewrite (AssignParams_TR_pairs_inverse_eq api this err t3 cc2 t2 cc1 t1 cr
             a3 b3 a2 b2 a1 b1 i0 i1 i2 (c3 :: l3) (c2 :: l2) (c1 :: l1) irest
             Hin Hch Hf3 Hf2 Hf1 Hl3 Hl2 Hl1 His).
  cbv zeta.
  destruct (AssignParams api _ err) as [[cc2' err0]| | |]; cbn [after_call];
    try reflexivity.
  cbn [fst snd].
  destruct (swap_at (outStride cc2') 1 2) as [in2| | |]; cbn [after_call];
    try reflexivity.
  destruct (AssignParams api _ err0) as [[cc1' err1]| | |]; cbn [after_call];
    try reflexivity.
  cbn [fst snd].
  destruct (swap_at (outStride cc1') 1 2) as [in1| | |]; cbn [after_call];
    try reflexivity.
  destruct (AssignParams api _ err1) as [[cr' err2]| | |]; cbn [after_call];
    reflexivity.
Qed.

Lemma Real3DEven_AssignParams_TR_pairs_inverse_witness :
  let api := single_kernel_api in
  let this := real_16x4x2_tr_pairs_backward in
  let t3 := transposed CS_KERNEL_TRANSPOSE_XY_Z [9; 2; 4] [2; 9; 4] in
  let t2 := transposed CS_KERNEL_TRANSPOSE_XY_Z [2; 4; 9] [4; 2; 9] in
  let t1 := transposed CS_KERNEL_TRANSPOSE_XY_Z [4; 9; 2] [9; 4; 2] in
  let s3 := packed_strides [2; 9; 4] in
  let s2 := packed_strides [4; 2; 9] in
  let s1 := packed_strides [9; 4; 2] in
  let run := Real3DEvenNode.AssignParams_internal_TR_pairs api this [] in
  after_call
    (AssignParams api
       (with_dimension 1
          (with_layout s3 (iDist this) s3 (iDist this) (column_of [2; 9; 4]))) [])
    run
    (fun r0 =>
       after_call (swap_at (outStride r0.1) 1 2) run
         (fun in2 =>
            after_call
              (AssignParams api
                 (with_dimension 1
                    (with_layout s2 (oDist r0.1) s2 (oDist r0.1) (column_of [4; 2; 9])))
                 r0.2)
              run
              (fun r1 =>
                 after_call (swap_at (outStride r1.1) 1 2) run
                   (fun in1 =>
                      after_call
                        (AssignParams api
                           (with_dimension 1
                              (with_layout s1 (oDist r1.1) (outStride this) (oDist this)
                                 row_16x4x2))
                           r1.2)
                        run
                        (fun r2 =>
                           run =
                             Returns
                               (with_childNodes
                                  [with_layout (1 :: 36 :: 9 :: []) (iDist this)
                                     [2; 1; size_t_wrap (2 * 9)] (iDist this) t3;
                                   r0.1;
                                   with_layout in2 (oDist r0.1)
                                     [4; 1; size_t_wrap (4 * 2)] (oDist r0.1) t2;
                                   r1.1;
                                   with_layout in1 (oDist r1.1)
                                     [9; 1; size_t_wrap (9 * 4)] (oDist r1.1) t1;
                                   r2.1] this,
                                r2.2)))))).
Proof.
  apply (Real3DEven_AssignParams_TR_pairs_inverse single_kernel_api
           real_16x4x2_tr_pairs_backward []
           (transposed CS_KERNEL_TRANSPOSE_XY_Z [9; 2; 4] [2; 9; 4])
           (column_of [2; 9; 4])
           (transposed CS_KERNEL_TRANSPOSE_XY_Z [2; 4; 9] [4; 2; 9])
           (column_of [4; 2; 9])
           (transposed CS_KERNEL_TRANSPOSE_XY_Z [4; 9; 2] [9; 4; 2])
           row_16x4x2
           9 2 4 2 4 9 4 9 2 1 9 36 [] [] [] []).
  - discriminate.
  - reflexivity.
  - reflexivity.
  - reflexivity.
  - reflexivity.
  - reflexivity.
  - reflexivity.
  - reflexivity.
  - unfold is_size_t, SIZE_T_MODULUS. lia.
  - unfold is_size_t, SIZE_T_MODULUS. lia.
  - unfold is_size_t, SIZE_T_MODULUS. lia.
  - reflexivity.
Defined.

Lemma AssignParams_SBCC3_forward_eq api this err rc sbccZ sbccY o0 o1 o2 orest :
  inArrayType this = rocfft_array_type_real ->
  childNodes this = [rc; sbccZ; sbccY] ->
  outStride this = o0 :: o1 :: o2 :: orest ->
  let sz := o2 :: o0 :: o1 :: orest in
  let sy := o1 :: o0 :: o2 :: orest in
  Real3DEvenNode.AssignParams_internal_SBCC api this err =
    match AssignParams api
            (with_dimension 1
               (with_layout (inStride this) (iDist this) (outStride this) (oDist this)
                  rc)) err with
    | Returns (rc', err0) =>
        match AssignParams api (with_layout sz (oDist this) sz (oDist this) sbccZ)
                err0 with
        | Returns (sbccZ', err1) =>
            match AssignParams api (with_layout sy (oDist this) sy (oDist this) sbccY)
                    err1 with
            | Returns (sbccY', err2) =>
                Returns (with_childNodes [rc'; sbccZ'; sbccY'] this, err2)
            | Throws w => Throws w
            | AssertFails => AssertFails
            | Undefined => Undefined
            end
        | Throws w => Throws w
        | AssertFails => AssertFails
        | Undefined => Undefined
        end
    | Throws w => Throws w
    | AssertFails => AssertFails
    | Undefined => Undefined
    end.
Proof.
  intros Hin Hch Hos sz sy. subst sz sy.
  unfold Real3DEvenNode.AssignParams_internal_SBCC.
  rewrite (bool_decide_eq_true_2 _ Hin), Hch.
  cbn [List.length Nat.eqb]. unfold assert at 1.
  unfold bind at 1.
  unfold at_index. cbn [lookup list_lookup of_option].
  rewrite (bind_returns _ _ _ _ _ (lift_returns _ _)).
  unfold bind at 1. unfold with_layout.
  destruct (AssignParams api _ err) as [[rc' err0]| | |]; try reflexivity.
  cbn [childNodes with_childNodes insert list_insert lookup list_lookup of_option].
  rewrite (bind_returns _ _ _ _ _ (lift_returns _ _)).
  cbn [outStride inStride oDist with_inStride with_childNodes].
  rewrite Hos, swap_at_12.
  rewrite (bind_returns _ _ _ _ _ (lift_returns _ _)).
  cbn [inStride with_inStride]. rewrite swap_at_01.
  rewrite (bind_returns _ _ _ _ _ (lift_returns _ _)).
  cbn [inStride iDist with_inStride with_iDist with_outStride with_oDist].
  unfold bind at 1.
  destruct (AssignParams api _ err0) as [[sbccZ' err1]| | |]; reflexivity.
Qed.

(** The layout pass of the three-dimensional column-block strategy on
    real input, with its three children. The row transform is asked to
    go from the node's input layout to its output layout. Both column
    kernels are asked to work in place on the node's output array: the
    one along Z on its strides rotated so that the Z stride comes first,
    the one along Y with the two fastest strides exchanged; both keep
    the node's output batch distance. *)
Theorem Real3DEven_AssignParams_SBCC_forward (api : NodeApi) (this : TreeNode)
    (err : list string) (rc sbccZ sbccY : TreeNode) (o0 o1 o2 : Z) (orest : list Z) :
  inArrayType this = rocfft_array_type_real ->
  childNodes this = [rc; sbccZ; sbccY] ->
  outStride this = o0 :: o1 :: o2 :: orest ->
  let sz := o2 :: o0 :: o1 :: orest in
  let sy := o1 :: o0 :: o2 :: orest in
  let run := Real3DEvenNode.AssignParams_internal_SBCC api this err in
  after_call
    (AssignParams api
       (with_dimension 1
          (with_layout (inStride this) (iDist this) (outStride this) (oDist this) rc))
       err)
    run
    (fun r0 =>
       after_call
         (AssignParams api (with_layout sz (oDist this) sz (oDist this) sbccZ) r0.2)
         run
         (fun r1 =>
            after_call
              (AssignParams api (with_layout sy (oDist this) sy (oDist this) sbccY) r1.2)
              run
              (fun r2 =>
                 run = Returns (with_childNodes [r0.1; r1.1; r2.1] this, r2.2)))).
Proof.
  intros Hin Hch Hos sz sy run. subst sz sy run.
  rewrite (AssignParams_SBCC3_forward_eq api this err rc sbccZ sbccY o0 o1 o2 orest
             Hin Hch Hos).
  cbv zeta.
  destruct (AssignParams api _ err) as [[rc' err0]| | |]; cbn [after_call];
    try reflexivity.
  cbn [fst snd].
  destruct (AssignParams api _ err0) as [[sbccZ' err1]| | |]; cbn [after_call];
    try reflexivity.
  cbn [fst snd].
  destruct (AssignParams api _ err1) as [[sbccY' err2]| | |]; cbn [after_call];
    reflexivity.
Qed.

Lemma Real3DEven_AssignParams_SBCC_forward_witness :
  let api := single_kernel_api in
  let this := real_16x4x2_sbcc_children in
  let sbccZ :=
    with_outputLength [9; 4; 2]
      (with_length [2; 9; 4]
         (blank_node CS_KERNEL_STOCKHAM_BLOCK_CC real_16x4x2_forward)) in
  let sbccY :=
    with_outputLength [9; 4; 2]
      (with_length [4; 9; 2]
         (blank_node CS_KERNEL_STOCKHAM_BLOCK_CC real_16x4x2_forward)) in
  let sz := 36 :: 1 :: 9 :: [] in
  let sy := 9 :: 1 :: 36 :: [] in
  let run := Real3DEvenNode.AssignParams_internal_SBCC api this [] in
  after_call
    (AssignParams api
       (with_dimension 1
          (with_layout (inStride this) (iDist this) (outStride this) (oDist this)
             row_16x4x2))
       [])
    run
    (fun r0 =>
       after_call
         (AssignParams api (with_layout sz (oDist this) sz (oDist this) sbccZ) r0.2)
         run
         (fun r1 =>
            after_call
              (AssignParams api (with_layout sy (oDist this) sy (oDist this) sbccY) r1.2)
              run
              (fun r2 =>
                 run = Returns (with_childNodes [r0.1; r1.1; r2.1] this, r2.2)))).
Proof.
  apply (Real3DEven_AssignParams_SBCC_forward single_kernel_api
           real_16x4x2_sbcc_children [] row_16x4x2
           (with_outputLength [9; 4; 2]
              (with_length [2; 9; 4]
                 (blank_node CS_KERNEL_STOCKHAM_BLOCK_CC real_16x4x2_forward)))
           (with_outputLength [9; 4; 2]
              (with_length [4; 9; 2]
                 (blank_node CS_KERNEL_STOCKHAM_BLOCK_CC real_16x4x2_forward)))
           1 9 36 []).
  - reflexivity.
  - reflexivity.
  - reflexivity.
Defined.

Lemma AssignParams_SBCC3_inverse_eq api this err sbccZ sbccY cr i0 i1 i2 irest :
  inArrayType this <> rocfft_array_type_real ->
  childNodes this = [sbccZ; sbccY; cr] ->
  inStride this = i0 :: i1 :: i2 :: irest ->
  let sz := i2 :: i0 :: i1 :: irest in
  let sy := i1 :: i0 :: i2 :: irest in
  Real3DEvenNode.AssignParams_internal_SBCC api this err =
    match AssignParams api (with_layout sz (iDist this) sz (iDist this) sbccZ) err with
    | Returns (sbccZ', err0) =>
        match AssignParams api (with_layout sy (iDist this) sy (iDist this) sbccY)
                err0 with
        | Returns (sbccY', err1) =>
            match AssignParams api
                    (with_dimension 1
                       (with_layout (inStride this) (iDist this) (outStride this)
                          (oDist this) cr)) err1 with
            | Returns (cr', err2) =>
                Returns (with_childNodes [sbccZ'; sbccY'; cr'] this, err2)
            | Throws w => Throws w
            | AssertFails => AssertFails
            | Undefined => Undefined
            end
        | Throws w => Throws w
        | AssertFails => AssertFails
        | Undefined => Undefined
        end
    | Throws w => Throws w
    | AssertFails => AssertFails
    | Undefined => Undefined
    end.
Proof.
  intros Hin Hch His sz sy. subst sz sy.
  unfold Real3DEvenNode.AssignParams_internal_SBCC.
  rewrite (bool_decide_eq_false_2 _ Hin), Hch.
  cbn [List.length Nat.eqb]. unfold assert at 1.
  unfold bind at 1.
  unfold at_index. cbn [lookup list_lookup of_option].
  rewrite (bind_returns _ _ _ _ _ (lift_returns _ _)).
  cbn [inStride with_inStride]. rewrite His, swap_at_12.
  rewrite (bind_returns _ _ _ _ _ (lift_returns _ _)).
  cbn [inStride with_inStride]. rewrite swap_at_01.
  rewrite (bind_returns _ _ _ _ _ (lift_returns _ _)).
  cbn [inStride iDist with_inStride with_iDist with_outStride with_oDist].
  unfold bind at 1. unfold with_layout.
  destruct (AssignParams api _ err) as [[sbccZ' err0]| | |]; try reflexivity.
  cbn [childNodes with_childNodes insert list_insert lookup list_lookup of_option].
  rewrite (bind_returns _ _ _ _ _ (lift_returns _ _)).
  cbn [inStride iDist with_childNodes]. rewrite His, swap_at_01.
  rewrite (bind_returns _ _ _ _ _ (lift_returns _ _)).
  cbn [inStride iDist with_inStride with_iDist with_outStride with_oDist].
  unfold bind at 1.
  destruct (AssignParams api _ err0) as [[sbccY' err1]| | |]; reflexivity.
Qed.

(** The layout pass of the three-dimensional column-block strategy on
    Hermitian input, with its three children. Both column kernels are
    asked to work in place on the node's input array: the one along Z on
    its strides rotated so that the Z stride comes first, the one along
    Y with the two fastest strides exchanged; both keep the node's input
    batch distance. The row transform is then asked to go from the
    node's input layout to its output layout. *)
Theorem Real3DEven_AssignParams_SBCC_inverse (api : NodeApi) (this : TreeNode)
    (err : list string) (sbccZ sbccY cr : TreeNode) (i0 i1 i2 : Z) (irest : list Z) :
  inArrayType this <> rocfft_array_type_real ->
  childNodes this = [sbccZ; sbccY; cr] ->
  inStride this = i0 :: i1 :: i2 :: irest ->
  let sz := i2 :: i0 :: i1 :: irest in
  let sy := i1 :: i0 :: i2 :: irest in
  let run := Real3DEvenNode.AssignParams_internal_SBCC api this err in
  after_call
    (AssignParams api (with_layout sz (iDist this) sz (iDist this) sbccZ) err)
    run
    (fun r0 =>
       after_call
         (AssignParams api (with_layout sy (iDist this) sy (iDist this) sbccY) r0.2)
         run
         (fun r1 =>
            after_call
              (AssignParams api
                 (with_dimension 1
                    (with_layout (inStride this) (iDist this) (outStride this)
                       (oDist this) cr))
                 r1.2)
              run
              (fun r2 =>
                 run = Returns (with_childNodes [r0.1; r1.1; r2.1] this, r2.2)))).
Proof.
  intros Hin Hch His sz sy run. subst sz sy run.
  rewrite (AssignParams_SBCC3_inverse_eq api this err sbccZ sbccY cr i0 i1 i2 irest
             Hin Hch His).
  cbv zeta.
  destruct (AssignParams api _ err) as [[sbccZ' err0]| | |]; cbn [after_call];
    try reflexivity.
  cbn [fst snd].
  destruct (AssignParams api _ err0) as [[sbccY' err1]| | |]; cbn [after_call];
    try reflexivity.
  cbn [fst snd].
  destruct (AssignParams api _ err1) as [[cr' err2]| | |]; cbn [after_call];
    reflexivity.
Qed.

Lemma Real3DEven_AssignParams_SBCC_inverse_witness :
  let api := single_kernel_api in
  let this := real_16x4x2_sbcc_backward in
  let sbccZ :=
    with_outputLength [9; 4; 2]
      (with_length [2; 9; 4]
         (blank_node CS_KERNEL_STOCKHAM_BLOCK_CC real_16x4x2_forward)) in
  let sbccY :=
    with_outputLength [9; 4; 2]
      (with_length [4; 9; 2]
         (blank_node CS_KERNEL_STOCKHAM_BLOCK_CC real_16x4x2_forward)) in
  let sz := 36 :: 1 :: 9 :: [] in
  let sy := 9 :: 1 :: 36 :: [] in
  let run := Real3DEvenNode.AssignParams_internal_SBCC api this [] in
  after_call
    (AssignParams api (with_layout sz (iDist this) sz (iDist this) sbccZ) [])
    run
    (fun r0 =>
       after_call
         (AssignParams api (with_layout sy (iDist this) sy (iDist this) sbccY) r0.2)
         run
         (fun r1 =>
            after_call
              (AssignParams api
                 (with_dimension 1
                    (with_layout (inStride this) (iDist this) (outStride this)
                       (oDist this) row_16x4x2))
                 r1.2)
              run
              (fun r2 =>
                 run = Returns (with_childNodes [r0.1; r1.1; r2.1] this, r2.2)))).
Proof.
  apply (Real3DEven_AssignParams_SBCC_inverse single_kernel_api
           real_16x4x2_sbcc_backward []
           (with_outputLength [9; 4; 2]
              (with_length [2; 9; 4]
                 (blank_node CS_KERNEL_STOCKHAM_BLOCK_CC real_16x4x2_forward)))
           (with_outputLength [9; 4; 2]
              (with_length [4; 9; 2]
                 (blank_node CS_KERNEL_STOCKHAM_BLOCK_CC real_16x4x2_forward)))
           row_16x4x2 1 9 36 []).
  - discriminate.
  - reflexivity.
  - reflexivity.
Defined.
